(* ===== verification/_CoqProject ===== *)
-Q . S2P
Prelude.v
StdMap.v
Errors.v
Float.v
Json.v
Canonical.v
Messages.v
Auth.v
Events.v
Dispatcher.v
DispatcherFacts.v
Reentry.v
ReentryFacts.v
Session.v
SessionFacts.v
SessionFrames.v
SessionExamples.v
Datapoint.v
Generated.v
Catalog.v
Codec.v
WriteSet.v
Snapshot.v
Service.v
Manager.v
ManagerFacts.v
Poller.v
PollerFacts.v
Commands.v
Logs.v
Security.v
RestoreGuard.v
Replies.v
Transport.v
TransportFacts.v
EventBus.v
Client.v
ClientFacts.v
ClientReady.v
ClientGate.v
ClientHandlers.v
System.v
SystemFacts.v
ClientExamples.v
SystemExamples.v
SystemAnswers.v
Logger.v
Config.v
Numbers.v
Cli.v
Tool.v
ToolFacts.v
Examples.v
ExampleFacts.v
ExampleRuns.v
