(* ===== verification/Prelude.v ===== *)
(** * Fountainer client framework: verification library

    The C++20 client that talks to a fountain controller over a web socket:
    a signed handshake, requests with priorities and a rate budget, and the
    datapoint, command and log services on top.  This file is the shared prelude
    (below); the header is the guide to the whole library.

    ** Parts and how they interact

    The client ([src/client.cpp]) runs the connection life cycle: it dials with a
    transport ([transport/wss_transport.cpp]), puts a session on top of the open
    connection, reconnects with a backoff and publishes what happens on the event
    bus ([events.cpp]).  The configuration file ([config.cpp]) and the command line
    tool ([apps/fountainer-cli]) configure it.

    A transport hands text frames to the session ([src/protocol/session.cpp]).
    The session shakes hands, authenticates frames ([auth.cpp] over
    [canonical.cpp]) and owns the dispatcher ([dispatcher.cpp]), which queues
    requests, calls back into the session to send them and matches responses to
    handlers.  The services submit requests and finish in response handlers: the
    datapoint manager ([datapoints/manager.cpp]) with its cache, staging and
    subscriptions, the poller that drives it ([poller.cpp]), the restore guard
    ([restore_guard.cpp]), commands, maintenance and logs.  The catalogue
    ([generated.hpp], [catalog.cpp]) and the codec ([codec.cpp]) are their common
    ground.

    ** Files

    - [Prelude]: outcomes (a value or a C++ exception), the monad [M S E] of
      computations over a state [S] that emit events [E] (a throw keeps the state
      and events so far), step relations that are [Composable] and the
      compositional [respects]/[yields], run lemmas, tactics, wrap-around.
    - [StdMap]: [std::map<std::string, V>] as a strictly sorted association list.
    - [Errors] ([error.hpp/.cpp], [result.hpp]); [Float]: binary64 and binary32
      numbers as exact dyadics with correctly rounded operations and the printf
      conversions; [Json]: JSON values with the accessors' documented behaviour.
    - [Canonical] ([canonical.cpp]), [Messages] ([fountain_messages.hpp],
      [envelope.cpp]), [Auth] ([auth.hpp/.cpp]).
    - [Events]: the data of [events.hpp], [connection.hpp], [client_options.hpp]
      and the events a session emits.
    - [Dispatcher] ([dispatcher.hpp/.cpp]) over the class [Sender], what the
      dispatcher needs of its owner; [DispatcherFacts] proves it against that
      interface only.  [Reentry] is the dispatcher with handlers that submit from
      within their call, its loops holding iterators while they call;
      [ReentryFacts] shows what holds then, and that without such handlers it is
      [Dispatcher] ([quiet_handlers_plain]).
    - [Session] ([session.hpp/.cpp]) is the instance [session_sender] of that
      class and one definition per handler; [SessionFacts] (life of a session),
      [SessionFrames] (single frames), [SessionExamples] (a toy environment and
      the witnesses).
    - [Datapoint] ([datapoint.hpp]), [Generated] ([generated.hpp], entry by
      entry), [Catalog] ([catalog.cpp]), [Codec] ([codec.cpp]), [WriteSet]
      ([write_set.cpp], [constraints.cpp]), [Snapshot] ([snapshot.hpp]).
    - [Service] ([detail/sync_wait.hpp]): how a service operation starts,
      submits and completes, and the blocking wrapper.
    - [Manager] and [ManagerFacts] ([manager.cpp]); [Poller] and [PollerFacts]
      ([poller.cpp]); [Commands] ([commands.cpp], [maintenance.cpp]); [Logs]
      ([logs.cpp]); [Security] ([security.cpp]); [RestoreGuard]
      ([restore_guard.cpp]).
    - [Transport] and [TransportFacts] ([wss_transport.cpp], [endpoint.hpp]): the
      chain of asynchronous steps, the send queue and the two ways to end;
      [EventBus] ([events.cpp]): slot lists and subscription tokens.
    - [Client] ([client.hpp/.cpp], [client_options.hpp]): its state holds the
      attempt, the open transport, the session, the manager and the poller; one
      definition per posted call, timer handler and transport handler.
      [ClientFacts] (life of a client), [ClientReady] (how it becomes ready),
      [ClientGate] (what it sends before), [ClientHandlers] (where the response
      handlers it was given are), [ClientExamples] (a connection on the toy device,
      and the witnesses).
    - [Replies]: what a service call starts, and what its response handler does to
      manager, poller and caller.  [System]: the client with the services on its I/O
      queue ([wire_services], [sync_wait.hpp]): posted tasks, the table of response
      handlers, the calls on any thread; [SystemFacts] and [SystemExamples];
      [SystemAnswers] (what a frame that answers a request does, end to end).
    - [Logger] ([logger.cpp]), [Config] ([config.cpp]); [Numbers] ([std::stod],
      [std::stol]); [Cli] (configuring a client, the script), [Tool] (the verbs and
      [main]) and [ToolFacts] ([apps/fountainer-cli/main.cpp]).
    - [Examples] ([src/Example.cpp], [examples/*.cpp]): the annotated tour and the three
      small clients, with what they print; [ExampleFacts] (what they ask of a device)
      and [ExampleRuns] (runs against a device that answers, with their output).

    A class of the source is a [Record] with its members, a method is a
    definition of the same name, composed as the code composes them; a method
    whose name another class also uses carries a prefix ([ws_set],
    [session_tick], [read_log]).  Callbacks and handlers are numbers the caller
    knows them by, and calling one is an event, so events are what the
    environment can observe.

    ** What the theorems show

    - Client: it becomes READY only on a frame that proves the device's key
      ([ready_needs_proof]) and hands the transport nothing but the handshake until
      then ([handshake_only_before_ready]), two compositions of the life cycle with
      the session's guarantees; every
      connect and disconnect completion is answered once; its state agrees with
      what it holds; the reconnect delays.
    - The composition of client and services: every service call is answered exactly
      once or its place is known ([calls_answered_once]), and nothing is left
      unanswered after a disconnect if no request meets a session without a
      connection ([disconnected_all_answered]); and an answering frame does what the
      blocking call of the service is modelled to do ([blocking_calls_implemented]).
    - Transport: every completion is called once, frames leave in order, an attempt
      has one outcome.  Event bus: a handler is registered exactly while one token
      holds it, and a publication calls exactly the handlers registered.
    - Configuration: loading returns checked values or throws [std::runtime_error],
      every checked configuration can be written down, and it configures a client
      that can dial.  Tool: what it prints can be typed back, [write] reports what the
      device did with exactly what was typed, the exit codes, the script ends.
      Logger: the level filter.
    - Example programs: every request of the tour and of its polling is harmless
      ([tour_is_harmless]), its writes are exactly four and end with the baseline
      ([writes_are_undone]), the table of the catalogue hides the passwords
      ([table_hides_passwords]), the configuration editor commits what passed the check
      against the device's own limits ([editor_commits_checked]), the exit codes.
    - Session: it is the protocol's state machine; RUNNING needs a verified,
      fresh proof; nothing but the handshake leaves before,
      the application's own [send_message] apart; it fails at most once
      per connection and enforces its deadline; a running session survives every
      frame and authenticated frames act only if they verify and are fresh; no
      handler is lost or called twice over any life of a session.
    - Dispatcher: conservation of handlers, also when handlers submit from within
      their call from anything but a timeout ([reentrant_handlers_conserved]), and
      every call returns then ([reentrant_calls_return]); the priority order as a
      refinement of the abstract queue discipline, termination of sending, window
      and bucket bounds, deadlines, response types.
    - Authentication: signing and verifying round-trip, the MAC input and the
      canonical text bind the message, the two key decoders agree.
    - Datapoints: the generated tables agree, values round-trip through the wire,
      decoding is typed, validation and the cross-field rules mean what they say,
      write sets stay well-formed.
    - Manager: its invariant under every interleaving, the exact effect of a
      report on cache and subscribers, the all-or-nothing commit.  Poller: the
      time grid and no piling up.  Logs: the retrieval terminates and is complete.
      Restore guard: the baseline is restored whole.
    - Departures of the code from its intent, each shown on the model:
      [first_frame_dropped], [mistyped_frame_throws], [default_budget_bursts],
      [coalesced_retry_lost], [waiting_retry_dangles], [open_retry_dangles] (a handler
      that submits because of a timeout),
      [commit_drops_concurrent_edit], [zero_interval_traps],
      [PollerFacts.resume_piles_up], [Logs.read_all_stuck],
      [RestoreGuard.capture_accepts_missing_values], the unprotected device
      identity of [Security.locked_configuration], [queued_request_lost],
      [reconnect_stalls], [tls_failure_locks], [connect_while_closing] (client),
      [SessionExamples.raw_send_ungated],
      [cancelled_attempt_reopens], [late_write_traps], [resend_writes_twice]
      (transport), [Config.port_wraps], [Cli.use_mtls_ignored], and
      [ToolFacts.trailing_text_ignored], [ToolFacts.nan_is_submitted],
      [ToolFacts.turn_on_text_throws], [ToolFacts.watch_zero_traps] (tool), and
      [ExampleRuns.unasked_entry_written] (restore guard).

    ** Bounds and fuel

    [drain_loop] takes the queue's length plus one as fuel: every round sends or
    drops one request, and [drain_terminates] shows it never runs out.  [re_submit]
    takes one fuel for the depth of calls and for the loops; [reentrant_calls_return]
    shows there is enough, and that more changes nothing.  [chunks] takes
    the length of the due list; [chunks_concat] shows nothing is left.
    [read_pages] takes any fuel, and [read_all_complete] shows that one more than
    the number of records is enough.  [run_script] takes the rounds of its loop;
    [script_completes] shows that one more than the looks at the signal flag is
    enough.  [Tool.main] passes its fuel to that loop, to the wait of [watch] and to
    the pages of [logs all], [Examples.main] to the pages of its full log, and
    [Examples.polling_client] to its wait.  Printing numbers takes the digit count.
    Integers keep the width of the source where the code can reach it (64-bit
    counters and tokens, 32-bit steps and sequence numbers, the accessors' casts);
    clock values and durations are unbounded integers (nanoseconds, or seconds
    where a comment says so).

    ** Parameters

    SHA-256 and HMAC, JSON text parsing and dumping, the random generator, the
    clocks, the credential provider, the OTA policy, file access and the reaction
    of the device are parameters of the definitions that use them.  Of Asio, Beast
    and OpenSSL an operation that is started is an event, its completion an
    operation of the model with any error code, and what OpenSSL says of the
    certificate files a parameter; a life of a transport or a client is any
    sequence of calls and completions that these libraries can produce.

    ** Not modelled

    Where the code writes log lines; threads: the tasks of the I/O thread run one
    after the other, and a blocking call is its task and its answer; completions of
    the client, and handlers of the manager, that call back into the object that calls
    them (send completions, receive handlers and bus handlers may, and the dispatcher's
    handlers in [Reentry]; what a caller's completion asks of the services is a call of
    its own, since they post); allocation failure; signal delivery other than the flag
    the tool and the polling client look at; the Python tools (a fake device, the generator
    of the catalogue) and the tests. *)

From Stdlib Require Export ZArith Lia Ascii.
From stdpp Require Export base list strings pretty option sorting sets tactics.

Declare Scope fnt_scope.
Delimit Scope fnt_scope with fnt.

(** ** Exceptions and the effect monad

    C++ exceptions that the modelled code can raise.  [Exn_type_error] is
    nlohmann's [type_error] (accessing a JSON value at the wrong kind),
    [Exn_dump] the one [dump()] raises on a string that is not UTF-8,
    [Exn_runtime] a [std::runtime_error] with its message,
    [Exn_invalid_argument] and [Exn_out_of_range] what the string conversions of the
    standard library raise, and [Exn_ub] marks an execution whose next step is
    undefined behaviour in C++. *)
Inductive exn :=
| Exn_type_error
| Exn_dump
| Exn_runtime (what : string)
| Exn_invalid_argument (what : string)
| Exn_out_of_range (what : string)
| Exn_ub (what : string).

Inductive outcome (A : Type) :=
| Ret (a : A)
| Throw (e : exn).
Arguments Ret {A} a.
Arguments Throw {A} e.

Definition outcome_bind {A B} (m : outcome A) (k : A -> outcome B) : outcome B :=
  match m with
  | Ret a => k a
  | Throw e => Throw e
  end.

(** A computation over a state [S] that emits events of type [E] in order and
    either returns or throws.  A throw keeps the state and the events reached
    so far, as C++ does: nothing is rolled back. *)
Definition M (S E A : Type) : Type := S -> outcome A * S * list E.

Section Monad.
Context {S E : Type}.

Definition ret {A} (a : A) : M S E A := fun s => (Ret a, s, []).
Definition throw {A} (e : exn) : M S E A := fun s => (Throw e, s, []).
Definition bind {A B} (m : M S E A) (k : A -> M S E B) : M S E B := fun s =>
  match m s with
  | (Ret a, s1, w1) => match k a s1 with (r, s2, w2) => (r, s2, w1 ++ w2) end
  | (Throw e, s1, w1) => (Throw e, s1, w1)
  end.
Definition get : M S E S := fun s => (Ret s, s, []).
Definition gets {A} (f : S -> A) : M S E A := fun s => (Ret (f s), s, []).
Definition modify (f : S -> S) : M S E unit := fun s => (Ret tt, f s, []).
Definition emit (e : E) : M S E unit := fun s => (Ret tt, s, [e]).
Definition emits (w : list E) : M S E unit := fun s => (Ret tt, s, w).
Definition lift {A} (m : outcome A) : M S E A := fun s => (m, s, []).
Definition when (b : bool) (m : M S E unit) : M S E unit := if b then m else ret tt.

Fixpoint forM {A} (l : list A) (f : A -> M S E unit) : M S E unit :=
  match l with
  | [] => ret tt
  | x :: r => bind (f x) (fun _ => forM r f)
  end.
End Monad.

Notation "'let*' x ':=' m 'in' k" := (bind m (fun x => k))
  (at level 10, x pattern, m at level 100, k at level 200) : fnt_scope.
Notation "m1 ';;;' m2" := (bind m1 (fun _ => m2))
  (at level 100, m2 at level 200, right associativity) : fnt_scope.
Notation "'let!' x ':=' m 'in' k" := (outcome_bind m (fun x => k))
  (at level 10, x pattern, m at level 100, k at level 200) : fnt_scope.
Open Scope fnt_scope.

(** ** Step relations of computations

    A relation [R s s' w] between the state before, the state after and the
    events in between is [Composable] when it is reflexive on no events and
    closed under sequencing.  [respects R m] says every run of [m], returning
    or throwing, is in [R]; it is compositional, so an invariant is proved one
    primitive at a time and the database [fnt] assembles the handlers. *)
Class Composable {S E} (R : S -> S -> list E -> Prop) : Prop := {
  comp_refl : forall s, R s s [];
  comp_trans : forall s1 s2 s3 w1 w2, R s1 s2 w1 -> R s2 s3 w2 -> R s1 s3 (w1 ++ w2)
}.

Definition respects {S E A} (R : S -> S -> list E -> Prop) (m : M S E A) : Prop :=
  forall s r s' w, m s = (r, s', w) -> R s s' w.

Section Respects.
Context {S E : Type} (R : S -> S -> list E -> Prop) `{!Composable R}.

Lemma respects_ret {A} (a : A) : respects R (ret a).
Proof. intros s r s' w [= <- <- <-]. apply comp_refl. Qed.

Lemma respects_throw {A} e : respects R (@throw S E A e).
Proof. intros s r s' w [= <- <- <-]. apply comp_refl. Qed.

Lemma respects_get : respects R get.
Proof. intros s r s' w [= <- <- <-]. apply comp_refl. Qed.

Lemma respects_gets {A} (f : S -> A) : respects R (gets f).
Proof. intros s r s' w [= <- <- <-]. apply comp_refl. Qed.

Lemma respects_lift {A} (m : outcome A) : respects R (lift m).
Proof. intros s r s' w [= <- <- <-]. apply comp_refl. Qed.

Lemma respects_bind {A B} (m : M S E A) (k : A -> M S E B) :
  respects R m -> (forall a, respects R (k a)) -> respects R (bind m k).
Proof.
  intros Hm Hk s r s' w. unfold bind.
  destruct (m s) as [[[a|e] s1] w1] eqn:Em; [|intros [= <- <- <-]; eauto].
  destruct (k a s1) as [[r2 s2] w2] eqn:Ek. intros [= <- <- <-].
  eapply comp_trans; [eapply Hm | eapply Hk]; eauto.
Qed.

Lemma respects_when b m : respects R m -> respects R (when b m).
Proof. destruct b; [done|]. intros _. apply respects_ret. Qed.

Lemma respects_forM {A} (l : list A) f :
  (forall a, respects R (f a)) -> respects R (forM l f).
Proof.
  intros Hf. induction l as [|a l IH]; [apply respects_ret|].
  simpl. apply respects_bind; auto.
Qed.

Lemma respects_modify f : (forall s, R s (f s) []) -> respects R (modify f).
Proof. intros H s r s' w [= <- <- <-]. apply H. Qed.

Lemma respects_emit e : (forall s, R s s [e]) -> respects R (emit e).
Proof. intros H s r s' w [= <- <- <-]. apply H. Qed.

Lemma respects_emits w : (forall s, R s s w) -> respects R (emits w).
Proof. intros H s r s' w' [= <- <- <-]. apply H. Qed.
End Respects.

(** What a computation returns, whatever the state. *)
Definition results {S E A} (Q : A -> Prop) (m : M S E A) : Prop :=
  forall s a s' w, m s = (Ret a, s', w) -> Q a.

Lemma respects_bind_results {S E A B} (R : S -> S -> list E -> Prop) `{!Composable R} Q
    (m : M S E A) (k : A -> M S E B) :
  respects R m -> results Q m -> (forall a, Q a -> respects R (k a)) -> respects R (bind m k).
Proof.
  intros Hm HQ Hk s r s' w. unfold bind.
  destruct (m s) as [[[a|e] s1] w1] eqn:Em; [|intros [= <- <- <-]; eauto].
  destruct (k a s1) as [[r2 s2] w2] eqn:Ek. intros [= <- <- <-].
  eapply comp_trans; [eapply Hm|eapply Hk]; eauto.
Qed.

Create HintDb fnt.
#[export] Hint Resolve respects_ret respects_throw respects_get respects_gets
  respects_lift respects_bind respects_when respects_forM respects_modify
  respects_emit respects_emits : fnt.

(** [yields R m]: the same for the runs of [m] that return. *)
Definition yields {S E A} (R : S -> S -> list E -> Prop) (m : M S E A) : Prop :=
  forall s a s' w, m s = (Ret a, s', w) -> R s s' w.

Section Yields.
Context {S E : Type} (R : S -> S -> list E -> Prop) `{!Composable R}.

Lemma yields_respects {A} (m : M S E A) : respects R m -> yields R m.
Proof. intros H s a s' w Hm. by eapply H. Qed.

Lemma yields_throw {A} e : yields R (@throw S E A e).
Proof. intros s r s' w [=]. Qed.

Lemma yields_ret {A} (a : A) : yields R (ret a).
Proof. apply yields_respects, respects_ret, _. Qed.

Lemma yields_bind {A B} (m : M S E A) (k : A -> M S E B) :
  yields R m -> (forall a, yields R (k a)) -> yields R (bind m k).
Proof.
  intros Hm Hk s r s' w. unfold bind.
  destruct (m s) as [[[a|e] s1] w1] eqn:Em; [|done].
  destruct (k a s1) as [[r2 s2] w2] eqn:Ek. intros [= -> -> <-].
  eapply comp_trans; [eapply Hm | eapply Hk]; eauto.
Qed.
End Yields.

(** ** Running a computation one primitive at a time *)

Section Running.
Context {S E : Type}.

Lemma run_bind {A B} (m : M S E A) (k : A -> M S E B) s a s1 w1 r s2 w2 :
  m s = (Ret a, s1, w1) -> k a s1 = (r, s2, w2) -> bind m k s = (r, s2, w1 ++ w2).
Proof. intros H1 H2. unfold bind. by rewrite H1, H2. Qed.

Lemma run_bind_quiet {A B} (m : M S E A) (k : A -> M S E B) s a s1 :
  m s = (Ret a, s1, []) -> bind m k s = k a s1.
Proof. intros H1. unfold bind. rewrite H1. by destruct (k a s1) as [[r s2] w2]. Qed.

Lemma run_gets {A B} (f : S -> A) (k : A -> M S E B) s : bind (gets f) k s = k (f s) s.
Proof. by apply run_bind_quiet. Qed.
Lemma run_get {B} (k : S -> M S E B) s : bind get k s = k s s.
Proof. by apply run_bind_quiet. Qed.
Lemma run_modify {B} f (k : unit -> M S E B) s : bind (modify f) k s = k tt (f s).
Proof. by apply run_bind_quiet. Qed.
Lemma run_ret {A B} (a : A) (k : A -> M S E B) s : bind (ret a) k s = k a s.
Proof. by apply run_bind_quiet. Qed.
Lemma run_lift {A B} (o : outcome A) (k : A -> M S E B) s :
  bind (lift o) k s = match o with Ret a => k a s | Throw e => (Throw e, s, []) end.
Proof. destruct o; [by apply run_bind_quiet|done]. Qed.
Lemma run_throw {A B} (m : M S E A) (k : A -> M S E B) s e s1 w1 :
  m s = (Throw e, s1, w1) -> bind m k s = (Throw e, s1, w1).
Proof. intros H1. unfold bind. by rewrite H1. Qed.
Lemma run_assoc {A B C} (m : M S E A) (k : A -> M S E B) (h : B -> M S E C) s :
  bind (bind m k) h s = bind m (fun a => bind (k a) h) s.
Proof.
  unfold bind. destruct (m s) as [[[a|e] s1] w1]; [|done].
  destruct (k a s1) as [[[b|e] s2] w2]; [|done].
  destruct (h b s2) as [[r s3] w3]. by rewrite app_assoc.
Qed.
End Running.

(** Run a computation on one component of a pair of states. *)
Definition on_fst {S T E A} (m : M S E A) : M (S * T) E A := fun st =>
  let '(r, s', w) := m st.1 in (r, (s', st.2), w).
Definition on_snd {S T E A} (m : M T E A) : M (S * T) E A := fun st =>
  let '(r, t', w) := m st.2 in (r, (st.1, t'), w).

Lemma respects_on_snd {S T E A} (R : S * T -> S * T -> list E -> Prop) (m : M T E A) :
  (forall s, respects (fun t t' w => R (s, t) (s, t') w) m) -> respects R (on_snd m).
Proof.
  intros H [s t] r s' w. unfold on_snd. cbn [fst snd].
  destruct (m t) as [[r1 t1] w1] eqn:E1. intros [= <- <- <-]. by eapply H.
Qed.

(** Conjunction of step relations and projections to an invariant. *)
#[export] Instance composable_inv {S E} (I : S -> Prop) :
  Composable (fun (s s' : S) (_ : list E) => I s -> I s').
Proof. split; auto. Qed.

#[export] Instance composable_pre {S E} (f : S -> S -> Prop) `{!PreOrder f} :
  Composable (fun (s s' : S) (_ : list E) => f s s').
Proof. split; [reflexivity|]. intros. by etransitivity. Qed.

#[export] Instance composable_events {S E} (P : E -> Prop) :
  Composable (fun (_ _ : S) (w : list E) => Forall P w).
Proof. split; [constructor|]. intros. by apply Forall_app. Qed.

(** ** Tactics *)

(** Case analysis on the scrutinee of a [match] or [if] in the goal (or in a
    hypothesis), keeping the equation. *)
Ltac case_match_goal :=
  match goal with
  | |- context [match ?x with _ => _ end] =>
      lazymatch x with
      | context [match _ with _ => _ end] => fail
      | _ => let H := fresh "E" in destruct x eqn:H
      end
  end.
Ltac case_match_hyp H :=
  match type of H with
  | context [match ?x with _ => _ end] =>
      lazymatch x with
      | context [match _ with _ => _ end] => fail
      | _ => let E := fresh "E" in destruct x eqn:E
      end
  end.

(** Walk through the control flow of a computation: one [respects] goal per
    primitive, splitting the handler's conditionals on the way. *)
Ltac respects_step :=
  lazymatch goal with
  | |- respects _ (bind _ _) => apply respects_bind; [apply _| |intros ?]
  | |- respects _ (ret _) => apply respects_ret; apply _
  | |- respects _ (throw _) => apply respects_throw; apply _
  | |- respects _ get => apply respects_get; apply _
  | |- respects _ (gets _) => apply respects_gets; apply _
  | |- respects _ (lift _) => apply respects_lift; apply _
  | |- respects _ (when _ _) => apply respects_when; [apply _|]
  | |- respects _ (forM _ _) => apply respects_forM; [apply _|intros ?]
  | |- respects _ (modify _) => apply respects_modify; intros ?
  | |- respects _ (emit _) => apply respects_emit; intros ?
  | |- respects _ (emits _) => apply respects_emits; intros ?
  | |- respects _ (match ?x with _ => _ end) => let H := fresh "E" in destruct x eqn:H
  | |- respects _ (let _ := _ in _) => cbv zeta
  end.
Ltac respects_tac := repeat (respects_step || (progress simpl) || (solve [eauto with fnt])).

(** [evaluate m H]: run a closed computation and name its result's equation. *)
Ltac evaluate m H :=
  let v := eval vm_compute in m in assert (H : m = v) by (vm_compute; reflexivity).

(** ** Generic lemmas *)

#[global] Arguments String.append : simpl nomatch.


Lemma ret_inj {A} (a b : A) : Ret a = Ret b -> a = b.
Proof. congruence. Qed.

Lemma bind_ret_inv {S E A B} (m : M S E A) (k : A -> M S E B) s b s' w :
  bind m k s = (Ret b, s', w) ->
  exists a s1 w1 w2, m s = (Ret a, s1, w1) /\ k a s1 = (Ret b, s', w2) /\ w = w1 ++ w2.
Proof.
  unfold bind. destruct (m s) as [[[a|e] s1] w1]; [|discriminate].
  destruct (k a s1) as [[r2 s2] w2] eqn:Ek. intros [= -> -> <-].
  exists a, s1, w1, w2. auto.
Qed.

Lemma outcome_bind_ret_inv {A B} (m : outcome A) (k : A -> outcome B) b :
  outcome_bind m k = Ret b -> exists a, m = Ret a /\ k a = Ret b.
Proof. destruct m; simpl; [eauto|discriminate]. Qed.

Lemma omap_app {A B} (f : A -> option B) l1 l2 :
  omap f (l1 ++ l2) = omap f l1 ++ omap f l2.
Proof. induction l1 as [|x l1 IH]; simpl; [done|]. destruct (f x); simpl; by f_equal. Qed.

Lemma Forall_elem {A} (P : A -> Prop) l : Forall P l <-> forall x, x ∈ l -> P x.
Proof. rewrite Forall_forall. by setoid_rewrite list_elem_of_In. Qed.

Lemma elem_concat {A} (x : A) ls : x ∈ concat ls <-> exists l, l ∈ ls /\ x ∈ l.
Proof. rewrite list_elem_of_In, in_concat. by setoid_rewrite <- list_elem_of_In. Qed.

(** Wrap-around of a [w]-bit unsigned and signed integer. *)
Definition wrap_u (w z : Z) : Z := (z mod 2 ^ w)%Z.
Definition wrap_s (w z : Z) : Z := ((z + 2 ^ (w - 1)) mod 2 ^ w - 2 ^ (w - 1))%Z.

Lemma wrap_u_id w z : (0 <= z < 2 ^ w)%Z -> wrap_u w z = z.
Proof. intros H. by apply Z.mod_small. Qed.

Lemma wrap_u_range w z : (0 <= w)%Z -> (0 <= wrap_u w z < 2 ^ w)%Z.
Proof. intros H. apply Z.mod_pos_bound. lia. Qed.

Lemma wrap_s_id w z : (0 < w)%Z -> (- 2 ^ (w - 1) <= z < 2 ^ (w - 1))%Z -> wrap_s w z = z.
Proof.
  intros Hw H. unfold wrap_s.
  assert (2 ^ w = 2 * 2 ^ (w - 1))%Z as ->.
  { replace w with (Z.succ (w - 1)) at 1 by lia. rewrite Z.pow_succ_r by lia. lia. }
  rewrite Z.mod_small by lia. lia.
Qed.
Lemma wrap_s_range w z : (0 < w)%Z -> (- 2 ^ (w - 1) <= wrap_s w z < 2 ^ (w - 1))%Z.
Proof.
  intros Hw. unfold wrap_s.
  assert (2 ^ w = 2 * 2 ^ (w - 1))%Z as E by (rewrite <- Z.pow_succ_r by lia; f_equal; lia).
  pose proof (Z.mod_pos_bound (z + 2 ^ (w - 1)) (2 ^ w) ltac:(apply Z.pow_pos_nonneg; lia)). lia.
Qed.
