(* ===== verification/StdMap.v ===== *)
(** * [std::map<std::string, V>]

    The code iterates over [std::map]s keyed by strings (JSON objects, the open
    requests of the dispatcher, the datapoint cache, the staged values, the poll
    entries) and the order, bytewise lexicographic on the key, is observable: it
    fixes the canonical serialization and the order of callbacks.  The model is
    an association list that the operations keep strictly sorted. *)
From S2P Require Import Prelude.

(** Bytewise comparison of [std::string]s. *)
Definition key_ltb (a b : string) : bool :=
  match String.compare a b with Lt => true | _ => false end.

Definition key_lt (a b : string) : Prop := key_ltb a b = true.

Abbreviation smap V := (list (string * V)).

Section Ops.
Context {V : Type}.

(** [find] *)
Fixpoint mget (k : string) (m : smap V) : option V :=
  match m with
  | [] => None
  | (k', v) :: r => if String.eqb k k' then Some v else mget k r
  end.

(** [operator[]] assignment / [insert_or_assign] *)
Fixpoint mset (k : string) (v : V) (m : smap V) : smap V :=
  match m with
  | [] => [(k, v)]
  | (k', v') :: r =>
      if String.eqb k k' then (k, v) :: r
      else if key_ltb k k' then (k, v) :: m
      else (k', v') :: mset k v r
  end.

(** [erase] by key *)
Fixpoint mdel (k : string) (m : smap V) : smap V :=
  match m with
  | [] => []
  | (k', v') :: r => if String.eqb k k' then r else (k', v') :: mdel k r
  end.

(** [emplace]: keeps an existing entry. *)
Definition memplace (k : string) (v : V) (m : smap V) : smap V :=
  match mget k m with
  | Some _ => m
  | None => mset k v m
  end.

Definition mhas (k : string) (m : smap V) : bool :=
  match mget k m with Some _ => true | None => false end.

Definition keys (m : smap V) : list string := map fst m.

(** The representation invariant: strictly increasing keys. *)
Definition msorted (m : smap V) : Prop := StronglySorted key_lt (keys m).
End Ops.

(** Building a map by successive assignments (initializer lists, loops). *)
Definition mof {V} (l : smap V) : smap V :=
  fold_left (fun m kv => mset kv.1 kv.2 m) l [].

(** ** The key order *)

Lemma ascii_compare_trans a b c :
  Ascii.compare a b = Lt -> Ascii.compare b c = Lt -> Ascii.compare a c = Lt.
Proof. unfold Ascii.compare. rewrite !N.compare_lt_iff. lia. Qed.

Lemma ascii_compare_eq a b : Ascii.compare a b = Eq <-> a = b.
Proof.
  unfold Ascii.compare. rewrite N.compare_eq_iff. split; [|by intros ->].
  intros H. rewrite <- (Ascii.ascii_N_embedding a), <- (Ascii.ascii_N_embedding b).
  by rewrite H.
Qed.

Lemma string_compare_refl a : String.compare a a = Eq.
Proof.
  induction a as [|c a IH]; simpl; [done|].
  assert (Ascii.compare c c = Eq) as -> by by apply ascii_compare_eq. done.
Qed.

Lemma key_ltb_irrefl a : key_ltb a a = false.
Proof. unfold key_ltb. by rewrite string_compare_refl. Qed.

Lemma key_lt_trans a b c : key_lt a b -> key_lt b c -> key_lt a c.
Proof.
  unfold key_lt, key_ltb. revert b c.
  induction a as [|x a IH]; intros [|y b] [|z c]; simpl; try done.
  destruct (Ascii.compare x y) eqn:E1, (Ascii.compare y z) eqn:E2; try done.
  - apply ascii_compare_eq in E1 as ->, E2 as ->.
    assert (Ascii.compare z z = Eq) as -> by by apply ascii_compare_eq. apply IH.
  - apply ascii_compare_eq in E1 as ->. by rewrite E2.
  - apply ascii_compare_eq in E2 as ->. by rewrite E1.
  - by rewrite (ascii_compare_trans _ _ _ E1 E2).
Qed.

Lemma key_lt_irrefl a : ~ key_lt a a.
Proof. unfold key_lt. by rewrite key_ltb_irrefl. Qed.

Lemma key_lt_ne a b : key_lt a b -> a <> b.
Proof. intros H ->. by apply key_lt_irrefl in H. Qed.

Lemma key_trichotomy a b : a <> b -> key_ltb a b = false -> key_lt b a.
Proof.
  unfold key_lt, key_ltb. intros Hne H.
  rewrite String.compare_antisym. destruct (String.compare a b) eqn:E; simpl; try done.
  by apply String.compare_eq_iff in E.
Qed.

#[export] Hint Resolve key_lt_trans key_lt_irrefl : fnt.

(** ** Lookup *)

Section Lookup.
Context {V : Type}.
Implicit Types (m : smap V) (k : string) (v : V).

Lemma mget_mset_eq k v m : mget k (mset k v m) = Some v.
Proof.
  induction m as [|[k' v'] m IH]; simpl; [by rewrite String.eqb_refl|].
  destruct (String.eqb_spec k k') as [->|Hne]; simpl; [by rewrite String.eqb_refl|].
  destruct (key_ltb k k') eqn:E; simpl; [by rewrite String.eqb_refl|].
  apply String.eqb_neq in Hne as ->. done.
Qed.

Lemma mget_mset_ne k k' v m : k <> k' -> mget k (mset k' v m) = mget k m.
Proof.
  intros Hne. induction m as [|[k1 v1] m IH]; simpl.
  - by apply String.eqb_neq in Hne as ->.
  - destruct (String.eqb_spec k' k1) as [->|Hne1]; simpl.
    + by apply String.eqb_neq in Hne as ->.
    + destruct (key_ltb k' k1); simpl; [by apply String.eqb_neq in Hne as ->|].
      by rewrite IH.
Qed.

Lemma mget_mset k k' v m :
  mget k (mset k' v m) = if decide (k = k') then Some v else mget k m.
Proof. case_decide; subst; [apply mget_mset_eq | by apply mget_mset_ne]. Qed.

Lemma mget_mdel_ne k k' m : k <> k' -> mget k (mdel k' m) = mget k m.
Proof.
  intros Hne. induction m as [|[k1 v1] m IH]; simpl; [done|].
  destruct (String.eqb_spec k' k1) as [->|]; simpl.
  - by apply String.eqb_neq in Hne as ->.
  - by rewrite IH.
Qed.

Lemma mget_None m k : mget k m = None <-> k ∉ keys m.
Proof.
  induction m as [|[k' v'] m IH]; simpl; [set_solver|].
  rewrite not_elem_of_cons. destruct (String.eqb_spec k k') as [->|Hne]; [naive_solver|].
  rewrite IH. naive_solver.
Qed.

Lemma mget_elem m k v : mget k m = Some v -> (k, v) ∈ m.
Proof.
  induction m as [|[k' v'] m IH]; simpl; [done|].
  destruct (String.eqb_spec k k') as [->|]; [intros [= ->]|]; set_solver.
Qed.

Lemma mget_is_Some m k : is_Some (mget k m) <-> k ∈ keys m.
Proof.
  destruct (mget k m) as [v|] eqn:E.
  - apply mget_elem in E. split; [intros _|eauto].
    unfold keys. apply list_elem_of_fmap. by exists (k, v).
  - apply mget_None in E. split; [intros [? [=]]|done].
Qed.

Lemma mset_perm_new k v m : mget k m = None -> mset k v m ≡ₚ (k, v) :: m.
Proof.
  induction m as [|[k' v'] m IH]; simpl; [done|].
  destruct (String.eqb_spec k k') as [->|]; [done|]. intros H.
  destruct (key_ltb k k'); [done|]. rewrite IH by done. apply Permutation_swap.
Qed.

Lemma mdel_perm k v m : mget k m = Some v -> m ≡ₚ (k, v) :: mdel k m.
Proof.
  induction m as [|[k' v'] m IH]; simpl; [done|].
  destruct (String.eqb_spec k k') as [->|]; [by intros [= ->]|]. intros H.
  rewrite Permutation_swap. f_equiv. by apply IH.
Qed.

Lemma mdel_length k m : is_Some (mget k m) -> S (length (mdel k m)) = length m.
Proof. intros [v H]. by rewrite (mdel_perm _ _ _ H) at 2. Qed.

Lemma mdel_None k m : mget k m = None -> mdel k m = m.
Proof.
  induction m as [|[k' v'] m IH]; simpl; [done|].
  destruct (String.eqb_spec k k'); [done|]. intros H. by rewrite IH.
Qed.

(** ** The representation invariant *)

Lemma msorted_nil : msorted ([] : smap V).
Proof. constructor. Qed.

Lemma keys_mset k v m j : j ∈ keys (mset k v m) <-> j = k \/ j ∈ keys m.
Proof.
  rewrite <- !mget_is_Some. rewrite mget_mset. case_decide; subst.
  - split; eauto.
  - split; [auto|]. by intros [?|?].
Qed.

Lemma msorted_mset k v m : msorted m -> msorted (mset k v m).
Proof.
  unfold msorted. induction m as [|[k' v'] m IH]; simpl; [repeat constructor|].
  intros Hs. apply StronglySorted_inv in Hs as [Hs Hall].
  destruct (String.eqb_spec k k') as [->|Hne]; simpl; [by constructor|].
  destruct (key_ltb k k') eqn:E; simpl.
  - constructor; [by constructor|]. constructor; [done|].
    eapply Forall_impl; [|exact Hall]. eauto with fnt.
  - constructor; [by apply IH|]. apply key_trichotomy in E; [|done].
    rewrite Forall_elem in Hall |- *. intros j.
    intros [->|Hj]%keys_mset; [done|by apply Hall].
Qed.

Lemma keys_mdel_incl k m j : j ∈ keys (mdel k m) -> j ∈ keys m.
Proof.
  induction m as [|[k' v'] m IH]; simpl; [done|].
  destruct (String.eqb_spec k k'); set_solver.
Qed.

Lemma msorted_mdel k m : msorted m -> msorted (mdel k m).
Proof.
  unfold msorted. induction m as [|[k' v'] m IH]; simpl; [done|].
  intros Hs. apply StronglySorted_inv in Hs as [Hs Hall].
  destruct (String.eqb_spec k k'); [done|]. simpl. constructor; [by apply IH|].
  rewrite Forall_elem in Hall |- *. intros j Hj. by apply Hall, (keys_mdel_incl k).
Qed.

Lemma msorted_mof l : msorted (mof l : smap V).
Proof.
  unfold mof. assert (forall m, msorted m -> msorted (fold_left (fun m kv => mset kv.1 kv.2 m) l m)) as H.
  { induction l as [|kv l IH]; simpl; [done|]. intros m Hm. by apply IH, msorted_mset. }
  apply H, msorted_nil.
Qed.

Lemma msorted_NoDup m : msorted m -> NoDup (keys m).
Proof.
  unfold msorted. induction (keys m) as [|k l IH]; [constructor|].
  intros [Hs Hall]%StronglySorted_inv. constructor; [|auto].
  rewrite Forall_elem in Hall. intros Hin. by apply Hall, key_lt_irrefl in Hin.
Qed.

Lemma mget_elem_iff m k v : NoDup (keys m) -> (mget k m = Some v <-> (k, v) ∈ m).
Proof.
  intros Hnd. split; [apply mget_elem|].
  induction m as [|[k' v'] m IH]; simpl; [set_solver|].
  simpl in Hnd. apply list.NoDup_cons in Hnd as [Hn Hnd].
  destruct (String.eqb_spec k k') as [->|Hne].
  - intros [[= ->]|Hin]%elem_of_cons; [done|]. exfalso. apply Hn.
    apply list_elem_of_fmap. by exists (k', v).
  - intros [[= -> ->]|Hin]%elem_of_cons; [done|auto].
Qed.

Lemma mget_mdel_eq k m : msorted m -> mget k (mdel k m) = None.
Proof.
  intros Hs. apply msorted_NoDup in Hs. apply mget_None.
  induction m as [|[k' v'] m IH]; simpl in *; [set_solver|].
  apply list.NoDup_cons in Hs as [Hn Hnd].
  destruct (String.eqb_spec k k') as [->|Hne]; [done|].
  simpl. specialize (IH Hnd). set_solver.
Qed.

Lemma mget_mdel k k' m : msorted m ->
  mget k (mdel k' m) = if decide (k = k') then None else mget k m.
Proof. intros. case_decide; subst; [by apply mget_mdel_eq | by apply mget_mdel_ne]. Qed.

(** Maps with the same lookups are the same sorted list. *)
Lemma msorted_ext m1 m2 : msorted m1 -> msorted m2 ->
  (forall k, mget k m1 = mget k m2) -> m1 = m2.
Proof.
  unfold msorted. revert m2. induction m1 as [|[k1 v1] m1 IH]; intros [|[k2 v2] m2]; simpl; [done|..].
  - intros _ _ H. specialize (H k2). by rewrite String.eqb_refl in H.
  - intros _ _ H. specialize (H k1). by rewrite String.eqb_refl in H.
  - intros [S1 F1]%StronglySorted_inv [S2 F2]%StronglySorted_inv H.
    rewrite Forall_elem in F1, F2.
    pose proof H as Hall.
    assert (forall (m : smap V) k j, (forall x, x ∈ keys m -> key_lt j x) -> k = j \/ key_lt k j -> mget k m = None) as Hout.
    { intros m k j Hm Hk. apply mget_None. intros Hin. specialize (Hm k Hin).
      destruct Hk as [->|Hk]; [|pose proof (key_lt_trans _ _ _ Hm Hk)]; by eapply key_lt_irrefl. }
    assert (k1 = k2) as ->.
    { destruct (decide (k1 = k2)) as [|Hne]; [done|]. exfalso.
      destruct (key_ltb k1 k2) eqn:E.
      - specialize (H k1). rewrite String.eqb_refl in H.
        apply String.eqb_neq in Hne as He. rewrite He in H.
        rewrite (Hout m2 k1 k2) in H; [done|exact F2|by right].
      - apply key_trichotomy in E; [|done]. specialize (H k2). rewrite String.eqb_refl in H.
        apply not_eq_sym, String.eqb_neq in Hne as He. rewrite He in H.
        rewrite (Hout m1 k2 k1) in H; [done|exact F1|by right]. }
    assert (v1 = v2) as ->.
    { specialize (H k2). rewrite String.eqb_refl in H. congruence. }
    f_equal. apply IH; [done..|]. intros j. specialize (Hall j).
    destruct (String.eqb_spec j k2) as [Hj|]; [|done].
    rewrite (Hout m1 j k2), (Hout m2 j k2); auto.
Qed.

Lemma mset_id k v m : msorted m -> mget k m = Some v -> mset k v m = m.
Proof.
  intros Hs Hg. apply msorted_ext; [by apply msorted_mset|done|].
  intros j. rewrite mget_mset. case_decide; by subst.
Qed.

Lemma mset_mset_eq k v v' m : msorted m -> mset k v (mset k v' m) = mset k v m.
Proof.
  intros Hs. apply msorted_ext; [auto using msorted_mset..|].
  intros j. rewrite !mget_mset. by case_decide.
Qed.
End Lookup.

#[export] Hint Resolve msorted_nil msorted_mset msorted_mdel msorted_mof : fnt.

(** ** Value transformations *)

Definition mmap {V W} (f : string -> V -> W) (m : smap V) : smap W :=
  map (fun kv => (kv.1, f kv.1 kv.2)) m.

Lemma keys_mmap {V W} (f : string -> V -> W) m : keys (mmap f m) = keys m.
Proof. unfold keys, mmap. rewrite map_map. done. Qed.

Lemma msorted_mmap {V W} (f : string -> V -> W) m : msorted m -> msorted (mmap f m).
Proof. unfold msorted. by rewrite keys_mmap. Qed.

Lemma mget_mmap {V W} (f : string -> V -> W) m k : mget k (mmap f m) = f k <$> mget k m.
Proof.
  induction m as [|[k' v'] m IH]; simpl; [done|].
  destruct (String.eqb_spec k k') as [->|]; done.
Qed.

(** [erase_if]: keep the entries satisfying [P]. *)
Lemma msorted_filter {V} (P : string * V -> bool) m : msorted m -> msorted (List.filter P m).
Proof.
  unfold msorted. induction m as [|[k v] m IH]; simpl; [done|].
  intros [Hs Hall]%StronglySorted_inv. destruct (P (k, v)); [|auto].
  simpl. constructor; [auto|]. rewrite Forall_elem in Hall |- *. intros j Hj. apply Hall.
  unfold keys in *. apply list_elem_of_In, in_map_iff in Hj as [x [<- Hx]].
  apply filter_In in Hx as [Hx _]. apply list_elem_of_In, in_map_iff. eauto.
Qed.
#[export] Hint Resolve msorted_mmap msorted_filter : fnt.
