(* ===== verification/Errors.v ===== *)
(** * Errors as values ([error.hpp], [error.cpp], [result.hpp])

    Network errors are carried as values: an [Error] record in a [Result].  The
    factories fix the domain and whether a blind retry makes sense. *)
From S2P Require Import Prelude.

Inductive ErrorDomain :=
| Dom_Configuration | Dom_Dns | Dom_Tcp | Dom_Tls | Dom_WebSocket | Dom_Protocol
| Dom_Authentication | Dom_Validation | Dom_Timeout | Dom_Disconnected
| Dom_RateLimit | Dom_Remote | Dom_Cancelled | Dom_Internal.

Inductive ErrorCode :=
| MissingCredentials | InvalidEndpoint | InvalidOption | FileNotReadable
| ResolveFailed | ConnectFailed | TlsHandshakeFailed | CertificateRejected
| WebSocketHandshakeFailed | TransportClosed | FrameTooLarge | SendQueueFull
| ProtocolMismatch | UnexpectedMessage | UnexpectedResponseType
| MalformedMessage | HandshakeFailed
| AuthRejected | ReplayDetected | UnknownKeyId
| UnknownDatapoint | ReadOnlyDatapoint | TypeMismatch | OutOfRange
| ValueTooLong | ConstraintViolation | EmptySelection
| RequestTimeout | Code_Disconnected | NotConnected | InvalidState
| Code_Cancelled | RateLimited | DeviceBusy
| RemoteRejected | NotSupported | Code_Internal.

#[export] Instance ErrorDomain_eq_dec : EqDecision ErrorDomain.
Proof. solve_decision. Defined.
#[export] Instance ErrorCode_eq_dec : EqDecision ErrorCode.
Proof. solve_decision. Defined.

Definition domain_to_string (d : ErrorDomain) : string :=
  match d with
  | Dom_Configuration => "configuration"
  | Dom_Dns => "dns"
  | Dom_Tcp => "tcp"
  | Dom_Tls => "tls"
  | Dom_WebSocket => "websocket"
  | Dom_Protocol => "protocol"
  | Dom_Authentication => "authentication"
  | Dom_Validation => "validation"
  | Dom_Timeout => "timeout"
  | Dom_Disconnected => "disconnected"
  | Dom_RateLimit => "rate_limit"
  | Dom_Remote => "remote"
  | Dom_Cancelled => "cancelled"
  | Dom_Internal => "internal"
  end.

Definition code_to_string (c : ErrorCode) : string :=
  match c with
  | MissingCredentials => "missing_credentials"
  | InvalidEndpoint => "invalid_endpoint"
  | InvalidOption => "invalid_option"
  | FileNotReadable => "file_not_readable"
  | ResolveFailed => "resolve_failed"
  | ConnectFailed => "connect_failed"
  | TlsHandshakeFailed => "tls_handshake_failed"
  | CertificateRejected => "certificate_rejected"
  | WebSocketHandshakeFailed => "websocket_handshake_failed"
  | TransportClosed => "transport_closed"
  | FrameTooLarge => "frame_too_large"
  | SendQueueFull => "send_queue_full"
  | ProtocolMismatch => "protocol_mismatch"
  | UnexpectedMessage => "unexpected_message"
  | UnexpectedResponseType => "unexpected_response_type"
  | MalformedMessage => "malformed_message"
  | HandshakeFailed => "handshake_failed"
  | AuthRejected => "auth_rejected"
  | ReplayDetected => "replay_detected"
  | UnknownKeyId => "unknown_key_id"
  | UnknownDatapoint => "unknown_datapoint"
  | ReadOnlyDatapoint => "read_only"
  | TypeMismatch => "type_mismatch"
  | OutOfRange => "out_of_range"
  | ValueTooLong => "too_long"
  | ConstraintViolation => "constraint_violation"
  | EmptySelection => "empty_selection"
  | RequestTimeout => "request_timeout"
  | Code_Disconnected => "disconnected"
  | NotConnected => "not_connected"
  | InvalidState => "invalid_state"
  | Code_Cancelled => "cancelled"
  | RateLimited => "rate_limited"
  | DeviceBusy => "device_busy"
  | RemoteRejected => "remote_rejected"
  | NotSupported => "not_supported"
  | Code_Internal => "internal"
  end.

Record Error := mkError {
  err_domain : ErrorDomain;
  err_code : ErrorCode;
  err_message : string;
  err_retryable : bool;
  err_operation : option string;
  err_datapoint : option string;
  err_remote_detail : option string
}.

#[export] Instance Error_eq_dec : EqDecision Error.
Proof. solve_decision. Defined.

Definition str_empty (s : string) : bool :=
  match s with EmptyString => true | _ => false end.

Definition bracketed (label : string) (o : option string) : string :=
  match o with
  | Some s => " [" +:+ label +:+ "=" +:+ s +:+ "]"
  | None => EmptyString
  end.

(** [Error::to_string] *)
Definition error_to_string (e : Error) : string :=
  domain_to_string (err_domain e) +:+ "/" +:+ code_to_string (err_code e) +:+
  (if str_empty (err_message e) then EmptyString else ": " +:+ err_message e) +:+
  bracketed "op" (err_operation e) +:+ bracketed "dp" (err_datapoint e) +:+
  bracketed "remote" (err_remote_detail e).

Definition default_retryable (d : ErrorDomain) : bool :=
  match d with
  | Dom_Dns | Dom_Tcp | Dom_Timeout | Dom_Disconnected | Dom_RateLimit => true
  | _ => false
  end.

Definition make_error (d : ErrorDomain) (c : ErrorCode) (msg : string) : Error :=
  mkError d c msg (default_retryable d) None None None.

Definition with_operation (op : string) (e : Error) : Error :=
  mkError (err_domain e) (err_code e) (err_message e) (err_retryable e)
    (Some op) (err_datapoint e) (err_remote_detail e).
Definition with_datapoint (dp : string) (e : Error) : Error :=
  mkError (err_domain e) (err_code e) (err_message e) (err_retryable e)
    (err_operation e) (Some dp) (err_remote_detail e).
Definition with_remote_detail (s : string) (e : Error) : Error :=
  mkError (err_domain e) (err_code e) (err_message e) (err_retryable e)
    (err_operation e) (err_datapoint e) (Some s).
Definition set_retryable (b : bool) (e : Error) : Error :=
  mkError (err_domain e) (err_code e) (err_message e) b
    (err_operation e) (err_datapoint e) (err_remote_detail e).

Definition config_error (c : ErrorCode) (msg : string) : Error :=
  make_error Dom_Configuration c msg.
Definition validation_error (c : ErrorCode) (msg dp : string) : Error :=
  let e := make_error Dom_Validation c msg in
  if str_empty dp then e else with_datapoint dp e.
Definition timeout_error (op : string) : Error :=
  with_operation op
    (make_error Dom_Timeout RequestTimeout "no response within the request deadline").
Definition disconnected_error (op : string) : Error :=
  with_operation op
    (make_error Dom_Disconnected Code_Disconnected
       "connection lost while the request was pending").
Definition cancelled_error (op : string) : Error :=
  with_operation op (make_error Dom_Cancelled Code_Cancelled "request cancelled").
Definition protocol_error (c : ErrorCode) (msg : string) : Error :=
  make_error Dom_Protocol c msg.
Definition internal_error (msg : string) : Error :=
  make_error Dom_Internal Code_Internal msg.

(** [Result<T>]: a value or an [Error]; [Status] is [Result<void>]. *)
Inductive Result (A : Type) :=
| Ok (a : A)
| Err (e : Error).
Arguments Ok {A} a.
Arguments Err {A} e.

#[export] Instance Result_eq_dec {A} `{EqDecision A} : EqDecision (Result A).
Proof. solve_decision. Defined.

Definition Status : Type := (Result unit).
Definition ok : Status := Ok tt.

Definition has_value {A} (r : Result A) : bool :=
  match r with Ok _ => true | Err _ => false end.
Definition value_or {A} (r : Result A) (fallback : A) : A :=
  match r with Ok a => a | Err _ => fallback end.

(** [if (auto r = m; !r) return fail(r.error()); k(r.value())] *)
Definition rbind {A B} (m : Result A) (k : A -> Result B) : Result B :=
  match m with Ok a => k a | Err e => Err e end.
Notation "'let?' x ':=' m 'in' k" := (rbind m (fun x => k))
  (at level 10, x pattern, m at level 100, k at level 200) : fnt_scope.

Lemma rbind_ok_inv {A B} (m : Result A) (k : A -> Result B) b :
  rbind m k = Ok b -> exists a, m = Ok a /\ k a = Ok b.
Proof. destruct m; simpl; [eauto|discriminate]. Qed.

(** The error factories only mark as retryable what a blind retry can cure. *)
Lemma make_error_retryable d c msg :
  err_retryable (make_error d c msg) = true <->
  d ∈ [Dom_Dns; Dom_Tcp; Dom_Timeout; Dom_Disconnected; Dom_RateLimit].
Proof.
  split.
  - destruct d; simpl; intros H; try discriminate H; repeat constructor.
  - intros H. repeat (apply elem_of_cons in H as [->|H]; [done|]). by apply elem_of_nil in H.
Qed.
