(* ===== verification/Float.v ===== *)
(** * IEEE 754 numbers as the code uses them

    [double] and [float] of the C++ language: NaN, signed infinities, signed
    zeros and finite non-zero values [m * 2^e].  Every operation computes the
    exact result as an integer multiple of a power of two (or as an integer
    quotient) and rounds it once, to nearest with ties to even, into the format.
    The mantissa is kept as it results, so that an operation whose exact result
    fits leaves it untouched; comparisons are on the value. *)
From S2P Require Import Prelude.
From Stdlib Require Import QArith Qpower Lqa.
Local Open Scope Z_scope.

Inductive float :=
| F_nan
| F_inf (neg : bool)
| F_zero (neg : bool)
| F_fin (m e : Z).

#[export] Instance float_eq_dec : EqDecision float.
Proof. solve_decision. Defined.

Record format := { f_prec : Z; f_emin : Z; f_emax : Z }.
Definition binary64 : format := {| f_prec := 53; f_emin := -1074; f_emax := 1024 |}.
Definition binary32 : format := {| f_prec := 24; f_emin := -149; f_emax := 128 |}.

(** Number of binary digits of [|m|], [m <> 0]. *)
Definition ndigits (m : Z) : Z := Z.log2 (Z.abs m) + 1.

(** [a / b] rounded to the nearest integer, ties to even ([b > 0]). *)
Definition rne_div (a b : Z) : Z :=
  let q := a / b in
  let r := a mod b in
  match Z.compare (2 * r) b with
  | Lt => q
  | Gt => q + 1
  | Eq => if Z.even q then q else q + 1
  end.

(** Round [m * 2^e] into the format; [neg] is the sign of a zero result. *)
Definition round_to (f : format) (neg : bool) (m e : Z) : float :=
  if m =? 0 then F_zero neg else
  let e' := Z.max (ndigits m + e - f_prec f) (f_emin f) in
  let '(q, e1) := if e' <=? e then (m, e) else (rne_div m (2 ^ (e' - e)), e') in
  if q =? 0 then F_zero (m <? 0)
  else if f_emax f <? ndigits q + e1 then F_inf (m <? 0)
  else F_fin q e1.

(** [a / b] rounded into the format ([b > 0]): two extra quotient bits and a
    sticky bit determine the rounding of the exact quotient. *)
Definition round_quot (f : format) (neg : bool) (a b : Z) : float :=
  if a =? 0 then F_zero neg else
  let k := Z.max 0 (f_prec f + 3 + ndigits b - ndigits a) in
  let q := Z.abs a * 2 ^ k / b in
  let r := (Z.abs a * 2 ^ k) mod b in
  let q' := 2 * q + (if r =? 0 then 0 else 1) in
  round_to f neg (Z.sgn a * q') (- k - 1).

(** Conversion of an integer to a floating type. *)
Definition of_int (f : format) (z : Z) : float := round_to f false z 0.
Definition double_of_Z : Z -> float := of_int binary64.

(** The value of the decimal literal [n * 10^-k]. *)
Definition lit (n : Z) (k : Z) : float := round_quot binary64 false n (10 ^ k).

Definition is_nan (x : float) : bool := match x with F_nan => true | _ => false end.
Definition is_finite (x : float) : bool :=
  match x with F_zero _ | F_fin _ _ => true | _ => false end.

(** Mantissa and exponent of a finite value (0 for the zeros). *)
Definition parts (x : float) : Z * Z :=
  match x with F_fin m e => (m, e) | _ => (0, 0) end.

Definition sign_neg (x : float) : bool :=
  match x with F_nan => false | F_inf n | F_zero n => n | F_fin m _ => m <? 0 end.

(** [x <=> y]; [None] when unordered. *)
Definition fcompare (x y : float) : option comparison :=
  match x, y with
  | F_nan, _ | _, F_nan => None
  | F_inf a, F_inf b =>
      Some (match a, b with true, false => Lt | false, true => Gt | _, _ => Eq end)
  | F_inf a, _ => Some (if a then Lt else Gt)
  | _, F_inf b => Some (if b then Gt else Lt)
  | _, _ =>
      let '(m1, e1) := parts x in
      let '(m2, e2) := parts y in
      let e := Z.min e1 e2 in
      Some (Z.compare (m1 * 2 ^ (e1 - e)) (m2 * 2 ^ (e2 - e)))
  end.

Definition flt (x y : float) : bool := match fcompare x y with Some Lt => true | _ => false end.
Definition fle (x y : float) : bool :=
  match fcompare x y with Some Lt | Some Eq => true | _ => false end.
Definition fgt (x y : float) : bool := flt y x.
Definition feq (x y : float) : bool := match fcompare x y with Some Eq => true | _ => false end.

(** [std::min(a, b)]: the second argument only when it is smaller. *)
Definition std_min (a b : float) : float := if flt b a then b else a.

Definition fneg (x : float) : float :=
  match x with
  | F_nan => F_nan
  | F_inf n => F_inf (negb n)
  | F_zero n => F_zero (negb n)
  | F_fin m e => F_fin (- m) e
  end.

Definition fadd (f : format) (x y : float) : float :=
  match x, y with
  | F_nan, _ | _, F_nan => F_nan
  | F_inf a, F_inf b => if Bool.eqb a b then F_inf a else F_nan
  | F_inf a, _ => F_inf a
  | _, F_inf b => F_inf b
  | _, _ =>
      let '(m1, e1) := parts x in
      let '(m2, e2) := parts y in
      let e := Z.min e1 e2 in
      round_to f (sign_neg x && sign_neg y) (m1 * 2 ^ (e1 - e) + m2 * 2 ^ (e2 - e)) e
  end.
Definition fsub (f : format) (x y : float) : float := fadd f x (fneg y).

Definition fmul (f : format) (x y : float) : float :=
  let s := xorb (sign_neg x) (sign_neg y) in
  match x, y with
  | F_nan, _ | _, F_nan => F_nan
  | F_inf _, F_zero _ | F_zero _, F_inf _ => F_nan
  | F_inf _, _ | _, F_inf _ => F_inf s
  | _, _ =>
      let '(m1, e1) := parts x in
      let '(m2, e2) := parts y in
      round_to f s (m1 * m2) (e1 + e2)
  end.

(** Division by a positive integer constant (the only division in the code). *)
Definition fdiv_Z (f : format) (x : float) (d : Z) : float :=
  match x with
  | F_fin m e => round_quot f false (m * 2 ^ Z.max e 0) (d * 2 ^ Z.max (- e) 0)
  | _ => x
  end.

Definition dadd := fadd binary64.
Definition dsub := fsub binary64.
Definition dmul := fmul binary64.

(** [static_cast<float>] of a [double] and back (the latter is exact). *)
Definition to_float32 (x : float) : float :=
  match x with F_fin m e => round_to binary32 false m e | _ => x end.

(** The integer part of a finite value, toward zero. *)
Definition trunc_Z (x : float) : Z :=
  let '(m, e) := parts x in
  if 0 <=? e then m * 2 ^ e else Z.quot m (2 ^ (- e)).

(** [value == std::trunc(value)] on a finite value. *)
Definition is_integral (x : float) : bool :=
  let '(m, e) := parts x in
  if 0 <=? e then true else m mod 2 ^ (- e) =? 0.

(** [std::nearbyint] in the default rounding mode. *)
Definition nearbyint (x : float) : float :=
  match x with
  | F_fin m e =>
      if 0 <=? e then x
      else let z := rne_div m (2 ^ (- e)) in
           if z =? 0 then F_zero (m <? 0) else F_fin z 0
  | _ => x
  end.

(** ** Decimal text: [printf("%f")] and [printf("%g")] *)

Definition digit (d : Z) : string :=
  String (Ascii.ascii_of_N (Z.to_N (48 + d))) EmptyString.

(** [n] decimal digits of [z], leading zeros included. *)
Fixpoint pad_digits (n : nat) (z : Z) : string :=
  match n with
  | O => EmptyString
  | S n' => pad_digits n' (z / 10) +:+ digit (z mod 10)
  end.

Definition dec_Z (z : Z) : string := pretty z.

(** A finite value as an integer quotient with a positive denominator. *)
Definition quotient (x : float) : Z * Z :=
  let '(m, e) := parts x in (m * 2 ^ Z.max e 0, 2 ^ Z.max (- e) 0).

(** ["%.*f"] *)
Definition fixed_text (decimals : nat) (x : float) : string :=
  let sign := if sign_neg x then "-" else EmptyString in
  match x with
  | F_nan => "nan"
  | F_inf _ => sign +:+ "inf"
  | _ =>
      let '(n, d) := quotient x in
      let p := 10 ^ Z.of_nat decimals in
      let v := rne_div (Z.abs n * p) d in
      sign +:+ dec_Z (v / p) +:+
      match decimals with O => EmptyString | _ => "." +:+ pad_digits decimals (v mod p) end
  end.

(** [std::to_string(double)] is ["%f"]. *)
Definition to_string_double (x : float) : string := fixed_text 6 x.

(** Decimal exponent [X] of [n / d > 0], with [10^X <= n / d < 10^(X+1)]. *)
Definition pow10_le (x n d : Z) : bool :=
  if 0 <=? x then 10 ^ x * d <=? n else d <=? n * 10 ^ (- x).
Fixpoint raise_exp (fuel : nat) (x n d : Z) : Z :=
  match fuel with
  | O => x
  | S f => if pow10_le (x + 1) n d then raise_exp f (x + 1) n d else x
  end.
Definition dec_exp (n d : Z) : Z :=
  let l2 := Z.log2 n - Z.log2 d in
  raise_exp 4 (l2 * 30103 / 100000 - 2) n d.

(** The [p] significant decimal digits of [n / d > 0], rounded to nearest even,
    and their decimal exponent. *)
Definition sig_digits (p : Z) (n d : Z) : Z * Z :=
  let x := dec_exp n d in
  let k := p - 1 - x in
  let v := if 0 <=? k then rne_div (n * 10 ^ k) d else rne_div n (d * 10 ^ (- k)) in
  if v =? 10 ^ p then (10 ^ (p - 1), x + 1) else (v, x).

(** Drop the trailing zeros of a fraction. *)
Fixpoint strip_zeros (fuel : nat) (v : Z) (len : nat) : Z * nat :=
  match fuel, len with
  | S f, S l => if v mod 10 =? 0 then strip_zeros f (v / 10) l else (v, len)
  | _, _ => (v, len)
  end.

Definition frac_text (v : Z) (len : nat) : string :=
  let '(v', len') := strip_zeros len v len in
  match len' with O => EmptyString | _ => "." +:+ pad_digits len' v' end.

(** ["%.*g"] of a finite non-zero value. *)
Definition general_text (p : Z) (x : float) : string :=
  let '(n, d) := quotient x in
  let '(v, ex) := sig_digits p (Z.abs n) d in
  let sign := if sign_neg x then "-" else EmptyString in
  sign +:+
  if (ex <? -4) || (p <=? ex) then
    dec_Z (v / 10 ^ (p - 1)) +:+ frac_text (v mod 10 ^ (p - 1)) (Z.to_nat (p - 1)) +:+
    "e" +:+ (if ex <? 0 then "-" else "+") +:+
    (if Z.abs ex <? 10 then "0" +:+ dec_Z (Z.abs ex) else dec_Z (Z.abs ex))
  else if ex <? 0 then
    "0" +:+ frac_text v (Z.to_nat (p - 1 - ex))
  else
    dec_Z (v / 10 ^ (p - 1 - ex)) +:+
    frac_text (v mod 10 ^ (p - 1 - ex)) (Z.to_nat (p - 1 - ex)).

(** [strtod] of that text: the correctly rounded value of its digits. *)
Definition general_value (p : Z) (x : float) : float :=
  let '(n, d) := quotient x in
  let '(v, ex) := sig_digits p (Z.abs n) d in
  let s := if sign_neg x then -1 else 1 in
  let k := ex - (p - 1) in
  if 0 <=? k then round_to binary64 false (s * v * 10 ^ k) 0
  else round_quot binary64 false (s * v) (10 ^ (- k)).

(** Sanity checks against values computed by a C library. *)
Example lit_01 : lit 1 1 = F_fin 7205759403792794 (-56).
Proof. vm_compute. reflexivity. Qed.
Example text_01 : general_text 15 (lit 1 1) = "0.1".
Proof. vm_compute. reflexivity. Qed.
Example text_third : general_text 17 (round_quot binary64 false 1 3) = "0.33333333333333331".
Proof. vm_compute. reflexivity. Qed.
Example text_exp : general_text 15 (lit 123 25) = "1.23e-23".
Proof. vm_compute. reflexivity. Qed.
Example text_fixed : to_string_double (lit (-314159265) 8) = "-3.141593".
Proof. vm_compute. reflexivity. Qed.
Example float32_001 : to_float32 (lit 1 2) = F_fin 10737418 (-30).
Proof. vm_compute. reflexivity. Qed.
Example sum_0102 : general_text 17 (dadd (lit 1 1) (lit 2 1)) = "0.30000000000000004".
Proof. vm_compute. reflexivity. Qed.

(** ** The value of a finite number *)

Definition toQ (x : float) : Q :=
  let '(m, e) := parts x in (inject_Z m * Qpower 2 e)%Q.

Lemma Qpower2_pos e : (0 < Qpower 2 e)%Q.
Proof. by apply Qpower_0_lt. Qed.

Lemma Qpower2_nonneg n : 0 <= n -> (Qpower 2 n == inject_Z (2 ^ n))%Q.
Proof. intros H. symmetry. by apply (Zpower_Qpower 2 n). Qed.

Lemma scale_to e e' m : e' <= e -> (inject_Z m * Qpower 2 e == inject_Z (m * 2 ^ (e - e')) * Qpower 2 e')%Q.
Proof.
  intros H. rewrite inject_Z_mult, <- Qpower2_nonneg by lia.
  rewrite <- Qmult_assoc, <- Qpower_plus by done. by replace (e - e' + e') with e by lia.
Qed.

Lemma Qcompare_scale a b e :
  (inject_Z a * Qpower 2 e ?= inject_Z b * Qpower 2 e)%Q = Z.compare a b.
Proof.
  destruct (Z.compare_spec a b) as [->|H|H].
  - by apply Qeq_alt.
  - apply Qlt_alt, Qmult_lt_r; [apply Qpower2_pos|]. by rewrite <- Zlt_Qlt.
  - apply Qgt_alt, Qmult_lt_r; [apply Qpower2_pos|]. by rewrite <- Zlt_Qlt.
Qed.

(** Comparison of finite numbers is comparison of their values. *)
Lemma fcompare_toQ x y : is_finite x -> is_finite y ->
  fcompare x y = Some (toQ x ?= toQ y)%Q.
Proof.
  intros Hx Hy. assert (forall m1 e1 m2 e2,
    (let e := Z.min e1 e2 in Z.compare (m1 * 2 ^ (e1 - e)) (m2 * 2 ^ (e2 - e))) =
    (inject_Z m1 * Qpower 2 e1 ?= inject_Z m2 * Qpower 2 e2)%Q) as H.
  { intros m1 e1 m2 e2. cbv zeta. rewrite <- (Qcompare_scale _ _ (Z.min e1 e2)).
    rewrite (scale_to e1 (Z.min e1 e2)), (scale_to e2 (Z.min e1 e2)) by lia. done. }
  destruct x, y; simpl in Hx, Hy; try done;
    unfold fcompare, toQ; simpl parts; cbv beta iota; f_equal; apply H.
Qed.

Lemma fle_toQ x y : is_finite x -> is_finite y -> fle x y = true <-> (toQ x <= toQ y)%Q.
Proof.
  intros Hx Hy. unfold fle. rewrite fcompare_toQ by done. rewrite Qle_alt.
  destruct (toQ x ?= toQ y)%Q; split; try done; by intros [].
Qed.

Lemma flt_toQ x y : is_finite x -> is_finite y -> flt x y = true <-> (toQ x < toQ y)%Q.
Proof.
  intros Hx Hy. unfold flt. rewrite fcompare_toQ by done. rewrite Qlt_alt.
  by destruct (toQ x ?= toQ y)%Q.
Qed.

Lemma flt_toQ_false x y : is_finite x -> is_finite y -> flt x y = false <-> (toQ y <= toQ x)%Q.
Proof.
  intros Hx Hy. rewrite <- Bool.not_true_iff_false, flt_toQ by done. split.
  - apply Qnot_lt_le.
  - intros H1 H2. by apply (Qlt_not_le _ _ H2).
Qed.

(** ** Exactness of rounding *)

Lemma ndigits_le m p : 0 < p -> Z.abs m < 2 ^ p -> ndigits m <= p.
Proof.
  intros Hp H. unfold ndigits. destruct (decide (m = 0)) as [->|Hm].
  - change (Z.log2 (Z.abs 0)) with 0. lia.
  - assert (Z.log2 (Z.abs m) < p); [|lia]. apply Z.log2_lt_pow2; lia.
Qed.

Lemma round_to_exact f neg m e : 0 < f_prec f ->
  m <> 0 -> Z.abs m < 2 ^ f_prec f -> f_emin f <= e -> f_prec f + e <= f_emax f ->
  round_to f neg m e = F_fin m e.
Proof.
  intros Hp Hm Hb He Hov. pose proof (ndigits_le m (f_prec f) ltac:(lia) Hb) as Hd.
  unfold round_to. apply Z.eqb_neq in Hm as Hm'. rewrite Hm'.
  rewrite (proj2 (Z.leb_le (Z.max (ndigits m + e - f_prec f) (f_emin f)) e)) by lia.
  rewrite Hm'. by rewrite (proj2 (Z.ltb_ge (f_emax f) (ndigits m + e))) by lia.
Qed.

Lemma double_of_Z_exact z : z <> 0 -> Z.abs z < 2 ^ 53 -> double_of_Z z = F_fin z 0.
Proof. intros. apply round_to_exact; cbn [f_prec f_emin f_emax binary64]; try done; lia. Qed.

Lemma double_of_Z_finite z : Z.abs z < 2 ^ 53 -> is_finite (double_of_Z z).
Proof.
  intros H. destruct (decide (z = 0)) as [->|]; [done|]. by rewrite double_of_Z_exact.
Qed.

Lemma toQ_double_of_Z z : Z.abs z < 2 ^ 53 -> (toQ (double_of_Z z) == inject_Z z)%Q.
Proof.
  intros H. destruct (decide (z = 0)) as [->|]; [done|]. rewrite double_of_Z_exact by done.
  unfold toQ. simpl. by rewrite Qmult_1_r.
Qed.

Lemma flt_double_of_Z a b : Z.abs a < 2 ^ 53 -> Z.abs b < 2 ^ 53 ->
  flt (double_of_Z a) (double_of_Z b) = (a <? b).
Proof.
  intros Ha Hb. apply Bool.eq_iff_eq_true.
  rewrite flt_toQ by auto using double_of_Z_finite.
  rewrite !toQ_double_of_Z by done. by rewrite <- Zlt_Qlt, Z.ltb_lt.
Qed.

Lemma nearbyint_double_of_Z z : Z.abs z < 2 ^ 53 -> nearbyint (double_of_Z z) = double_of_Z z.
Proof.
  intros H. destruct (decide (z = 0)) as [->|]; [done|]. by rewrite double_of_Z_exact.
Qed.

Lemma trunc_double_of_Z z : Z.abs z < 2 ^ 53 -> trunc_Z (double_of_Z z) = z.
Proof.
  intros H. destruct (decide (z = 0)) as [->|]; [done|]. rewrite double_of_Z_exact by done.
  unfold trunc_Z. simpl. lia.
Qed.

(** ** Subtracting one

    A canonical number in [1, 2^53] minus [1.0] is exact: the token bucket loses
    nothing to rounding when it pays for a frame. *)
Definition canonical (x : float) : Prop :=
  match x with
  | F_fin m e => m <> 0 /\ Z.abs m <= 2 ^ 53 /\ -1074 <= e
  | F_zero _ => True
  | _ => False
  end.

Definition one : float := F_fin 1 0.

Lemma dsub_one x : canonical x -> (1 <= toQ x)%Q -> (toQ x <= inject_Z (2 ^ 53))%Q ->
  canonical (dsub x one) /\ (toQ (dsub x one) == toQ x - 1)%Q.
Proof.
  destruct x as [| | |m e]; [done|done|by intros _ H|]. intros (Hm & Hb & He) H1 H2.
  unfold toQ in H1, H2; cbn [parts] in H1, H2.
  set (e0 := Z.min e 0). set (d := m * 2 ^ (e - e0) - 2 ^ (0 - e0)).
  assert (exists neg, dsub (F_fin m e) one = round_to binary64 neg d e0) as [neg ->].
  { eexists. unfold dsub, fsub, one, fadd, fneg. cbn [parts]. reflexivity. }
  assert (inject_Z m * Qpower 2 e == inject_Z (m * 2 ^ (e - e0)) * Qpower 2 e0)%Q as Hsc
    by (apply scale_to; lia).
  assert (1 == inject_Z (2 ^ (0 - e0)) * Qpower 2 e0)%Q as Hone.
  { pose proof (scale_to 0 e0 1 ltac:(lia)) as Hs. rewrite Z.mul_1_l in Hs.
    rewrite <- Hs. simpl. by rewrite Qmult_1_r. }
  assert (toQ (F_fin m e) - 1 == inject_Z d * Qpower 2 e0)%Q as Hval.
  { unfold toQ. simpl. rewrite Hsc, Hone at 1. unfold d, Z.sub.
    rewrite inject_Z_plus, inject_Z_opp. ring. }
  assert (0 <= d) as Hd0.
  { rewrite Hsc, Hone in H1. apply Qmult_le_r in H1; [|apply Qpower2_pos].
    rewrite <- Zle_Qle in H1. unfold d. lia. }
  assert (d < 2 ^ 53) as Hd53.
  { unfold d, e0. destruct (decide (e <= 0)).
    - rewrite Z.min_l by lia. rewrite Z.sub_diag, Z.pow_0_r.
      assert (0 < 2 ^ (0 - e)) by (apply Z.pow_pos_nonneg; lia). lia.
    - rewrite Z.min_r by lia. rewrite !Z.sub_0_r, Z.pow_0_r.
      rewrite Qpower2_nonneg, <- inject_Z_mult, <- Zle_Qle in H2 by lia. lia. }
  destruct (decide (d = 0)) as [Hz|Hz].
  - rewrite Hval, Hz. simpl. split; [done|]. unfold toQ. simpl. by rewrite !Qmult_0_l.
  - rewrite round_to_exact; cbn [f_prec f_emin f_emax binary64]; [|lia..].
    split; [simpl; lia|]. rewrite Hval. done.
Qed.

Lemma fle_refl x : is_nan x = false -> fle x x = true.
Proof.
  unfold fle. destruct x as [|n|n|m e]; simpl; try done.
  - by destruct n.
  - by rewrite Z.compare_refl.
Qed.

Lemma flt_fle x y : flt x y = true -> fle x y = true.
Proof. unfold flt, fle. by destruct (fcompare x y) as [[]|]. Qed.

Lemma std_min_le a b : is_nan a = false -> fle (std_min a b) a = true.
Proof.
  intros Ha. unfold std_min. destruct (flt b a) eqn:E; [by apply flt_fle|by apply fle_refl].
Qed.

Lemma std_min_cases a b : std_min a b = a \/ std_min a b = b.
Proof. unfold std_min. destruct (flt b a); auto. Qed.

(** ** Results of rounding non-negative values *)

Lemma rne_div_bounds a b B : 0 < b -> Z.abs a <= B * b -> Z.abs (rne_div a b) <= B.
Proof.
  intros Hb Ha. unfold rne_div. pose proof (Z.div_mod a b ltac:(lia)) as Hd.
  pose proof (Z.mod_pos_bound a b Hb) as Hm. set (q := a / b) in *. set (r := a mod b) in *.
  assert (q <= B) by (apply Z.div_le_upper_bound; lia).
  assert (- B <= q) by (apply Z.div_le_lower_bound; lia).
  assert (q = B -> r = 0) by (intros ->; lia).
  destruct (Z.compare_spec (2 * r) b); [destruct (Z.even q)|..]; lia.
Qed.

Lemma rne_div_nonneg a b : 0 < b -> 0 <= a -> 0 <= rne_div a b.
Proof.
  intros Hb Ha. unfold rne_div. assert (0 <= a / b) by (apply Z.div_pos; lia).
  destruct (Z.compare _ _); [destruct (Z.even _)|..]; lia.
Qed.

Lemma toQ_zero n : (toQ (F_zero n) == 0)%Q.
Proof. reflexivity. Qed.

(** A non-negative number: canonical or plus infinity. *)
Definition nonneg_num (x : float) : Prop :=
  (canonical x /\ (0 <= toQ x)%Q) \/ x = F_inf false.

Lemma round_to_nonneg neg m e : 0 <= m -> nonneg_num (round_to binary64 neg m e).
Proof.
  intros Hm. unfold round_to. destruct (Z.eqb_spec m 0) as [->|Hne].
  { left. split; [done|]. by rewrite toQ_zero. }
  cbn [f_prec f_emin f_emax binary64]. set (e' := Z.max (ndigits m + e - 53) (-1074)).
  assert (exists q e1, (if e' <=? e then (m, e) else (rne_div m (2 ^ (e' - e)), e')) = (q, e1)
    /\ 0 <= q /\ q <= 2 ^ 53 /\ -1074 <= e1) as (q & e1 & -> & Hq0 & Hq & He).
  { pose proof (Z.log2_spec (Z.abs m) ltac:(lia)) as [_ Hlog].
    assert (Z.abs m < 2 ^ ndigits m) as Hlt.
    { unfold ndigits. by rewrite Z.add_1_r. }
    assert (0 <= Z.log2 (Z.abs m)) by apply Z.log2_nonneg.
    destruct (Z.leb_spec e' e) as [H1|H1].
    - exists m, e. split; [done|]. split; [done|]. split; [|lia].
      assert (2 ^ ndigits m <= 2 ^ 53); [|lia]. apply Z.pow_le_mono_r; lia.
    - exists (rne_div m (2 ^ (e' - e))), e'. split; [done|].
      assert (0 < 2 ^ (e' - e)) by (apply Z.pow_pos_nonneg; lia).
      split; [by apply rne_div_nonneg|]. split; [|lia].
      assert (Z.abs (rne_div m (2 ^ (e' - e))) <= 2 ^ 53); [|lia].
      apply rne_div_bounds; [done|].
      assert (2 ^ ndigits m <= 2 ^ 53 * 2 ^ (e' - e)); [|lia].
      rewrite <- Z.pow_add_r by lia. apply Z.pow_le_mono_r; [lia|]. unfold e'. lia. }
  destruct (Z.eqb_spec q 0) as [->|Hqz].
  - left. split; [done|]. by rewrite toQ_zero.
  - replace (m <? 0) with false by lia. destruct (_ <? _); [by right|]. left. split.
    + simpl. lia.
    + unfold toQ. cbn [parts]. apply Qmult_le_0_compat; [|apply Qlt_le_weak, Qpower2_pos].
      rewrite (Zle_Qle 0 q) in Hq0. done.
Qed.

Lemma round_quot_nonneg neg a b : 0 <= a -> 0 < b -> nonneg_num (round_quot binary64 neg a b).
Proof.
  intros Ha Hb. unfold round_quot. destruct (Z.eqb_spec a 0).
  { left. split; [done|]. by rewrite toQ_zero. }
  apply round_to_nonneg. apply Z.mul_nonneg_nonneg; [lia|].
  set (k := Z.max _ _). assert (0 <= Z.abs a * 2 ^ k / b).
  { apply Z.div_pos; [|done]. apply Z.mul_nonneg_nonneg; [lia|]. apply Z.pow_nonneg. lia. }
  destruct (_ =? 0); lia.
Qed.

Lemma nonneg_parts x : canonical x -> (0 <= toQ x)%Q -> 0 <= (parts x).1.
Proof.
  destruct x as [| | |m e]; try done. intros _. unfold toQ. cbn [parts fst]. intros H.
  destruct (decide (0 <= m)%Z) as [|Hn]; [done|]. exfalso.
  assert (inject_Z m < inject_Z 0)%Q as Hm by (rewrite <- Zlt_Qlt; lia). unfold inject_Z at 2 in Hm.
  pose proof (Qpower2_pos e) as Hp. nra.
Qed.

Lemma dadd_nonneg x y : nonneg_num x -> nonneg_num y -> nonneg_num (dadd x y).
Proof.
  intros [[Hcx Hx]| ->] [[Hcy Hy]| ->]; [|right; by destruct x|right; by destruct y|by right].
  assert (exists neg, dadd x y =
     let e := Z.min (parts x).2 (parts y).2 in
     round_to binary64 neg ((parts x).1 * 2 ^ ((parts x).2 - e) + (parts y).1 * 2 ^ ((parts y).2 - e)) e)
    as [neg ->].
  { destruct x, y; try done; eexists; reflexivity. }
  apply round_to_nonneg. pose proof (nonneg_parts _ Hcx Hx). pose proof (nonneg_parts _ Hcy Hy).
  assert (forall z, 0 <= 2 ^ z) by (intros; by apply Z.pow_nonneg). nia.
Qed.

Lemma dmul_nonneg x y : nonneg_num x -> nonneg_num y -> (0 < toQ y)%Q \/ y = F_inf false ->
  (0 < toQ x)%Q \/ x = F_inf false -> nonneg_num (dmul x y).
Proof.
  intros Hnx Hny Hy Hx.
  assert (forall z, canonical z -> (0 < toQ z)%Q -> exists m e, z = F_fin m e /\ 0 < m) as Hpos.
  { intros z Hc Hz. destruct z as [| | |m e]; try done.
    exists m, e. split; [done|]. pose proof (nonneg_parts _ Hc ltac:(lra)) as H. simpl in H.
    destruct Hc. lia. }
  destruct Hnx as [[Hcx _]| ->].
  - destruct Hx as [Hx| ->]; [|done]. apply Hpos in Hx as (m & e & -> & Hm); [|done].
    destruct Hny as [[Hcy _]| ->].
    + destruct Hy as [Hy| ->]; [|done]. apply Hpos in Hy as (m' & e' & -> & Hm'); [|done].
      unfold dmul, fmul. cbn [parts]. apply round_to_nonneg. nia.
    + right. unfold dmul, fmul. simpl. by replace (m <? 0) with false by lia.
  - right. destruct Hny as [[Hcy _]| ->]; [|done].
    destruct Hy as [Hy| ->]; [|done]. apply Hpos in Hy as (m' & e' & -> & Hm'); [|done].
    unfold dmul, fmul. simpl. by replace (m' <? 0) with false by lia.
Qed.

(** [std::min] with a finite non-negative bound stays a finite non-negative
    number below it. *)
Lemma std_min_bounded b x : canonical b -> (0 <= toQ b)%Q -> nonneg_num x ->
  canonical (std_min b x) /\ (0 <= toQ (std_min b x))%Q /\ (toQ (std_min b x) <= toQ b)%Q.
Proof.
  intros Hb Hb0 Hx. unfold std_min. destruct (flt x b) eqn:E; [|split; [done|lra]].
  destruct Hx as [[Hc H0]| ->]; [|by destruct b].
  split; [done|]. split; [done|]. apply Qlt_le_weak.
  apply flt_toQ; [by destruct x|by destruct b|done].
Qed.

Lemma canonical_finite x : canonical x -> is_finite x.
Proof. by destruct x. Qed.

Lemma fdiv_Z_nonneg x d : 0 < d -> nonneg_num x -> nonneg_num (fdiv_Z binary64 x d).
Proof.
  intros Hd [[Hc H0]| ->]; [|by right]. pose proof (nonneg_parts _ Hc H0) as Hp.
  destruct x as [| |neg|m e]; try done; [by left|].
  cbn [fdiv_Z parts fst] in *. apply round_quot_nonneg.
  - assert (0 <= 2 ^ Z.max e 0) by (by apply Z.pow_nonneg). nia.
  - assert (0 < 2 ^ Z.max (- e) 0) by (apply Z.pow_pos_nonneg; lia). nia.
Qed.

(** ** Results of rounding negative values *)

Lemma rne_div_nonpos m b : 0 < b -> m < 0 -> rne_div m b <= 0.
Proof.
  intros Hb Hm. unfold rne_div. assert (m / b < 0) by (apply Z.div_lt_upper_bound; lia).
  destruct (Z.compare _ _); [destruct (Z.even _)|..]; lia.
Qed.

Lemma round_to_neg f neg m e : m < 0 -> sign_neg (round_to f neg m e) = true.
Proof.
  intros Hm. unfold round_to. replace (m =? 0) with false by lia.
  destruct (if _ <=? e then _ else _) as [q e1] eqn:Eq.
  assert (q <= 0) as Hq.
  { destruct (Z.leb_spec (Z.max (ndigits m + e - f_prec f) (f_emin f)) e); injection Eq as <- <-; [lia|].
    apply rne_div_nonpos; [|done]. apply Z.pow_pos_nonneg; lia. }
  destruct (Z.eqb_spec q 0); [simpl; lia|]. destruct (_ <? _); simpl; lia.
Qed.

Lemma round_quot_neg f neg a b : a < 0 -> 0 < b -> sign_neg (round_quot f neg a b) = true.
Proof.
  intros Ha Hb. unfold round_quot. replace (a =? 0) with false by lia. apply round_to_neg.
  set (k := Z.max 0 _). assert (0 < 2 ^ k) by (apply Z.pow_pos_nonneg; lia).
  rewrite Z.sgn_neg by lia.
  assert (0 <= Z.abs a * 2 ^ k / b) by (apply Z.div_pos; [nia|done]).
  destruct (Z.eqb_spec ((Z.abs a * 2 ^ k) mod b) 0) as [Hz|]; [|lia].
  assert (Z.abs a * 2 ^ k = b * (Z.abs a * 2 ^ k / b)) by (apply Z.div_exact; lia).
  assert (0 < Z.abs a * 2 ^ k) by nia. nia.
Qed.

Lemma fdiv_Z_neg x d : 0 < d -> sign_neg x = true \/ x = F_zero false ->
  sign_neg (fdiv_Z binary64 x d) = true \/ fdiv_Z binary64 x d = F_zero false.
Proof.
  intros Hd [H| ->]; [|by right]. destruct x as [|neg|neg|m e]; cbn [fdiv_Z]; auto. left.
  simpl in H. apply round_quot_neg.
  - assert (0 < 2 ^ Z.max e 0) by (apply Z.pow_pos_nonneg; lia). nia.
  - assert (0 < 2 ^ Z.max (- e) 0) by (apply Z.pow_pos_nonneg; lia). nia.
Qed.

Lemma fle_zero_neg x : sign_neg x = true \/ x = F_zero false -> fle x (F_zero false) = true.
Proof.
  intros [H| ->]; [|done]. destruct x as [|neg|neg|m e]; simpl in H; subst; try done.
  unfold fle. cbn [fcompare parts]. rewrite Z.mul_0_l.
  assert (0 < 2 ^ (e - Z.min e 0)) by (apply Z.pow_pos_nonneg; lia).
  destruct (Z.compare_spec (m * 2 ^ (e - Z.min e 0)) 0); [done..|nia].
Qed.
