(* ===== verification/Json.v ===== *)
(** * JSON values

    The value type of the JSON library the code builds on: the tags its
    [value_t] distinguishes, object members in key order, and the documented
    behaviour of the accessors the code uses ([find], [value], [get], the [is_]
    predicates).  Parsing and dumping text are parameters of the model. *)
From S2P Require Import Prelude StdMap Float.
Local Open Scope Z_scope.

Inductive json :=
| J_null
| J_bool (b : bool)
| J_int (z : Z)            (* number_integer: std::int64_t *)
| J_uint (z : Z)           (* number_unsigned: std::uint64_t *)
| J_float (f : float)
| J_str (s : string)
| J_arr (l : list json)
| J_obj (m : smap json)
| J_binary                 (* value_t::binary *)
| J_discarded.             (* the result of a failed non-throwing parse *)

(** Induction through arrays and objects. *)
Section JsonInd.
Context (P : json -> Prop).
Hypothesis (Hnull : P J_null) (Hbool : forall b, P (J_bool b))
  (Hint : forall z, P (J_int z)) (Huint : forall z, P (J_uint z))
  (Hfloat : forall f, P (J_float f)) (Hstr : forall s, P (J_str s))
  (Harr : forall l, Forall P l -> P (J_arr l))
  (Hobj : forall m, Forall (fun kv => P kv.2) m -> P (J_obj m))
  (Hbin : P J_binary) (Hdisc : P J_discarded).

Fixpoint json_rect' (j : json) : P j :=
  match j with
  | J_null => Hnull
  | J_bool b => Hbool b
  | J_int z => Hint z
  | J_uint z => Huint z
  | J_float f => Hfloat f
  | J_str s => Hstr s
  | J_arr l => Harr l
      ((fix go (l : list json) : Forall P l :=
          match l with
          | [] => @Forall_nil json P
          | x :: r => @Forall_cons json P x r (json_rect' x) (go r)
          end) l)
  | J_obj m => Hobj m
      ((fix go (m : smap json) : Forall (fun kv => P kv.2) m :=
          match m with
          | [] => @Forall_nil (string * json) _
          | x :: r => @Forall_cons (string * json) _ x r (json_rect' x.2) (go r)
          end) m)
  | J_binary => Hbin
  | J_discarded => Hdisc
  end.
End JsonInd.

Definition is_object (j : json) : bool := match j with J_obj _ => true | _ => false end.
Definition is_string (j : json) : bool := match j with J_str _ => true | _ => false end.
Definition is_boolean (j : json) : bool := match j with J_bool _ => true | _ => false end.
Definition is_null (j : json) : bool := match j with J_null => true | _ => false end.
Definition is_number (j : json) : bool :=
  match j with J_int _ | J_uint _ | J_float _ => true | _ => false end.
(** [is_number_integer] holds of signed and unsigned integers alike. *)
Definition is_number_integer (j : json) : bool :=
  match j with J_int _ | J_uint _ => true | _ => false end.
Definition is_number_unsigned (j : json) : bool :=
  match j with J_uint _ => true | _ => false end.

(** [find] on a value: the member, when the value is an object that has it. *)
Definition jfind (key : string) (j : json) : option json :=
  match j with J_obj m => mget key m | _ => None end.
Definition contains (key : string) (j : json) : bool :=
  match jfind key j with Some _ => true | None => false end.

(** The elements a range-for visits in an array (objects: the values; null:
    nothing; a scalar is visited as itself). *)
Definition elements (j : json) : list json :=
  match j with
  | J_arr l => l
  | J_obj m => map snd m
  | J_null | J_discarded => []
  | _ => [j]
  end.

(** [j[key] = v] on an object (or null, which becomes an object). *)
Definition jset (key : string) (v : json) (j : json) : json :=
  match j with
  | J_obj m => J_obj (mset key v m)
  | _ => J_obj (mset key v [])
  end.

(** The value of a conversion [double -> integer] of width [w] is undefined
    behaviour when the truncated number does not fit. *)
Definition cast_float (lo hi : Z) (f : float) : outcome Z :=
  if is_finite f && (lo <=? trunc_Z f) && (trunc_Z f <=? hi) then Ret (trunc_Z f)
  else Throw (Exn_ub "floating to integer conversion out of range").

Definition get_string (j : json) : outcome string :=
  match j with J_str s => Ret s | _ => Throw Exn_type_error end.
Definition get_bool (j : json) : outcome bool :=
  match j with J_bool b => Ret b | _ => Throw Exn_type_error end.
(** [get<std::int64_t>] (the library's own integer type: no bools). *)
Definition get_int64 (j : json) : outcome Z :=
  match j with
  | J_int z | J_uint z => Ret (wrap_s 64 z)
  | J_float f => cast_float (- 2 ^ 63) (2 ^ 63 - 1) f
  | _ => Throw Exn_type_error
  end.
Definition get_uint64 (j : json) : outcome Z :=
  match j with
  | J_int z | J_uint z => Ret (wrap_u 64 z)
  | J_float f => cast_float 0 (2 ^ 64 - 1) f
  | _ => Throw Exn_type_error
  end.
(** [get] of another unsigned ([w] bits) or of a signed type. *)
Definition get_uint (w : Z) (j : json) : outcome Z :=
  match j with
  | J_int z | J_uint z => Ret (wrap_u w z)
  | J_float f => cast_float 0 (2 ^ w - 1) f
  | J_bool b => Ret (if b then 1 else 0)
  | _ => Throw Exn_type_error
  end.
Definition get_int (w : Z) (j : json) : outcome Z :=
  match j with
  | J_int z | J_uint z => Ret (wrap_s w z)
  | J_float f => cast_float (- 2 ^ (w - 1)) (2 ^ (w - 1) - 1) f
  | J_bool b => Ret (if b then 1 else 0)
  | _ => Throw Exn_type_error
  end.
Definition get_double (j : json) : outcome float :=
  match j with
  | J_int z | J_uint z => Ret (double_of_Z z)
  | J_float f => Ret f
  | _ => Throw Exn_type_error
  end.
Definition get_float32 (j : json) : outcome float :=
  match j with
  | J_int z | J_uint z => Ret (of_int binary32 z)
  | J_float f => Ret (to_float32 f)
  | J_bool b => Ret (of_int binary32 (if b then 1 else 0))
  | _ => Throw Exn_type_error
  end.
Definition get_json (j : json) : outcome json := Ret j.

(** [j.value(key, default)]: throws on a non-object and when the member exists
    with a type that does not convert; the default only replaces a MISSING
    member. *)
Definition value {A} (conv : json -> outcome A) (key : string) (dflt : A) (j : json) : outcome A :=
  match j with
  | J_obj m => match mget key m with Some v => conv v | None => Ret dflt end
  | _ => Throw Exn_type_error
  end.
Definition value_string (key : string) (j : json) : outcome string :=
  value get_string key EmptyString j.

(** Values the JSON library can hold: integers in their width, objects in key
    order, at every depth. *)
Fixpoint json_wf (j : json) : Prop :=
  match j with
  | J_int z => - 2 ^ 63 <= z < 2 ^ 63
  | J_uint z => 0 <= z < 2 ^ 64
  | J_arr l => (fix go (l : list json) := match l with [] => True | x :: r => json_wf x /\ go r end) l
  | J_obj m => msorted m /\
      (fix go (m : smap json) := match m with [] => True | x :: r => json_wf x.2 /\ go r end) m
  | _ => True
  end.

Lemma json_wf_arr l : json_wf (J_arr l) <-> Forall json_wf l.
Proof. simpl. induction l as [|x l IH]; [done|]. rewrite Forall_cons_iff, <- IH; done. Qed.

Lemma json_wf_obj m : json_wf (J_obj m) <-> msorted m /\ Forall (fun kv => json_wf kv.2) m.
Proof.
  simpl. f_equiv. induction m as [|x m IH]; [done|]. rewrite Forall_cons_iff, <- IH; done.
Qed.

Lemma json_wf_find key j v : json_wf j -> jfind key j = Some v -> json_wf v.
Proof.
  destruct j; try done. cbn [jfind]. rewrite json_wf_obj, Forall_elem.
  intros [_ H] Hg. by apply mget_elem, H in Hg.
Qed.

Lemma jfind_jset_eq key v m : jfind key (jset key v (J_obj m)) = Some v.
Proof. simpl. apply mget_mset_eq. Qed.
Lemma jfind_jset_ne key key' v m : key <> key' ->
  jfind key (jset key' v (J_obj m)) = jfind key (J_obj m).
Proof. simpl. apply mget_mset_ne. Qed.

Lemma wrap_s64_id z : - 2 ^ 63 <= z < 2 ^ 63 -> wrap_s 64 z = z.
Proof. intros. apply wrap_s_id; lia. Qed.
