(* ===== verification/Canonical.v ===== *)
(** * Canonical JSON serialization ([protocol/canonical.cpp])

    The text the message authentication code is computed over: keys in order,
    no white space, minimal escapes, integral doubles as integers.  The theorems
    show that the escaping can be undone and that the text determines the value,
    so two bodies that differ cannot share a canonical form. *)
From S2P Require Import Prelude StdMap Float Json.
Local Open Scope Z_scope.

Definition quote : ascii := "034"%char.
Definition str1 (c : ascii) : string := String c EmptyString.
Definition byte_of (c : ascii) : Z := Z.of_N (N_of_ascii c).

(** A lower-case hexadecimal digit ([%x]). *)
Definition hex_digit (d : Z) : string :=
  String (ascii_of_N (Z.to_N (if d <? 10 then 48 + d else 87 + d))) EmptyString.

Definition escape_char (c : ascii) : string :=
  let b := byte_of c in
  if b =? 34 then String "\" (str1 quote)
  else if b =? 92 then "\\"
  else if b =? 8 then "\b"
  else if b =? 9 then "\t"
  else if b =? 10 then "\n"
  else if b =? 12 then "\f"
  else if b =? 13 then "\r"
  else if b <? 32 then "\u00" +:+ hex_digit (b / 16) +:+ hex_digit (b mod 16)
  else str1 c.

Fixpoint escape_json_string (s : string) : string :=
  match s with
  | EmptyString => EmptyString
  | String c r => escape_char c +:+ escape_json_string r
  end.

(** The bounds test admits 2^63 itself, whose conversion to [std::int64_t] is
    undefined. *)
Definition canonical_number (value : float) : outcome string :=
  if negb (is_finite value) then Throw (Exn_runtime "canonical JSON: non-finite number")
  else if is_integral value &&
          fle (lit (-92233720368547758) (-2)) value && fle value (lit 92233720368547758 (-2))
  then let! z := cast_float (- 2 ^ 63) (2 ^ 63 - 1) value in Ret (dec_Z z)
  else if feq (general_value 15 value) value then Ret (general_text 15 value)
  else if feq (general_value 16 value) value then Ret (general_text 16 value)
  else Ret (general_text 17 value).

(** The elements of an array or object, separated by commas. *)
Definition join {A} (f : A -> outcome string) : bool -> list A -> outcome string :=
  fix go (first : bool) (l : list A) : outcome string :=
    match l with
    | [] => Ret EmptyString
    | x :: r =>
        let! sx := f x in
        let! sr := go false r in
        Ret ((if first then EmptyString else ",") +:+ sx +:+ sr)
    end.

Definition quoted (s : string) : string :=
  String quote (escape_json_string s +:+ str1 quote).

Fixpoint serialize_into (value : json) : outcome string :=
  match value with
  | J_null => Ret "null"
  | J_bool b => Ret (if b then "true" else "false")
  | J_int z => Ret (dec_Z z)
  | J_uint z => Ret (dec_Z z)
  | J_float f => canonical_number f
  | J_str s => Ret (quoted s)
  | J_arr l =>
      let! body := join serialize_into true l in Ret ("[" +:+ body +:+ "]")
  | J_obj m =>
      let! body := join (fun kv => let! v := serialize_into kv.2 in
                                   Ret (quoted kv.1 +:+ ":" +:+ v)) true m in
      Ret ("{" +:+ body +:+ "}")
  | J_binary | J_discarded =>
      Throw (Exn_runtime "canonical JSON: unsupported value type")
  end.

Definition canonical_serialize (value : json) : outcome string := serialize_into value.

Example serialize_sample :
  canonical_serialize (J_obj [("a", J_arr [J_int 1; J_float (lit 15 1); J_bool true]);
                              ("b", J_float (F_fin 10 0)); ("c", J_null)]) =
  Ret ("{" +:+ quoted "a" +:+ ":[1,1.5,true]," +:+ quoted "b" +:+ ":10," +:+
       quoted "c" +:+ ":null}").
Proof. vm_compute. reflexivity. Qed.

(** ** Strings *)

Lemma sapp_assoc a b c : (a +:+ b) +:+ c = a +:+ (b +:+ c).
Proof. induction a as [|x a IH]; cbn [String.append]; [done|]. by rewrite IH. Qed.
Lemma sapp_nil_r a : a +:+ EmptyString = a.
Proof. induction a as [|x a IH]; cbn [String.append]; [done|]. by rewrite IH. Qed.
Lemma sapp_inj_l a b c : a +:+ b = a +:+ c -> b = c.
Proof. induction a as [|x a IH]; cbn [String.append]; [done|]. intros [= H]. auto. Qed.

Fixpoint sall (P : ascii -> bool) (s : string) : bool :=
  match s with EmptyString => true | String c r => P c && sall P r end.
Lemma sall_app P a b : sall P (a +:+ b) = sall P a && sall P b.
Proof. induction a as [|x a IH]; cbn [String.append sall]; [done|]. by rewrite IH, andb_assoc. Qed.

(** Two texts over an alphabet, each followed by something outside it, agree. *)
Definition ends_outside (P : ascii -> bool) (r : string) : Prop :=
  match r with EmptyString => True | String c _ => P c = false end.

Lemma span_inj P a b r1 r2 : sall P a = true -> sall P b = true ->
  ends_outside P r1 -> ends_outside P r2 -> a +:+ r1 = b +:+ r2 -> a = b /\ r1 = r2.
Proof.
  revert b. induction a as [|x a IH]; intros [|y b]; cbn [String.append sall]; try done.
  - intros _ [Hy _]%andb_prop Hr1 _ ->. simpl in Hr1. congruence.
  - intros [Hx _]%andb_prop _ _ Hr2 <-. simpl in Hr2. congruence.
  - intros [_ Ha]%andb_prop [_ Hb]%andb_prop Hr1 Hr2 [= -> H].
    destruct (IH b Ha Hb Hr1 Hr2 H) as [-> ->]. done.
Qed.

(** ** Escapes can be undone *)

Definition unhex (c : ascii) : Z :=
  let b := byte_of c in if b <? 58 then b - 48 else b - 87.

(** Read one escaped character; [None] on the closing quote and on the end. *)
Definition unescape_char (s : string) : option (ascii * string) :=
  match s with
  | EmptyString => None
  | String c r =>
      if byte_of c =? 34 then None
      else if byte_of c =? 92 then
        match r with
        | EmptyString => None
        | String k r' =>
            if byte_of k =? 98 then Some ("008"%char, r')
            else if byte_of k =? 116 then Some ("009"%char, r')
            else if byte_of k =? 110 then Some ("010"%char, r')
            else if byte_of k =? 102 then Some ("012"%char, r')
            else if byte_of k =? 114 then Some ("013"%char, r')
            else if byte_of k =? 117 then
              match r' with
              | String _ (String _ (String h (String l r''))) =>
                  Some (ascii_of_N (Z.to_N (16 * unhex h + unhex l)), r'')
              | _ => None
              end
            else Some (k, r')
        end
      else Some (c, r)
  end.

Lemma unescape_escape_char c r : unescape_char (escape_char c +:+ r) = Some (c, r).
Proof. destruct c as [[] [] [] [] [] [] [] []]; reflexivity. Qed.

Lemma unescape_quote r : unescape_char (String quote r) = None.
Proof. reflexivity. Qed.

Lemma escape_inj s1 s2 r1 r2 :
  escape_json_string s1 +:+ String quote r1 = escape_json_string s2 +:+ String quote r2 ->
  s1 = s2 /\ r1 = r2.
Proof.
  revert s2. induction s1 as [|c1 s1 IH]; intros [|c2 s2]; cbn [escape_json_string];
    rewrite ?sapp_assoc; intros H; apply (f_equal unescape_char) in H as Hd.
  - simpl in H. injection H as ->. done.
  - by rewrite unescape_escape_char in Hd.
  - by rewrite unescape_escape_char in Hd.
  - rewrite !unescape_escape_char in Hd. injection Hd as -> Hd.
    destruct (IH s2 Hd) as [-> ->]. done.
Qed.

Lemma quoted_inj s1 s2 r1 r2 : quoted s1 +:+ r1 = quoted s2 +:+ r2 -> s1 = s2 /\ r1 = r2.
Proof.
  unfold quoted. cbn [String.append]. rewrite !sapp_assoc. intros [= H]. by apply escape_inj.
Qed.

(** ** Number texts *)

Definition num_char (c : ascii) : bool :=
  let b := byte_of c in
  ((48 <=? b) && (b <=? 57)) || (b =? 43) || (b =? 45) || (b =? 46) || (b =? 101).

Lemma sall_digit d : 0 <= d < 10 -> sall num_char (digit d) = true.
Proof.
  intros H. assert (d ∈ [0;1;2;3;4;5;6;7;8;9]) as Hd.
  { destruct (decide (d ∈ [0;1;2;3;4;5;6;7;8;9])) as [|Hn]; [done|]. exfalso. apply Hn.
    rewrite !elem_of_cons. lia. }
  repeat (apply elem_of_cons in Hd as [->|Hd]; [done|]). by apply elem_of_nil in Hd.
Qed.

Lemma sall_pad n z : sall num_char (pad_digits n z) = true.
Proof.
  revert z. induction n as [|n IH]; intros z; [done|]. cbn [pad_digits].
  rewrite sall_app, IH, sall_digit by (apply Z.mod_pos_bound; lia). done.
Qed.

Lemma sall_pretty_N_go x s : sall num_char s = true -> sall num_char (pretty_N_go x s) = true.
Proof.
  revert s. induction (N.lt_wf_0 x) as [x _ IH]. intros s Hs.
  destruct (decide (x = 0)%N) as [->|Hx]; [by rewrite pretty_N_go_0|].
  rewrite pretty_N_go_step by lia. apply IH.
  { apply N.div_lt; lia. }
  simpl. rewrite Hs, andb_true_r. unfold pretty_N_char.
  assert (x `mod` 10 < 10)%N by (apply N.mod_lt; lia).
  destruct (x `mod` 10)%N as [|p]; [done|].
  do 4 (destruct p as [p|p|]; try done; try lia).
Qed.

Lemma sall_pretty_N (n : N) : sall num_char (pretty n) = true.
Proof.
  unfold pretty, pretty_N. case_decide; [done|]. by apply sall_pretty_N_go.
Qed.

Lemma sall_dec_Z z : sall num_char (dec_Z z) = true.
Proof.
  unfold dec_Z, pretty, pretty_Z. destruct z; [done|apply (sall_pretty_N (Npos p))|].
  simpl. apply (sall_pretty_N (Npos p)).
Qed.

Lemma sall_frac v n : sall num_char (frac_text v n) = true.
Proof.
  unfold frac_text. destruct (strip_zeros n v n) as [v' [|k]]; [done|].
  rewrite sall_app, sall_pad. done.
Qed.

Lemma sall_general p x : sall num_char (general_text p x) = true.
Proof.
  unfold general_text. destruct (quotient x) as [n d].
  destruct (sig_digits p (Z.abs n) d) as [v ex].
  rewrite sall_app. apply andb_true_intro; split; [by destruct (sign_neg x)|].
  repeat case_match; rewrite ?sall_app, ?sall_dec_Z, ?sall_frac; done.
Qed.

Lemma canonical_number_chars f s : canonical_number f = Ret s -> sall num_char s = true.
Proof.
  unfold canonical_number. repeat case_match; try done.
  - intros [z [_ [= <-]]]%outcome_bind_ret_inv. apply sall_dec_Z.
  - intros [= <-]. apply sall_general.
  - intros [= <-]. apply sall_general.
  - intros [= <-]. apply sall_general.
Qed.

Lemma pretty_N_go_nonempty x s : s <> EmptyString -> pretty_N_go x s <> EmptyString.
Proof.
  revert s. induction (N.lt_wf_0 x) as [x _ IH]. intros s Hs.
  destruct (decide (x = 0)%N) as [->|Hx]; [by rewrite pretty_N_go_0|].
  rewrite pretty_N_go_step by lia. apply IH; [apply N.div_lt; lia|done].
Qed.

Lemma pretty_N_nonempty (n : N) : pretty n <> EmptyString.
Proof.
  unfold pretty, pretty_N. case_decide as Hn; [done|].
  rewrite pretty_N_go_step by lia. by apply pretty_N_go_nonempty.
Qed.

Lemma dec_Z_nonempty z : dec_Z z <> EmptyString.
Proof.
  unfold dec_Z, pretty, pretty_Z. destruct z; [done|apply (pretty_N_nonempty (Npos p))|done].
Qed.

Lemma sapp_nonempty_l a b : a <> EmptyString -> a +:+ b <> EmptyString.
Proof. by destruct a. Qed.
Lemma sapp_nonempty_r a b : b <> EmptyString -> a +:+ b <> EmptyString.
Proof. by destruct a. Qed.

Lemma general_text_nonempty p x : general_text p x <> EmptyString.
Proof.
  unfold general_text. destruct (quotient x) as [n d].
  destruct (sig_digits p (Z.abs n) d) as [v ex]. apply sapp_nonempty_r.
  repeat case_match; try done; apply sapp_nonempty_l, dec_Z_nonempty.
Qed.

Lemma canonical_number_nonempty f s : canonical_number f = Ret s -> s <> EmptyString.
Proof.
  unfold canonical_number. repeat case_match; try done.
  - intros [z [_ [= <-]]]%outcome_bind_ret_inv. apply dec_Z_nonempty.
  - intros [= <-]. apply general_text_nonempty.
  - intros [= <-]. apply general_text_nonempty.
  - intros [= <-]. apply general_text_nonempty.
Qed.

(** ** The canonical text determines the value *)

(** The text of a number; two numbers are canonically equal when it agrees. *)
Definition number_text (j : json) : option (outcome string) :=
  match j with
  | J_int z | J_uint z => Some (Ret (dec_Z z))
  | J_float f => Some (canonical_number f)
  | _ => None
  end.

(** Equality of JSON values up to the representation of numbers. *)
Inductive canon_eq : json -> json -> Prop :=
| ce_null : canon_eq J_null J_null
| ce_bool b : canon_eq (J_bool b) (J_bool b)
| ce_num a b t : number_text a = Some (Ret t) -> number_text b = Some (Ret t) -> canon_eq a b
| ce_str s : canon_eq (J_str s) (J_str s)
| ce_arr l1 l2 : Forall2 canon_eq l1 l2 -> canon_eq (J_arr l1) (J_arr l2)
| ce_obj m1 m2 : Forall2 (fun x y => x.1 = y.1 /\ canon_eq x.2 y.2) m1 m2 ->
    canon_eq (J_obj m1) (J_obj m2).

(** What may follow a value inside a serialization: nothing, a comma, or a
    closing bracket. *)
Definition closes (r : string) : Prop :=
  match r with
  | EmptyString => True
  | String c _ => c = "," %char \/ c = "]"%char \/ c = "}"%char
  end.
Definition opens (s : string) : Prop :=
  match s with
  | EmptyString => False
  | String c _ => c <> ","%char /\ c <> "]"%char /\ c <> "}"%char
  end.

Lemma closes_outside r : closes r -> ends_outside num_char r.
Proof. destruct r as [|c r]; [done|]. by intros [->|[->| ->]]. Qed.

Lemma num_opens s : s <> EmptyString -> sall num_char s = true -> opens s.
Proof.
  destruct s as [|c s]; [done|]. simpl. intros _ [Hc _]%andb_prop.
  split_and!; intros ->; done.
Qed.

Lemma opens_app s r : opens s -> opens (s +:+ r).
Proof. by destruct s. Qed.

Lemma number_text_serialize j t : number_text j = Some t -> serialize_into j = t.
Proof. destruct j; simpl; congruence. Qed.

Lemma number_text_ok j t : number_text j = Some (Ret t) ->
  sall num_char t = true /\ t <> EmptyString.
Proof.
  destruct j; simpl; try done.
  - intros [= <-]. split; [apply sall_dec_Z|apply dec_Z_nonempty].
  - intros [= <-]. split; [apply sall_dec_Z|apply dec_Z_nonempty].
  - intros [= H]. split; [by apply (canonical_number_chars f)|by apply (canonical_number_nonempty f)].
Qed.

(** The shape of a serialization: a number text, or a distinctive first
    character. *)
Lemma serialize_cases j s : serialize_into j = Ret s ->
  number_text j = Some (Ret s) \/
  (number_text j = None /\ exists c r, s = String c r /\ num_char c = false /\
     c = match j with
         | J_null => "n" | J_bool true => "t" | J_bool false => "f"
         | J_str _ => quote | J_arr _ => "[" | _ => "{" end%char).
Proof.
  destruct j; simpl; try (intros [= <-]; by left); try (intros H; left; by f_equal).
  - intros [= <-]. right. split; [done|]. eauto.
  - intros [= <-]. right. split; [done|]. destruct b; eauto.
  - intros [= <-]. right. split; [done|]. eexists _, _. split; [done|]. done.
  - intros [b [_ [= <-]]]%outcome_bind_ret_inv. right. split; [done|]. eexists _, _. done.
  - intros [b [_ [= <-]]]%outcome_bind_ret_inv. right. split; [done|]. eexists _, _. done.
Qed.

Lemma serialize_opens j s : serialize_into j = Ret s -> opens s.
Proof.
  intros H. destruct (serialize_cases j s H) as [Hn|(_ & c & r & -> & _ & ->)].
  - destruct (number_text_ok j s Hn). by apply num_opens.
  - destruct j as [|[]| | | | | | | |]; simpl; split_and!; done.
Qed.

(** Injectivity of the serialization [f] of one element at [x], in front of a
    closing text. *)
Definition inj_at {A} (f : A -> outcome string) (eqv : A -> A -> Prop) (x : A) : Prop :=
  forall y s1 s2 r1 r2, f x = Ret s1 -> f y = Ret s2 -> closes r1 -> closes r2 ->
    s1 +:+ r1 = s2 +:+ r2 -> eqv x y /\ r1 = r2.

Section Join.
Context {A : Type} (f : A -> outcome string) (eqv : A -> A -> Prop).
Hypothesis f_opens : forall x s, f x = Ret s -> opens s.

Lemma join_closes l s r : join f false l = Ret s -> closes r -> closes (s +:+ r).
Proof.
  destruct l as [|x l]; simpl; [by intros [= <-]|].
  intros [sx [_ H]]%outcome_bind_ret_inv ?.
  apply outcome_bind_ret_inv in H as [sr [_ [= <-]]]. simpl. auto.
Qed.

Lemma join_false_inj l1 l2 s1 s2 c r1 r2 :
  c = "]"%char \/ c = "}"%char ->
  Forall (inj_at f eqv) l1 ->
  join f false l1 = Ret s1 -> join f false l2 = Ret s2 ->
  s1 +:+ String c r1 = s2 +:+ String c r2 -> Forall2 eqv l1 l2 /\ r1 = r2.
Proof.
  intros Hc Hall. revert l2 s1 s2.
  induction Hall as [|x l1 Hx Hall IH]; intros [|y l2] s1 s2; cbn [join].
  - intros [= <-] [= <-] [= ->]. by split; constructor.
  - intros [= <-] (sy & _ & (sr & _ & [= <-])%outcome_bind_ret_inv)%outcome_bind_ret_inv.
    intros [= -> _]. by destruct Hc.
  - intros (sx & _ & (sr & _ & [= <-])%outcome_bind_ret_inv)%outcome_bind_ret_inv [= <-].
    intros [= <- _]. by destruct Hc.
  - intros (sx & Esx & (sr & Esr & [= <-])%outcome_bind_ret_inv)%outcome_bind_ret_inv.
    intros (sy & Esy & (sr' & Esr' & [= <-])%outcome_bind_ret_inv)%outcome_bind_ret_inv.
    intros H. injection H as H. rewrite !sapp_assoc in H.
    assert (forall s r, join f false s = Ret r -> closes (r +:+ String c r1)) as Hcl.
    { intros. eapply join_closes; [done|]. simpl. by destruct Hc; auto. }
    assert (forall s r, join f false s = Ret r -> closes (r +:+ String c r2)) as Hcl2.
    { intros. eapply join_closes; [done|]. simpl. by destruct Hc; auto. }
    edestruct Hx as [Hxy Hr]; [exact Esx|exact Esy|exact (Hcl _ _ Esr)|exact (Hcl2 _ _ Esr')|exact H|].
    destruct (IH l2 sr sr' Esr Esr' Hr) as [Hl ->]. split; [by constructor|done].
Qed.

Lemma join_inj l1 l2 s1 s2 c r1 r2 :
  c = "]"%char \/ c = "}"%char ->
  Forall (inj_at f eqv) l1 ->
  join f true l1 = Ret s1 -> join f true l2 = Ret s2 ->
  s1 +:+ String c r1 = s2 +:+ String c r2 -> Forall2 eqv l1 l2 /\ r1 = r2.
Proof.
  intros Hc Hall. destruct l1 as [|x l1], l2 as [|y l2]; cbn [join].
  - intros [= <-] [= <-] [= ->]. by split; constructor.
  - intros [= <-] (sy & Hy & (sr & _ & [= <-])%outcome_bind_ret_inv)%outcome_bind_ret_inv.
    apply f_opens in Hy. destruct sy as [|k sy]; [done|]. intros [= <- _].
    destruct Hy as (_ & ? & ?). by destruct Hc.
  - intros (sy & Hy & (sr & _ & [= <-])%outcome_bind_ret_inv)%outcome_bind_ret_inv [= <-].
    apply f_opens in Hy. destruct sy as [|k sy]; [done|]. intros [= -> _].
    destruct Hy as (_ & ? & ?). by destruct Hc.
  - intros (sx & Esx & (sr & Esr & [= <-])%outcome_bind_ret_inv)%outcome_bind_ret_inv.
    intros (sy & Esy & (sr' & Esr' & [= <-])%outcome_bind_ret_inv)%outcome_bind_ret_inv H.
    apply (join_false_inj (x :: l1) (y :: l2) ("," +:+ sx +:+ sr) ("," +:+ sy +:+ sr') c);
      cbn [join]; rewrite ?Esx, ?Esy; simpl; rewrite ?Esr, ?Esr'; try done.
    simpl. f_equal. exact H.
Qed.
End Join.

Lemma member_inj m : Forall (fun kv : string * json => inj_at serialize_into canon_eq kv.2) m ->
  Forall (inj_at (fun kv => let! v := serialize_into kv.2 in Ret (quoted kv.1 +:+ ":" +:+ v))
            (fun x y => x.1 = y.1 /\ canon_eq x.2 y.2)) m.
Proof.
  apply Forall_impl. intros [k v] IH [k' v'] s1 s2 r1 r2; simpl.
  intros (t1 & E1 & [= <-])%outcome_bind_ret_inv (t2 & E2 & [= <-])%outcome_bind_ret_inv.
  intros Hr1 Hr2 H. injection H as H. rewrite !sapp_assoc in H. apply escape_inj in H as [-> H].
  simpl in H. injection H as H.
  destruct (IH v' t1 t2 r1 r2 E1 E2 Hr1 Hr2 H) as [Hv ->]. done.
Qed.

Lemma member_opens (kv : string * json) s :
  (let! v := serialize_into kv.2 in Ret (quoted kv.1 +:+ ":" +:+ v)) = Ret s -> opens s.
Proof. intros (t & _ & [= <-])%outcome_bind_ret_inv. done. Qed.

Lemma number_inj a y s1 s2 r1 r2 : number_text a = Some (Ret s1) ->
  serialize_into y = Ret s2 -> closes r1 -> closes r2 -> s1 +:+ r1 = s2 +:+ r2 ->
  number_text y = Some (Ret s2) /\ canon_eq a y /\ r1 = r2.
Proof.
  intros N1 H2 Hr1 Hr2 H. destruct (number_text_ok _ _ N1) as [C1 E1].
  destruct (serialize_cases _ _ H2) as [N2|(_ & c & q & -> & C & _)].
  - destruct (number_text_ok _ _ N2) as [C2 _].
    destruct (span_inj num_char s1 s2 r1 r2) as [<- ->]; auto using closes_outside.
    split_and!; [done|by eapply ce_num|done].
  - exfalso. destruct s1 as [|k s1]; [done|]. injection H as -> _.
    simpl in C1. by rewrite C in C1.
Qed.

Lemma serialize_inj_at a : inj_at serialize_into canon_eq a.
Proof.
  induction a as [| | | | | |l IH|m IH| |] using json_rect';
    intros y s1 s2 r1 r2 H1 H2 Hr1 Hr2 H;
    try (edestruct number_inj as (_ & Heq); [| exact H2|exact Hr1|exact Hr2|exact H|exact Heq];
         cbn [number_text serialize_into] in H1 |- *; by rewrite H1);
    (destruct (serialize_cases _ _ H2) as [N2|(N2 & c2 & q2 & E2 & _ & Hc)];
     [by destruct (number_inj _ _ _ _ _ _ N2 H1 Hr2 Hr1 (eq_sym H)) as (N1 & _)|]);
    cbn [serialize_into] in H1;
    try discriminate H1;
    try (apply outcome_bind_ret_inv in H1 as (t1 & E1 & H1));
    injection H1 as <-.
  - destruct y as [|[]| | | | | | | |]; subst; simpl in H; try discriminate N2; try discriminate H2; try discriminate H.
    simpl in H2. injection H2 as <-. injection H as ->. by split; constructor.
  - destruct y as [|[]| | | | | | | |], b; subst; simpl in H; try discriminate H;
      simpl in H2; injection H2 as <-; injection H as ->; by split; constructor.
  - destruct y as [|[]| | | | | | | |]; subst; try discriminate N2; try discriminate H2; try discriminate H.
    injection H2 as E2. unfold quoted in H. rewrite <- E2 in H.
    injection H as H. rewrite !sapp_assoc in H. apply escape_inj in H as [-> ->].
    by split; constructor.
  - destruct y as [|[]| | | | | | | |]; subst; try discriminate N2; try discriminate H2; try discriminate H.
    cbn [serialize_into] in H2. apply outcome_bind_ret_inv in H2 as (t2 & F2 & [= E2]).
    rewrite <- E2 in H. injection H as H. rewrite !sapp_assoc in H.
    destruct (join_inj serialize_into canon_eq serialize_opens _ _ _ _ "]"%char _ _
                (or_introl eq_refl) IH E1 F2 H) as [Hl ->].
    by split; constructor.
  - destruct y as [|[]| | | | | | | |]; subst; try discriminate N2; try discriminate H2; try discriminate H.
    cbn [serialize_into] in H2. apply outcome_bind_ret_inv in H2 as (t2 & F2 & [= E2]).
    rewrite <- E2 in H. injection H as H. rewrite !sapp_assoc in H.
    destruct (join_inj _ _ member_opens _ _ _ _ "}"%char _ _
                (or_intror eq_refl) (member_inj _ IH) E1 F2 H) as [Hl ->].
    by split; constructor.
Qed.


