(* ===== verification/Messages.v ===== *)
(** * Message table and envelope ([fountain_messages.hpp], [envelope.cpp]) *)
From S2P Require Import Prelude StdMap Float Json.
Local Open Scope Z_scope.

Definition kWireVersion : Z := 2.
Definition kHandshakeVersion : Z := 1.
Definition kMaxControlFrameBytes : Z := 4096.
Definition kAuthScheme : string := "hmac-sha256".
Definition kAuthScope : string := "control".
Definition kSessionProofMsg : string := "ota_check".

(** [C2s] is device to controller, [S2c] controller to device. *)
Inductive Direction := C2s | S2c.
Inductive AuthLevel := Auth_None | Auth_Session | Auth_Control.

#[export] Instance AuthLevel_eq_dec : EqDecision AuthLevel.
Proof. solve_decision. Defined.

Record MessageMeta := {
  meta_name : string;
  meta_direction : Direction;
  meta_wire : Z;
  meta_auth : AuthLevel;
  meta_request : bool;
  meta_responses : list string;
  meta_response_count : nat
}.

(** The loop over the first [response_count] slots. *)
Definition accepts_response (meta : MessageMeta) (type : string) : bool :=
  existsb (String.eqb type) (take (meta_response_count meta) (meta_responses meta)).

Definition row name dir wire auth request responses count : MessageMeta :=
  {| meta_name := name; meta_direction := dir; meta_wire := wire; meta_auth := auth;
     meta_request := request; meta_responses := responses;
     meta_response_count := count |}.

Definition kMessages : list MessageMeta := [
  row "hello" C2s 1 Auth_None true ["hello_ack"; EmptyString] 1;
  row "hello_ack" S2c 1 Auth_None false [EmptyString; EmptyString] 0;
  row "protocol_mismatch" C2s 1 Auth_None false [EmptyString; EmptyString] 0;
  row "ota_check" C2s 2 Auth_Session true ["ota_none"; "ota_available"] 2;
  row "ota_available" S2c 2 Auth_Control false ["ota_status"; EmptyString] 1;
  row "ota_none" S2c 2 Auth_None false [EmptyString; EmptyString] 0;
  row "ota_cancel" S2c 2 Auth_Control false ["ota_status"; EmptyString] 1;
  row "ota_status" C2s 2 Auth_None false [EmptyString; EmptyString] 0;
  row "heartbeat" C2s 2 Auth_None false [EmptyString; EmptyString] 0;
  row "dp_report" C2s 2 Auth_None false [EmptyString; EmptyString] 0;
  row "dp_read" S2c 2 Auth_None true ["dp_report"; EmptyString] 1;
  row "dp_write" S2c 2 Auth_Control true ["dp_write_result"; EmptyString] 1;
  row "dp_write_result" C2s 2 Auth_None false [EmptyString; EmptyString] 0;
  row "command" S2c 2 Auth_Control true ["command_result"; EmptyString] 1;
  row "command_result" C2s 2 Auth_None false [EmptyString; EmptyString] 0;
  row "error_report" C2s 2 Auth_None false [EmptyString; EmptyString] 0;
  row "device_alert" C2s 2 Auth_None false [EmptyString; EmptyString] 0;
  row "log_read" S2c 2 Auth_Control true ["log_batch"; EmptyString] 1;
  row "log_batch" C2s 2 Auth_None false [EmptyString; EmptyString] 0;
  row "log_read_prev" S2c 2 Auth_Control true ["log_batch"; EmptyString] 1;
  row "log_ack_prev" S2c 2 Auth_Control true ["log_ack_result"; EmptyString] 1;
  row "log_ack_result" C2s 2 Auth_None false [EmptyString; EmptyString] 0 ].

Definition find_meta (name : string) : option MessageMeta :=
  List.find (fun meta => String.eqb (meta_name meta) name) kMessages.

(** Copy the members of [body] over those of [msg]. *)
Definition overlay (msg body : smap json) : smap json :=
  fold_left (fun m kv => mset kv.1 kv.2 m) body msg.

(** [build_message]; [now_ms] is the wall clock read when [ts] is negative. *)
Definition build_message (now_ms : Z) (name : string) (body : json)
    (msg_id in_reply_to : string) (ts : Z) : outcome json :=
  match find_meta name with
  | None => Throw (Exn_runtime ("unknown message type: " +:+ name))
  | Some meta =>
      let msg := mof [("v", J_int (meta_wire meta)); ("type", J_str name);
                      ("ts", J_int (if 0 <=? ts then ts else now_ms))] in
      let msg := if String.eqb msg_id EmptyString then msg
                 else mset "msg_id" (J_str msg_id) msg in
      let msg := if String.eqb in_reply_to EmptyString then msg
                 else mset "in_reply_to" (J_str in_reply_to) msg in
      Ret (J_obj (match body with J_obj b => overlay msg b | _ => msg end))
  end.

(** ** The table *)

Lemma find_meta_In name meta :
  find_meta name = Some meta -> meta ∈ kMessages /\ meta_name meta = name.
Proof.
  unfold find_meta. intros H. apply List.find_some in H as [Hin He].
  apply String.eqb_eq in He. by rewrite list_elem_of_In.
Qed.

(** Lifting a boolean check of the 22 rows to a property of every lookup. *)
Lemma find_meta_check (P : MessageMeta -> bool) name meta :
  forallb P kMessages = true -> find_meta name = Some meta -> P meta = true.
Proof.
  intros HP Hf. apply find_meta_In in Hf as [Hin _].
  rewrite forallb_forall in HP. by apply HP, list_elem_of_In.
Qed.

Lemma kMessages_names_NoDup : NoDup (map meta_name kMessages).
Proof. apply (bool_decide_unpack _). vm_compute. done. Qed.

(** ** Envelope *)

Lemma mget_overlay k msg body : NoDup (keys body) ->
  mget k (overlay msg body) =
  match mget k body with Some v => Some v | None => mget k msg end.
Proof.
  revert msg. induction body as [|[k' v'] body IH]; intros msg; [done|].
  cbn [keys map fst]. intros [Hn Hd]%list.NoDup_cons.
  change (overlay msg ((k', v') :: body)) with (overlay (mset k' v' msg) body).
  rewrite IH by done. simpl. destruct (String.eqb_spec k k') as [->|Hne].
  - rewrite (proj2 (mget_None body k')) by done. apply mget_mset_eq.
  - destruct (mget k body); [done|]. by apply mget_mset_ne.
Qed.

Lemma msorted_overlay msg body : msorted msg -> msorted (overlay msg body).
Proof.
  unfold overlay. revert msg. induction body as [|kv body IH]; simpl; auto using msorted_mset.
Qed.

(** What [build_message] puts under each key. *)
Lemma build_message_lookup now name body msg_id irt ts msg key :
  build_message now name (J_obj body) msg_id irt ts = Ret msg -> NoDup (keys body) ->
  exists meta, find_meta name = Some meta /\
  jfind key msg =
    match mget key body with
    | Some v => Some v
    | None =>
        if String.eqb key "in_reply_to" then
          if String.eqb irt EmptyString then None else Some (J_str irt)
        else if String.eqb key "msg_id" then
          if String.eqb msg_id EmptyString then None else Some (J_str msg_id)
        else if String.eqb key "ts" then Some (J_int (if 0 <=? ts then ts else now))
        else if String.eqb key "type" then Some (J_str name)
        else if String.eqb key "v" then Some (J_int (meta_wire meta))
        else None
    end.
Proof.
  unfold build_message. destruct (find_meta name) as [meta|]; [|done].
  intros [= <-] Hd. exists meta. split; [done|]. cbn [jfind].
  rewrite mget_overlay by done. destruct (mget key body); [done|].
  unfold mof. cbn [fold_left fst snd].
  destruct (String.eqb irt EmptyString), (String.eqb msg_id EmptyString);
    rewrite ?mget_mset; cbn [mget];
    repeat match goal with
    | |- context [decide (?a = ?b)] =>
        destruct (decide (a = b)) as [->|?]; [done|]
    | |- context [String.eqb ?a ?b] =>
        first [rewrite (proj2 (String.eqb_neq a b)) by done
              | destruct (String.eqb_spec a b) as [->|?]; [done|]]
    end; done.
Qed.

Lemma build_message_sorted now name body msg_id irt ts m :
  build_message now name body msg_id irt ts = Ret m -> exists o, m = J_obj o /\ msorted o.
Proof.
  unfold build_message. destruct (find_meta name) as [meta|]; [|done]. intros Heq. apply ret_inj in Heq as <-.
  eexists. split; [done|].
  assert (forall (b1 b2 : bool) (o : smap json) x y, msorted o ->
    msorted (if b1 then if b2 then o else mset "msg_id" x o
             else mset "in_reply_to" y (if b2 then o else mset "msg_id" x o))) as H.
  { intros [] [] *; auto using msorted_mset. }
  destruct body; try apply msorted_overlay; apply H, msorted_mof.
Qed.

Lemma build_message_obj_total now name body msg_id irt ts :
  is_Some (find_meta name) -> exists m, build_message now name body msg_id irt ts = Ret m.
Proof. intros [meta H]. unfold build_message. rewrite H. eauto. Qed.
