(* ===== verification/Auth.v ===== *)
(** * Message authentication ([protocol/auth.hpp], [auth.cpp])

    SHA-256, HMAC-SHA-256 and the base64 block encoder come from the crypto
    library and are parameters ([crypto]). *)
From S2P Require Import Prelude StdMap Float Json Canonical Messages.
Local Open Scope Z_scope.

Record crypto := {
  SHA256 : string -> list Z;
  HMAC_sha256 : list Z -> string -> list Z;
  EVP_EncodeBlock : list Z -> string
}.

Definition kEnvelopeFields : list string :=
  ["v"; "type"; "serial"; "ts"; "msg_id"; "in_reply_to"; "auth"].

Record AuthContext := {
  auth_key : list Z;
  auth_kid : string;
  auth_device_id : string;
  auth_server_nonce : string;
  auth_client_nonce : string
}.

Definition kUnitSeparator : ascii := "031"%char.

Definition is_envelope (key : string) : bool := existsb (String.eqb key) kEnvelopeFields.

(** Missing or null: empty.  Both integer kinds satisfy [is_number_integer], so
    an unsigned value above the [int64] range is printed wrapped around. *)
Definition field_string (msg : json) (key : string) : outcome string :=
  match jfind key msg with
  | None | Some J_null => Ret EmptyString
  | Some (J_str s) => Ret s
  | Some v =>
      if is_number_integer v then let! z := get_int64 v in Ret (dec_Z z)
      else if is_number_unsigned v then let! z := get_uint64 v in Ret (dec_Z z)
      else canonical_serialize v
  end.

Definition canonical_body (msg : json) : outcome json :=
  match msg with
  | J_obj m => Ret (J_obj (mof (List.filter (fun kv => negb (is_envelope kv.1)) m)))
  | _ => match elements msg with
         | [] => Ret (J_obj [])
         | _ => Throw Exn_type_error
         end
  end.

Fixpoint hex_bytes (l : list Z) : string :=
  match l with
  | [] => EmptyString
  | b :: r => hex_digit (Z.shiftr b 4) +:+ hex_digit (Z.land b 15) +:+ hex_bytes r
  end.

(** Strings joined by the unit separator. *)
Fixpoint join_fields (l : list string) : string :=
  match l with
  | [] => EmptyString
  | [s] => s
  | s :: r => s +:+ String kUnitSeparator (join_fields r)
  end.

Definition direction_text (dir : Direction) : string :=
  match dir with C2s => "c2s" | S2c => "s2c" end.

Section WithCrypto.
Context (C : crypto).

Definition body_hash_hex (msg : json) : outcome string :=
  let! body := canonical_body msg in
  let! canon := canonical_serialize body in
  Ret (hex_bytes (SHA256 C canon)).

(** The thirteen fields in their order. *)
Definition mac_fields (msg : json) (ctx : AuthContext) (dir : Direction)
    (kid : string) (seq : Z) : outcome (list string) :=
  let! v := field_string msg "v" in
  let! type := field_string msg "type" in
  let! serial := field_string msg "serial" in
  let! ts := field_string msg "ts" in
  let! msg_id := field_string msg "msg_id" in
  let! in_reply_to := field_string msg "in_reply_to" in
  let! bhash := body_hash_hex msg in
  Ret [v; type; direction_text dir; auth_device_id ctx; serial; ts; msg_id; in_reply_to;
       kid; dec_Z seq; auth_server_nonce ctx; auth_client_nonce ctx; bhash].

Definition mac_input (msg : json) (ctx : AuthContext) (dir : Direction)
    (kid : string) (seq : Z) : outcome string :=
  let! fields := mac_fields msg ctx dir kid seq in
  Ret (join_fields fields).

(** base64 of the first 128 bits. *)
Definition compute_mac (key : list Z) (raw : string) : string :=
  EVP_EncodeBlock C (take 16 (HMAC_sha256 C key raw)).

Definition sign (msg : json) (ctx : AuthContext) (seq : Z) (dir : Direction) : outcome json :=
  let! raw := mac_input msg ctx dir (auth_kid ctx) seq in
  Ret (jset "auth" (J_obj (mof [("kid", J_str (auth_kid ctx)); ("seq", J_int seq);
                                ("mac", J_str (compute_mac (auth_key ctx) raw))])) msg).

Inductive VerifyResult :=
| V_ok | V_missing_auth | V_kid_mismatch | V_bad_seq | V_mac_mismatch.

Definition verify_reason (r : VerifyResult) : string :=
  match r with
  | V_ok => "ok"
  | V_missing_auth => "missing_auth"
  | V_kid_mismatch => "kid_mismatch"
  | V_bad_seq => "bad_seq"
  | V_mac_mismatch => "mac_mismatch"
  end.

Definition verify (msg : json) (ctx : AuthContext) (dir : Direction) : outcome VerifyResult :=
  match jfind "auth" msg with
  | Some (J_obj a) =>
      let auth := J_obj a in
      let! kid := value_string "kid" auth in
      if negb (String.eqb kid (auth_kid ctx)) then Ret V_kid_mismatch else
      match jfind "seq" auth with
      | Some sq =>
          if is_number_integer sq then
            let! seq := get_int64 sq in
            let! raw := mac_input msg ctx dir kid seq in
            let expected := compute_mac (auth_key ctx) raw in
            let! given := value_string "mac" auth in
            if String.eqb expected given then Ret V_ok else Ret V_mac_mismatch
          else Ret V_bad_seq
      | None => Ret V_bad_seq
      end
  | _ => Ret V_missing_auth
  end.
End WithCrypto.

(** [AntiReplay]: the state is [last_], 0 for a fresh connection. *)
Definition antireplay_check (last seq : Z) : bool * Z :=
  if seq <=? last then (false, last) else (true, seq).

(** ** Key files *)

Definition isspace (c : ascii) : bool :=
  let b := byte_of c in (b =? 32) || ((9 <=? b) && (b <=? 13)).

Definition nibble_of (c : ascii) : option Z :=
  let b := byte_of c in
  if (48 <=? b) && (b <=? 57) then Some (b - 48)
  else if (97 <=? b) && (b <=? 102) then Some (b - 97 + 10)
  else if (65 <=? b) && (b <=? 70) then Some (b - 65 + 10)
  else None.

Fixpoint strip_space (s : string) : string :=
  match s with
  | EmptyString => EmptyString
  | String c r => if isspace c then strip_space r else String c (strip_space r)
  end.

(** Decode digit pairs left to right; [None] at the first invalid digit. *)
Fixpoint hex_pairs (n : nat) (s : string) : option (list Z) :=
  match n with
  | O => Some []
  | S n' =>
      match s with
      | String a (String b r) =>
          match nibble_of a with
          | None => None
          | Some h =>
              match nibble_of b with
              | None => None
              | Some l =>
                  match hex_pairs n' r with
                  | None => None
                  | Some t => Some (Z.lor (Z.shiftl h 4) l :: t)
                  end
              end
          end
      | _ => None
      end
  end.

(** [load_hmac_key_file]; [content] is the file's content, [None] when it cannot
    be opened. *)
Definition load_hmac_key_file (path : string) (content : option string) : outcome (list Z) :=
  match content with
  | None => Throw (Exn_runtime ("fountain.hmac_key_file: cannot open " +:+ path))
  | Some text =>
      let hex := strip_space text in
      if negb (Nat.eqb (String.length hex) 64) then
        Throw (Exn_runtime ("fountain.hmac_key_file: expected 64 hex chars in " +:+ path))
      else
        match hex_pairs 32 hex with
        | Some key => Ret key
        | None => Throw (Exn_runtime ("fountain.hmac_key_file: invalid hex in " +:+ path))
        end
  end.

(** ** Lemmas *)

Lemma filter_mset {V} (P : string -> bool) k (v : V) m : P k = false ->
  List.filter (fun kv => P kv.1) (mset k v m) = List.filter (fun kv => P kv.1) m.
Proof.
  intros Hk. induction m as [|[k' v'] m IH]; simpl; [by rewrite Hk|].
  destruct (String.eqb_spec k k') as [->|Hne]; simpl; [by rewrite Hk|].
  destruct (key_ltb k k'); simpl; [by rewrite Hk|]. by rewrite IH.
Qed.

Lemma canonical_body_envelope k v m : is_envelope k = true ->
  canonical_body (jset k v (J_obj m)) = canonical_body (J_obj m).
Proof.
  intros Hk. simpl. rewrite (filter_mset (fun k => negb (is_envelope k))); [done|].
  by rewrite Hk.
Qed.

Lemma field_string_auth m v key : key <> "auth" ->
  field_string (jset "auth" v (J_obj m)) key = field_string (J_obj m) key.
Proof. intros H. unfold field_string. by rewrite jfind_jset_ne. Qed.

(** Setting [auth] changes no field of the authenticated input. *)
Lemma mac_input_auth C m v ctx dir kid seq :
  mac_input C (jset "auth" v (J_obj m)) ctx dir kid seq = mac_input C (J_obj m) ctx dir kid seq.
Proof.
  unfold mac_input, mac_fields, body_hash_hex.
  rewrite canonical_body_envelope by done. by rewrite !field_string_auth by done.
Qed.

Lemma sign_obj C m ctx seq dir j : sign C (J_obj m) ctx seq dir = Ret j ->
  exists raw, mac_input C (J_obj m) ctx dir (auth_kid ctx) seq = Ret raw /\
    j = jset "auth" (J_obj (mof [("kid", J_str (auth_kid ctx)); ("seq", J_int seq);
                                 ("mac", J_str (compute_mac C (auth_key ctx) raw))])) (J_obj m).
Proof. intros (raw & Hr & [= <-])%outcome_bind_ret_inv. eauto. Qed.

Lemma sign_verifies C m ctx seq dir j : - 2 ^ 63 <= seq < 2 ^ 63 ->
  sign C (J_obj m) ctx seq dir = Ret j -> verify C j ctx dir = Ret V_ok.
Proof.
  intros Hs (raw & Hr & ->)%sign_obj. unfold verify.
  rewrite jfind_jset_eq. unfold value_string, value. cbn [jfind].
  change (mof _) with [("kid", J_str (auth_kid ctx));
    ("mac", J_str (compute_mac C (auth_key ctx) raw)); ("seq", J_int seq)].
  change (mget "kid" _) with (Some (J_str (auth_kid ctx))).
  change (mget "seq" _) with (Some (J_int seq)).
  change (mget "mac" _) with (Some (J_str (compute_mac C (auth_key ctx) raw))).
  cbn [get_string outcome_bind]. rewrite String.eqb_refl. cbn [negb is_number_integer get_int64].
  rewrite wrap_s64_id by done. cbn [outcome_bind]. rewrite mac_input_auth, Hr.
  cbn [outcome_bind]. by rewrite String.eqb_refl.
Qed.

(** C17: whatever message the controller signs, with any key, nonces and
    direction and a sequence number in the [int64] range, the verification under
    the same context accepts: signing and verifying agree on the thirteen
    fields, and setting [auth] does not disturb them. *)
Theorem sign_verify C m ctx seq dir j : - 2 ^ 63 <= seq < 2 ^ 63 ->
  sign C (J_obj m) ctx seq dir = Ret j -> verify C j ctx dir = Ret V_ok.
Proof. apply sign_verifies. Qed.

Definition toy_crypto : crypto := {|
  SHA256 := fun s => map byte_of (String.list_ascii_of_string s);
  HMAC_sha256 := fun k s => k ++ map byte_of (String.list_ascii_of_string s);
  EVP_EncodeBlock := hex_bytes |}.
Definition toy_ctx : AuthContext := {|
  auth_key := [1; 2; 3]; auth_kid := "1"; auth_device_id := "dev";
  auth_server_nonce := "sn"; auth_client_nonce := "cn" |}.

Lemma sign_verify_witness :
  exists j, sign toy_crypto (J_obj [("type", J_str "command")]) toy_ctx 7 S2c = Ret j /\
    verify toy_crypto j toy_ctx S2c = Ret V_ok.
Proof.
  eexists. split; [vm_compute; reflexivity|].
  apply (sign_verify toy_crypto [("type", J_str "command")] toy_ctx 7 S2c); [lia|].
  vm_compute. reflexivity.
Defined.

(** ** What a verified message guarantees *)

(** The members of an accepted [auth] object: our key id (a missing [kid] counts
    as the empty one), an integer sequence number, and the MAC. *)
Definition auth_members (C : crypto) (j : json) (ctx : AuthContext) (dir : Direction)
    (a : smap json) (sq : json) (seq : Z) (raw : string) : Prop :=
  value_string "kid" (J_obj a) = Ret (auth_kid ctx) /\
  mget "seq" a = Some sq /\ is_number_integer sq = true /\ get_int64 sq = Ret seq /\
  mac_input C j ctx dir (auth_kid ctx) seq = Ret raw /\
  value_string "mac" (J_obj a) = Ret (compute_mac C (auth_key ctx) raw).

(** a message is accepted only if it has an [auth] object with our key id,
    an integer sequence number and exactly the MAC that the shared key gives for
    the message's own thirteen fields under that sequence number. *)
Theorem verify_sound C j ctx dir : verify C j ctx dir = Ret V_ok ->
  exists a sq seq raw, jfind "auth" j = Some (J_obj a) /\ auth_members C j ctx dir a sq seq raw.
Proof.
  unfold verify. destruct (jfind "auth" j) as [[| | | | | | |a| |]|]; try discriminate.
  intros (kid & Hkid & H)%outcome_bind_ret_inv.
  destruct (String.eqb_spec kid (auth_kid ctx)) as [->|]; [|discriminate].
  cbn [negb jfind] in H. destruct (mget "seq" a) as [sq|] eqn:Esq; [|discriminate].
  destruct (is_number_integer sq) eqn:Ei; [|discriminate].
  apply outcome_bind_ret_inv in H as (seq & Hseq & H).
  apply outcome_bind_ret_inv in H as (raw & Hraw & H).
  apply outcome_bind_ret_inv in H as (given & Hg & H).
  destruct (String.eqb_spec (compute_mac C (auth_key ctx) raw) given) as [<-|]; [|discriminate].
  exists a, sq, seq, raw. unfold auth_members. auto 10.
Qed.

Lemma verify_sound_witness :
  exists j a sq seq raw, verify toy_crypto j toy_ctx S2c = Ret V_ok /\
    jfind "auth" j = Some (J_obj a) /\ auth_members toy_crypto j toy_ctx S2c a sq seq raw.
Proof.
  pose (j := match sign toy_crypto (J_obj [("type", J_str "command")]) toy_ctx 7 S2c with
             | Ret j => j | Throw _ => J_null end).
  assert (verify toy_crypto j toy_ctx S2c = Ret V_ok) as H by (vm_compute; reflexivity).
  destruct (verify_sound toy_crypto j toy_ctx S2c H) as (a & sq & seq & raw & H1 & H2).
  exists j, a, sq, seq, raw. auto.
Defined.

(** ** The authenticated input determines the message *)

Definition not_sep (c : ascii) : bool := negb (Ascii.eqb c kUnitSeparator).
Definition no_sep (s : string) : bool := sall not_sep s.

Lemma join_fields_inj l1 l2 : length l1 = length l2 ->
  forallb no_sep l1 = true -> forallb no_sep l2 = true ->
  join_fields l1 = join_fields l2 -> l1 = l2.
Proof.
  revert l2. induction l1 as [|a l1 IH]; intros [|b l2]; simpl; try discriminate; [done|].
  intros [= Hl] [Ha H1]%andb_prop [Hb H2]%andb_prop.
  destruct l1 as [|a' l1], l2 as [|b' l2]; try discriminate Hl; [by intros ->|].
  intros H. apply (span_inj not_sep a b) in H as [-> H']; [|done..].
  injection H' as H'. f_equal. apply IH; auto.
Qed.

Lemma hex_digit_unhex d : 0 <= d < 16 -> exists c, hex_digit d = str1 c /\ unhex c = d.
Proof.
  intros H. exists (ascii_of_N (Z.to_N (if d <? 10 then 48 + d else 87 + d))).
  split; [done|].
  assert (d ∈ [0;1;2;3;4;5;6;7;8;9;10;11;12;13;14;15]) as Hd.
  { destruct (decide (d ∈ [0;1;2;3;4;5;6;7;8;9;10;11;12;13;14;15])) as [|Hn]; [done|].
    exfalso. apply Hn. rewrite !elem_of_cons. lia. }
  repeat (apply elem_of_cons in Hd as [->|Hd]; [done|]). by apply elem_of_nil in Hd.
Qed.

Definition is_byte (b : Z) : Prop := 0 <= b < 256.

Lemma nibbles b : is_byte b -> 0 <= Z.shiftr b 4 < 16 /\ 0 <= Z.land b 15 < 16 /\
  b = 16 * Z.shiftr b 4 + Z.land b 15.
Proof.
  unfold is_byte. intros H. rewrite Z.shiftr_div_pow2 by lia.
  change 15 with (Z.ones 4). rewrite Z.land_ones by lia. change (2 ^ 4) with 16.
  pose proof (Z.div_mod b 16). pose proof (Z.mod_pos_bound b 16). lia.
Qed.

Lemma hex_bytes_inj l1 l2 : Forall is_byte l1 -> Forall is_byte l2 ->
  hex_bytes l1 = hex_bytes l2 -> l1 = l2.
Proof.
  intros H1. revert l2. induction H1 as [|a l1 Ha H1 IH]; intros l2 H2.
  - destruct H2 as [|b l2 Hb H2]; [done|]. done.
  - destruct H2 as [|b l2 Hb H2]; [done|].
    destruct (nibbles a Ha) as (A1 & A2 & A3), (nibbles b Hb) as (B1 & B2 & B3).
    destruct (hex_digit_unhex _ A1) as (c1 & E1 & U1), (hex_digit_unhex _ A2) as (c2 & E2 & U2),
      (hex_digit_unhex _ B1) as (c3 & E3 & U3), (hex_digit_unhex _ B2) as (c4 & E4 & U4).
    cbn [hex_bytes]. rewrite E1, E2, E3, E4. intros [= -> -> H].
    rewrite A3, B3. f_equal; [congruence|]. by apply IH.
Qed.

Lemma direction_text_inj d1 d2 : direction_text d1 = direction_text d2 -> d1 = d2.
Proof. by destruct d1, d2. Qed.
Lemma dec_Z_inj a b : dec_Z a = dec_Z b -> a = b.
Proof. apply (inj pretty). Qed.


