(* ===== verification/Events.v ===== *)
(** * Domain events and connection data ([connection.hpp], [events.hpp],
      [client_options.hpp], [dispatcher.hpp])

    The plain data the components exchange, and the type of the observable
    events a session emits: frames handed to the transport, callbacks invoked,
    response handlers called. *)
From S2P Require Import Prelude StdMap Float Json Errors.
Local Open Scope Z_scope.

(** Times are nanoseconds of the steady clock. *)
Abbreviation TimePoint := Z.
Definition ms (n : Z) : Z := n * 1000000.
Definition sec (n : Z) : Z := n * 1000000000.

Inductive ClientState :=
| CS_Disconnected | CS_Resolving | CS_TcpConnecting | CS_TlsHandshaking
| CS_WebSocketHandshaking | CS_FountainHandshaking | CS_Ready | CS_Reconnecting
| CS_Closing.
#[export] Instance ClientState_eq_dec : EqDecision ClientState.
Proof. solve_decision. Defined.

Definition client_state_to_string (s : ClientState) : string :=
  match s with
  | CS_Disconnected => "disconnected"
  | CS_Resolving => "resolving"
  | CS_TcpConnecting => "tcp_connecting"
  | CS_TlsHandshaking => "tls_handshaking"
  | CS_WebSocketHandshaking => "websocket_handshaking"
  | CS_FountainHandshaking => "fountain_handshaking"
  | CS_Ready => "ready"
  | CS_Reconnecting => "reconnecting"
  | CS_Closing => "closing"
  end.

Record ConnectionInfo := mkInfo {
  ci_device_id : string;
  ci_serial : string;
  ci_firmware_version : string;
  ci_hardware_revision : string;
  ci_boot_reason : string;
  ci_protocol_version : Z;
  ci_auth_scheme : string;
  ci_auth_scope : string;
  ci_auth_kid : string;
  ci_established_at : TimePoint
}.
Definition set_ci_device_id (v : string) (r : ConnectionInfo) : ConnectionInfo :=
  mkInfo v (ci_serial r) (ci_firmware_version r) (ci_hardware_revision r)
    (ci_boot_reason r) (ci_protocol_version r) (ci_auth_scheme r) (ci_auth_scope r)
    (ci_auth_kid r) (ci_established_at r).
Definition set_ci_serial (v : string) (r : ConnectionInfo) : ConnectionInfo :=
  mkInfo (ci_device_id r) v (ci_firmware_version r) (ci_hardware_revision r)
    (ci_boot_reason r) (ci_protocol_version r) (ci_auth_scheme r) (ci_auth_scope r)
    (ci_auth_kid r) (ci_established_at r).
Definition set_ci_firmware_version (v : string) (r : ConnectionInfo) : ConnectionInfo :=
  mkInfo (ci_device_id r) (ci_serial r) v (ci_hardware_revision r) (ci_boot_reason r)
    (ci_protocol_version r) (ci_auth_scheme r) (ci_auth_scope r) (ci_auth_kid r)
    (ci_established_at r).
Definition set_ci_hardware_revision (v : string) (r : ConnectionInfo) : ConnectionInfo :=
  mkInfo (ci_device_id r) (ci_serial r) (ci_firmware_version r) v (ci_boot_reason r)
    (ci_protocol_version r) (ci_auth_scheme r) (ci_auth_scope r) (ci_auth_kid r)
    (ci_established_at r).
Definition set_ci_boot_reason (v : string) (r : ConnectionInfo) : ConnectionInfo :=
  mkInfo (ci_device_id r) (ci_serial r) (ci_firmware_version r)
    (ci_hardware_revision r) v (ci_protocol_version r) (ci_auth_scheme r)
    (ci_auth_scope r) (ci_auth_kid r) (ci_established_at r).
Definition set_ci_protocol_version (v : Z) (r : ConnectionInfo) : ConnectionInfo :=
  mkInfo (ci_device_id r) (ci_serial r) (ci_firmware_version r) (ci_hardware_revision r)
    (ci_boot_reason r) v (ci_auth_scheme r) (ci_auth_scope r) (ci_auth_kid r)
    (ci_established_at r).
Definition set_ci_auth_scheme (v : string) (r : ConnectionInfo) : ConnectionInfo :=
  mkInfo (ci_device_id r) (ci_serial r) (ci_firmware_version r) (ci_hardware_revision r)
    (ci_boot_reason r) (ci_protocol_version r) v (ci_auth_scope r) (ci_auth_kid r)
    (ci_established_at r).
Definition set_ci_auth_scope (v : string) (r : ConnectionInfo) : ConnectionInfo :=
  mkInfo (ci_device_id r) (ci_serial r) (ci_firmware_version r) (ci_hardware_revision r)
    (ci_boot_reason r) (ci_protocol_version r) (ci_auth_scheme r) v (ci_auth_kid r)
    (ci_established_at r).
Definition set_ci_auth_kid (v : string) (r : ConnectionInfo) : ConnectionInfo :=
  mkInfo (ci_device_id r) (ci_serial r) (ci_firmware_version r) (ci_hardware_revision r)
    (ci_boot_reason r) (ci_protocol_version r) (ci_auth_scheme r) (ci_auth_scope r) v
    (ci_established_at r).
Definition set_ci_established_at (v : TimePoint) (r : ConnectionInfo) : ConnectionInfo :=
  mkInfo (ci_device_id r) (ci_serial r) (ci_firmware_version r) (ci_hardware_revision r)
    (ci_boot_reason r) (ci_protocol_version r) (ci_auth_scheme r) (ci_auth_scope r)
    (ci_auth_kid r) v.

(** [ConnectionInfo{}] *)
Definition info_default : ConnectionInfo :=
  mkInfo EmptyString EmptyString EmptyString EmptyString EmptyString 0
    EmptyString EmptyString EmptyString 0.

Record Heartbeat := {
  hb_uptime_s : Z;
  hb_firmware_version : string;
  hb_fault_active : bool;
  hb_received_at : TimePoint
}.

Record DeviceAlert := {
  da_code : string;
  da_severity : string;
  da_datapoint : string;
  da_value : option float;
  da_threshold : option float;
  da_detail : string;
  da_received_at : TimePoint
}.

Record OtaStatus := {
  ota_target_version : string;
  ota_state : string;
  ota_attempt : Z;
  ota_progress_pct : Z;
  ota_error : string;
  ota_error_detail : string
}.

Record ErrorReport := {
  er_status : string;
  er_active_faults : json;
  er_log : json
}.

Record ProtocolWarning := {
  pw_reason : string;
  pw_message_type : string;
  pw_in_reply_to : option string
}.

(** Smaller rank = more important. *)
Inductive OperationPriority :=
| SafetyControl | InteractiveControl | InteractiveRead | LogTransfer | Polling | Background.
#[export] Instance OperationPriority_eq_dec : EqDecision OperationPriority.
Proof. solve_decision. Defined.

Definition priority_rank (p : OperationPriority) : Z :=
  match p with
  | SafetyControl => 0
  | InteractiveControl => 1
  | InteractiveRead => 2
  | LogTransfer => 3
  | Polling => 4
  | Background => 5
  end.

Definition priority_to_string (p : OperationPriority) : string :=
  match p with
  | SafetyControl => "safety_control"
  | InteractiveControl => "interactive_control"
  | InteractiveRead => "interactive_read"
  | LogTransfer => "log_transfer"
  | Polling => "polling"
  | Background => "background"
  end.

Record RequestSpec := {
  rs_type : string;
  rs_body : json;
  rs_timeout : option Z;          (* nanoseconds; None = the default *)
  rs_priority : OperationPriority;
  rs_coalesce_key : string
}.

Record RateBudget := {
  rb_requests_per_second : float;
  rb_burst : float;
  rb_max_in_flight : Z
}.
Definition default_budget : RateBudget :=
  {| rb_requests_per_second := lit 40 1; rb_burst := lit 80 1; rb_max_in_flight := 4 |}.

Record ReconnectPolicy := {
  rp_enabled : bool;
  rp_initial_delay : Z;            (* seconds *)
  rp_max_delay : Z;
  rp_authentication_delay : Z;
  rp_jitter : bool
}.
Definition default_reconnect : ReconnectPolicy :=
  {| rp_enabled := true; rp_initial_delay := 1; rp_max_delay := 60;
     rp_authentication_delay := 300; rp_jitter := true |}.

Record ClientOptions := {
  co_connect_timeout : Z;
  co_transport_idle_timeout : Z;
  co_handshake_timeout : Z;
  co_default_request_timeout : Z;
  co_reconnect : ReconnectPolicy;
  co_rate_budget : RateBudget;
  co_enable_test_commands : bool
}.
Definition default_options : ClientOptions :=
  {| co_connect_timeout := sec 10; co_transport_idle_timeout := sec 60;
     co_handshake_timeout := ms 15000; co_default_request_timeout := ms 10000;
     co_reconnect := default_reconnect; co_rate_budget := default_budget;
     co_enable_test_commands := false |}.

(** A response handler: [None] is an empty [std::function]; [Some h] is the
    handler the caller knows as [h]. *)
Abbreviation handler := (option nat).

(** Observable events, in the order they happen. *)
Inductive event :=
| Ev_call (h : nat) (r : Result json)          (* a response handler runs *)
| Ev_send (msg : json) (frame : string)        (* a frame handed to the transport *)
| Ev_close (code : Z) (reason : string)        (* the transport is told to close *)
| Ev_ready (info : ConnectionInfo)
| Ev_failed (e : Error)
| Ev_dp_report (dp : json) (seq : option Z)
| Ev_heartbeat (hb : Heartbeat)
| Ev_device_alert (a : DeviceAlert)
| Ev_ota_status (s : OtaStatus)
| Ev_error_report (r : ErrorReport)
| Ev_warning (w : ProtocolWarning)
| Ev_unknown (type : string) (msg : json).

(** The handlers an event list calls, in order. *)
Definition called (w : list event) : list nat :=
  omap (fun e => match e with Ev_call h _ => Some h | _ => None end) w.
Definition sent_frames (w : list event) : list (json * string) :=
  omap (fun e => match e with Ev_send m f => Some (m, f) | _ => None end) w.

Lemma called_app w1 w2 : called (w1 ++ w2) = called w1 ++ called w2.
Proof. apply omap_app. Qed.
Lemma sent_frames_app w1 w2 : sent_frames (w1 ++ w2) = sent_frames w1 ++ sent_frames w2.
Proof. apply omap_app. Qed.
