(* ===== verification/Dispatcher.v ===== *)
(** * Request dispatcher ([protocol/dispatcher.hpp], [dispatcher.cpp])

    The queue of requests waiting to be sent, the open requests keyed by message
    id, the token bucket and the deadlines.  The dispatcher is parametric in the
    session that encodes and sends a request ([Sender]): the state it is run
    with is the pair of the dispatcher and the sender's own state.

    Handlers are identified by a number; calling one is an event.  A handler
    does not submit from within its own call here: the client's services post
    their submissions to the IO thread.  [Reentry] has the same operations with
    handlers that do. *)
From S2P Require Import Prelude StdMap Errors Float Json Messages Events.
Local Open Scope Z_scope.

(** What the dispatcher asks of the session: a way to encode and send a request
    that returns the message id, and the promise that ids of requests sent are
    never handed out twice. *)
Class Sender (X : Type) := {
  send_request : RequestSpec -> M X event (Result string);
  issued : X -> string -> Prop;
  send_issues : forall spec x r x' w, send_request spec x = (r, x', w) ->
    (forall i, issued x i -> issued x' i) /\
    (forall id, r = Ret (Ok id) -> ~ issued x id /\ issued x' id);
  send_quiet : forall spec x r x' w, send_request spec x = (r, x', w) -> called w = []
}.

Record Waiting := mkWaiting {
  w_spec : RequestSpec;
  w_handlers : list handler;
  w_deadline : TimePoint;
  w_sequence : Z
}.

Record Pending := mkPending {
  p_type : string;
  p_handlers : list handler;
  p_deadline : TimePoint
}.

Record DispatcherMetrics := mkMetrics {
  m_submitted : Z;
  m_sent : Z;
  m_completed : Z;
  m_timeouts : Z;
  m_send_failures : Z;
  m_disconnect_failures : Z;
  m_coalesced : Z;
  m_rate_limit_deferrals : Z;
  m_unexpected_responses : Z;
  m_in_flight : Z;
  m_queued : Z
}.
Definition set_m_submitted (v : Z) (r : DispatcherMetrics) : DispatcherMetrics :=
  mkMetrics v (m_sent r) (m_completed r) (m_timeouts r) (m_send_failures r)
    (m_disconnect_failures r) (m_coalesced r) (m_rate_limit_deferrals r)
    (m_unexpected_responses r) (m_in_flight r) (m_queued r).
Definition set_m_sent (v : Z) (r : DispatcherMetrics) : DispatcherMetrics :=
  mkMetrics (m_submitted r) v (m_completed r) (m_timeouts r) (m_send_failures r)
    (m_disconnect_failures r) (m_coalesced r) (m_rate_limit_deferrals r)
    (m_unexpected_responses r) (m_in_flight r) (m_queued r).
Definition set_m_completed (v : Z) (r : DispatcherMetrics) : DispatcherMetrics :=
  mkMetrics (m_submitted r) (m_sent r) v (m_timeouts r) (m_send_failures r)
    (m_disconnect_failures r) (m_coalesced r) (m_rate_limit_deferrals r)
    (m_unexpected_responses r) (m_in_flight r) (m_queued r).
Definition set_m_timeouts (v : Z) (r : DispatcherMetrics) : DispatcherMetrics :=
  mkMetrics (m_submitted r) (m_sent r) (m_completed r) v (m_send_failures r)
    (m_disconnect_failures r) (m_coalesced r) (m_rate_limit_deferrals r)
    (m_unexpected_responses r) (m_in_flight r) (m_queued r).
Definition set_m_send_failures (v : Z) (r : DispatcherMetrics) : DispatcherMetrics :=
  mkMetrics (m_submitted r) (m_sent r) (m_completed r) (m_timeouts r) v
    (m_disconnect_failures r) (m_coalesced r) (m_rate_limit_deferrals r)
    (m_unexpected_responses r) (m_in_flight r) (m_queued r).
Definition set_m_disconnect_failures (v : Z) (r : DispatcherMetrics) : DispatcherMetrics :=
  mkMetrics (m_submitted r) (m_sent r) (m_completed r) (m_timeouts r)
    (m_send_failures r) v (m_coalesced r) (m_rate_limit_deferrals r)
    (m_unexpected_responses r) (m_in_flight r) (m_queued r).
Definition set_m_coalesced (v : Z) (r : DispatcherMetrics) : DispatcherMetrics :=
  mkMetrics (m_submitted r) (m_sent r) (m_completed r) (m_timeouts r)
    (m_send_failures r) (m_disconnect_failures r) v (m_rate_limit_deferrals r)
    (m_unexpected_responses r) (m_in_flight r) (m_queued r).
Definition set_m_rate_limit_deferrals (v : Z) (r : DispatcherMetrics) : DispatcherMetrics :=
  mkMetrics (m_submitted r) (m_sent r) (m_completed r) (m_timeouts r)
    (m_send_failures r) (m_disconnect_failures r) (m_coalesced r) v
    (m_unexpected_responses r) (m_in_flight r) (m_queued r).
Definition set_m_unexpected_responses (v : Z) (r : DispatcherMetrics) : DispatcherMetrics :=
  mkMetrics (m_submitted r) (m_sent r) (m_completed r) (m_timeouts r)
    (m_send_failures r) (m_disconnect_failures r) (m_coalesced r)
    (m_rate_limit_deferrals r) v (m_in_flight r) (m_queued r).
Definition set_m_in_flight (v : Z) (r : DispatcherMetrics) : DispatcherMetrics :=
  mkMetrics (m_submitted r) (m_sent r) (m_completed r) (m_timeouts r)
    (m_send_failures r) (m_disconnect_failures r) (m_coalesced r)
    (m_rate_limit_deferrals r) (m_unexpected_responses r) v (m_queued r).
Definition set_m_queued (v : Z) (r : DispatcherMetrics) : DispatcherMetrics :=
  mkMetrics (m_submitted r) (m_sent r) (m_completed r) (m_timeouts r)
    (m_send_failures r) (m_disconnect_failures r) (m_coalesced r)
    (m_rate_limit_deferrals r) (m_unexpected_responses r) (m_in_flight r) v.

Definition metrics_zero : DispatcherMetrics := mkMetrics 0 0 0 0 0 0 0 0 0 0 0.

Record Dispatcher := mkDispatcher {
  budget : RateBudget;
  default_timeout : Z;
  warning : bool;
  queue : list Waiting;
  pending : smap Pending;
  sequence : Z;
  tokens : float;
  last_refill : TimePoint;
  refill_initialised : bool;
  sending_enabled : bool;
  draining : bool;
  metrics_ : DispatcherMetrics
}.
Definition set_budget (v : RateBudget) (r : Dispatcher) : Dispatcher :=
  mkDispatcher v (default_timeout r) (warning r) (queue r) (pending r) (sequence r)
    (tokens r) (last_refill r) (refill_initialised r) (sending_enabled r) (draining r)
    (metrics_ r).
Definition set_default_timeout (v : Z) (r : Dispatcher) : Dispatcher :=
  mkDispatcher (budget r) v (warning r) (queue r) (pending r) (sequence r) (tokens r)
    (last_refill r) (refill_initialised r) (sending_enabled r) (draining r) (metrics_ r).
Definition set_warning (v : bool) (r : Dispatcher) : Dispatcher :=
  mkDispatcher (budget r) (default_timeout r) v (queue r) (pending r) (sequence r)
    (tokens r) (last_refill r) (refill_initialised r) (sending_enabled r) (draining r)
    (metrics_ r).
Definition set_queue (v : list Waiting) (r : Dispatcher) : Dispatcher :=
  mkDispatcher (budget r) (default_timeout r) (warning r) v (pending r) (sequence r)
    (tokens r) (last_refill r) (refill_initialised r) (sending_enabled r) (draining r)
    (metrics_ r).
Definition set_pending (v : smap Pending) (r : Dispatcher) : Dispatcher :=
  mkDispatcher (budget r) (default_timeout r) (warning r) (queue r) v (sequence r)
    (tokens r) (last_refill r) (refill_initialised r) (sending_enabled r) (draining r)
    (metrics_ r).
Definition set_sequence (v : Z) (r : Dispatcher) : Dispatcher :=
  mkDispatcher (budget r) (default_timeout r) (warning r) (queue r) (pending r) v
    (tokens r) (last_refill r) (refill_initialised r) (sending_enabled r) (draining r)
    (metrics_ r).
Definition set_tokens (v : float) (r : Dispatcher) : Dispatcher :=
  mkDispatcher (budget r) (default_timeout r) (warning r) (queue r) (pending r)
    (sequence r) v (last_refill r) (refill_initialised r) (sending_enabled r)
    (draining r) (metrics_ r).
Definition set_last_refill (v : TimePoint) (r : Dispatcher) : Dispatcher :=
  mkDispatcher (budget r) (default_timeout r) (warning r) (queue r) (pending r)
    (sequence r) (tokens r) v (refill_initialised r) (sending_enabled r) (draining r)
    (metrics_ r).
Definition set_refill_initialised (v : bool) (r : Dispatcher) : Dispatcher :=
  mkDispatcher (budget r) (default_timeout r) (warning r) (queue r) (pending r)
    (sequence r) (tokens r) (last_refill r) v (sending_enabled r) (draining r)
    (metrics_ r).
Definition set_sending_enabled (v : bool) (r : Dispatcher) : Dispatcher :=
  mkDispatcher (budget r) (default_timeout r) (warning r) (queue r) (pending r)
    (sequence r) (tokens r) (last_refill r) (refill_initialised r) v (draining r)
    (metrics_ r).
Definition set_draining (v : bool) (r : Dispatcher) : Dispatcher :=
  mkDispatcher (budget r) (default_timeout r) (warning r) (queue r) (pending r)
    (sequence r) (tokens r) (last_refill r) (refill_initialised r) (sending_enabled r) v
    (metrics_ r).
Definition set_metrics_ (v : DispatcherMetrics) (r : Dispatcher) : Dispatcher :=
  mkDispatcher (budget r) (default_timeout r) (warning r) (queue r) (pending r)
    (sequence r) (tokens r) (last_refill r) (refill_initialised r) (sending_enabled r)
    (draining r) v.

(** The constructor. *)
Definition new_dispatcher (b : RateBudget) (timeout : Z) : Dispatcher :=
  mkDispatcher b timeout false [] [] 0 (rb_burst b) 0 false true false metrics_zero.

Definition set_warning_handler (present : bool) (d : Dispatcher) : Dispatcher :=
  set_warning present d.
Definition set_sending (enabled : bool) (d : Dispatcher) : Dispatcher :=
  set_sending_enabled enabled d.

Definition in_flight (d : Dispatcher) : Z := Z.of_nat (length (pending d)).
Definition queued (d : Dispatcher) : Z := Z.of_nat (length (queue d)).

Definition metrics (d : Dispatcher) : DispatcherMetrics :=
  set_m_queued (queued d) (set_m_in_flight (in_flight d) (metrics_ d)).

(** Add to one counter. *)
Definition bump (get : DispatcherMetrics -> Z)
    (set : Z -> DispatcherMetrics -> DispatcherMetrics) (n : Z) (d : Dispatcher) : Dispatcher :=
  set_metrics_ (set (get (metrics_ d) + n) (metrics_ d)) d.

(** [complete]: every non-empty handler is called once with the result. *)
Definition complete (hs : list handler) (r : Result json) : list event :=
  map (fun h => Ev_call h r) (omap id hs).

Definition refill (now : TimePoint) (d : Dispatcher) : Dispatcher :=
  if negb (refill_initialised d) then
    set_refill_initialised true (set_last_refill now d)
  else
    let elapsed := fdiv_Z binary64 (double_of_Z (now - last_refill d)) 1000000000 in
    if fle elapsed (F_zero false) then d
    else
      set_tokens (std_min (rb_burst (budget d))
                    (dadd (tokens d) (dmul elapsed (rb_requests_per_second (budget d)))))
        (set_last_refill now d).

(** The order of dequeuing: priority, then first come first served. *)
Definition before (a b : Waiting) : bool :=
  let pa := priority_rank (rs_priority (w_spec a)) in
  let pb := priority_rank (rs_priority (w_spec b)) in
  if negb (pa =? pb) then pa <? pb else w_sequence a <? w_sequence b.

(** [std::min_element]: the position and value of the first least element. *)
Fixpoint min_element (best : nat * Waiting) (i : nat) (l : list Waiting) : nat * Waiting :=
  match l with
  | [] => best
  | w :: r => min_element (if before w best.2 then (i, w) else best) (S i) r
  end.

Section Drain.
Context {X : Type} `{!Sender X}.
Abbreviation DM := (M (Dispatcher * X) event).

Definition dget : DM Dispatcher := gets fst.
Definition dmod (f : Dispatcher -> Dispatcher) : DM unit := modify (fun dx => (f dx.1, dx.2)).

(** The loop of [drain]; every iteration takes one request off the queue, so
    the queue's length bounds the number of iterations ([drain_terminates]). *)
Fixpoint drain_loop (fuel : nat) : DM unit :=
  match fuel with
  | O => throw (Exn_runtime "drain: out of fuel")
  | S fuel' =>
      let* d := dget in
      match queue d with
      | [] => ret tt
      | w0 :: rest =>
          if negb (in_flight d <? rb_max_in_flight (budget d)) then ret tt
          else if flt (tokens d) one then
            dmod (bump m_rate_limit_deferrals set_m_rate_limit_deferrals 1)
          else
            let '(i, waiting) := min_element (0%nat, w0) 1%nat rest in
            dmod (fun d => set_queue (take i (queue d) ++ drop (S i) (queue d)) d) ;;;
            let* sent := on_snd (send_request (w_spec waiting)) in
            match sent with
            | Err e =>
                dmod (bump m_send_failures set_m_send_failures 1) ;;;
                emits (complete (w_handlers waiting) (Err e)) ;;;
                drain_loop fuel'
            | Ok id =>
                dmod (fun d => set_tokens (dsub (tokens d) one) d) ;;;
                dmod (bump m_sent set_m_sent 1) ;;;
                dmod (fun d => set_pending
                        (memplace id (mkPending (rs_type (w_spec waiting)) (w_handlers waiting)
                                                (w_deadline waiting)) (pending d)) d) ;;;
                drain_loop fuel'
            end
      end
  end.

(** [draining_] is reset on every way out, exceptions included (the guard's
    destructor). *)
Definition drain (now : TimePoint) : DM unit := fun dx =>
  if negb (sending_enabled dx.1) || draining dx.1 then (Ret tt, dx, [])
  else
    let '(r, (d', x'), w) :=
      drain_loop (S (length (queue dx.1))) (set_draining true dx.1, dx.2) in
    (r, (set_draining false d', x'), w).

(** The waiting requests whose deadline has passed, removed in queue order;
    their handlers are called with a timeout. *)
Fixpoint expire_waiting (now : TimePoint) (q : list Waiting) : list Waiting * list event * Z :=
  match q with
  | [] => ([], [], 0)
  | w :: r =>
      let '(kept, ev, n) := expire_waiting now r in
      if w_deadline w <=? now
      then (kept, complete (w_handlers w) (Err (timeout_error (rs_type (w_spec w)))) ++ ev, n + 1)
      else (w :: kept, ev, n)
  end.

Fixpoint expire_pending (now : TimePoint) (q : smap Pending) : smap Pending * list event * Z :=
  match q with
  | [] => ([], [], 0)
  | (id, p) :: r =>
      let '(kept, ev, n) := expire_pending now r in
      if p_deadline p <=? now
      then (kept, complete (p_handlers p) (Err (timeout_error (p_type p))) ++ ev, n + 1)
      else ((id, p) :: kept, ev, n)
  end.

Definition tick (now : TimePoint) : DM unit :=
  dmod (refill now) ;;;
  let* d := dget in
  let '(q, ev, n) := expire_waiting now (queue d) in
  dmod (fun d => set_queue q (bump m_timeouts set_m_timeouts n d)) ;;; emits ev ;;;
  let* d := dget in
  let '(p, ev, n) := expire_pending now (pending d) in
  dmod (fun d => set_pending p (bump m_timeouts set_m_timeouts n d)) ;;; emits ev ;;;
  drain now.

(** Attach a handler to the first waiting request with the same key. *)
Fixpoint coalesce (spec : RequestSpec) (h : handler) (deadline : TimePoint)
    (q : list Waiting) : option (list Waiting) :=
  match q with
  | [] => None
  | w :: r =>
      if String.eqb (rs_coalesce_key (w_spec w)) (rs_coalesce_key spec) then
        let s := w_spec w in
        let p := if priority_rank (rs_priority spec) <? priority_rank (rs_priority s)
                 then rs_priority spec else rs_priority s in
        Some (mkWaiting {| rs_type := rs_type s; rs_body := rs_body s;
                           rs_timeout := rs_timeout s; rs_priority := p;
                           rs_coalesce_key := rs_coalesce_key s |}
                (w_handlers w ++ [h]) (Z.max (w_deadline w) deadline) (w_sequence w) :: r)
      else match coalesce spec h deadline r with
           | Some r' => Some (w :: r')
           | None => None
           end
  end.

Definition submit (spec : RequestSpec) (h : handler) (now : TimePoint) : DM unit :=
  dmod (bump m_submitted set_m_submitted 1) ;;;
  let* d := dget in
  let timeout := match rs_timeout spec with Some t => t | None => default_timeout d end in
  let attached :=
    if str_empty (rs_coalesce_key spec) then None
    else coalesce spec h (now + timeout) (queue d) in
  match attached with
  | Some q => dmod (fun d => bump m_coalesced set_m_coalesced 1 (set_queue q d))
  | None =>
      dmod (fun d => set_sequence (sequence d + 1) d) ;;;
      dmod (fun d => set_queue (queue d ++ [mkWaiting spec [h] (now + timeout) (sequence d)]) d) ;;;
      tick now
  end.

Definition warn_event (reason type : string) : event :=
  Ev_warning {| pw_reason := reason; pw_message_type := type; pw_in_reply_to := None |}.

(** [true] when the message was consumed as a response. *)
Definition on_message (message : json) : DM bool :=
  let* in_reply_to := lift (value_string "in_reply_to" message) in
  if str_empty in_reply_to then ret false else
  let* d := dget in
  match mget in_reply_to (pending d) with
  | None =>
      (if warning d then
         let* type := lift (value_string "type" message) in
         emit (warn_event "response for an unknown or expired request" type)
       else ret tt) ;;;
      ret true
  | Some entry =>
      let* type := lift (value_string "type" message) in
      dmod (fun d => set_pending (mdel in_reply_to (pending d)) d) ;;;
      match find_meta (p_type entry) with
      | Some request_meta =>
          if negb (accepts_response request_meta type) then
            dmod (bump m_unexpected_responses set_m_unexpected_responses 1) ;;;
            when (warning d)
              (emit (warn_event ("unexpected response type for " +:+ p_type entry) type)) ;;;
            emits (complete (p_handlers entry)
              (Err (with_operation (p_type entry)
                 (protocol_error UnexpectedResponseType
                    (p_type entry +:+ " was answered with '" +:+ type +:+ "'"))))) ;;;
            ret true
          else
            dmod (bump m_completed set_m_completed 1) ;;;
            emits (complete (p_handlers entry) (Ok message)) ;;;
            ret true
      | None =>
          dmod (bump m_completed set_m_completed 1) ;;;
          emits (complete (p_handlers entry) (Ok message)) ;;;
          ret true
      end
  end.

(** Connection lost: the open requests in id order, then the waiting ones. *)
Definition fail_all (error : Error) : DM unit :=
  let* d := dget in
  dmod (fun d => set_pending [] (set_queue [] d)) ;;;
  dmod (bump m_disconnect_failures set_m_disconnect_failures (in_flight d + queued d)) ;;;
  emits (concat (map (fun kv => complete (p_handlers kv.2) (Err error)) (pending d))) ;;;
  emits (concat (map (fun w => complete (w_handlers w) (Err error)) (queue d))).
End Drain.
