(* ===== verification/DispatcherFacts.v ===== *)
(** * What the dispatcher guarantees

    Every handler handed to [submit] is called exactly once or still held; the
    order of sending is strict priority and first come first served within a
    priority; the window of open requests and the token bucket are respected;
    deadlines are enforced by every tick; responses are checked against the
    message catalogue.  The proofs go through one induction principle for the
    sending loop ([drain_loop_ind]) that hides its fuel. *)
From S2P Require Import Prelude StdMap Errors Float Json Messages Events Dispatcher.
From Stdlib Require Import QArith Qpower Lqa.
Local Open Scope Z_scope.

#[local] Arguments toQ : simpl never.
#[local] Arguments inject_Z : simpl never.
#[local] Arguments dsub : simpl never.

(** ** The selection of the next request *)

Definition w_rank (w : Waiting) : Z := priority_rank (rs_priority (w_spec w)).

Lemma before_spec a b :
  before a b = true <-> w_rank a < w_rank b \/ (w_rank a = w_rank b /\ w_sequence a < w_sequence b).
Proof.
  unfold before, w_rank. destruct (Z.eqb_spec (priority_rank (rs_priority (w_spec a)))
    (priority_rank (rs_priority (w_spec b)))) as [E|E]; simpl; rewrite Z.ltb_lt; lia.
Qed.

Lemma before_false a b :
  before a b = false <-> w_rank b < w_rank a \/ (w_rank a = w_rank b /\ w_sequence b <= w_sequence a).
Proof. rewrite <- Bool.not_true_iff_false, before_spec. lia. Qed.

(** [min_element] returns a position of the queue that nothing precedes. *)
Lemma min_element_spec rest w0 l0 best :
  length l0 = S (best.1) \/ (best.1 < length l0)%nat ->
  l0 !! best.1 = Some best.2 ->
  (forall w, w ∈ l0 -> before w best.2 = false) -> w0 = l0 ++ rest ->
  let r := min_element best (length l0) rest in
  w0 !! r.1 = Some r.2 /\ forall w, w ∈ w0 -> before w r.2 = false.
Proof.
  revert l0 best. induction rest as [|w rest IH]; intros l0 best Hl Hat Hmin ->.
  - simpl. rewrite app_nil_r. auto.
  - cbn [min_element].
    replace (S (length l0)) with (length (l0 ++ [w])) by (rewrite length_app; simpl; lia).
    apply IH; [| | |by rewrite <- app_assoc].
    + rewrite length_app; simpl. case_match; simpl; lia.
    + case_match; simpl; [by rewrite list_lookup_middle|].
      rewrite lookup_app_l; [done|]. by apply lookup_lt_Some in Hat.
    + intros v [Hv|Hv%list_elem_of_singleton]%elem_of_app.
      * specialize (Hmin v Hv). case_match; simpl; [|done].
        match goal with H : before w _ = true |- _ => apply before_spec in H end.
        apply before_false in Hmin. apply before_false. lia.
      * subst v. case_match; simpl; [|done]. apply before_false. lia.
Qed.

Lemma next_spec w0 rest i w :
  min_element (0%nat, w0) 1%nat rest = (i, w) ->
  (w0 :: rest) = take i (w0 :: rest) ++ w :: drop (S i) (w0 :: rest) /\
  forall v, v ∈ w0 :: rest -> before v w = false.
Proof.
  intros H. pose proof (min_element_spec rest (w0 :: rest) [w0] (0%nat, w0)) as Hs.
  cbn [length] in Hs. rewrite H in Hs. destruct Hs as [Hat Hmin]; simpl; auto.
  { intros v ->%list_elem_of_singleton. apply before_false. lia. }
  split; [|done]. symmetry. exact (take_drop_middle (w0 :: rest) i w Hat).
Qed.

Section Facts.
Context {X : Type} `{HX : !Sender X}.
Abbreviation ST := (Dispatcher * X)%type.
Abbreviation DM := (M ST event).

(** ** Induction principle of the sending loop *)

(** The state after one request was taken off the queue. *)
Definition taken (d : Dispatcher) (l : list Waiting) : Dispatcher := set_queue l d.
Definition after_failure (d : Dispatcher) : Dispatcher :=
  bump m_send_failures set_m_send_failures 1 d.
Definition after_sent (id : string) (w : Waiting) (d : Dispatcher) : Dispatcher :=
  let d := bump m_sent set_m_sent 1 (set_tokens (dsub (tokens d) one) d) in
  set_pending (memplace id (mkPending (rs_type (w_spec w)) (w_handlers w) (w_deadline w))
                 (pending d)) d.

Record loop_rel (R : ST -> ST -> list event -> Prop) : Prop := {
  lr_defer : forall d x, R (d, x) (bump m_rate_limit_deferrals set_m_rate_limit_deferrals 1 d, x) [];
  lr_failed : forall d x l1 w l2 e x' ws, queue d = l1 ++ w :: l2 ->
    (forall v, v ∈ queue d -> before v w = false) ->
    send_request (w_spec w) x = (Ret (Err e), x', ws) ->
    R (d, x) (after_failure (taken d (l1 ++ l2)), x') (ws ++ complete (w_handlers w) (Err e));
  lr_sent : forall d x l1 w l2 id x' ws, queue d = l1 ++ w :: l2 ->
    (forall v, v ∈ queue d -> before v w = false) ->
    in_flight d < rb_max_in_flight (budget d) -> flt (tokens d) one = false ->
    send_request (w_spec w) x = (Ret (Ok id), x', ws) ->
    R (d, x) (after_sent id w (taken d (l1 ++ l2)), x') ws
}.

(** Why the loop stops: nothing waits, the window is full or no token is left. *)
Definition stopped (d : Dispatcher) : Prop :=
  queue d = [] \/ rb_max_in_flight (budget d) <= in_flight d \/ flt (tokens d) one = true.

Lemma drain_loop_ind R `{!Composable R} : loop_rel R ->
  forall n dx a dx' w, (length (queue dx.1) < n)%nat ->
  drain_loop n dx = (Ret a, dx', w) -> R dx dx' w /\ stopped dx'.1.
Proof.
  intros HR n. induction n as [|n IH]; [lia|]. intros [d x] a dx' w Hn H.
  cbn [drain_loop] in H. apply bind_ret_inv in H as (d0 & s1 & w1 & w2 & Hd & H & ->).
  injection Hd as <- <- <-. cbn [fst app] in *.
  destruct (queue d) as [|q0 rest] eqn:Eq.
  { injection H as _ <- <-. split; [apply comp_refl|]. by left. }
  destruct (negb (in_flight d <? rb_max_in_flight (budget d))) eqn:Ef.
  { injection H as _ <- <-. split; [apply comp_refl|]. right. left. cbn [fst]. lia. }
  destruct (flt (tokens d) one) eqn:Et.
  { injection H as _ <- <-. split; [apply HR|]. by right; right. }
  destruct (min_element (0%nat, q0) 1%nat rest) as [i wt] eqn:Em.
  apply next_spec in Em as [Hq Hmin]. rewrite <- Eq in Hq, Hmin.
  apply bind_ret_inv in H as (? & s1 & w1 & w3 & Hd & H & ->).
  injection Hd as _ <- <-. cbn [fst snd app] in *.
  apply bind_ret_inv in H as (sent & s1 & w1 & w4 & Hd & H & ->).
  unfold on_snd in Hd. cbn [fst snd] in Hd.
  destruct (send_request (w_spec wt) x) as [[r x'] ws] eqn:Es. injection Hd as -> <- <-.
  assert (Hlen : (length (take i (queue d) ++ drop (S i) (queue d)) < n)%nat).
  { assert (length (queue d) < S n)%nat as Hn' by (rewrite Eq; exact Hn).
    rewrite Hq, length_app in Hn'. cbn [length] in Hn'. rewrite length_app. lia. }
  apply negb_false_iff, Z.ltb_lt in Ef.
  destruct sent as [id|e].
  - do 3 (apply bind_ret_inv in H as (? & ? & ? & ? & Hd & H & ->); injection Hd as _ <- <-;
      cbn [fst snd app] in *).
    apply IH in H as [HR2 Hst]; [|exact Hlen]. split; [|exact Hst].
    eapply comp_trans; [eapply (lr_sent R HR); eauto|exact HR2].
  - do 2 (apply bind_ret_inv in H as (? & ? & ? & ? & Hd & H & ->); injection Hd as _ <- <-;
      cbn [fst snd app] in *). rewrite app_assoc.
    apply IH in H as [HR2 Hst]; [|exact Hlen]. split; [|exact Hst].
    eapply comp_trans; [eapply (lr_failed R HR); eauto|exact HR2].
Qed.

(** With a sender that answers, the loop returns within its fuel. *)
Lemma drain_loop_returns : (forall spec x0, exists r x' w, send_request spec x0 = (Ret r, x', w)) ->
  forall n d x, (length (queue d) < n)%nat ->
  exists d' x' w, drain_loop n (d, x) = (Ret tt, (d', x'), w) /\ stopped d'.
Proof.
  intros Hsend n. induction n as [|n IH]; [lia|]. intros d x Hn. cbn [drain_loop].
  rewrite (run_bind_quiet dget _ _ d (d, x)) by reflexivity. destruct (queue d) as [|q0 rest] eqn:Eq.
  { exists d, x, []. split; [done|]. by left. }
  destruct (Z.ltb_spec (in_flight d) (rb_max_in_flight (budget d))); cbn [negb].
  2: { exists d, x, []. split; [done|]. right. by left. }
  destruct (flt (tokens d) one) eqn:Et.
  { eexists _, x, []. split; [reflexivity|]. by right; right. }
  destruct (min_element (0%nat, q0) 1%nat rest) as [i wt] eqn:Em.
  apply next_spec in Em as [Hq _]. rewrite <- Eq in Hq.
  set (d1 := set_queue (take i (queue d) ++ drop (S i) (queue d)) d).
  assert (length (queue d1) < n)%nat as Hlen.
  { rewrite <- Eq in Hn. rewrite Hq, length_app in Hn. cbn [length] in Hn.
    unfold d1. cbn [queue set_queue]. rewrite length_app. lia. }
  rewrite (run_bind_quiet _ _ _ tt (d1, x)) by (unfold d1; reflexivity).
  destruct (Hsend (w_spec wt) x) as (r & x' & w & Es).
  set (d2 := match r with Ok id => after_sent id wt d1 | Err _ => after_failure d1 end).
  destruct (IH d2 x') as (d' & x2 & w2 & E2 & Hst); [unfold d2; by destruct r|].
  destruct r as [id|e]; eexists d', x2, _; (split; [|exact Hst]);
    (eapply run_bind; [unfold on_snd; cbn [fst snd]; rewrite Es; reflexivity|]); cbv beta iota.
  - do 3 (erewrite run_bind_quiet by reflexivity). exact E2.
  - erewrite run_bind_quiet by reflexivity. eapply run_bind; [reflexivity|exact E2].
Qed.

(** A relation that does not look at the [draining] flag extends to [drain]. *)
Lemma drain_ind R `{!Composable R} now : loop_rel R ->
  (forall d x b, R (d, x) (set_draining b d, x) []) -> yields R (drain now).
Proof.
  intros HR Hb [d x] a [d' x'] w. unfold drain. cbn [fst snd].
  destruct (negb (sending_enabled d) || draining d); [intros [= _ <- <- <-]; apply comp_refl|].
  destruct (drain_loop _ _) as [[r [d1 x1]] w1] eqn:E. intros [= -> <- <- <-].
  apply (drain_loop_ind R HR) in E as [E _]; [|cbn; lia].
  change w1 with ([] ++ w1). rewrite <- (app_nil_r w1).
  eapply comp_trans; [|eapply comp_trans; [exact E|]]; apply Hb.
Qed.
End Facts.

(** ** Conservation of handlers *)

(** The handlers the dispatcher still owes an answer. *)
Definition live (d : Dispatcher) : list nat :=
  omap id (concat (map w_handlers (queue d)) ++ concat (map (fun kv => p_handlers kv.2) (pending d))).

Lemma called_complete hs r : called (complete hs r) = omap id hs.
Proof. induction hs as [|[h|] hs IH]; simpl; [done| |done]. by f_equal. Qed.

Lemma called_warn reason type w : called (warn_event reason type :: w) = called w.
Proof. done. Qed.

Lemma live_perm d q p : queue d ≡ₚ q -> pending d ≡ₚ p ->
  live d ≡ₚ omap id (concat (map w_handlers q) ++ concat (map (fun kv => p_handlers kv.2) p)).
Proof. intros Hq Hp. unfold live. by rewrite Hq, Hp. Qed.

Section Conservation.
Context {X : Type} `{HX : !Sender X}.
Abbreviation ST := (Dispatcher * X)%type.
Abbreviation DM := (M ST event).

(** The open requests form a map and only carry ids the sender has issued. *)
Definition ids_ok (dx : ST) : Prop :=
  msorted (pending dx.1) /\ forall id, id ∈ keys (pending dx.1) -> issued dx.2 id.

(** Handlers held before = handlers called + handlers held after. *)
Definition conserves (extra : list nat) (dx dx' : ST) (w : list event) : Prop :=
  ids_ok dx -> ids_ok dx' /\ extra ++ live dx.1 ≡ₚ called w ++ live dx'.1.

#[export] Instance conserves_composable : Composable (conserves []).
Proof.
  split.
  - by intros s H.
  - intros s1 s2 s3 w1 w2 H1 H2 H. destruct (H1 H) as [Hok P1].
    destruct (H2 Hok) as [Hok' P2]. split; [done|]. rewrite called_app, <- app_assoc.
    cbn [app] in *. by rewrite P1, P2.
Qed.

Lemma conserves_loop : loop_rel (conserves []).
Proof.
  split.
  - by intros.
  - intros d x l1 w l2 e x' ws Hq Hmin Hs [Hm Hi]. destruct (send_issues _ _ _ _ _ Hs) as [Hiss _].
    split; [split; [done|]; intros id Hid; by apply Hiss, Hi|].
    rewrite called_app, (send_quiet _ _ _ _ _ Hs), called_complete.
    cbn [app]. unfold live, after_failure, taken. cbn. rewrite Hq.
    rewrite !map_app, !concat_app. cbn. rewrite !omap_app. solve_Permutation.
  - intros d x l1 w l2 id x' ws Hq Hmin _ _ Hs [Hm Hi].
    destruct (send_issues _ _ _ _ _ Hs) as [Hiss Hnew].
    destruct (Hnew id eq_refl) as [Hfresh Hid].
    assert (mget id (pending d) = None) as Hnone.
    { apply mget_None. intros Hin. by apply Hfresh, Hi. }
    assert (forall p, memplace id p (pending d) = mset id p (pending d)) as Hemp.
    { intros p. unfold memplace. by rewrite Hnone. }
    split.
    + split; cbn; rewrite Hemp; [by apply msorted_mset|].
      intros j [->|Hj]%keys_mset; [done|by apply Hiss, Hi].
    + rewrite (send_quiet _ _ _ _ _ Hs). unfold live, after_sent, taken. cbn. rewrite Hemp.
      rewrite (mset_perm_new _ _ _ Hnone), Hq, !map_app, !concat_app. cbn.
      rewrite !omap_app. solve_Permutation.
Qed.

Lemma conserves_drain now : yields (conserves []) (drain now).
Proof. refine (drain_ind _ now conserves_loop _). by intros. Qed.

Lemma expire_waiting_spec now q q' ev n : expire_waiting now q = (q', ev, n) ->
  q' = List.filter (fun w => negb (w_deadline w <=? now)) q /\
  omap id (concat (map w_handlers q)) ≡ₚ called ev ++ omap id (concat (map w_handlers q')) /\
  n = Z.of_nat (length q) - Z.of_nat (length q').
Proof.
  revert q' ev n. induction q as [|w q IH]; intros q' ev n; simpl; [by intros [= <- <- <-]|].
  destruct (expire_waiting now q) as [[kept ev1] n1].
  destruct (IH _ _ _ eq_refl) as (-> & HP & ->).
  destruct (w_deadline w <=? now); intros [= <- <- <-]; simpl; rewrite !omap_app.
  - split; [done|]. rewrite called_app, called_complete, <- app_assoc, HP. split; [done|lia].
  - split; [done|]. rewrite HP. split; [solve_Permutation|lia].
Qed.

Lemma expire_pending_spec now p p' ev n : expire_pending now p = (p', ev, n) ->
  p' = List.filter (fun kv => negb (p_deadline kv.2 <=? now)) p /\
  omap id (concat (map (fun kv => p_handlers kv.2) p)) ≡ₚ
    called ev ++ omap id (concat (map (fun kv => p_handlers kv.2) p')) /\
  n = Z.of_nat (length p) - Z.of_nat (length p').
Proof.
  revert p' ev n. induction p as [|[i e] p IH]; intros p' ev n; simpl; [by intros [= <- <- <-]|].
  destruct (expire_pending now p) as [[kept ev1] n1].
  destruct (IH _ _ _ eq_refl) as (-> & HP & ->).
  destruct (p_deadline e <=? now); intros [= <- <- <-]; simpl; rewrite !omap_app.
  - split; [done|]. rewrite called_app, called_complete, <- app_assoc, HP. split; [done|lia].
  - split; [done|]. rewrite HP. split; [solve_Permutation|lia].
Qed.

(** What a tick has done when it reaches [drain]. *)
Definition expired (now : TimePoint) (d : Dispatcher) : Dispatcher * list event :=
  let d := refill now d in
  let '(q, ev1, n1) := expire_waiting now (queue d) in
  let d := set_queue q (bump m_timeouts set_m_timeouts n1 d) in
  let '(p, ev2, n2) := expire_pending now (pending d) in
  (set_pending p (bump m_timeouts set_m_timeouts n2 d), ev1 ++ ev2).

Lemma tick_unfold now d x :
  tick now (d, x) =
    let '(d1, w1) := expired now d in
    let '(r, dx', w2) := drain now (d1, x) in (r, dx', w1 ++ w2).
Proof.
  unfold tick, expired, bind, dmod, dget, gets, modify, emits. cbn [fst snd app].
  destruct (expire_waiting now (queue (refill now d))) as [[q ev1] n1].
  cbn [app fst snd].
  destruct (expire_pending now _) as [[p ev2] n2]. cbn [app fst snd].
  destruct (drain now _) as [[r dx'] w2]. by rewrite app_assoc.
Qed.

Lemma queue_refill now d : queue (refill now d) = queue d.
Proof. unfold refill. by repeat case_match_goal. Qed.
Lemma pending_refill now d : pending (refill now d) = pending d.
Proof. unfold refill. by repeat case_match_goal. Qed.

Lemma conserves_expired now d d1 w1 x : expired now d = (d1, w1) ->
  conserves [] (d, x) (d1, x) w1.
Proof.
  unfold expired. destruct (expire_waiting now (queue (refill now d))) as [[q ev1] n1] eqn:E1.
  cbn. destruct (expire_pending now (pending (refill now d))) as [[p ev2] n2] eqn:E2.
  intros [= <- <-] [Hm Hi]. cbn [fst snd] in *.
  apply expire_waiting_spec in E1 as (-> & H1 & _).
  apply expire_pending_spec in E2 as (-> & H2 & _).
  rewrite queue_refill in *. rewrite pending_refill in *. split.
  - split; cbn; [by apply msorted_filter|]. intros id Hid. apply Hi.
    unfold keys in *. apply list_elem_of_In, in_map_iff in Hid as (kv & <- & Hkv).
    apply filter_In in Hkv as [Hkv _]. by apply list_elem_of_In, in_map.
  - unfold live. cbn. rewrite omap_app, called_app, H1, H2, omap_app. solve_Permutation.
Qed.

Lemma conserves_tick now : yields (conserves []) (tick now).
Proof.
  intros [d x] a dx' w. rewrite tick_unfold. destruct (expired now d) as [d1 w1] eqn:E.
  destruct (drain now (d1, x)) as [[r dx2] w2] eqn:Ed. intros [= -> <- <-].
  eapply (comp_trans _ (d1, x)); [by eapply conserves_expired|by eapply conserves_drain].
Qed.

Lemma coalesce_spec spec h dl q q' : coalesce spec h dl q = Some q' ->
  omap id (concat (map w_handlers q')) ≡ₚ omap id [h] ++ omap id (concat (map w_handlers q)).
Proof.
  revert q'. induction q as [|w q IH]; intros q'; simpl; [done|].
  destruct (String.eqb _ _).
  - intros [= <-]. cbn [map concat w_handlers]. rewrite !omap_app. solve_Permutation.
  - destruct (coalesce spec h dl q) as [r'|]; [|done]. intros [= <-]. simpl.
    rewrite !omap_app, (IH _ eq_refl). solve_Permutation.
Qed.

Lemma conserves_submit spec h now : yields (conserves (omap id [h])) (submit spec h now).
Proof.
  intros [d x] a dx' w H. unfold submit in H.
  do 2 (apply bind_ret_inv in H as (? & ? & ? & ? & Hd & H & ->); injection Hd as <- <- <-;
    cbn [fst snd app] in H).
  match type of H with context [match ?m with Some _ => _ | None => _ end] =>
    destruct m as [q|] eqn:Ec in H end.
  - injection H as _ <- <-. intros [Hm Hi]. split; [done|].
    destruct (str_empty (rs_coalesce_key spec)); [done|].
    apply coalesce_spec in Ec. unfold live. cbn [called omap app fst snd queue pending set_queue
      bump set_metrics_ metrics_] in *. rewrite !omap_app, Ec.
    cbn [map concat]. rewrite app_nil_l, app_assoc. done.
  - do 2 (apply bind_ret_inv in H as (? & ? & ? & ? & Hd & H & ->); injection Hd as _ <- <-;
      cbn [fst snd app] in H).
    apply conserves_tick in H. intros Hok. destruct H as [Hok' HP]; [exact Hok|].
    split; [exact Hok'|]. cbn [app] in *. rewrite <- HP. unfold live. cbn.
    rewrite map_app, concat_app, !omap_app. cbn [map concat w_handlers].
    rewrite !app_nil_r. solve_Permutation.
Qed.

Lemma live_mdel d i e : mget i (pending d) = Some e ->
  live d ≡ₚ omap id (p_handlers e) ++ live (set_pending (mdel i (pending d)) d).
Proof.
  intros H. unfold live. cbn [queue pending set_pending]. rewrite (mdel_perm _ _ _ H) at 1.
  cbn [map concat snd]. rewrite !omap_app. solve_Permutation.
Qed.

Lemma ids_ok_mdel d x i : ids_ok (d, x) -> ids_ok (set_pending (mdel i (pending d)) d, x).
Proof.
  intros [Hm Hi]. split; cbn in *; [by apply msorted_mdel|].
  intros j Hj. by eapply Hi, keys_mdel_incl.
Qed.

Lemma conserves_on_message message : yields (conserves []) (on_message message).
Proof.
  intros [d x] a dx' w H [Hm Hi]. unfold on_message in H.
  apply bind_ret_inv in H as (irt & ? & ? & ? & Hd & H & ->); injection Hd as Hirt <- <-.
  cbn [app] in H. destruct (str_empty irt); [by injection H as _ <- <-|].
  apply bind_ret_inv in H as (d0 & ? & ? & ? & Hd & H & ->); injection Hd as <- <- <-.
  cbn [fst snd app] in *.
  destruct (mget irt (pending d)) as [e|] eqn:Ep.
  - apply bind_ret_inv in H as (ty & ? & ? & ? & Hd & H & ->); injection Hd as Hty <- <-.
    apply bind_ret_inv in H as (? & ? & ? & ? & Hd & H & ->); injection Hd as _ <- <-.
    cbn [fst snd app] in *.
    assert (forall w' d', pending d' = pending (set_pending (mdel irt (pending d)) d) ->
       queue d' = queue d -> called w' = omap id (p_handlers e) ->
       ids_ok (d', x) /\ [] ++ live d ≡ₚ called w' ++ live d') as Hfin.
    { intros w' d' Hp Hq Hc. rewrite Hc, (live_mdel _ _ _ Ep). unfold live, ids_ok.
      cbn [fst snd]. rewrite Hp, Hq. split; [by apply (ids_ok_mdel d x)|done]. }
    destruct (find_meta (p_type e)) as [meta|];
      [destruct (negb (accepts_response meta ty)); [destruct (warning d)|]|];
      injection H as _ <- <-; apply Hfin; try done;
      by rewrite app_nil_r, ?called_warn, called_complete.
  - apply bind_ret_inv in H as (? & ? & ? & ? & Hd & H & ->); injection H as _ <- <-.
    destruct (warning d).
    + apply bind_ret_inv in Hd as (? & ? & ? & ? & Hd' & Hd & ->). injection Hd' as _ <- <-.
      by injection Hd as _ <- <-.
    + by injection Hd as _ <- <-.
Qed.

Lemma called_complete_all (l : list (list handler)) r :
  called (concat (map (fun hs => complete hs r) l)) = omap id (concat l).
Proof.
  induction l as [|hs l IH]; [done|]. simpl. by rewrite called_app, called_complete, IH, omap_app.
Qed.

Lemma fail_all_spec e d (x : X) :
  exists d', fail_all e (d, x) =
    (Ret tt, (d', x),
     concat (map (fun kv => complete (p_handlers kv.2) (Err e)) (pending d)) ++
     concat (map (fun w => complete (w_handlers w) (Err e)) (queue d))) /\
    queue d' = [] /\ pending d' = [] /\
    m_disconnect_failures (metrics_ d') = m_disconnect_failures (metrics_ d) + (in_flight d + queued d).
Proof. eexists. split; [reflexivity|done]. Qed.

Lemma conserves_fail_all e : yields (conserves []) (fail_all e).
Proof.
  intros [d x] a dx' w. destruct (fail_all_spec e d x) as (d' & -> & Hq & Hp & _).
  intros [= _ <- <-] [Hm Hi]. split.
  - split; cbn; rewrite Hp; [apply msorted_nil|]. by intros id Hid%elem_of_nil.
  - unfold live at 2. cbn [fst snd app]. rewrite Hq, Hp. simpl.
    rewrite app_nil_r, called_app.
    rewrite <- (map_map (fun kv => p_handlers kv.2) (fun hs => complete hs (Err e))).
    rewrite <- (map_map w_handlers (fun hs => complete hs (Err e))).
    rewrite !called_complete_all. unfold live. rewrite omap_app. solve_Permutation.
Qed.

(** ** Runs of the dispatcher *)

(** The entry points, as the client calls them. *)
Inductive dop :=
| Op_submit (spec : RequestSpec) (h : nat) (now : TimePoint)
| Op_tick (now : TimePoint)
| Op_drain (now : TimePoint)
| Op_message (m : json)
| Op_fail_all (e : Error)
| Op_set_sending (b : bool)
| Op_set_warning (b : bool).

Definition run_op (op : dop) : DM unit :=
  match op with
  | Op_submit spec h now => submit spec (Some h) now
  | Op_tick now => tick now
  | Op_drain now => drain now
  | Op_message m => let* _ := on_message m in ret tt
  | Op_fail_all e => fail_all e
  | Op_set_sending b => dmod (set_sending b)
  | Op_set_warning b => dmod (set_warning_handler b)
  end.

Definition op_handlers (op : dop) : list nat :=
  match op with Op_submit _ h _ => [h] | _ => [] end.

(** [druns s hs s' w]: a sequence of calls that all return, submitting the
    handlers [hs] and emitting [w]; in between, the sender may do anything that
    does not make it forget the ids it has issued. *)
Inductive druns : ST -> list nat -> ST -> list event -> Prop :=
| druns_done s : druns s [] s []
| druns_op op s s1 s2 hs w1 w2 : run_op op s = (Ret tt, s1, w1) -> druns s1 hs s2 w2 ->
    druns s (op_handlers op ++ hs) s2 (w1 ++ w2)
| druns_sender d x x' s hs w : (forall i, issued x i -> issued x' i) ->
    druns (d, x') hs s w -> druns (d, x) hs s w.

Lemma conserves_op op : yields (conserves (op_handlers op)) (run_op op).
Proof.
  destruct op as [spec h now|now|now|m|e|b|b]; simpl.
  - apply (conserves_submit spec (Some h)).
  - apply conserves_tick.
  - apply conserves_drain.
  - apply yields_bind; [apply _|apply conserves_on_message|]. intros b. apply yields_ret, _.
  - apply conserves_fail_all.
  - by intros [d x] a dx' w [= _ <- <-].
  - by intros [d x] a dx' w [= _ <- <-].
Qed.

Lemma conserves_runs s hs s' w : druns s hs s' w -> conserves hs s s' w.
Proof.
  induction 1 as [s|op s s1 s2 hs w1 w2 H Hr IH|d x x' s hs w Hx Hr IH]; intros Hok.
  - done.
  - destruct (conserves_op op _ _ _ _ H Hok) as [Hok1 P1]. destruct (IH Hok1) as [Hok2 P2].
    split; [done|]. rewrite called_app, <- !app_assoc. rewrite <- P2.
    rewrite (app_assoc (called w1)), (Permutation_app_comm (called w1) hs), <- app_assoc, <- P1.
    solve_Permutation.
  - apply IH. destruct Hok as [Hm Hi]. split; [done|]. cbn in *. auto.
Qed.

Lemma ids_ok_new b t (x : X) : ids_ok (new_dispatcher b t, x).
Proof. split; [apply msorted_nil|]. by intros id Hid%elem_of_nil. Qed.
End Conservation.

(** ** Window, tokens, order *)

Section Guarantees.
Context {X : Type} `{HX : !Sender X}.
Abbreviation ST := (Dispatcher * X)%type.

Lemma length_memplace {V} k (v : V) m : (length (memplace k v m) <= S (length m))%nat.
Proof.
  unfold memplace. destruct (mget k m) eqn:E; [lia|]. by rewrite (mset_perm_new _ _ _ E).
Qed.

(** The window of open requests. *)
Definition window_ok (d : Dispatcher) : Prop := in_flight d <= rb_max_in_flight (budget d).

(** A usable rate budget, and a bucket within it. *)
Definition budget_ok (b : RateBudget) : Prop :=
  canonical (rb_burst b) /\ (0 <= toQ (rb_burst b) <= inject_Z (2 ^ 53))%Q /\
  canonical (rb_requests_per_second b) /\ (0 < toQ (rb_requests_per_second b))%Q /\
  0 <= rb_max_in_flight b.
Definition bucket_ok (d : Dispatcher) : Prop :=
  budget_ok (budget d) /\ canonical (tokens d) /\ (0 <= toQ (tokens d))%Q /\
  (toQ (tokens d) <= toQ (rb_burst (budget d)))%Q.

Definition limits_ok (d : Dispatcher) : Prop := bucket_ok d /\ window_ok d.

(** Every frame sent costs exactly one token. *)
Definition pays (dx dx' : ST) (_ : list event) : Prop :=
  limits_ok dx.1 -> limits_ok dx'.1 /\
  (toQ (tokens dx'.1) ==
   toQ (tokens dx.1) - inject_Z (m_sent (metrics_ dx'.1) - m_sent (metrics_ dx.1)))%Q.

#[export] Instance pays_composable : Composable pays.
Proof.
  split.
  - intros s H. split; [done|]. rewrite Z.sub_diag. unfold inject_Z. lra.
  - intros s1 s2 s3 w1 w2 H1 H2 H. destruct (H1 H) as [Hok E1].
    destruct (H2 Hok) as [Hok' E2]. split; [done|]. rewrite E2, E1.
    replace (m_sent (metrics_ s3.1) - m_sent (metrics_ s1.1)) with
      ((m_sent (metrics_ s2.1) - m_sent (metrics_ s1.1)) +
       (m_sent (metrics_ s3.1) - m_sent (metrics_ s2.1))) by lia.
    rewrite inject_Z_plus. ring.
Qed.

Lemma toQ_one : (toQ one == 1)%Q.
Proof. reflexivity. Qed.

Lemma pays_loop : loop_rel pays.
Proof.
  split.
  - intros d x H. split; [done|]. cbn. rewrite Z.sub_diag. unfold inject_Z. lra.
  - intros d x l1 w l2 e x' ws Hq _ _ H. split; [done|]. cbn.
    rewrite Z.sub_diag. unfold inject_Z. lra.
  - intros d x l1 w l2 id x' ws Hq _ Hf Ht _ [(Hb & Hc & H0 & H1) Hw]. cbn [fst] in *.
    assert (1 <= toQ (tokens d))%Q as Hge.
    { rewrite <- toQ_one. apply flt_toQ_false in Ht; [done|by apply canonical_finite|done]. }
    assert (toQ (tokens d) <= inject_Z (2 ^ 53))%Q as Hle.
    { destruct Hb as (_ & [_ Hb] & _). by apply (Qle_trans _ _ _ H1). }
    destruct (dsub_one _ Hc Hge Hle) as [Hc' Heq]. split; [split|].
    + unfold bucket_ok. cbn. split; [done|]. split; [done|]. rewrite Heq. split; lra.
    + unfold window_ok, in_flight in *. cbn in *.
      pose proof (length_memplace id (mkPending (rs_type (w_spec w)) (w_handlers w) (w_deadline w))
                    (pending d)). lia.
    + cbn. rewrite Heq. replace (m_sent (metrics_ d) + 1 - m_sent (metrics_ d)) with 1 by lia.
      reflexivity.
Qed.

Lemma pays_drain now : yields pays (drain now).
Proof.
  refine (drain_ind _ now pays_loop _). intros d x b H. split; [done|]. cbn.
  rewrite Z.sub_diag. unfold inject_Z. lra.
Qed.

Lemma elapsed_positive n : fle (fdiv_Z binary64 (double_of_Z n) 1000000000) (F_zero false) = false ->
  let e := fdiv_Z binary64 (double_of_Z n) 1000000000 in
  nonneg_num e /\ ((0 < toQ e)%Q \/ e = F_inf false).
Proof.
  intros H. cbv zeta. set (e := fdiv_Z binary64 (double_of_Z n) 1000000000) in *.
  destruct (decide (0 <= n)) as [Hn|Hn].
  - assert (nonneg_num e) as He by (apply fdiv_Z_nonneg; [lia|]; by apply round_to_nonneg).
    split; [done|]. destruct He as [[Hc H0]|]; [left|by right].
    destruct (Qlt_le_dec 0 (toQ e)) as [|Hle]; [done|]. exfalso.
    assert (fle e (F_zero false) = true); [|congruence].
    apply fle_toQ; [by apply canonical_finite|done|]. by rewrite toQ_zero.
  - exfalso. assert (fle e (F_zero false) = true); [|congruence].
    apply fle_zero_neg, fdiv_Z_neg; [lia|]. left. apply round_to_neg. lia.
Qed.

Lemma bucket_refill now d : bucket_ok d -> bucket_ok (refill now d).
Proof.
  intros (Hb & Hc & H0 & H1). unfold refill.
  destruct (negb (refill_initialised d)); [done|].
  match goal with |- context [if fle ?e _ then _ else _] => destruct (fle e (F_zero false)) eqn:E end;
    [done|].
  apply elapsed_positive in E as [Hn Hp]. destruct Hb as (Hb1 & Hb2 & Hb3 & Hb4 & Hb5).
  split; [done|]. cbn [tokens set_tokens set_last_refill budget].
  apply std_min_bounded; [done|apply Hb2|]. apply dadd_nonneg; [by left|].
  apply dmul_nonneg; [done|left; split; [done|lra]|by left|done].
Qed.

Lemma budget_refill now d : budget (refill now d) = budget d.
Proof. unfold refill. by repeat case_match_goal. Qed.
Lemma metrics_refill now d : metrics_ (refill now d) = metrics_ d.
Proof. unfold refill. by repeat case_match_goal. Qed.

Lemma filter_length_le {A} (f : A -> bool) l : (length (List.filter f l) <= length l)%nat.
Proof. induction l as [|x l IH]; simpl; [lia|]. destruct (f x); simpl; lia. Qed.

Lemma limits_expired now d d1 w1 : expired now d = (d1, w1) -> limits_ok d ->
  limits_ok d1 /\ tokens d1 = tokens (refill now d) /\ m_sent (metrics_ d1) = m_sent (metrics_ d).
Proof.
  unfold expired. destruct (expire_waiting now (queue (refill now d))) as [[q ev1] n1] eqn:E1.
  cbn [pending set_queue bump set_metrics_].
  destruct (expire_pending now (pending (refill now d))) as [[p ev2] n2] eqn:E2.
  intros [= <- <-] [Hb Hw]. apply (bucket_refill now) in Hb.
  apply expire_pending_spec in E2 as (-> & _ & _). rewrite pending_refill.
  split; [split|].
  - exact Hb.
  - unfold window_ok, in_flight in *. cbn. rewrite budget_refill.
    pose proof (filter_length_le (fun kv : string * Pending => negb (p_deadline kv.2 <=? now))
                  (pending d)). lia.
  - cbn. by rewrite metrics_refill.
Qed.

(** A tick pays exactly for the frames it sends, out of the refilled bucket. *)
Lemma tick_pays now d x a d' x' w : tick now (d, x) = (Ret a, (d', x'), w) -> limits_ok d ->
  limits_ok d' /\
  (toQ (tokens d') ==
   toQ (tokens (refill now d)) - inject_Z (m_sent (metrics_ d') - m_sent (metrics_ d)))%Q.
Proof.
  rewrite tick_unfold. destruct (expired now d) as [d1 w1] eqn:E.
  destruct (drain now (d1, x)) as [[r dx2] w2] eqn:Ed. intros [= -> -> <-] H.
  destruct (limits_expired _ _ _ _ E H) as (H1 & Ht & Hs).
  destruct (pays_drain _ _ _ _ _ Ed H1) as [H2 E2]. split; [done|].
  cbn [fst] in E2. by rewrite Ht, Hs in E2.
Qed.

Definition keeps_limits (dx dx' : ST) (_ : list event) : Prop := limits_ok dx.1 -> limits_ok dx'.1.

Lemma limits_submit spec h now : yields keeps_limits (submit spec h now).
Proof.
  intros [d x] a [d' x'] w H Hl. unfold submit in H.
  do 2 (apply bind_ret_inv in H as (? & ? & ? & ? & Hd & H & ->); injection Hd as <- <- <-;
    cbn [fst snd app] in H).
  match type of H with context [match ?m with Some _ => _ | None => _ end] =>
    destruct m as [q|] eqn:Ec in H end.
  - by injection H as _ <- <-.
  - do 2 (apply bind_ret_inv in H as (? & ? & ? & ? & Hd & H & ->); injection Hd as _ <- <-;
      cbn [fst snd app] in H).
    by apply tick_pays in H as [H _].
Qed.

Lemma mdel_length_le {V} k (m : smap V) : (length (mdel k m) <= length m)%nat.
Proof.
  destruct (mget k m) eqn:E; [|by rewrite mdel_None].
  pose proof (mdel_length k m ltac:(eauto)). lia.
Qed.

Lemma limits_mdel i d : limits_ok d -> limits_ok (set_pending (mdel i (pending d)) d).
Proof.
  intros [Hb Hw]. split; [done|]. unfold window_ok, in_flight in *. cbn.
  pose proof (mdel_length_le i (pending d)). lia.
Qed.

#[export] Instance keeps_limits_composable : Composable keeps_limits.
Proof. split; unfold keeps_limits; auto. Qed.

Lemma limits_on_message m : respects keeps_limits (on_message m).
Proof.
  unfold on_message, dget, dmod. respects_tac; intros Hl; cbn [fst] in *; try done.
  all: try by apply limits_mdel.
Qed.

Lemma limits_op op : yields keeps_limits (run_op op).
Proof.
  destruct op as [spec h now|now|now|m|e|b|b]; simpl.
  - apply limits_submit.
  - intros [d x] a [d' x'] w H Hl. by apply tick_pays in H as [H _].
  - intros dx a dx' w H Hl. by apply pays_drain in H as [H _].
  - apply yields_respects. respects_tac. apply limits_on_message.
  - intros [d x] a dx' w [= _ <- <-] [Hb Hw]. split; [exact Hb|].
    destruct Hb as ((_ & _ & _ & _ & Hb) & _). done.
  - intros [d x] a dx' w [= _ <- <-] Hl. exact Hl.
  - intros [d x] a dx' w [= _ <- <-] Hl. exact Hl.
Qed.

Lemma limits_runs s hs s' w : druns s hs s' w -> limits_ok s.1 -> limits_ok s'.1.
Proof.
  induction 1 as [s|op s s1 s2 hs w1 w2 H Hr IH|d x x' s hs w Hx Hr IH]; [done| |done].
  intros Hl. apply IH. by eapply (limits_op op).
Qed.

Lemma limits_new b t : budget_ok b -> limits_ok (new_dispatcher b t).
Proof.
  intros (H1 & H2 & H3 & H4 & H5). split.
  - split; [by repeat split; try apply H2|]. cbn. split; [done|]. split; [apply H2|lra].
  - done.
Qed.

(** ** Deadlines *)

Definition none_expired (now : TimePoint) (d : Dispatcher) : Prop :=
  (forall v, v ∈ queue d -> now < w_deadline v) /\
  (forall id p, (id, p) ∈ pending d -> now < p_deadline p).

Lemma elem_memplace {V} k (v : V) m kv : kv ∈ memplace k v m -> kv = (k, v) \/ kv ∈ m.
Proof.
  unfold memplace. destruct (mget k m) eqn:E; [auto|]. rewrite (mset_perm_new _ _ _ E).
  by intros [->|?]%elem_of_cons; auto.
Qed.

Lemma deadlines_loop now : loop_rel (fun dx dx' (_ : list event) =>
  none_expired now (@fst _ X dx) -> none_expired now dx'.1).
Proof.
  split.
  - done.
  - intros d x l1 w l2 e x' ws Hq _ _ [H1 H2]. split; [|done].
    cbn. intros v Hv. apply H1. cbn. rewrite Hq. set_solver.
  - intros d x l1 w l2 id x' ws Hq _ _ _ _ [H1 H2]. cbn [fst] in *. split.
    + cbn. intros v Hv. apply H1. rewrite Hq. set_solver.
    + intros j p Hp. cbn in Hp. apply elem_memplace in Hp as [[= -> ->]|Hp]; [|by eapply H2].
      apply H1. rewrite Hq. set_solver.
Qed.

Lemma expired_none now d d1 w1 : expired now d = (d1, w1) -> none_expired now d1.
Proof.
  unfold expired. destruct (expire_waiting now (queue (refill now d))) as [[q ev1] n1] eqn:E1.
  cbn [pending set_queue bump set_metrics_].
  destruct (expire_pending now (pending (refill now d))) as [[p ev2] n2] eqn:E2.
  intros [= <- <-]. apply expire_waiting_spec in E1 as (-> & _ & _).
  apply expire_pending_spec in E2 as (-> & _ & _). split; cbn.
  - intros v Hv. apply list_elem_of_In, filter_In in Hv as [_ Hv]. lia.
  - intros i e Hv. apply list_elem_of_In, filter_In in Hv as [_ Hv]. simpl in Hv. lia.
Qed.

Lemma drain_stopped now d (x : X) a d' x' w : drain now (d, x) = (Ret a, (d', x'), w) ->
  sending_enabled d = true -> draining d = false -> stopped d'.
Proof.
  unfold drain. cbn [fst snd]. intros H He Hd. rewrite He, Hd in H. cbn [negb orb] in H.
  destruct (drain_loop _ _) as [[r [d1 x1]] w1] eqn:E. injection H as -> <- <- <-.
  apply (drain_loop_ind _ conserves_loop) in E as [_ E]; [exact E|cbn; lia].
Qed.

(** ** The requests a drain sends *)

(** [sends x l x' w]: the requests [l] are handed to the sender one after the
    other; a request the sender refuses is answered with the error at once. *)
Inductive sends : X -> list Waiting -> X -> list event -> Prop :=
| sends_nil x : sends x [] x []
| sends_ok x q id x1 w1 l x2 w2 : send_request (w_spec q) x = (Ret (Ok id), x1, w1) ->
    sends x1 l x2 w2 -> sends x (q :: l) x2 (w1 ++ w2)
| sends_err x q e x1 w1 l x2 w2 : send_request (w_spec q) x = (Ret (Err e), x1, w1) ->
    sends x1 l x2 w2 -> sends x (q :: l) x2 (w1 ++ complete (w_handlers q) (Err e) ++ w2).

Lemma sends_app x1 l1 x2 w1 l2 x3 w2 : sends x1 l1 x2 w1 -> sends x2 l2 x3 w2 ->
  sends x1 (l1 ++ l2) x3 (w1 ++ w2).
Proof.
  induction 1; intros H2; simpl; [done|..]; rewrite <- !app_assoc;
    [eapply sends_ok|eapply sends_err]; eauto.
Qed.

Definition not_after (a b : Waiting) : Prop := before b a = false.

(** Some of the queue is sent, in the order of [before], and nothing that is
    left precedes anything that was sent. *)
Definition in_order (dx dx' : ST) (w : list event) : Prop := exists l,
  sends dx.2 l dx'.2 w /\ queue dx.1 ≡ₚ l ++ queue dx'.1 /\ StronglySorted not_after l /\
  Forall (fun a => Forall (not_after a) (queue dx'.1)) l.

Lemma StronglySorted_app {A} (R : A -> A -> Prop) l1 l2 : StronglySorted R l1 -> StronglySorted R l2 ->
  Forall (fun a => Forall (R a) l2) l1 -> StronglySorted R (l1 ++ l2).
Proof.
  induction 1 as [|a l Hs IH Ha]; intros H2 Hf; [done|]. simpl.
  inversion_clear Hf. constructor; [auto|]. by apply Forall_app.
Qed.

#[export] Instance in_order_composable : Composable in_order.
Proof.
  split.
  - intros s. exists []. split; [apply sends_nil|]. split; [done|]. split; constructor.
  - intros s1 s2 s3 w1 w2 (l1 & S1 & P1 & O1 & F1) (l2 & S2 & P2 & O2 & F2).
    exists (l1 ++ l2). assert (Forall (fun a => Forall (not_after a) (l2 ++ queue s3.1)) l1) as F1'.
    { eapply Forall_impl; [|exact F1]. intros a Ha. by rewrite <- P2. }
    split; [by eapply sends_app|]. split; [by rewrite P1, P2, app_assoc|]. split.
    + apply StronglySorted_app; [done..|]. eapply Forall_impl; [|exact F1'].
      intros a Ha. by apply Forall_app in Ha as [Ha _].
    + apply Forall_app. split; [|done]. eapply Forall_impl; [|exact F1'].
      intros a Ha. by apply Forall_app in Ha as [_ Ha].
Qed.

Lemma in_order_one (d d' : Dispatcher) (x x' : X) l1 w l2 ev : queue d = l1 ++ w :: l2 ->
  (forall v, v ∈ queue d -> before v w = false) -> queue d' = l1 ++ l2 ->
  sends x [w] x' ev -> in_order (d, x) (d', x') ev.
Proof.
  intros Hq Hmin Hq' Hs. exists [w]. cbn [fst snd]. rewrite Hq'. split; [done|].
  split; [rewrite Hq; solve_Permutation|]. split; [by repeat constructor|].
  constructor; [|constructor]. rewrite Forall_elem. intros v Hv. apply Hmin. rewrite Hq. set_solver.
Qed.

Lemma in_order_loop : loop_rel in_order.
Proof.
  split.
  - intros d x. exists []. split; [apply sends_nil|]. split; [done|]. split; constructor.
  - intros d x l1 w l2 e x' ws Hq Hmin Hs. eapply in_order_one; [done..|].
    rewrite <- (app_nil_r (complete _ _)). eapply sends_err; [done|constructor].
  - intros d x l1 w l2 id x' ws Hq Hmin _ _ Hs. eapply in_order_one; [done..|].
    rewrite <- (app_nil_r ws). eapply sends_ok; [done|constructor].
Qed.
End Guarantees.

(** ** What the dispatcher does to its sender

    Only [send_request] touches the sender, so a preorder that it respects is
    respected by every entry point; and with sending off nothing is emitted but
    answers. *)
Section SenderSteps.
Context {X : Type} `{HX : !Sender X} (f : X -> X -> Prop) `{Hf : !PreOrder f}.
Context (Hsend : forall spec, respects (fun x x' (_ : list event) => f x x') (send_request spec)).
Abbreviation fR := (fun (s s' : Dispatcher * X) (_ : list event) => f s.2 s'.2).

Lemma steps_refl d d' x (w : list event) : fR (d, x) (d', x) w.
Proof. cbn. reflexivity. Qed.
#[local] Instance steps_composable : Composable fR.
Proof. split; [reflexivity|]. intros. by etransitivity. Qed.
#[local] Hint Extern 1 (f _ _) => reflexivity : fnt.

Ltac sender_tac := unfold dget, dmod; respects_tac; try reflexivity; try by apply respects_on_snd.

Lemma steps_drain_loop n : respects fR (drain_loop n).
Proof. induction n as [|n IH]; cbn [drain_loop]; sender_tac. Qed.

Lemma steps_drain t : respects fR (drain t).
Proof.
  intros [d x] r s' w. unfold drain. destruct (_ || _); [intros [= <- <- <-]; reflexivity|].
  destruct (drain_loop _ _) as [[r1 [d1 x1]] w1] eqn:E. intros [= <- <- <-].
  by apply steps_drain_loop in E.
Qed.

Lemma steps_tick t : respects fR (tick t).
Proof. pose proof (steps_drain t). unfold tick. sender_tac. Qed.

Lemma steps_submit spec h t : respects fR (submit spec h t).
Proof. pose proof (steps_tick t). unfold submit. sender_tac. Qed.

Lemma steps_on_message m : respects fR (on_message m).
Proof. unfold on_message. sender_tac. Qed.

Lemma steps_fail_all e : respects fR (fail_all e).
Proof. unfold fail_all. sender_tac. Qed.
End SenderSteps.

(** The events of the dispatcher are the sender's and the answers (and, on
    messages, warnings). *)
Section EventSteps.
Context {X : Type} `{HX : !Sender X} (P : event -> Prop).
Context (Hcall : forall h r, P (Ev_call h r)).
Context (Hsend : forall spec, respects (fun (_ _ : X) (w : list event) => Forall P w) (send_request spec)).
Abbreviation eR := (fun (_ _ : Dispatcher * X) (w : list event) => Forall P w).

Lemma complete_events hs r : Forall P (complete hs r).
Proof. induction hs as [|[h|] hs IH]; simpl; [constructor|by constructor|done]. Qed.

Lemma events_drain_loop n : respects eR (drain_loop n).
Proof.
  induction n as [|n IH]; cbn [drain_loop]; unfold dget, dmod; respects_tac;
    first [constructor | apply complete_events | by apply respects_on_snd].
Qed.

Lemma events_drain t : respects eR (drain t).
Proof.
  intros [d x] r s' w. unfold drain. destruct (_ || _); [intros [= _ _ <-]; constructor|].
  destruct (drain_loop _ _) as [[r1 [d1 x1]] w1] eqn:E. intros [= _ _ <-].
  by apply events_drain_loop in E.
Qed.

Lemma events_expire_waiting now q : Forall P (expire_waiting now q).1.2.
Proof.
  induction q as [|w q IH]; simpl; [constructor|].
  destruct (expire_waiting now q) as [[kept ev] n]. destruct (_ <=? _); simpl in *; [|done].
  apply Forall_app. split; [apply complete_events|done].
Qed.
Lemma events_expire_pending now q : Forall P (expire_pending now q).1.2.
Proof.
  induction q as [|[i w] q IH]; simpl; [constructor|].
  destruct (expire_pending now q) as [[kept ev] n]. destruct (_ <=? _); simpl in *; [|done].
  apply Forall_app. split; [apply complete_events|done].
Qed.

Lemma events_tick t : respects eR (tick t).
Proof.
  pose proof (events_drain t). unfold tick, dget, dmod. respects_tac; try constructor; simplify_eq/=.
  - pose proof (events_expire_waiting t (queue a0)) as Hw.
    match goal with H : expire_waiting _ _ = _ |- _ => by rewrite H in Hw end.
  - pose proof (events_expire_pending t (pending a3)) as Hw.
    match goal with H : expire_pending _ _ = _ |- _ => by rewrite H in Hw end.
Qed.

Lemma events_submit spec h t : respects eR (submit spec h t).
Proof. pose proof (events_tick t). unfold submit, dget, dmod. respects_tac; constructor. Qed.
End EventSteps.

(** ** With sending off *)

Section SendingOff.
Context {X : Type} `{HX : !Sender X}.
Abbreviation ST := (Dispatcher * X)%type.

Definition is_call (e : event) : bool := match e with Ev_call _ _ => true | _ => false end.

Lemma complete_calls hs r : Forall (fun e => is_call e = true) (complete hs r).
Proof. induction hs as [|[h|] hs IH]; simpl; [constructor|by constructor|done]. Qed.

Lemma expire_waiting_calls now q q' ev n : expire_waiting now q = (q', ev, n) ->
  Forall (fun e => is_call e = true) ev.
Proof.
  revert q' ev n. induction q as [|w q IH]; intros q' ev n; simpl; [by intros [= _ <- _]|].
  destruct (expire_waiting now q) as [[kept ev1] n1]. specialize (IH _ _ _ eq_refl).
  destruct (w_deadline w <=? now); intros [= _ <- _]; [|done].
  apply Forall_app. split; [apply complete_calls|done].
Qed.

Lemma expire_pending_calls now q q' ev n : expire_pending now q = (q', ev, n) ->
  Forall (fun e => is_call e = true) ev.
Proof.
  revert q' ev n. induction q as [|[i w] q IH]; intros q' ev n; simpl; [by intros [= _ <- _]|].
  destruct (expire_pending now q) as [[kept ev1] n1]. specialize (IH _ _ _ eq_refl).
  destruct (p_deadline w <=? now); intros [= _ <- _]; [|done].
  apply Forall_app. split; [apply complete_calls|done].
Qed.

Lemma expired_facts now d d1 w1 : expired now d = (d1, w1) ->
  sending_enabled d1 = sending_enabled d /\ draining d1 = draining d /\
  (pending d = [] -> pending d1 = []) /\ Forall (fun e => is_call e = true) w1.
Proof.
  unfold expired. destruct (expire_waiting now (queue (refill now d))) as [[q ev1] n1] eqn:E1.
  cbn [pending set_queue bump set_metrics_].
  destruct (expire_pending now (pending (refill now d))) as [[p ev2] n2] eqn:E2.
  intros [= <- <-]. cbn.
  split; [unfold refill; by repeat case_match_goal|].
  split; [unfold refill; by repeat case_match_goal|]. split.
  - intros Hp. rewrite pending_refill, Hp in E2. by injection E2 as <- _ _.
  - apply Forall_app. split; [by eapply expire_waiting_calls|by eapply expire_pending_calls].
Qed.

(** A tick with sending off answers what has expired and sends nothing. *)
Lemma tick_disabled now d (x : X) : sending_enabled d = false ->
  tick now (d, x) = let '(d1, w1) := expired now d in (Ret tt, (d1, x), w1).
Proof.
  intros H. rewrite tick_unfold. destruct (expired now d) as [d1 w1] eqn:E.
  apply expired_facts in E as (Hs & _). unfold drain. cbn [fst]. rewrite Hs, H. cbn.
  by rewrite app_nil_r.
Qed.

Definition keeps_sending (s s' : ST) (_ : list event) : Prop :=
  sending_enabled s'.1 = sending_enabled s.1.
#[export] Instance keeps_sending_composable : Composable keeps_sending.
Proof. split; unfold keeps_sending; [done|congruence]. Qed.

Lemma sending_loop : loop_rel keeps_sending.
Proof. by split. Qed.
Lemma sending_drain now : yields keeps_sending (drain now).
Proof. refine (drain_ind _ now sending_loop _). done. Qed.

Lemma sending_tick now : yields keeps_sending (tick now).
Proof.
  intros [d x] a dx' w. rewrite tick_unfold. destruct (expired now d) as [d1 w1] eqn:E.
  destruct (drain now (d1, x)) as [[r dx2] w2] eqn:Ed. intros [= -> <- <-].
  apply expired_facts in E as (Hs & _). apply sending_drain in Ed.
  unfold keeps_sending in *. cbn [fst] in *. congruence.
Qed.

Lemma sending_on_message m : respects keeps_sending (on_message m).
Proof. unfold on_message, dget, dmod. by respects_tac. Qed.

Lemma sending_fail_all e : respects keeps_sending (fail_all e).
Proof. unfold fail_all, dget, dmod. by respects_tac. Qed.

Lemma none_pending_on_message m : respects (fun s s' (_ : list event) =>
  pending (fst s) = [] -> pending (fst s') = []) (on_message (X := X) m).
Proof.
  assert (Composable (fun (s s' : ST) (_ : list event) => pending s.1 = [] -> pending s'.1 = []))
    by (split; auto).
  unfold on_message, dget, dmod. respects_tac; try done.
  all: intros Hp; cbn in *; by rewrite Hp.
Qed.

(** [submit] either attaches to a waiting request or queues and ticks. *)
Lemma submit_cases spec h now d (x : X) :
  (exists d', submit spec h now (d, x) = (Ret tt, (d', x), []) /\
     sending_enabled d' = sending_enabled d /\ pending d' = pending d) \/
  (exists d', submit spec h now (d, x) = tick now (d', x) /\
     sending_enabled d' = sending_enabled d /\ pending d' = pending d).
Proof.
  unfold submit, dget, dmod. rewrite run_modify, run_gets. cbn [fst snd].
  match goal with |- context [match ?m with Some _ => _ | None => _ end] =>
    destruct m as [q|] end.
  - left. eexists. split; [reflexivity|done].
  - right. rewrite !run_modify. cbn [fst snd]. eexists. split; [reflexivity|done].
Qed.
End SendingOff.

(** ** A concrete sender

    Message ids are the decimal numerals of a counter; used to exhibit runs. *)
Definition toy_send (spec : RequestSpec) : M nat event (Result string) := fun n =>
  if String.eqb (rs_type spec) "reboot_device"
  then (Ret (Err (internal_error "refused")), n, [])
  else (Ret (Ok (pretty n)), S n, [Ev_send (rs_body spec) (pretty n)]).

Definition toy_issued (x : nat) (i : string) : Prop := exists k, (k < x)%nat /\ i = pretty k.

Lemma toy_send_issues spec x r x' w : toy_send spec x = (r, x', w) ->
  (forall i, toy_issued x i -> toy_issued x' i) /\
  (forall id, r = Ret (Ok id) -> ~ toy_issued x id /\ toy_issued x' id).
Proof.
  unfold toy_send. destruct (String.eqb _ _); intros [= <- <- <-]; [done|]. split.
  - intros i (k & H & ->). exists k. split; [lia|done].
  - intros id [= <-]. split; [|exists x; split; [lia|done]].
    intros (k & H & E%(inj pretty)). lia.
Qed.

Lemma toy_send_quiet spec x r x' w : toy_send spec x = (r, x', w) -> called w = [].
Proof. unfold toy_send. by destruct (String.eqb _ _); intros [= <- <- <-]. Qed.

#[export] Instance toy_sender : Sender nat := {
  send_request := toy_send; issued := toy_issued;
  send_issues := toy_send_issues; send_quiet := toy_send_quiet
}.

Definition toy_spec (type key : string) (p : OperationPriority) : RequestSpec :=
  {| rs_type := type; rs_body := J_obj []; rs_timeout := None; rs_priority := p;
     rs_coalesce_key := key |}.
Definition toy_disp : Dispatcher * nat := (new_dispatcher default_budget (sec 10), 0%nat).
Definition toy_response (id type : string) : json :=
  J_obj (mof [("in_reply_to", J_str id); ("type", J_str type)]).

Ltac toy_run := repeat first
  [ eapply (druns_op (Op_submit _ _ _)); [vm_compute; reflexivity|]
  | eapply druns_op; [vm_compute; reflexivity|] | apply druns_done ].

(** ** Theorems *)

Section Theorems.
Context {X : Type} `{HX : !Sender X}.

(** Every handler handed to [submit] is accounted for: over any sequence of
    calls of the dispatcher that return, the handlers submitted are, as a
    multiset, the handlers called plus the ones still waiting or open.  So no
    handler is called twice and none is dropped. *)
Theorem handlers_conserved b t (x : X) hs s w :
  druns (new_dispatcher b t, x) hs s w -> hs ≡ₚ called w ++ live s.1.
Proof.
  intros H. apply conserves_runs in H. destruct (H (ids_ok_new b t x)) as [_ HP].
  cbn in HP. by rewrite app_nil_r in HP.
Qed.

(** After a lost connection ([fail_all]) every handler submitted so far has
    been called exactly once, the ones still owed with the error given, and the
    dispatcher is empty. *)
Theorem disconnect_answers_everyone b t (x : X) hs s w e :
  druns (new_dispatcher b t, x) hs s w ->
  exists d' w', fail_all e s = (Ret tt, (d', s.2), w') /\ called (w ++ w') ≡ₚ hs /\
    queue d' = [] /\ pending d' = [] /\ forall h r, Ev_call h r ∈ w' -> r = Err e.
Proof.
  intros H. destruct s as [d y]. destruct (fail_all_spec e d y) as (d' & Hf & Hq & Hp & _).
  eexists d', _. split; [exact Hf|]. apply conserves_runs in H.
  destruct (H (ids_ok_new b t x)) as [Hok HP]. cbn in HP. rewrite app_nil_r in HP.
  destruct (conserves_fail_all e _ _ _ _ Hf Hok) as [_ HP2]. split.
  - rewrite called_app. cbn [app fst] in HP2. rewrite HP, HP2. unfold live.
    rewrite Hq, Hp. cbn. by rewrite app_nil_r.
  - split; [done|]. split; [done|]. intros h r Hin.
    assert (forall (l : list (list handler)) ev, ev ∈ concat (map (fun hs => complete hs (Err e)) l) ->
      exists h, ev = Ev_call h (Err e)) as Hc.
    { intros l ev Hev. apply list_elem_of_In, in_concat in Hev as (y0 & Hy & Hev).
      apply in_map_iff in Hy as (hs0 & <- & _). apply in_map_iff in Hev as (h0 & <- & _). eauto. }
    rewrite <- (map_map (fun kv => p_handlers kv.2) (fun hs => complete hs (Err e))) in Hin.
    rewrite <- (map_map w_handlers (fun hs => complete hs (Err e))) in Hin.
    apply elem_of_app in Hin as [Hin|Hin]; apply Hc in Hin as [h0 Hin]; congruence.
Qed.

(** C12: [drain] refines the abstract queue discipline: what it hands to the
    sender is a part of the queue in the order of priority, then submission,
    and no request left waiting comes before a request it sent. *)
Theorem drain_priority_order now d (x : X) d' x' w :
  drain now (d, x) = (Ret tt, (d', x'), w) ->
  exists l, sends x l x' w /\ queue d ≡ₚ l ++ queue d' /\ StronglySorted not_after l /\
    Forall (fun a => Forall (not_after a) (queue d')) l.
Proof.
  intros H. refine (drain_ind in_order now in_order_loop _ _ _ _ _ H).
  intros d0 x0 b. exists []. split; [apply sends_nil|]. split; [done|]. split; constructor.
Qed.

(** Sending always ends: if the sender answers every request, [drain]
    returns, whatever the queue, and leaves nothing to do: sending is off, a
    drain is already running further up the stack, nothing waits, the window is
    full, or no token is left. *)
Theorem drain_terminates now d (x : X) :
  (forall spec x0, exists r x' w, send_request spec x0 = (Ret r, x', w)) ->
  exists d' x' w, drain now (d, x) = (Ret tt, (d', x'), w) /\
    (sending_enabled d = false \/ draining d = true \/ stopped d').
Proof.
  intros Hsend. unfold drain. cbn [fst snd]. destruct (sending_enabled d); cbn [negb orb]; [|by eauto 10].
  destruct (draining d); [by eauto 10|].
  destruct (drain_loop_returns Hsend (S (length (queue d))) (set_draining true d) x) as (d' & x' & w & E & Hst);
    [cbn; lia|].
  rewrite E. exists (set_draining false d'), x', w. split; [done|]. right. right. exact Hst.
Qed.


(** One tick sends at most [burst] frames, and the bucket pays for them
    exactly: no token is lost or gained to floating-point rounding. *)
Theorem tick_frames_paid now d (x : X) d' x' w : limits_ok d ->
  tick now (d, x) = (Ret tt, (d', x'), w) ->
  let n := inject_Z (m_sent (metrics_ d') - m_sent (metrics_ d)) in
  (toQ (tokens d') == toQ (tokens (refill now d)) - n)%Q /\ (n <= toQ (rb_burst (budget d)))%Q.
Proof.
  intros Hl H. destruct (tick_pays _ _ _ _ _ _ _ H Hl) as [[(_ & _ & H0 & _) _] E].
  cbv zeta. split; [done|]. destruct (bucket_refill now d (proj1 Hl)) as (_ & _ & _ & H1).
  rewrite budget_refill in H1. lra.
Qed.

(** C35: A tick enforces the deadlines and is work-conserving: afterwards no
    waiting or open request is past its deadline, and when sending is enabled
    a request only waits because the window is full or the bucket is empty. *)
Theorem tick_deadlines now d (x : X) d' x' w :
  tick now (d, x) = (Ret tt, (d', x'), w) ->
  none_expired now d' /\ (sending_enabled d = true -> draining d = false -> stopped d').
Proof.
  rewrite tick_unfold. destruct (expired now d) as [d1 w1] eqn:E.
  destruct (drain now (d1, x)) as [[r dx2] w2] eqn:Ed. intros [= -> -> <-]. split.
  - pose proof (expired_none _ _ _ _ E) as Hn.
    refine (drain_ind _ now (deadlines_loop now) _ _ _ _ _ Ed Hn). done.
  - intros He Hd. eapply drain_stopped; [exact Ed|..]; unfold expired in E;
      destruct (expire_waiting _ _) as [[q ev1] n1]; cbn in E;
      destruct (expire_pending _ _) as [[p ev2] n2]; injection E as <- _; cbn;
      unfold refill; by repeat case_match_goal.
Qed.

(** Response types are enforced: a handler is called with a success only
    with the very message received, when that message names the request of the
    handler in [in_reply_to] and its type is one the catalogue declares as a
    response of that request. *)
Theorem response_type_enforced message d (x : X) b dx' w h m :
  on_message message (d, x) = (Ret b, dx', w) -> Ev_call h (Ok m) ∈ w ->
  m = message /\ exists id entry type,
    value_string "in_reply_to" message = Ret id /\ mget id (pending d) = Some entry /\
    Some h ∈ p_handlers entry /\ value_string "type" message = Ret type /\
    forall meta, find_meta (p_type entry) = Some meta -> accepts_response meta type = true.
Proof.
  intros H Hin. unfold on_message in H.
  apply bind_ret_inv in H as (irt & ? & ? & ? & Hd & H & ->); injection Hd as Hirt <- <-.
  cbn [app] in *. destruct (str_empty irt).
  { injection H as _ <- <-. by apply elem_of_nil in Hin. }
  apply bind_ret_inv in H as (d0 & ? & ? & ? & Hd & H & ->); injection Hd as <- <- <-.
  cbn [fst snd app] in *.
  assert (forall hs r, Ev_call h (Ok m) ∈ complete hs r -> r = Ok m /\ Some h ∈ hs) as Hc.
  { intros hs r Hx. induction hs as [|[h0|] hs IH]; simpl in Hx; [by apply elem_of_nil in Hx|..].
    - apply elem_of_cons in Hx as [[= <- <-]|Hx]; [set_solver|]. apply IH in Hx. set_solver.
    - apply IH in Hx. set_solver. }
  destruct (mget irt (pending d)) as [e|] eqn:Ep.
  - apply bind_ret_inv in H as (ty & ? & ? & ? & Hd & H & ->); injection Hd as Hty <- <-.
    apply bind_ret_inv in H as (? & ? & ? & ? & Hd & H & ->); injection Hd as _ <- <-.
    cbn [fst snd app] in *.
    destruct (find_meta (p_type e)) as [meta|] eqn:Em;
      [destruct (accepts_response meta ty) eqn:Ea; cbn [negb] in H; [|destruct (warning d)]|];
      injection H as _ <- <-; rewrite ?app_nil_r in Hin;
      try (apply elem_of_cons in Hin as [Hin|Hin]; [discriminate|]);
      apply Hc in Hin as [[= <-] Hin]; (split; [done|]); exists irt, e, ty;
      do 4 (split; [done|]); rewrite Em; intros ? H1; congruence.
  - exfalso. apply bind_ret_inv in H as (? & ? & ? & ? & Hd & H & ->); injection H as _ <- <-.
    destruct (warning d).
    + apply bind_ret_inv in Hd as (? & ? & ? & ? & Hd' & Hd & ->). injection Hd' as _ <- <-.
      injection Hd as _ <- <-. cbn [app] in Hin. set_solver.
    + injection Hd as _ <- <-. cbn [app] in Hin. set_solver.
Qed.
End Theorems.

(** ** Witnesses *)

Lemma handlers_conserved_witness : exists s w,
  druns toy_disp [7; 8]%nat s w /\ [7; 8]%nat ≡ₚ called w ++ live s.1.
Proof.
  assert (exists s w, druns toy_disp [7; 8]%nat s w) as (s & w & H).
  { eexists _, _.
    eapply (druns_op (Op_submit (toy_spec "dp_read" EmptyString Polling) 7 0));
      [vm_compute; reflexivity|].
    eapply (druns_op (Op_submit (toy_spec "reboot_device" EmptyString SafetyControl) 8 5));
      [vm_compute; reflexivity|].
    eapply (druns_op (Op_message (toy_response "0" "dp_report"))); [vm_compute; reflexivity|].
    apply druns_done. }
  exists s, w. split; [exact H|]. exact (handlers_conserved _ _ _ _ _ _ H).
Defined.

Lemma disconnect_answers_everyone_witness : exists s w d' w',
  druns toy_disp [7; 8]%nat s w /\
  fail_all (internal_error "lost") s = (Ret tt, (d', s.2), w') /\ called (w ++ w') ≡ₚ [7; 8]%nat.
Proof.
  assert (exists s w, druns toy_disp [7; 8]%nat s w) as (s & w & H).
  { eexists _, _.
    eapply (druns_op (Op_submit (toy_spec "dp_read" EmptyString Polling) 7 0));
      [vm_compute; reflexivity|].
    eapply (druns_op (Op_submit (toy_spec "dp_read" "k" Polling) 8 5));
      [vm_compute; reflexivity|].
    apply druns_done. }
  destruct (disconnect_answers_everyone _ _ _ _ _ _ (internal_error "lost") H)
    as (d' & w' & Hf & Hc & _).
  exists s, w, d', w'. split; [exact H|]. split; [exact Hf|exact Hc].
Defined.

(** Sending off, two requests queued, the more urgent one second. *)
Definition toy_queued : Dispatcher :=
  set_queue [mkWaiting (toy_spec "dp_read" EmptyString Polling) [Some 7%nat] (sec 10) 1;
             mkWaiting (toy_spec "dp_write" EmptyString InteractiveControl) [Some 8%nat] (sec 10) 2]
    (set_tokens one (new_dispatcher default_budget (sec 10))).

Lemma drain_priority_order_witness : exists d' x' w l,
  drain 0 (toy_queued, 0%nat) = (Ret tt, (d', x'), w) /\ length (queue d') = 1%nat /\
  sends 0%nat l x' w /\ queue toy_queued ≡ₚ l ++ queue d'.
Proof.
  evaluate (drain 0 (toy_queued, 0%nat)) H.
  destruct (drain_priority_order 0 toy_queued 0%nat _ _ _ H) as (l & Hs & HP & _).
  eexists _, _, _, l. split; [exact H|]. split; [reflexivity|]. split; [exact Hs|exact HP].
Defined.

Lemma drain_terminates_witness : exists d' x' w,
  drain 0 (toy_queued, 0%nat) = (Ret tt, (d', x'), w) /\ (stopped d' \/ draining toy_queued = true).
Proof.
  destruct (drain_terminates 0 toy_queued 0%nat) as (d' & x' & w & H & [Hs|[Hd|Hs]]).
  - intros spec x0. cbn [send_request toy_sender]. unfold toy_send. destruct (String.eqb _ _); by eexists _, _, _.
  - discriminate Hs.
  - exists d', x', w. split; [exact H|]. right. exact Hd.
  - exists d', x', w. split; [exact H|]. left. exact Hs.
Defined.

Lemma budget_ok_default : budget_ok default_budget.
Proof. vm_compute. repeat split; discriminate. Qed.


Lemma toy_limits : limits_ok toy_queued.
Proof. vm_compute. repeat split; discriminate. Qed.

Lemma tick_frames_paid_witness : exists d' x' w,
  tick 0 (toy_queued, 0%nat) = (Ret tt, (d', x'), w) /\
  (inject_Z (m_sent (metrics_ d') - m_sent (metrics_ toy_queued)) <= 8)%Q.
Proof.
  evaluate (tick 0 (toy_queued, 0%nat)) H.
  destruct (tick_frames_paid 0 toy_queued 0%nat _ _ _ toy_limits H) as [_ Hn].
  eexists _, _, _. split; [exact H|exact Hn].
Defined.

Lemma tick_deadlines_witness : exists d' x' w,
  tick (sec 10) (toy_queued, 0%nat) = (Ret tt, (d', x'), w) /\ none_expired (sec 10) d' /\
  called w = [7; 8]%nat.
Proof.
  evaluate (tick (sec 10) (toy_queued, 0%nat)) H.
  destruct (tick_deadlines (sec 10) toy_queued 0%nat _ _ _ H) as [Hn _].
  eexists _, _, _. split; [exact H|]. split; [exact Hn|reflexivity].
Defined.

Definition toy_open : Dispatcher :=
  set_pending [("0", mkPending "dp_read" [Some 7%nat] (sec 10))] toy_queued.

Lemma response_type_enforced_witness : exists b s w,
  on_message (toy_response "0" "dp_report") (toy_open, 0%nat) = (Ret b, s, w) /\
  exists id entry type, mget id (pending toy_open) = Some entry /\
    Some 7%nat ∈ p_handlers entry /\
    value_string "type" (toy_response "0" "dp_report") = Ret type.
Proof.
  evaluate (on_message (toy_response "0" "dp_report") (toy_open, 0%nat)) H.
  destruct (response_type_enforced (toy_response "0" "dp_report") toy_open 0%nat _ _ _ 7%nat
    (toy_response "0" "dp_report") H) as (_ & id & e & ty & _ & H1 & H2 & H3 & _).
  { vm_compute. left. }
  eexists _, _, _. split; [exact H|]. exists id, e, ty. split; [exact H1|]. split; [exact H2|exact H3].
Defined.

(** ** The default budget and the firmware's limit *)

(** Calls at one instant: four requests, their four answers, four more. *)
Definition burst_ops : list dop :=
  let req n := Op_submit (toy_spec "dp_read" EmptyString InteractiveRead) n 0 in
  let ans i := Op_message (toy_response i "dp_report") in
  [req 1; req 2; req 3; req 4; ans "0"; ans "1"; ans "2"; ans "3"; req 5; req 6; req 7; req 8]%nat.

(** With the default budget eight frames can leave in one instant: a full
    bucket of eight tokens is spent as fast as the device answers, although the
    budget is documented to stay below the firmware's five frames per second. *)
Theorem default_budget_bursts :
  match forM burst_ops run_op toy_disp with
  | (Ret _, (d, _), w) => m_sent (metrics_ d) = 8 /\ length (sent_frames w) = 8%nat
  | _ => False
  end.
Proof. vm_compute. split; reflexivity. Qed.
