(* ===== verification/Reentry.v ===== *)
(** * Handlers that submit from within their call ([dispatcher.cpp])

    [Dispatcher] calls handlers that do nothing to the dispatcher.  The code allows
    more: a handler may submit from within its call ([complete], [drain]).  Here the
    same operations are written with what each handler submits when it is called, at
    the place where the code calls it; the loops of [tick] hold iterators into the
    queue and the table while they call, and the model says when those are gone.

    The operations are written over [again], the [submit] a handler calls; [re_submit]
    ties the knot, and its fuel bounds both the depth of calls and every loop. *)
From S2P Require Import Prelude StdMap Errors Float Json Messages Events Dispatcher.
Local Open Scope Z_scope.

(** One [submit] by a handler, with the clock it reads. *)
Record resubmission := mkResubmission {
  rsb_spec : RequestSpec;
  rsb_handler : handler;
  rsb_now : TimePoint
}.

(** The position after [id] in the table. *)
Fixpoint next_key {V} (id : string) (m : smap V) : option string :=
  match m with
  | [] => None
  | (k, _) :: r => if String.eqb id k then head (keys r) else next_key id r
  end.

(** An iterator into the vector of waiting requests is good for [erase] as long as no
    element was added or taken away: [push_back] may move the elements, [erase] moves
    those behind it.  Sequence numbers identify the elements. *)
Definition iterators_valid (before_calls after_calls : Dispatcher) : bool :=
  (sequence before_calls =? sequence after_calls) &&
  bool_decide (map w_sequence (queue before_calls) = map w_sequence (queue after_calls)).

Section Reentry.
Context {X : Type} `{!Sender X}.
Abbreviation DM := (M (Dispatcher * X) event).
(** What the handler submits when it is called with a result. *)
Context (react : nat -> Result json -> list resubmission).

Section Operations.
Context (again : RequestSpec -> handler -> TimePoint -> DM unit).

(** [complete]: the handlers have been taken out of the entry before. *)
Definition re_complete (hs : list handler) (r : Result json) : DM unit :=
  forM (omap id hs) (fun h =>
    emit (Ev_call h r) ;;;
    forM (react h r) (fun s => again (rsb_spec s) (rsb_handler s) (rsb_now s))).

Fixpoint re_drain_loop (fuel : nat) : DM unit :=
  match fuel with
  | O => throw (Exn_runtime "drain: out of fuel")
  | S fuel' =>
      let* d := dget in
      match queue d with
      | [] => ret tt
      | w0 :: rest =>
          if negb (in_flight d <? rb_max_in_flight (budget d)) then ret tt
          else if flt (tokens d) one then
            dmod (bump m_rate_limit_deferrals set_m_rate_limit_deferrals 1)
          else
            let '(i, waiting) := min_element (0%nat, w0) 1%nat rest in
            dmod (fun d => set_queue (take i (queue d) ++ drop (S i) (queue d)) d) ;;;
            let* sent := on_snd (send_request (w_spec waiting)) in
            match sent with
            | Err e =>
                dmod (bump m_send_failures set_m_send_failures 1) ;;;
                re_complete (w_handlers waiting) (Err e) ;;;
                re_drain_loop fuel'
            | Ok id =>
                dmod (fun d => set_tokens (dsub (tokens d) one) d) ;;;
                dmod (bump m_sent set_m_sent 1) ;;;
                dmod (fun d => set_pending
                        (memplace id (mkPending (rs_type (w_spec waiting)) (w_handlers waiting)
                                                (w_deadline waiting)) (pending d)) d) ;;;
                re_drain_loop fuel'
            end
      end
  end.

Definition re_drain (fuel : nat) (now : TimePoint) : DM unit := fun dx =>
  if negb (sending_enabled dx.1) || draining dx.1 then (Ret tt, dx, [])
  else
    let '(r, (d', x'), w) := re_drain_loop fuel (set_draining true dx.1, dx.2) in
    (r, (set_draining false d', x'), w).

(** The loop of [tick] over the waiting requests, at position [i]. *)
Fixpoint re_expire_queue (fuel : nat) (now : TimePoint) (i : nat) : DM unit :=
  match fuel with
  | O => throw (Exn_runtime "tick: out of fuel")
  | S fuel' =>
      let* d := dget in
      match queue d !! i with
      | None => ret tt
      | Some w =>
          if w_deadline w <=? now then
            dmod (bump m_timeouts set_m_timeouts 1) ;;;
            dmod (set_queue (<[i := mkWaiting (w_spec w) [] (w_deadline w) (w_sequence w)]> (queue d))) ;;;
            re_complete (w_handlers w) (Err (timeout_error (rs_type (w_spec w)))) ;;;
            let* d' := dget in
            if iterators_valid d d' then
              dmod (fun d => set_queue (delete i (queue d)) d) ;;;
              re_expire_queue fuel' now i
            else throw (Exn_ub "tick: iterator into the queue used after the queue changed")
          else re_expire_queue fuel' now (S i)
      end
  end.

(** The loop over the open requests: the iterator stands on [it]; the nodes of a map
    stay where they are until they are erased. *)
Fixpoint re_expire_pending (fuel : nat) (now : TimePoint) (it : option string) : DM unit :=
  match fuel with
  | O => throw (Exn_runtime "tick: out of fuel")
  | S fuel' =>
      match it with
      | None => ret tt
      | Some id =>
          let* d := dget in
          match mget id (pending d) with
          | None => throw (Exn_ub "tick: iterator to an erased open request used")
          | Some p =>
              if p_deadline p <=? now then
                dmod (bump m_timeouts set_m_timeouts 1) ;;;
                dmod (set_pending (mdel id (pending d))) ;;;
                re_complete (p_handlers p) (Err (timeout_error (p_type p))) ;;;
                re_expire_pending fuel' now (next_key id (pending d))
              else re_expire_pending fuel' now (next_key id (pending d))
          end
      end
  end.

Definition re_tick (fuel : nat) (now : TimePoint) : DM unit :=
  dmod (refill now) ;;;
  re_expire_queue fuel now 0 ;;;
  let* d := dget in
  re_expire_pending fuel now (head (keys (pending d))) ;;;
  re_drain fuel now.

Definition re_submit_step (fuel : nat) (spec : RequestSpec) (h : handler) (now : TimePoint) : DM unit :=
  dmod (bump m_submitted set_m_submitted 1) ;;;
  let* d := dget in
  let timeout := match rs_timeout spec with Some t => t | None => default_timeout d end in
  let attached :=
    if str_empty (rs_coalesce_key spec) then None
    else coalesce spec h (now + timeout) (queue d) in
  match attached with
  | Some q => dmod (fun d => bump m_coalesced set_m_coalesced 1 (set_queue q d))
  | None =>
      dmod (fun d => set_sequence (sequence d + 1) d) ;;;
      dmod (fun d => set_queue (queue d ++ [mkWaiting spec [h] (now + timeout) (sequence d)]) d) ;;;
      re_tick fuel now
  end.

Definition re_on_message (message : json) : DM bool :=
  let* in_reply_to := lift (value_string "in_reply_to" message) in
  if str_empty in_reply_to then ret false else
  let* d := dget in
  match mget in_reply_to (pending d) with
  | None =>
      (if warning d then
         let* type := lift (value_string "type" message) in
         emit (warn_event "response for an unknown or expired request" type)
       else ret tt) ;;;
      ret true
  | Some entry =>
      let* type := lift (value_string "type" message) in
      dmod (fun d => set_pending (mdel in_reply_to (pending d)) d) ;;;
      match find_meta (p_type entry) with
      | Some request_meta =>
          if negb (accepts_response request_meta type) then
            dmod (bump m_unexpected_responses set_m_unexpected_responses 1) ;;;
            when (warning d)
              (emit (warn_event ("unexpected response type for " +:+ p_type entry) type)) ;;;
            re_complete (p_handlers entry)
              (Err (with_operation (p_type entry)
                 (protocol_error UnexpectedResponseType
                    (p_type entry +:+ " was answered with '" +:+ type +:+ "'")))) ;;;
            ret true
          else
            dmod (bump m_completed set_m_completed 1) ;;;
            re_complete (p_handlers entry) (Ok message) ;;;
            ret true
      | None =>
          dmod (bump m_completed set_m_completed 1) ;;;
          re_complete (p_handlers entry) (Ok message) ;;;
          ret true
      end
  end.

(** The two containers are exchanged for empty ones first; a handler that submits
    meets the empty dispatcher. *)
Definition re_fail_all (error : Error) : DM unit :=
  let* d := dget in
  dmod (fun d => set_pending [] (set_queue [] d)) ;;;
  dmod (bump m_disconnect_failures set_m_disconnect_failures (in_flight d + queued d)) ;;;
  forM (pending d) (fun kv => re_complete (p_handlers kv.2) (Err error)) ;;;
  forM (queue d) (fun w => re_complete (w_handlers w) (Err error)).
End Operations.

(** [submit], called from outside or by a handler, [fuel] calls deep at most. *)
Fixpoint re_submit (fuel : nat) : RequestSpec -> handler -> TimePoint -> DM unit :=
  match fuel with
  | O => fun _ _ _ => throw (Exn_runtime "submit: out of fuel")
  | S fuel' => re_submit_step (re_submit fuel') fuel
  end.
End Reentry.
