(* ===== verification/ReentryFacts.v ===== *)
(** * What survives handlers that submit

    When no handler submits because of a timeout, the dispatcher keeps its promises
    however the others submit: every call returns, no iterator is used after it became
    invalid, and every handler, those submitted by handlers included, is called once
    or still held.  A handler that submits because of a timeout can lose its request,
    or end in undefined behaviour. *)
From S2P Require Import Prelude StdMap Errors Float Json Messages Events Dispatcher DispatcherFacts Reentry.
Local Open Scope Z_scope.

Section Facts.
Context {X : Type} `{HX : !Sender X}.
Abbreviation ST := (Dispatcher * X)%type.
Abbreviation DM := (M ST event).
Context (react : nat -> Result json -> list resubmission).

(** The handlers that the handlers called in [w] submitted. *)
Definition submits_of (h : nat) (r : Result json) : list nat := omap rsb_handler (react h r).
Definition resubmitted (w : list event) : list nat :=
  concat (map (fun e => match e with Ev_call h r => submits_of h r | _ => [] end) w).

Lemma resubmitted_app w1 w2 : resubmitted (w1 ++ w2) = resubmitted w1 ++ resubmitted w2.
Proof. unfold resubmitted. by rewrite map_app, concat_app. Qed.
Lemma resubmitted_quiet w : called w = [] -> resubmitted w = [].
Proof. induction w as [|e w IH]; [done|]. destruct e; [done|..]; intros H; apply IH, H. Qed.

(** The rule. *)
Definition accepts_timeouts : Prop := forall h type, react h (Err (timeout_error type)) = [].

(** ** Conservation *)

(** The handlers given to an operation and those held before, with those submitted in
    between, are the handlers called, those held after, and those taken along. *)
Definition moves (given taken : list nat) (dx dx' : ST) (w : list event) : Prop :=
  ids_ok dx -> ids_ok dx' /\
  given ++ live dx.1 ++ resubmitted w ≡ₚ called w ++ live dx'.1 ++ taken.

Lemma moves_refl l dx : moves l l dx dx [].
Proof. intros H. split; [done|]. cbn. rewrite app_nil_r. apply Permutation_app_comm. Qed.
Lemma moves_trans g t u s1 s2 s3 w1 w2 :
  moves g t s1 s2 w1 -> moves t u s2 s3 w2 -> moves g u s1 s3 (w1 ++ w2).
Proof.
  intros H1 H2 Hok. destruct (H1 Hok) as [Hok2 P1]. destruct (H2 Hok2) as [Hok3 P2]. split; [done|].
  rewrite called_app, resubmitted_app.
  transitivity ((g ++ live s1.1 ++ resubmitted w1) ++ resubmitted w2); [solve_Permutation|]. rewrite P1.
  transitivity (called w1 ++ t ++ live s2.1 ++ resubmitted w2); [solve_Permutation|]. rewrite P2. solve_Permutation.
Qed.
Lemma moves_frame l g t dx dx' w : moves g t dx dx' w -> moves (g ++ l) (t ++ l) dx dx' w.
Proof.
  intros H Hok. destruct (H Hok) as [Hok' P]. split; [done|].
  transitivity ((g ++ live dx.1 ++ resubmitted w) ++ l); [solve_Permutation|]. rewrite P. solve_Permutation.
Qed.
#[local] Instance moves_composable l : Composable (moves l l).
Proof. split; [intros s; apply moves_refl|intros; by eapply moves_trans]. Qed.
Lemma moves_conserves l dx dx' w : conserves l dx dx' w -> resubmitted w = [] -> moves l [] dx dx' w.
Proof. intros H E Hok. destruct (H Hok) as [Hok' P]. split; [done|]. by rewrite E, !app_nil_r. Qed.

(** The runs that return. *)
Abbreviation moving := (fun g t m => yields (moves g t) m).
Lemma moving_bind {A B} g t u (m : DM A) (k : A -> DM B) :
  moving g t m -> (forall a, moving t u (k a)) -> moving g u (bind m k).
Proof.
  intros Hm Hk s b s' w (a&s1&w1&w2&H1&H2&->)%bind_ret_inv.
  eapply moves_trans; [by eapply Hm|by eapply Hk].
Qed.
Lemma moving_ret {A} l (a : A) : moving l l (ret a).
Proof. intros s b s' w [= _ <- <-]. apply moves_refl. Qed.
Lemma moving_throw {A} g t e : moving g t (@throw ST event A e).
Proof. by intros s b s' w. Qed.
Lemma moving_get {A} l (f : ST -> A) : moving l l (gets f).
Proof. intros s b s' w [= _ <- <-]. apply moves_refl. Qed.
Lemma moving_lift {A} l (o : outcome A) : moving l l (lift o).
Proof. intros s b s' w [= _ <- <-]. apply moves_refl. Qed.
(** A change that leaves queue and table alone. *)
Lemma moving_mod l f : (forall d, queue (f d) = queue d /\ pending (f d) = pending d) -> moving l l (dmod f).
Proof.
  intros Hf [d x] b s' w [= _ <- <-] [Hm Hi]. destruct (Hf d) as [Hq Hp]. cbn in *. split.
  - split; cbn; by rewrite Hp.
  - unfold live. rewrite Hq, Hp. cbn. rewrite app_nil_r. apply Permutation_app_comm.
Qed.
Lemma moving_warn l reason type : moving l l (emit (warn_event reason type)).
Proof. intros s b s' w [= _ <- <-]. exact (moves_refl l s). Qed.

Section Operations.
Context (again : RequestSpec -> handler -> TimePoint -> DM unit).
Context (Hagain : forall spec h now, moving (option_list h) [] (again spec h now)).

Lemma moving_complete hs r : moving (omap id hs) [] (re_complete react again hs r).
Proof.
  unfold re_complete. induction (omap id hs) as [|h l IH]; cbn [forM]; [apply moving_ret|].
  apply (moving_bind _ l); [|intros _; exact IH].
  apply (moving_bind _ (submits_of h r ++ l)).
  - intros s b s' w [= _ <- <-] Hok. split; [done|]. cbn. rewrite app_nil_r. solve_Permutation.
  - intros _. change l with ([] ++ l) at 2.
    intros s b s' w H. apply moves_frame. revert s b s' w H. unfold submits_of.
    induction (react h r) as [|q qs IHq]; cbn [forM omap list_omap]; [apply moving_ret|].
    apply (moving_bind _ (omap rsb_handler qs)); [|intros _; exact IHq].
    intros s b s' w H%Hagain. apply (moves_frame (omap rsb_handler qs)) in H.
    destruct (rsb_handler q); exact H.
Qed.

Lemma moves_failed d (x : X) l1 v l2 e x' ws : queue d = l1 ++ v :: l2 ->
  send_request (w_spec v) x = (Ret (Err e), x', ws) ->
  moves [] (omap id (w_handlers v)) (d, x) (after_failure (taken d (l1 ++ l2)), x') ws.
Proof.
  intros Hq Hs [Hm Hi]. destruct (send_issues _ _ _ _ _ Hs) as [Hiss _]. pose proof (send_quiet _ _ _ _ _ Hs) as Hc.
  split; [split; [done|]; intros id Hid; by apply Hiss, Hi|]. rewrite Hc, (resubmitted_quiet _ Hc).
  unfold live, after_failure, taken. cbn. rewrite Hq, !map_app, !concat_app. cbn. rewrite !omap_app. solve_Permutation.
Qed.

Lemma moving_drain_loop f : moving [] [] (re_drain_loop react again f).
Proof.
  induction f as [|f IH]; [apply moving_throw|]. intros [d x] a dx' w H. cbn [re_drain_loop] in H.
  unfold dget in H. rewrite run_gets in H. cbn [fst] in H. destruct (queue d) as [|q0 rest] eqn:Eq.
  { injection H as _ <- <-. apply moves_refl. }
  destruct (negb (in_flight d <? rb_max_in_flight (budget d))) eqn:Ef; [injection H as _ <- <-; apply moves_refl|].
  destruct (flt (tokens d) one) eqn:Et; [eapply (moving_mod []) in H; [exact H|done]|].
  destruct (min_element (0%nat, q0) 1%nat rest) as [i v] eqn:Em.
  apply next_spec in Em as [Hq Hmin]. rewrite <- Eq in Hq, Hmin. unfold dmod in H. rewrite run_modify in H. cbn [fst snd] in H.
  apply bind_ret_inv in H as (sent & s1 & ws & w2 & Hs & H & ->). unfold on_snd in Hs. cbn [fst snd] in Hs.
  destruct (send_request (w_spec v) x) as [[r x'] ws'] eqn:Es. injection Hs as -> <- <-.
  destruct sent as [id|e]; rewrite ?run_modify in H.
  - eapply (moves_trans _ []); [|by eapply IH]. apply moves_conserves; [|by eapply resubmitted_quiet, send_quiet].
    apply negb_false_iff, Z.ltb_lt in Ef. by eapply (lr_sent _ conserves_loop).
  - eapply moves_trans; [by eapply moves_failed|]. revert H. apply moving_bind with (t := []); [|intros _; exact IH].
    apply moving_complete.
Qed.
Lemma moving_drain f now : moving [] [] (re_drain react again f now).
Proof.
  intros [d x] a [d' x'] w. unfold re_drain. cbn [fst snd].
  destruct (negb (sending_enabled d) || draining d); [intros [= _ <- <- <-]; apply moves_refl|].
  destruct (re_drain_loop _ _ _ _) as [[r [d1 x1]] w1] eqn:E. intros [= -> <- <- <-]. exact (moving_drain_loop _ _ _ _ _ E).
Qed.

(** ** The loops of [tick] under the rule *)
Context (Hquiet : accepts_timeouts).

Lemma complete_quiet hs type s :
  re_complete react again hs (Err (timeout_error type)) s = (Ret tt, s, complete hs (Err (timeout_error type))).
Proof.
  unfold re_complete, complete. induction (omap id hs) as [|h l IH]; [done|]. cbn [forM]. rewrite Hquiet. cbn [forM].
  apply (run_bind _ _ _ tt s [_] _ _ _ eq_refl IH).
Qed.

(** Enough fuel and the loop of [Dispatcher], or an exception. *)
Definition as_plain {A} (enough : Prop) (run plain : outcome A * ST * list event) : Prop :=
  (enough /\ run = plain) \/ (~ enough /\ exists e s w, run = (Throw e, s, w)).

Lemma as_plain_after {A B} (m : DM A) (k : A -> DM B) P Q s a s1 w1 r s2 w2 : m s = (Ret a, s1, w1) -> (P <-> Q) ->
  as_plain P (k a s1) (r, s2, w2) -> as_plain Q (bind m k s) (r, s2, w1 ++ w2).
Proof.
  intros Hm HPQ [[HP Hk]|[HP (e&s3&w3&Hk)]]; [left|right]; (split; [by rewrite <- HPQ|]).
  - by eapply run_bind.
  - unfold bind. rewrite Hm, Hk. by eexists _, _, _.
Qed.

Lemma bump_timeouts_add n d : bump m_timeouts set_m_timeouts n (bump m_timeouts set_m_timeouts 1 d) =
  bump m_timeouts set_m_timeouts (n + 1) d.
Proof. destruct d as [? ? ? ? ? ? ? ? ? ? ? []]. unfold bump, set_metrics_, set_m_timeouts. cbn. do 2 f_equal. lia. Qed.

Lemma bump_timeouts_none d : bump m_timeouts set_m_timeouts 0 d = d.
Proof. destruct d as [? ? ? ? ? ? ? ? ? ? ? []]. unfold bump, set_metrics_, set_m_timeouts. cbn. do 2 f_equal. lia. Qed.
Lemma set_queue_same d : set_queue (queue d) d = d.
Proof. by destruct d. Qed.
Lemma set_pending_same d : set_pending (pending d) d = d.
Proof. by destruct d. Qed.

Lemma expire_queue_plain f now q1 q2 d x : queue d = q1 ++ q2 ->
  as_plain (length q2 < f)%nat (re_expire_queue react again f now (length q1) (d, x))
    (let '(q, ev, n) := expire_waiting now q2 in
     (Ret tt, (set_queue (q1 ++ q) (bump m_timeouts set_m_timeouts n d), x), ev)).
Proof.
  revert q1 q2 d. induction f as [|f IH]; intros q1 q2 d Hq; [right; split; [lia|]; by eexists _, _, _|].
  cbn [re_expire_queue]. unfold dget. rewrite run_gets. cbn [fst]. rewrite Hq. destruct q2 as [|v r]; cbn [expire_waiting].
  - left. split; [cbn; lia|]. rewrite lookup_ge_None_2 by (rewrite length_app; cbn; lia).
    by rewrite bump_timeouts_none, <- Hq, set_queue_same.
  - rewrite list_lookup_middle by done. destruct (w_deadline v <=? now).
    + unfold dmod. rewrite !run_modify. cbn [fst snd].
      rewrite insert_app_r_alt, Nat.sub_diag by lia. cbn [insert list_insert].
      specialize (IH q1 r (set_queue (q1 ++ r) (bump m_timeouts set_m_timeouts 1 d)) eq_refl).
      destruct (expire_waiting now r) as [[q ev] n]. cbn [length].
      eapply as_plain_after; [apply complete_quiet| |]; [instantiate (1 := (length r < f)%nat); lia|]. cbv beta.
      rewrite run_gets. cbn [fst]. unfold iterators_valid. cbn [sequence queue set_queue set_metrics_ bump].
      rewrite Z.eqb_refl, bool_decide_true by (by rewrite Hq, !map_app). cbn [andb].
      rewrite run_modify. cbn [fst snd queue set_queue].
      rewrite delete_middle, <- (bump_timeouts_add n). exact IH.
    + specialize (IH (q1 ++ [v]) r d). rewrite <- app_assoc, length_app, Nat.add_1_r in IH. specialize (IH Hq).
      destruct (expire_waiting now r) as [[q ev] n]. cbn [length] in *. rewrite <- app_assoc in IH.
      destruct IH as [[He ->]|[He Ht]]; [left|right]; split; try lia; done.
Qed.

Lemma at_key {V} k (v : V) p1 r : k ∉ keys p1 ->
  mget k (p1 ++ (k, v) :: r) = Some v /\ mdel k (p1 ++ (k, v) :: r) = p1 ++ r /\
  next_key k (p1 ++ (k, v) :: r) = head (keys r).
Proof.
  induction p1 as [|[k' v'] p1 IH]; cbn [app mget mdel next_key]; [by rewrite !String.eqb_refl|].
  intros [Hne Hni]%not_elem_of_cons. cbn [fst] in Hne. apply String.eqb_neq in Hne as ->.
  destruct (IH Hni) as (->&->&->). done.
Qed.

Lemma expire_pending_plain f now p1 p2 d x : msorted (pending d) -> pending d = p1 ++ p2 ->
  as_plain (length p2 < f)%nat (re_expire_pending react again f now (head (keys p2)) (d, x))
    (let '(p, ev, n) := expire_pending now p2 in
     (Ret tt, (set_pending (p1 ++ p) (bump m_timeouts set_m_timeouts n d), x), ev)).
Proof.
  revert p1 p2 d. induction f as [|f IH]; intros p1 p2 d Hm Hp; [right; split; [lia|]; by eexists _, _, _|].
  destruct p2 as [|[id p] r]; cbn [re_expire_pending keys map head expire_pending fst].
  - left. split; [cbn; lia|]. by rewrite bump_timeouts_none, <- Hp, set_pending_same.
  - unfold dget. rewrite run_gets. cbn [fst]. rewrite Hp in Hm. pose proof (msorted_NoDup _ Hm) as Hn.
    destruct (at_key id p p1 r) as (Hg&Hd&Hk).
    { unfold keys in Hn. rewrite map_app in Hn. apply list.NoDup_app in Hn as (_&Hn&_). intros Hin. apply (Hn _ Hin). left. }
    rewrite Hp, Hg. destruct (p_deadline p <=? now).
    + unfold dmod. rewrite !run_modify. cbn [fst snd]. rewrite Hd, Hk.
      specialize (IH p1 r (set_pending (p1 ++ r) (bump m_timeouts set_m_timeouts 1 d))).
      destruct (expire_pending now r) as [[q ev] n]. cbn [length].
      eapply as_plain_after; [apply complete_quiet| |]; [instantiate (1 := (length r < f)%nat); lia|]. cbv beta.
      rewrite <- (bump_timeouts_add n). apply IH; [|done]. cbn. rewrite <- Hd. by apply msorted_mdel.
    + rewrite Hk. specialize (IH (p1 ++ [(id, p)]) r d). rewrite <- app_assoc in IH. rewrite <- Hp in Hm. specialize (IH Hm Hp).
      destruct (expire_pending now r) as [[q ev] n]. cbn [length] in *. rewrite <- app_assoc in IH.
      destruct IH as [[He ->]|[He Ht]]; [left|right]; split; try lia; done.
Qed.

(** A tick is that of [Dispatcher] up to its drain. *)
Lemma re_tick_plain f now d x : msorted (pending d) ->
  as_plain (length (queue d) < f /\ length (pending d) < f)%nat
    (re_tick react again f now (d, x))
    (let '(d1, w1) := expired now d in
     let '(r, dx', w2) := re_drain react again f now (d1, x) in (r, dx', w1 ++ w2)).
Proof.
  intros Hm. unfold re_tick, dmod. rewrite run_modify. cbn [fst snd]. unfold expired.
  destruct (expire_queue_plain f now [] (queue (refill now d)) (refill now d) x eq_refl) as [[Hf1 H1]|[Hf1 (e&s&w&H1)]].
  2: { right. rewrite queue_refill in Hf1. split; [lia|]. unfold bind. cbn [length] in H1. rewrite H1. by eexists _, _, _. }
  destruct (expire_waiting now (queue (refill now d))) as [[q ev] n]. cbn [length app] in H1.
  set (d1 := set_queue q _) in H1. assert (pending d1 = pending d) as Hp by apply pending_refill.
  destruct (expire_pending_plain f now [] (pending d1) d1 x) as [[Hf2 H2]|[Hf2 (e&s&w&H2)]]; [by rewrite Hp|done|..].
  2: { right. rewrite Hp in Hf2. split; [lia|]. unfold bind at 1. rewrite H1. unfold dget. rewrite run_gets. cbn [fst].
    unfold bind. rewrite H2. by eexists _, _, _. }
  left. rewrite queue_refill in Hf1. rewrite Hp in Hf2. split; [done|].
  unfold bind at 1. rewrite H1. unfold dget. rewrite run_gets. cbn [fst]. unfold bind at 1. rewrite H2.
  replace (set_queue q (bump m_timeouts set_m_timeouts n (refill now d))) with d1 by done.
  destruct (expire_pending now (pending d1)) as [[p ev2] n2]. cbn [app].
  destruct (re_drain _ _ _ _ _) as [[r dx'] w2]. by rewrite app_assoc.
Qed.

(** The timeouts of a tick make nobody submit. *)
Lemma timeouts_quiet hs type : resubmitted (complete hs (Err (timeout_error type))) = [].
Proof.
  unfold complete, resubmitted. induction (omap id hs) as [|h l IH]; [done|].
  cbn [map concat]. unfold submits_of at 1. rewrite Hquiet. exact IH.
Qed.
Lemma expired_quiet now d d1 w1 : expired now d = (d1, w1) -> resubmitted w1 = [].
Proof.
  assert (forall q, resubmitted (expire_waiting now q).1.2 = []) as H1.
  { induction q as [|v q IH]; [done|]. cbn [expire_waiting]. destruct (expire_waiting now q) as [[kept ev] n].
    destruct (w_deadline v <=? now); cbn [fst snd] in *; [|exact IH]. rewrite resubmitted_app, timeouts_quiet. exact IH. }
  assert (forall p, resubmitted (expire_pending now p).1.2 = []) as H2.
  { induction p as [|[i v] p IH]; [done|]. cbn [expire_pending]. destruct (expire_pending now p) as [[kept ev] n].
    destruct (p_deadline v <=? now); cbn [fst snd] in *; [|exact IH]. rewrite resubmitted_app, timeouts_quiet. exact IH. }
  unfold expired. specialize (H1 (queue (refill now d))). destruct (expire_waiting _ _) as [[q ev] n].
  cbn [pending set_queue set_metrics_ bump]. specialize (H2 (pending (refill now d))).
  destruct (expire_pending _ _) as [[q2 ev2] n2]. intros [= _ <-]. cbn [fst snd] in *. by rewrite resubmitted_app, H1, H2.
Qed.

Lemma moving_tick f now : moving [] [] (re_tick react again f now).
Proof.
  intros [d x] a dx' w H Hok. destruct (re_tick_plain f now d x (proj1 Hok)) as [[_ E]|[_ (e&s&w0&E)]]; rewrite E in H; [|done].
  destruct (expired now d) as [d1 w1] eqn:E1. destruct (re_drain react again f now (d1, x)) as [[r dx2] w2] eqn:E2.
  injection H as -> <- <-. revert Hok. apply (moves_trans _ [] _ _ (d1, x)); [|exact (moving_drain _ _ _ _ _ _ E2)].
  apply moves_conserves; [by eapply conserves_expired|by eapply expired_quiet].
Qed.

Lemma moving_submit_step f spec h now : moving (option_list h) [] (re_submit_step react again f spec h now).
Proof.
  unfold re_submit_step. apply (moving_bind _ (option_list h)); [by apply moving_mod|]. intros _. intros [d x] a dx' w H.
  unfold dget in H. rewrite run_gets in H. cbn [fst] in H. cbv zeta in H.
  match type of H with context [match ?m with Some _ => _ | None => _ end] => destruct m as [q|] eqn:Ec in H end.
  - injection H as _ <- <-. intros [Hm Hi]. split; [done|]. destruct (str_empty (rs_coalesce_key spec)); [done|].
    apply coalesce_spec in Ec. unfold live. cbn. rewrite !app_nil_r, !omap_app, Ec. cbn. by destruct h.
  - unfold dmod in H. rewrite !run_modify in H. cbn [fst snd] in H. revert H. intros H%moving_tick.
    change w with ([] ++ w). eapply moves_trans; [|exact H]. intros [Hm Hi]. split; [done|].
    unfold live. cbn. rewrite map_app, concat_app, !omap_app. cbn. rewrite !app_nil_r. destruct h; cbn; solve_Permutation.
Qed.
Lemma moving_erased d x i e : mget i (pending d) = Some e ->
  moves [] (omap id (p_handlers e)) (d, x) (set_pending (mdel i (pending d)) d, x) [].
Proof.
  intros Hg Hok. split; [by apply ids_ok_mdel|]. cbn. rewrite app_nil_r, (live_mdel _ _ _ Hg). apply Permutation_app_comm.
Qed.
Lemma moving_on_message message : moving [] [] (re_on_message react again message).
Proof.
  unfold re_on_message. apply (moving_bind _ []); [apply moving_lift|]. intros irt.
  destruct (str_empty irt); [apply moving_ret|]. intros [d x] b dx' w H. unfold dget in H. rewrite run_gets in H. cbn [fst] in H.
  destruct (mget irt (pending d)) as [e|] eqn:Ep.
  - rewrite run_lift in H. destruct (value_string "type" message) as [type|]; [|done].
    unfold dmod in H. rewrite run_modify in H. cbn [fst snd] in H. change w with ([] ++ w).
    eapply moves_trans; [by apply moving_erased|]. set (hs := omap id (p_handlers e)).
    assert (forall r, moving hs [] (re_complete react again (p_handlers e) r ;;; ret true)) as Hc.
    { intros r. apply (moving_bind _ []); [apply moving_complete|intros _; apply moving_ret]. }
    destruct (find_meta (p_type e)) as [meta|]; [destruct (negb (accepts_response meta type))|]; revert H;
      apply (moving_bind _ hs); try (by apply moving_mod); intros _; try apply Hc.
    apply (moving_bind _ hs); [|intros _; apply Hc]. unfold when. destruct (warning d); [apply moving_warn|apply moving_ret].
  - revert H. apply (moving_bind _ []); [|intros _; apply moving_ret].
    destruct (warning d); [|apply moving_ret]. apply (moving_bind _ []); [apply moving_lift|intros type; apply moving_warn].
Qed.

Lemma moving_fail_all e : moving [] [] (re_fail_all react again e).
Proof.
  intros [d x] a dx' w H. unfold re_fail_all, dget, dmod in H. rewrite run_gets, !run_modify in H. cbn [fst snd] in H.
  set (l := map (fun kv => p_handlers kv.2) (pending d) ++ map w_handlers (queue d)).
  change w with ([] ++ w). apply (moves_trans _ (omap id (concat l)) _ _
    (bump m_disconnect_failures set_m_disconnect_failures (in_flight d + queued d) (set_pending [] (set_queue [] d)), x)).
  { intros Hok. split; [split; [apply msorted_nil|by intros ? ?%elem_of_nil]|]. unfold live, l. cbn.
    rewrite app_nil_r, concat_app, !omap_app. apply Permutation_app_comm. }
  revert H. unfold l. rewrite concat_app, omap_app.
  assert (forall B (f : B -> list handler) ls rest, moving (omap id (concat (map f ls)) ++ rest) rest
    (forM ls (fun v => re_complete react again (f v) (Err e)))) as Hall.
  { intros B f ls rest. induction ls as [|v ls IH]; cbn [forM map concat]; [apply moving_ret|].
    rewrite omap_app, <- app_assoc. apply (moving_bind _ (omap id (concat (map f ls)) ++ rest)); [|intros _; exact IH].
    intros s b s' w0 H%moving_complete. exact (moves_frame _ _ _ _ _ _ H). }
  apply (moving_bind _ (omap id (concat (map w_handlers (queue d))))); [apply Hall|intros _].
  specialize (Hall _ w_handlers (queue d) []). by rewrite app_nil_r in Hall.
Qed.
End Operations.

Lemma moving_submit f spec h now : accepts_timeouts -> moving (option_list h) [] (re_submit react f spec h now).
Proof.
  intros Hq. revert spec h now. induction f as [|f IH]; intros spec h now; [apply moving_throw|]. by apply moving_submit_step.
Qed.

(** ** Every call returns

    A handler's reactions are finite when it has a weight above all that it submits:
    two for a request and the weight of its handler. *)
Context (weight : nat -> nat).
Definition handler_weight (h : handler) : nat := from_option weight 0%nat h.
Definition finite_reactions : Prop := forall h r,
  (sum_list_with (fun s => 2 + handler_weight (rsb_handler s))%nat (react h r) < weight h)%nat.

Definition load (hs : list handler) : nat := sum_list_with weight (omap id hs).
(** What is left to do: two for a request that waits, one for an open one, and what
    their handlers may still submit. *)
Definition potential (d : Dispatcher) : nat :=
  (sum_list_with (fun w => 2 + load (w_handlers w))%nat (queue d) +
  sum_list_with (fun kv => 1 + load (p_handlers kv.2))%nat (pending d)).

Definition returns (bound : nat) (m : DM unit) (dx : ST) : Prop :=
  exists dx' w, m dx = (Ret tt, dx', w) /\ ids_ok dx' /\ (potential dx'.1 <= bound)%nat.
Definition fits (n : nat) (again : RequestSpec -> handler -> TimePoint -> DM unit) : Prop :=
  forall spec h now dx, ids_ok dx -> (potential dx.1 + 2 + handler_weight h < n)%nat ->
  returns (potential dx.1 + 2 + handler_weight h) (again spec h now) dx.

Lemma returns_bind b1 b2 (m : DM unit) k dx : returns b1 m dx ->
  (forall dx', ids_ok dx' -> (potential dx'.1 <= b1)%nat -> returns b2 (k tt) dx') -> returns b2 (bind m k) dx.
Proof.
  intros (s1&w1&H1&Hok1&Hb1) Hk. destruct (Hk s1 Hok1 Hb1) as (s2&w2&H2&Hok2&Hb2).
  exists s2, (w1 ++ w2). split; [by eapply run_bind|done].
Qed.
Lemma returns_run {A} b (m : DM A) k s a s1 w : m s = (Ret a, s1, w) -> returns b (k a) s1 -> returns b (bind m k) s.
Proof. intros Hm (s2&w2&H2&Hok). exists s2, (w ++ w2). split; [by eapply run_bind|done]. Qed.
Lemma returns_le b1 b2 m dx : returns b1 m dx -> (b1 <= b2)%nat -> returns b2 m dx.
Proof. intros (s1&w1&H1&Hok1&Hb1) Hle. exists s1, w1. split; [done|]. split; [done|lia]. Qed.
Lemma load_app l1 l2 : load (l1 ++ l2) = (load l1 + load l2)%nat.
Proof. unfold load. by rewrite omap_app, sum_list_with_app. Qed.

Section Returning.
Context (Hfin : finite_reactions).
Context (n : nat) (again : RequestSpec -> handler -> TimePoint -> DM unit) (Hfits : fits n again).

Lemma returns_reaction l dx : ids_ok dx ->
  let total := (potential dx.1 + sum_list_with (fun s => 2 + handler_weight (rsb_handler s))%nat l)%nat in
  (total < n)%nat -> returns total (forM l (fun s => again (rsb_spec s) (rsb_handler s) (rsb_now s))) dx.
Proof.
  revert dx. induction l as [|s l IH]; intros dx Hok; cbn [forM sum_list_with]; intros Hn.
  - exists dx, []. split; [done|]. split; [done|lia].
  - eapply returns_bind; [apply Hfits; [done|lia]|]. intros dx' Hok' Hb. eapply returns_le; [apply IH; [done|lia]|lia].
Qed.
Lemma returns_complete hs r dx : ids_ok dx -> (potential dx.1 + load hs <= n)%nat ->
  returns (potential dx.1 + load hs) (re_complete react again hs r) dx.
Proof.
  unfold re_complete, load. revert dx. induction (omap id hs) as [|h l IH]; intros dx Hok; cbn [forM sum_list_with]; intros Hn.
  - exists dx, []. split; [done|]. split; [done|lia].
  - pose proof (Hfin h r) as Hh. eapply (returns_bind (potential dx.1 + weight h)).
    + eapply returns_bind; [exists dx, [Ev_call h r]; split; [done|]; split; [done|]; reflexivity|].
      intros dx' Hok' Hb. eapply returns_le; [apply returns_reaction; [done|lia]|lia].
    + intros dx' Hok' Hb. eapply returns_le; [apply IH; [done|lia]|lia].
Qed.

Lemma potential_taken d l1 v l2 : queue d = l1 ++ v :: l2 ->
  potential d = (potential (taken d (l1 ++ l2)) + 2 + load (w_handlers v))%nat.
Proof.
  intros Hq. unfold potential, taken. cbn [queue pending set_queue]. rewrite Hq, !sum_list_with_app. cbn [sum_list_with]. lia.
Qed.
Lemma returns_drain_loop f dx : (forall spec x0, exists r x' w, send_request spec x0 = (Ret r, x', w)) ->
  ids_ok dx -> (potential dx.1 < f)%nat -> (potential dx.1 <= n)%nat ->
  returns (potential dx.1) (re_drain_loop react again f) dx.
Proof.
  intros Hsend. revert dx. induction f as [|f IH]; [lia|]. intros [d x] Hok Hf Hn. cbn [re_drain_loop fst] in *.
  assert (forall d', queue d' = queue d -> pending d' = pending d ->
    ids_ok (d', x) /\ (potential d' <= potential d)%nat) as Hstop.
  { intros d' Hq Hp. unfold potential, ids_ok. cbn. by rewrite Hq, Hp. }
  eapply returns_run; [reflexivity|]. cbn [fst]. destruct (queue d) as [|q0 rest] eqn:Eq.
  { exists (d, x), []. split; [done|]. by apply Hstop. }
  destruct (negb (in_flight d <? rb_max_in_flight (budget d))) eqn:Ef; [exists (d, x), []; split; [done|]; by apply Hstop|].
  destruct (flt (tokens d) one) eqn:Et; [eexists _, []; split; [done|]; by apply Hstop|].
  destruct (min_element (0%nat, q0) 1%nat rest) as [i v] eqn:Em. apply next_spec in Em as [Hq Hmin]. rewrite <- Eq in Hq, Hmin.
  eapply returns_run; [reflexivity|]. cbn [fst snd]. destruct (Hsend (w_spec v) x) as (r & x' & ws & Es).
  pose proof (potential_taken _ _ _ _ Hq) as Hpot. set (d1 := set_queue _ d). change (taken d _) with d1 in Hpot.
  eapply returns_run; [unfold on_snd; cbn [fst snd]; rewrite Es; reflexivity|]. apply negb_false_iff, Z.ltb_lt in Ef.
  destruct r as [id|e]; cbv beta iota; do 1 (eapply returns_run; [reflexivity|]); cbn [fst snd].
  - do 2 (eapply returns_run; [reflexivity|]). cbn [fst snd].
    destruct (lr_sent _ conserves_loop _ _ _ _ _ _ _ _ Hq Hmin Ef Et Es Hok) as [Hok' _].
    assert (potential (after_sent id v d1) < potential d)%nat as Hlt.
    { destruct (send_issues _ _ _ _ _ Es) as [_ Hnew]. destruct (Hnew id eq_refl) as [Hfresh _].
      assert (mget id (pending d) = None) as Hnone by (apply mget_None; intros Hin; by apply Hfresh, Hok).
      rewrite Hpot. unfold potential, after_sent, memplace, d1. cbn -[load]. rewrite Hnone.
      rewrite (sum_list_with_Permutation_proper _ _ _ (mset_perm_new _ _ _ Hnone)). cbn -[load]. lia. }
    eapply returns_le; [apply IH; [exact Hok'|cbn [fst]|cbn [fst]]|cbn [fst]]; fold (after_sent id v d1); lia.
  - assert (ids_ok (after_failure d1, x')) as Hok' by (by eapply moves_failed).
    change (potential d1) with (potential (after_failure d1)) in Hpot. fold (after_failure d1).
    eapply returns_bind; [apply returns_complete; [exact Hok'|cbn [fst]; lia]|]. cbn [fst]. intros dx' Hok2 Hb.
    eapply returns_le; [apply IH; [done|lia..]|lia].
Qed.

Context (Hsend : forall spec x0, exists r x' w, send_request spec x0 = (Ret r, x', w)) (Hquiet : accepts_timeouts).

Lemma returns_drain f now dx : ids_ok dx -> (potential dx.1 < f)%nat -> (potential dx.1 <= n)%nat ->
  returns (potential dx.1) (re_drain react again f now) dx.
Proof.
  destruct dx as [d x]. cbn [fst]. intros Hok Hf Hn. unfold re_drain, returns. cbn [fst snd].
  destruct (negb (sending_enabled d) || draining d); [exists (d, x), []; done|].
  destruct (returns_drain_loop f (set_draining true d, x) Hsend Hok Hf Hn) as ([d1 x1]&w1&->&Hok1&Hb1).
  exists (set_draining false d1, x1), w1. done.
Qed.

Lemma sum_list_with_filter {A} (f : A -> nat) P l : (sum_list_with f (List.filter P l) <= sum_list_with f l)%nat.
Proof. induction l as [|a l IH]; [done|]. cbn. destruct (P a); cbn; lia. Qed.
Lemma potential_expired now d d1 w1 : expired now d = (d1, w1) -> (potential d1 <= potential d)%nat.
Proof.
  unfold expired. destruct (expire_waiting _ _) as [[q ev1] n1] eqn:E1. cbn [pending set_queue set_metrics_ bump].
  destruct (expire_pending _ _) as [[p ev2] n2] eqn:E2. intros [= <- _].
  apply expire_waiting_spec in E1 as (->&_&_). apply expire_pending_spec in E2 as (->&_&_).
  rewrite queue_refill, pending_refill. unfold potential. cbn [queue pending set_pending set_queue set_metrics_ bump].
  apply Nat.add_le_mono; apply sum_list_with_filter.
Qed.
Lemma potential_lengths d : (length (queue d) <= potential d /\ length (pending d) <= potential d)%nat.
Proof.
  unfold potential. assert (forall A (f : A -> nat) l, (forall a, 1 <= f a)%nat -> (length l <= sum_list_with f l)%nat) as H.
  { intros A f l Hf. induction l as [|a l IH]; [done|]. cbn. specialize (Hf a). lia. }
  pose proof (H _ (fun w => 2 + load (w_handlers w))%nat (queue d) ltac:(intros; cbv beta; lia)).
  pose proof (H _ (fun kv : string * Pending => 1 + load (p_handlers kv.2))%nat (pending d) ltac:(intros; cbv beta; lia)). lia.
Qed.
Lemma returns_tick f now dx : ids_ok dx -> (potential dx.1 < f)%nat -> (potential dx.1 <= n)%nat ->
  returns (potential dx.1) (re_tick react again f now) dx.
Proof.
  destruct dx as [d x]. cbn [fst]. intros Hok Hf Hn. pose proof (potential_lengths d) as [Hq Hp].
  destruct (re_tick_plain again Hquiet f now d x (proj1 Hok)) as [[_ E]|[He _]]; [|lia].
  destruct (expired now d) as [d1 w1] eqn:E1. pose proof (potential_expired _ _ _ _ E1) as Hle.
  destruct (conserves_expired now d d1 w1 x E1 Hok) as [Hok1 _].
  destruct (returns_drain f now (d1, x) Hok1) as (dx2&w2&E2&Hok2&Hb2); [cbn; lia..|]. rewrite E2 in E.
  exists dx2, (w1 ++ w2). split; [exact E|]. split; [done|]. cbn in Hb2. lia.
Qed.

Lemma coalesce_weight spec h dl q q' : coalesce spec h dl q = Some q' ->
  sum_list_with (fun w => 2 + load (w_handlers w))%nat q' =
  (handler_weight h + sum_list_with (fun w => 2 + load (w_handlers w))%nat q)%nat.
Proof.
  revert q'. induction q as [|v q IH]; intros q'; cbn [coalesce]; [done|]. destruct (String.eqb _ _).
  - intros [= <-]. cbn [sum_list_with w_handlers]. rewrite load_app. unfold load at 2, handler_weight.
    destruct h; cbn [omap list_omap id sum_list_with from_option option_bind mbind]; cbn; lia.
  - destruct (coalesce spec h dl q) as [r'|]; [|done]. intros [= <-]. cbn [sum_list_with]. rewrite (IH _ eq_refl). lia.
Qed.
Lemma returns_submit_step f spec h now dx : ids_ok dx ->
  let total := (potential dx.1 + 2 + handler_weight h)%nat in
  (total < f)%nat -> (total <= n)%nat -> returns total (re_submit_step react again f spec h now) dx.
Proof.
  destruct dx as [d x]. intros Hok total Hf Hn. unfold re_submit_step.
  do 2 (eapply returns_run; [reflexivity|]). cbn [fst snd]. cbv zeta. set (timeout := match rs_timeout spec with Some t => t | None => _ end).
  destruct (if str_empty (rs_coalesce_key spec) then None else coalesce spec h (now + timeout) _) as [q|] eqn:Ec.
  - destruct (str_empty (rs_coalesce_key spec)); [done|]. apply coalesce_weight in Ec. eexists _, []. split; [reflexivity|].
    split; [exact Hok|]. unfold total, potential. cbn -[load Nat.add]. cbn -[load Nat.add] in Ec. rewrite Ec. lia.
  - do 2 (eapply returns_run; [reflexivity|]). cbn [fst snd]. set (d1 := set_queue _ _).
    assert (potential d1 = total) as Hp.
    { unfold total, potential, d1. cbn -[load Nat.add]. rewrite sum_list_with_app. cbn -[load Nat.add].
      unfold load at 2, handler_weight. destruct h; cbn; lia. }
    rewrite <- Hp. apply (returns_tick f now (d1, x)); [exact Hok|cbn [fst]; rewrite Hp; assumption..].
Qed.
Lemma potential_mdel d i e : mget i (pending d) = Some e ->
  potential d = (potential (set_pending (mdel i (pending d)) d) + 1 + load (p_handlers e))%nat.
Proof.
  intros Hg. unfold potential. cbn [queue pending set_pending].
  rewrite (sum_list_with_Permutation_proper _ _ _ (mdel_perm _ _ _ Hg)). cbn -[load Nat.add]. lia.
Qed.
Lemma returns_on_message message dx type : value_string "type" message = Ret type ->
  (exists irt, value_string "in_reply_to" message = Ret irt) -> ids_ok dx -> (potential dx.1 <= n)%nat ->
  returns (potential dx.1) (let* _ := re_on_message react again message in ret tt) dx.
Proof.
  intros Ht [irt Hi] Hok Hn. unfold re_on_message.
  assert (forall dx b, ids_ok dx -> (potential dx.1 <= b)%nat -> returns b (ret tt) dx) as Hret.
  { intros dx' b Hok' Hb. exists dx', []. done. }
  unfold returns. rewrite run_assoc, run_lift, Hi. destruct (str_empty irt); [by apply Hret|].
  destruct dx as [d x]. rewrite run_assoc. unfold dget. rewrite run_gets. cbn [fst] in *.
  destruct (mget irt (pending d)) as [e|] eqn:Ep.
  - rewrite run_assoc, run_lift, Ht. pose proof (potential_mdel _ _ _ Ep) as Hp.
    pose proof (ids_ok_mdel _ _ irt Hok) as Hok'. set (d1 := set_pending _ d) in *.
    assert (forall (d2 : Dispatcher) r, pending d2 = pending d1 -> queue d2 = queue d1 ->
      returns (potential d) (let* _ := re_complete react again (p_handlers e) r ;;; ret true in ret tt) (d2, x)) as Hc.
    { intros d2 r H1 H2. assert (potential d2 = potential d1) as H3 by (unfold potential; by rewrite H1, H2).
      unfold returns. rewrite run_assoc. apply (returns_bind (potential d2 + load (p_handlers e))).
      - apply (returns_complete _ _ (d2, x)); [|cbn [fst]; lia]. unfold ids_ok. cbn [fst]. by rewrite H1.
      - intros dx' Hok2 Hb. eapply returns_run; [reflexivity|]. apply Hret; [done|lia]. }
    rewrite run_assoc. unfold dmod. rewrite run_modify. cbn [fst snd]. fold d1.
    destruct (find_meta (p_type e)) as [meta|]; [destruct (negb (accepts_response meta type))|];
      rewrite run_assoc, run_modify; cbn [fst snd]; [|by apply Hc..].
    rewrite run_assoc. unfold when. destruct (warning d); (eapply returns_run; [reflexivity|by apply Hc]).
  - rewrite run_assoc. destruct (warning d); [rewrite run_assoc, run_lift, Ht|];
      do 2 (eapply returns_run; [reflexivity|]); by apply Hret.
Qed.

Lemma returns_fail_all e dx : ids_ok dx -> (potential dx.1 <= n)%nat ->
  returns (potential dx.1) (re_fail_all react again e) dx.
Proof.
  destruct dx as [d x]. cbn [fst]. intros Hok Hn. unfold re_fail_all. do 3 (eapply returns_run; [reflexivity|]). cbn [fst snd].
  set (d1 := bump _ _ _ _).
  assert (forall B (f : B -> list handler) ls s, ids_ok s ->
    let total := (potential s.1 + sum_list_with (fun v => load (f v)) ls)%nat in (total <= n)%nat ->
    returns total (forM ls (fun v => re_complete react again (f v) (Err e))) s) as Hall.
  { intros B f ls. induction ls as [|v ls IH]; intros s Hs; cbn [forM sum_list_with]; intros Hb.
    - exists s, []. split; [done|]. split; [done|lia].
    - eapply returns_bind; [apply returns_complete; [done|lia]|].
      intros s' Hs' Hb'. eapply returns_le; [apply IH; [done|lia]|lia]. }
  assert (forall B (f : B -> list handler) k ls,
    (sum_list_with (fun v => load (f v)) ls <= sum_list_with (fun v => k + load (f v))%nat ls)%nat) as Hsum.
  { intros B f k ls. induction ls as [|v ls IH]; [done|]. cbn -[load]. lia. }
  pose proof (Hsum _ (fun kv : string * Pending => p_handlers kv.2) 1%nat (pending d)) as Hsp.
  pose proof (Hsum _ w_handlers 2%nat (queue d)) as Hsq. unfold potential in Hn. cbv beta in Hsp, Hsq.
  assert (potential d1 = 0%nat) as H0 by done.
  apply (returns_bind (sum_list_with (fun kv => load (p_handlers kv.2)) (pending d))).
  - eapply returns_le; [apply (Hall _ (fun kv => p_handlers kv.2) (pending d) (d1, x))|].
    + split; [apply msorted_nil|by intros ? ?%elem_of_nil].
    + cbn [fst]. rewrite H0. lia.
    + cbn [fst]. rewrite H0. lia.
  - intros dx' Hok' Hb. eapply returns_le; [apply (Hall _ w_handlers); [done|lia]|unfold potential at 2; lia].
Qed.
End Returning.

Lemma submit_fits n : (forall spec x0, exists r x' w, send_request spec x0 = (Ret r, x', w)) ->
  accepts_timeouts -> finite_reactions -> fits n (re_submit react n).
Proof.
  intros Hsend Hq Hfin. induction n as [|n IH]; intros spec h now dx Hok Hn; [lia|].
  apply (returns_submit_step Hfin n); [done..|lia|lia].
Qed.

(** ** More fuel changes nothing *)
Definition extends {A} (m m' : DM A) : Prop := forall s a s' w, m s = (Ret a, s', w) -> m' s = (Ret a, s', w).
Lemma extends_refl {A} (m : DM A) : extends m m.
Proof. by intros s a s' w. Qed.
Lemma extends_throw {A} e (m : DM A) : extends (throw e) m.
Proof. by intros s a s' w. Qed.
Lemma extends_bind {A B} (m m' : DM A) (k k' : A -> DM B) :
  extends m m' -> (forall a, extends (k a) (k' a)) -> extends (bind m k) (bind m' k').
Proof.
  intros Hm Hk s b s' w (a&s1&w1&w2&H1&H2&->)%bind_ret_inv. eapply run_bind; [by apply Hm|by apply Hk].
Qed.
Lemma extends_forM {A} (l : list A) f f' : (forall a, extends (f a) (f' a)) -> extends (forM l f) (forM l f').
Proof. intros Hf. induction l as [|a l IH]; [apply extends_refl|]. cbn [forM]. apply extends_bind; auto. Qed.

Ltac extends_tac := repeat first
  [ apply extends_refl | apply extends_throw | solve [eauto] | apply extends_bind; [|intros ?] | apply extends_forM; intros ?
  | match goal with
    | |- extends (match ?x with _ => _ end) _ => destruct x
    | |- extends (let _ := _ in _) _ => cbv zeta
    end ].
Section Extends.
Context (again again' : RequestSpec -> handler -> TimePoint -> DM unit).
Context (Hext : forall spec h now, extends (again spec h now) (again' spec h now)).
Lemma extends_complete hs r : extends (re_complete react again hs r) (re_complete react again' hs r).
Proof. unfold re_complete. extends_tac. Qed.
#[local] Hint Resolve extends_complete : core.
Lemma extends_drain_loop f f' : (f <= f')%nat -> extends (re_drain_loop react again f) (re_drain_loop react again' f').
Proof.
  revert f'. induction f as [|f IH]; intros [|f'] Hf; try lia; [apply extends_throw..|]. cbn [re_drain_loop].
  pose proof (IH f' ltac:(lia)). extends_tac.
Qed.
Lemma extends_drain f f' now : (f <= f')%nat -> extends (re_drain react again f now) (re_drain react again' f' now).
Proof.
  intros Hf [d x] a s' w. unfold re_drain. destruct (_ || _); [done|].
  destruct (re_drain_loop _ _ f _) as [[r [d1 x1]] w1] eqn:E. intros [= -> <- <-].
  by rewrite (extends_drain_loop _ _ Hf _ _ _ _ E).
Qed.
Lemma extends_expire_queue f f' now i : (f <= f')%nat ->
  extends (re_expire_queue react again f now i) (re_expire_queue react again' f' now i).
Proof.
  revert f' i. induction f as [|f IH]; intros [|f'] i Hf; try lia; [apply extends_throw..|]. cbn [re_expire_queue].
  assert (forall i, extends (re_expire_queue react again f now i) (re_expire_queue react again' f' now i)) by (intros; apply IH; lia).
  extends_tac.
Qed.
Lemma extends_expire_pending f f' now it : (f <= f')%nat ->
  extends (re_expire_pending react again f now it) (re_expire_pending react again' f' now it).
Proof.
  revert f' it. induction f as [|f IH]; intros [|f'] it Hf; try lia; [apply extends_throw..|]. cbn [re_expire_pending].
  assert (forall it, extends (re_expire_pending react again f now it) (re_expire_pending react again' f' now it))
    by (intros; apply IH; lia).
  extends_tac.
Qed.
Lemma extends_tick f f' now : (f <= f')%nat -> extends (re_tick react again f now) (re_tick react again' f' now).
Proof.
  intros Hf. unfold re_tick. repeat (apply extends_bind; [|intros ?]);
    eauto using extends_refl, extends_expire_queue, extends_expire_pending, extends_drain.
Qed.
#[local] Hint Resolve extends_tick : core.
Lemma extends_submit_step f f' spec h now : (f <= f')%nat ->
  extends (re_submit_step react again f spec h now) (re_submit_step react again' f' spec h now).
Proof. intros Hf. unfold re_submit_step. extends_tac. Qed.
Lemma extends_on_message m : extends (re_on_message react again m) (re_on_message react again' m).
Proof. unfold re_on_message. extends_tac. Qed.
Lemma extends_fail_all e : extends (re_fail_all react again e) (re_fail_all react again' e).
Proof. unfold re_fail_all. extends_tac. Qed.
End Extends.
Lemma extends_submit f f' spec h now : (f <= f')%nat -> extends (re_submit react f spec h now) (re_submit react f' spec h now).
Proof.
  revert f' spec h now. induction f as [|f IH]; intros [|f'] spec h now Hf; try lia; [apply extends_throw..|].
  apply extends_submit_step; [|done]. intros. apply IH. lia.
Qed.

(** ** Lives *)
Definition re_run (fuel : nat) (op : dop) : DM unit :=
  let again := re_submit react fuel in
  match op with
  | Op_submit spec h now => again spec (Some h) now
  | Op_tick now => re_tick react again fuel now
  | Op_drain now => re_drain react again fuel now
  | Op_message m => let* _ := re_on_message react again m in ret tt
  | Op_fail_all e => re_fail_all react again e
  | Op_set_sending b => dmod (set_sending b)
  | Op_set_warning b => dmod (set_warning_handler b)
  end.
(** Calls that return, each with fuel enough; see [druns]. *)
Inductive re_runs : ST -> list nat -> ST -> list event -> Prop :=
| re_runs_done s : re_runs s [] s []
| re_runs_op fuel op s s1 s2 hs w1 w2 : re_run fuel op s = (Ret tt, s1, w1) -> re_runs s1 hs s2 w2 ->
    re_runs s (op_handlers op ++ hs) s2 (w1 ++ w2)
| re_runs_sender d x x' s hs w : (forall i, issued x i -> issued x' i) ->
    re_runs (d, x') hs s w -> re_runs (d, x) hs s w.

Lemma extends_run f f' op : (f <= f')%nat -> extends (re_run f op) (re_run f' op).
Proof.
  intros Hf. pose proof (fun spec h now => extends_submit f f' spec h now Hf).
  destruct op; cbn [re_run]; cbv zeta; eauto using extends_refl, extends_tick, extends_drain, extends_fail_all.
  apply extends_bind; [by apply extends_on_message|intros; apply extends_refl].
Qed.
Lemma moving_run fuel op : accepts_timeouts -> moving (op_handlers op) [] (re_run fuel op).
Proof.
  intros Hq. assert (forall spec h now, moving (option_list h) [] (re_submit react fuel spec h now)) as Ha.
  { intros. by apply moving_submit. }
  destruct op; cbn [re_run op_handlers]; cbv zeta; try (by apply moving_mod).
  - apply (Ha _ (Some h)).
  - by apply moving_tick.
  - by apply moving_drain.
  - apply (moving_bind _ []); [by apply moving_on_message|intros; apply moving_ret].
  - by apply moving_fail_all.
Qed.
Lemma moving_runs s hs s' w : accepts_timeouts -> re_runs s hs s' w -> moves hs [] s s' w.
Proof.
  intros Hq. induction 1 as [s|fuel op s s1 s2 hs w1 w2 H Hr IH|d x x' s hs w Hx Hr IH].
  - apply moves_refl.
  - eapply moves_trans; [|exact IH]. apply (moving_run _ _ Hq) in H. exact (moves_frame hs _ _ _ _ _ H).
  - intros [Hm Hi]. apply IH. split; [done|]. cbn in *. auto.
Qed.
(** The frame of a message has its members as texts. *)
Definition op_ok (op : dop) : Prop :=
  match op with
  | Op_message m => exists a b, value_string "in_reply_to" m = Ret a /\ value_string "type" m = Ret b
  | _ => True
  end.
Lemma returns_op op dx : (forall spec x0, exists r x' w, send_request spec x0 = (Ret r, x', w)) ->
  accepts_timeouts -> finite_reactions -> op_ok op -> ids_ok dx ->
  exists fuel dx' w, re_run fuel op dx = (Ret tt, dx', w).
Proof.
  intros Hsend Hq Hfin Hop Hok. set (n := (3 + potential dx.1 + match op with Op_submit _ h _ => weight h | _ => 0 end)%nat).
  pose proof (submit_fits n Hsend Hq Hfin) as Hfits. exists n.
  assert (forall b, returns b (re_run n op) dx -> exists dx' w, re_run n op dx = (Ret tt, dx', w)) as H.
  { intros b (dx'&w&H&_). by exists dx', w. }
  destruct op; cbn [re_run] in *; cbv zeta in *; try (by eexists _, _); cbn in Hop.
  - eapply H, Hfits; [done|]. unfold n. cbn. lia.
  - eapply H, returns_tick; try done; unfold n; lia.
  - eapply H, returns_drain; try done; unfold n; lia.
  - destruct Hop as (a&b&H1&H2). eapply H, returns_on_message; try done; [by exists a|unfold n; lia].
  - eapply H, returns_fail_all; try done. unfold n; lia.
Qed.

(** ** Handlers that never submit: the operations of [Dispatcher] *)
Section Plain.
Context (Hnone : forall h r, react h r = []) (again : RequestSpec -> handler -> TimePoint -> DM unit).
Lemma complete_plain hs r s : re_complete react again hs r s = emits (complete hs r) s.
Proof.
  unfold re_complete, complete, emits. induction (omap id hs) as [|h l IH]; [done|]. cbn [forM]. rewrite Hnone. cbn [forM].
  apply (run_bind _ _ _ tt s [_] _ _ _ eq_refl IH).
Qed.
Lemma bind_same {A B} (m : DM A) (k k' : A -> DM B) s :
  (forall a s1 w1, m s = (Ret a, s1, w1) -> k a s1 = k' a s1) -> bind m k s = bind m k' s.
Proof. intros Hk. unfold bind. destruct (m s) as [[[a|e] s1] w1]; [|done]. by rewrite (Hk a s1 w1). Qed.
Lemma bind_ext {A B} (m : DM A) (k k' : A -> DM B) s : (forall a s', k a s' = k' a s') -> bind m k s = bind m k' s.
Proof. intros Hk. apply bind_same. auto. Qed.
Lemma drain_loop_plain f dx : re_drain_loop react again f dx = drain_loop f dx.
Proof.
  revert dx. induction f as [|f IH]; intros dx; [done|]. cbn [re_drain_loop drain_loop].
  apply bind_ext. intros d s1. destruct (queue d) as [|q0 rest]; [done|].
  destruct (negb _); [done|]. destruct (flt _ _); [done|]. destruct (min_element _ _ _) as [i v].
  apply bind_ext. intros _ s2. apply bind_ext. intros [id|e] s3; repeat (apply bind_ext; intros ? ?).
  - apply IH.
  - unfold bind. rewrite complete_plain. unfold emits. by rewrite IH.
Qed.
Lemma drain_loop_fuel f f' (dx : ST) : (length (queue dx.1) < f)%nat -> (length (queue dx.1) < f')%nat ->
  drain_loop f dx = drain_loop f' dx.
Proof.
  revert f' dx. induction f as [|f IH]; intros [|f'] [d x] Hf Hf'; try lia. cbn [fst drain_loop] in *.
  unfold dget. rewrite !run_gets. cbn [fst]. destruct (queue d) as [|q0 rest] eqn:Eq; [done|].
  destruct (negb _); [done|]. destruct (flt _ _); [done|].
  destruct (min_element (0%nat, q0) 1%nat rest) as [i v] eqn:Em. apply next_spec in Em as [Hq _]. rewrite <- Eq in *.
  unfold dmod. rewrite !run_modify. cbn [fst snd].
  assert (length (take i (queue d) ++ drop (S i) (queue d)) < f /\ length (take i (queue d) ++ drop (S i) (queue d)) < f')%nat as [Hl Hl'].
  { rewrite Hq, length_app in Hf, Hf'. cbn [length] in Hf, Hf'. rewrite length_app. lia. }
  apply bind_same. intros sent s1 w1. unfold on_snd. cbn [fst snd].
  destruct (send_request (w_spec v) x) as [[r x'] ws]. intros [= -> <- _]. destruct sent as [id|e]; rewrite !run_modify.
  - by apply IH.
  - apply bind_same. intros [] s2 w2 [= <- <-]. by apply IH.
Qed.
Lemma drain_plain f now dx : (length (queue dx.1) < f)%nat -> re_drain react again f now dx = drain now dx.
Proof.
  intros Hf. unfold re_drain, drain. destruct (_ || _); [done|]. rewrite drain_loop_plain.
  by rewrite (drain_loop_fuel f (S (length (queue dx.1)))) by (cbn; lia).
Qed.
Lemma tick_plain f now dx : msorted (pending dx.1) -> (length (queue dx.1) < f)%nat -> (length (pending dx.1) < f)%nat ->
  re_tick react again f now dx = tick now dx.
Proof.
  destruct dx as [d x]. cbn [fst]. intros Hm Hq Hp. rewrite tick_unfold.
  destruct (re_tick_plain again (fun h t => Hnone h _) f now d x Hm) as [[_ ->]|[He _]]; [|lia].
  destruct (expired now d) as [d1 w1] eqn:E. rewrite drain_plain; [done|]. cbn [fst].
  unfold expired in E. destruct (expire_waiting _ _) as [[q ev1] n1] eqn:E1. destruct (expire_pending _ _) as [[p ev2] n2].
  injection E as <- _. apply expire_waiting_spec in E1 as (->&_&_). cbn. rewrite queue_refill.
  pose proof (filter_length_le (fun w => negb (w_deadline w <=? now)) (queue d)). lia.
Qed.
Lemma submit_step_plain f spec h now dx : msorted (pending dx.1) -> (S (length (queue dx.1)) < f)%nat ->
  (length (pending dx.1) < f)%nat -> re_submit_step react again f spec h now dx = submit spec h now dx.
Proof.
  destruct dx as [d x]. cbn [fst]. intros Hm Hq Hp. unfold re_submit_step, submit, dmod, dget.
  rewrite !run_modify, !run_gets. cbn [fst snd]. cbv zeta. destruct (if str_empty _ then _ else _); [done|].
  rewrite !run_modify. cbn [fst snd]. apply tick_plain; cbn; [done| |done]. rewrite length_app. cbn. lia.
Qed.
Lemma on_message_plain m dx : re_on_message react again m dx = on_message m dx.
Proof.
  unfold re_on_message, on_message. apply bind_ext. intros irt s1. destruct (str_empty irt); [done|].
  apply bind_ext. intros d s2. destruct (mget irt (pending d)) as [e|]; [|done].
  apply bind_ext. intros type s3. apply bind_ext. intros _ s4.
  assert (forall r s, (let* _ := re_complete react again (p_handlers e) r in ret true) s =
                      (let* _ := emits (complete (p_handlers e) r) in ret true) s) as Hc.
  { intros r s. unfold bind. rewrite complete_plain. done. }
  destruct (find_meta (p_type e)) as [meta|]; [destruct (negb _)|]; repeat (apply bind_ext; intros ? ?); apply Hc.
Qed.
Lemma fail_all_plain e dx : re_fail_all react again e dx = fail_all e dx.
Proof.
  assert (forall B (f : B -> list handler) l s, forM l (fun v => re_complete react again (f v) (Err e)) s =
    emits (concat (map (fun v => complete (f v) (Err e)) l)) s) as Hall.
  { intros B f l. induction l as [|v l IH]; intros s; [done|]. cbn [forM map concat].
    unfold bind. rewrite complete_plain. unfold emits at 1. rewrite IH. done. }
  unfold re_fail_all, fail_all. do 3 (apply bind_ext; intros ? ?). unfold bind. rewrite Hall. unfold emits at 1 3. by rewrite Hall.
Qed.
End Plain.
End Facts.

(** ** Theorems *)
Section Theorems.
Context {X : Type} `{HX : !Sender X} (react : nat -> Result json -> list resubmission).

(** C14: Handlers may submit from within their call, from anything but a timeout: over
    any sequence of calls of the dispatcher that return, the handlers submitted, by the
    caller and by the handlers that were called, are as a multiset the handlers called
    plus the ones still waiting or open.  So no handler is called twice and none is
    dropped. *)
Theorem reentrant_handlers_conserved b t (x : X) hs s w : accepts_timeouts react ->
  re_runs react (new_dispatcher b t, x) hs s w -> hs ++ resubmitted react w ≡ₚ called w ++ live s.1.
Proof.
  intros Hq H. destruct (moving_runs react _ _ _ _ Hq H (ids_ok_new b t x)) as [_ HP].
  by rewrite app_nil_r in HP.
Qed.


(** With handlers that never submit the operations are those of [Dispatcher], given
    fuel for one round more than requests wait and are open. *)
Theorem quiet_handlers_plain n op (dx : Dispatcher * X) : (forall h r, react h r = []) -> msorted (pending dx.1) ->
  (S (S (length (queue dx.1))) < n)%nat -> (length (pending dx.1) < n)%nat -> re_run react n op dx = run_op op dx.
Proof.
  intros Hnone Hm Hq Hp. destruct n as [|n]; [lia|]. destruct op; cbn [re_run run_op]; cbv zeta; try done.
  - apply submit_step_plain; [done..|lia|lia].
  - apply tick_plain; [done..|lia|lia].
  - apply drain_plain; [done|lia].
  - unfold bind. by rewrite on_message_plain.
  - by apply fail_all_plain.
Qed.
End Theorems.

(** ** Witnesses *)

(** The first handler asks again when it has its answer. *)
Definition toy_react (h : nat) (r : Result json) : list resubmission :=
  match r with
  | Ok _ => if (h =? 7)%nat then [mkResubmission (toy_spec "dp_read" EmptyString Polling) (Some 8%nat) 0] else []
  | Err _ => []
  end.
Definition toy_weight (h : nat) : nat := if (h =? 7)%nat then 4%nat else 1%nat.
Lemma toy_accepts : accepts_timeouts toy_react.
Proof. by intros h type. Qed.
Lemma toy_finite : finite_reactions toy_react toy_weight.
Proof. intros h r. unfold toy_react, toy_weight. destruct r, (h =? 7)%nat; cbn; lia. Qed.
Lemma toy_resubmits : exists s w, re_runs toy_react toy_disp [7%nat] s w /\ called w = [7%nat] /\
  resubmitted toy_react w = [8%nat] /\ live s.1 = [8%nat].
Proof.
  eexists _, _. split; [|split; [|split]].
  - eapply (re_runs_op _ 10 (Op_submit (toy_spec "dp_read" EmptyString Polling) 7 0)); [vm_compute; reflexivity|].
    eapply (re_runs_op _ 10 (Op_message (toy_response "0" "dp_report"))); [vm_compute; reflexivity|]. apply re_runs_done.
  - reflexivity.
  - reflexivity.
  - reflexivity.
Qed.

Lemma reentrant_handlers_conserved_witness : exists s w, re_runs toy_react toy_disp [7%nat] s w /\
  [7; 8]%nat ≡ₚ called w ++ live s.1.
Proof.
  destruct toy_resubmits as (s&w&H&_&Hr&_). exists s, w. split; [exact H|].
  pose proof (reentrant_handlers_conserved toy_react _ _ _ _ _ _ toy_accepts H) as HP. rewrite Hr in HP. exact HP.
Defined.

Lemma toy_send_answers : forall spec (x : nat), exists r x' w, send_request spec x = (Ret r, x', w).
Proof. intros spec x. cbn [send_request toy_sender]. unfold toy_send. destruct (String.eqb _ _); by eexists _, _, _. Qed.


(** ** What a retry on a timeout does *)

(** The handler of request 7 submits the same request again when it times out. *)
Definition retry_react (spec : RequestSpec) (now : TimePoint) (h : nat) (r : Result json) : list resubmission :=
  match r with
  | Ok _ => []
  | Err _ => if (h =? 7)%nat then [mkResubmission spec (Some 8%nat) now] else []
  end.

(** A request that is still waiting when its time is up and has a key: the retry is
    attached to the very request that is being removed, and its handler is dropped
    without ever being called, although the header says every handler is called
    exactly once. *)
Theorem coalesced_retry_lost :
  let spec := toy_spec "dp_read" "k" Polling in
  let d := set_queue [mkWaiting spec [Some 7%nat] (sec 10) 1] (set_sending false (new_dispatcher default_budget (sec 10))) in
  exists s w, re_run (retry_react spec (sec 10)) 5 (Op_tick (sec 10)) (d, 0%nat) = (Ret tt, s, w) /\
    called w = [7%nat] /\ resubmitted (retry_react spec (sec 10)) w = [8%nat] /\ live s.1 = [].
Proof. eexists _, _. split; [vm_compute; reflexivity|]. repeat split. Qed.

(** Without a key, the retry is pushed onto the vector the loop iterates over, and the
    tick inside it removes the element the iterator stands on. *)
Theorem waiting_retry_dangles :
  let spec := toy_spec "dp_read" EmptyString Polling in
  let d := set_queue [mkWaiting spec [Some 7%nat] (sec 10) 1] (set_sending false (new_dispatcher default_budget (sec 10))) in
  (re_run (retry_react spec (sec 10)) 5 (Op_tick (sec 10)) (d, 0%nat)).1.1 =
    Throw (Exn_ub "tick: iterator into the queue used after the queue changed").
Proof. vm_compute. reflexivity. Qed.

(** Two open requests time out in one tick, and the handler of the first one retries:
    the tick inside the retry removes the second request, on which the iterator of the
    outer tick stands. *)
Theorem open_retry_dangles :
  let spec := toy_spec "dp_read" EmptyString Polling in
  let d := set_pending [("0", mkPending "dp_read" [Some 7%nat] (sec 10)); ("1", mkPending "dp_read" [Some 9%nat] (sec 10))]
             (new_dispatcher default_budget (sec 10)) in
  (re_run (retry_react spec (sec 10)) 5 (Op_tick (sec 10)) (d, 2%nat)).1.1 =
    Throw (Exn_ub "tick: iterator to an erased open request used").
Proof. vm_compute. reflexivity. Qed.
