(* ===== verification/Session.v ===== *)
(** * Controller session ([protocol/session.hpp], [session.cpp], [ota_policy.hpp])

    One connection to a device: handshake, authentication of inbound messages,
    signing of outbound ones, and the dispatch of reports.  The state is the pair
    of the request dispatcher and the session's own members ([Core]); the session
    is the [Sender] the dispatcher is instantiated with.

    The clocks, the random generator and the transport's send function are
    oracles indexed by the number of external reads so far ([reads]), so that two
    reads of a clock in one call may differ.  The JSON parser and printer, the
    crypto library, the credential provider and the OTA policy are fields of the
    environment. *)
From S2P Require Import Prelude StdMap Errors Float Json Canonical Messages Auth Events Dispatcher.
Local Open Scope Z_scope.

Inductive SessionState := Closed | AwaitHello | AwaitProof | Running.
#[export] Instance SessionState_eq_dec : EqDecision SessionState.
Proof. solve_decision. Defined.

Definition session_state_to_string (s : SessionState) : string :=
  match s with
  | Closed => "closed"
  | AwaitHello => "await_hello"
  | AwaitProof => "await_proof"
  | Running => "running"
  end.

(** ** OTA policy *)

Record OtaCheck := { oc_current_version : string; oc_hw_rev : string }.
Inductive OtaDecision :=
| NoUpdate
| OtaAvailable (version url sha256 : string) (size : Z).
Definition no_update_policy (_ : ConnectionInfo) (_ : OtaCheck) : OtaDecision := NoUpdate.

Record SessionConfig := {
  cfg_credentials : option (string -> string -> Result (list Z));
  cfg_kid : string;
  cfg_expected_device_id : string;
  cfg_ota_policy : option (ConnectionInfo -> OtaCheck -> OtaDecision);
  cfg_handshake_timeout : Z;
  cfg_default_request_timeout : Z;
  cfg_budget : RateBudget
}.

(** Which callbacks the owner has set. *)
Record Callbacks := {
  cb_ready : bool; cb_failed : bool; cb_dp_report : bool; cb_heartbeat : bool;
  cb_device_alert : bool; cb_ota_status : bool; cb_error_report : bool;
  cb_warning : bool; cb_unknown : bool
}.
Definition no_callbacks : Callbacks :=
  {| cb_ready := false; cb_failed := false; cb_dp_report := false; cb_heartbeat := false;
     cb_device_alert := false; cb_ota_status := false; cb_error_report := false;
     cb_warning := false; cb_unknown := false |}.

(** What the session reaches outside itself. *)
Record senv := {
  e_config : SessionConfig;
  e_crypto : crypto;
  e_parse : string -> json;                (* parse without exceptions *)
  e_dump : json -> option string;          (* None: dump() throws *)
  e_now : nat -> TimePoint;
  e_now_ms : nat -> Z;
  e_random : nat -> option (list Z);       (* RAND_bytes of 16 bytes *)
  e_send : option (nat -> string -> bool); (* None: empty SendFn *)
  e_close : bool                           (* a CloseFn is set *)
}.

Record Core := mkCore {
  callbacks_ : Callbacks;
  state : SessionState;
  auth_ : AuthContext;
  replay_ : Z;
  s2c_seq : Z;
  msg_seq : Z;
  info : ConnectionInfo;
  handshake_deadline : TimePoint;
  last_tx : TimePoint;
  failed : bool;
  reads : nat
}.
Definition set_callbacks_ (v : Callbacks) (r : Core) : Core :=
  mkCore v (state r) (auth_ r) (replay_ r) (s2c_seq r) (msg_seq r) (info r)
    (handshake_deadline r) (last_tx r) (failed r) (reads r).
Definition set_state (v : SessionState) (r : Core) : Core :=
  mkCore (callbacks_ r) v (auth_ r) (replay_ r) (s2c_seq r) (msg_seq r) (info r)
    (handshake_deadline r) (last_tx r) (failed r) (reads r).
Definition set_auth_ (v : AuthContext) (r : Core) : Core :=
  mkCore (callbacks_ r) (state r) v (replay_ r) (s2c_seq r) (msg_seq r) (info r)
    (handshake_deadline r) (last_tx r) (failed r) (reads r).
Definition set_replay_ (v : Z) (r : Core) : Core :=
  mkCore (callbacks_ r) (state r) (auth_ r) v (s2c_seq r) (msg_seq r) (info r)
    (handshake_deadline r) (last_tx r) (failed r) (reads r).
Definition set_s2c_seq (v : Z) (r : Core) : Core :=
  mkCore (callbacks_ r) (state r) (auth_ r) (replay_ r) v (msg_seq r) (info r)
    (handshake_deadline r) (last_tx r) (failed r) (reads r).
Definition set_msg_seq (v : Z) (r : Core) : Core :=
  mkCore (callbacks_ r) (state r) (auth_ r) (replay_ r) (s2c_seq r) v (info r)
    (handshake_deadline r) (last_tx r) (failed r) (reads r).
Definition set_info (v : ConnectionInfo) (r : Core) : Core :=
  mkCore (callbacks_ r) (state r) (auth_ r) (replay_ r) (s2c_seq r) (msg_seq r) v
    (handshake_deadline r) (last_tx r) (failed r) (reads r).
Definition set_handshake_deadline (v : TimePoint) (r : Core) : Core :=
  mkCore (callbacks_ r) (state r) (auth_ r) (replay_ r) (s2c_seq r) (msg_seq r)
    (info r) v (last_tx r) (failed r) (reads r).
Definition set_last_tx (v : TimePoint) (r : Core) : Core :=
  mkCore (callbacks_ r) (state r) (auth_ r) (replay_ r) (s2c_seq r) (msg_seq r) (info r)
    (handshake_deadline r) v (failed r) (reads r).
Definition set_failed (v : bool) (r : Core) : Core :=
  mkCore (callbacks_ r) (state r) (auth_ r) (replay_ r) (s2c_seq r) (msg_seq r) (info r)
    (handshake_deadline r) (last_tx r) v (reads r).
Definition set_reads (v : nat) (r : Core) : Core :=
  mkCore (callbacks_ r) (state r) (auth_ r) (replay_ r) (s2c_seq r) (msg_seq r) (info r)
    (handshake_deadline r) (last_tx r) (failed r) v.

Definition auth_default : AuthContext :=
  {| auth_key := []; auth_kid := EmptyString; auth_device_id := EmptyString;
     auth_server_nonce := EmptyString; auth_client_nonce := EmptyString |}.

Definition core_default : Core :=
  mkCore no_callbacks Closed auth_default 0 0 0 info_default 0 0 false 0.

(** The constructor: sending is off and the dispatcher's warnings go through
    [warn]. *)
Definition new_session (env : senv) : Dispatcher * Core :=
  (set_warning_handler true
     (set_sending false
        (new_dispatcher (cfg_budget (e_config env)) (cfg_default_request_timeout (e_config env)))),
   core_default).

(** ** The server nonce *)

Definition base64_alphabet : string :=
  "ABCDEFGHIJKLMNOPQRSTUVWXYZabcdefghijklmnopqrstuvwxyz0123456789+/".
Definition b64_char (v : Z) : string :=
  match String.get (Z.to_nat v) base64_alphabet with
  | Some c => String c EmptyString
  | None => EmptyString
  end.

(** Four digits per three bytes, two for the remaining one. *)
Fixpoint nonce_digits (raw : list Z) : string :=
  match raw with
  | a :: b :: c :: r =>
      let v := Z.lor (Z.lor (Z.shiftl a 16) (Z.shiftl b 8)) c in
      b64_char (Z.land (Z.shiftr v 18) 63) +:+ b64_char (Z.land (Z.shiftr v 12) 63) +:+
      b64_char (Z.land (Z.shiftr v 6) 63) +:+ b64_char (Z.land v 63) +:+ nonce_digits r
  | a :: _ =>
      let v := Z.shiftl a 16 in
      b64_char (Z.land (Z.shiftr v 18) 63) +:+ b64_char (Z.land (Z.shiftr v 12) 63) +:+ "=="
  | [] => EmptyString
  end.

(** [random_nonce_b64] on what the generator returned. *)
Definition random_nonce_b64 (raw : option (list Z)) : outcome string :=
  match raw with
  | None => Throw (Exn_runtime "RAND_bytes failed")
  | Some raw => Ret (nonce_digits raw)
  end.

Definition optional_float (message : json) (key : string) : outcome (option float) :=
  match jfind key message with
  | Some v => if is_number v then let! f := get_float32 v in Ret (Some f) else Ret None
  | None => Ret None
  end.

Section Session.
Context (env : senv).
Abbreviation CM := (M Core event).
Abbreviation SM := (M (Dispatcher * Core) event).

Definition config : SessionConfig := e_config env.
Definition cmod (f : Core -> Core) : CM unit := modify f.

(** One read of an oracle. *)
Definition oracle {A} (f : nat -> A) : CM A :=
  let* n := gets reads in
  cmod (fun c => set_reads (S n) c) ;;;
  ret (f n).
Definition now : CM TimePoint := oracle (e_now env).
Definition now_ms : CM Z := oracle (e_now_ms env).

Definition dump (message : json) : outcome string :=
  match e_dump env message with Some s => Ret s | None => Throw Exn_dump end.

(** [build_message] with the clock read its [ts] argument asks for. *)
Definition build (type : string) (body : json) (msg_id in_reply_to : string) : CM json :=
  let* ts := now_ms in
  let* again := if 0 <=? ts then ret 0 else
                match find_meta type with Some _ => now_ms | None => ret 0 end in
  lift (build_message again type body msg_id in_reply_to ts).

Definition next_msg_id : CM string :=
  cmod (fun c => set_msg_seq (msg_seq c + 1) c) ;;;
  gets (fun c => "s-" +:+ dec_Z (msg_seq c)).

(** Sign with the next sequence number. *)
Definition sign_next (message : json) : CM json :=
  cmod (fun c => set_s2c_seq (s2c_seq c + 1) c) ;;;
  let* c := get in
  lift (sign (e_crypto env) message (auth_ c) (s2c_seq c) S2c).

(** Hand a frame to the transport; [last_tx] moves only on success. *)
Definition send_frame (message : json) (encoded : string) : CM bool :=
  match e_send env with
  | None => ret false
  | Some send =>
      let* ok := oracle (fun n => send n encoded) in
      if negb ok then ret false else
      emit (Ev_send message encoded) ;;;
      let* t := now in
      cmod (set_last_tx t) ;;;
      ret true
  end.

Definition transmit (message : json) : CM bool :=
  match e_send env with
  | None => ret false
  | Some _ =>
      let* encoded := lift (dump message) in
      send_frame message encoded
  end.

Definition is_control (meta : MessageMeta) : bool :=
  match meta_auth meta with Auth_Control => true | _ => false end.

Definition send_message (type : string) (body : json) (in_reply_to : string) : CM bool :=
  let* message := build type body EmptyString in_reply_to in
  let* message := match find_meta type with
                  | Some meta => if is_control meta then sign_next message else ret message
                  | None => ret message
                  end in
  transmit message.

(** Lengths of strings as the integers the code compares. *)
Definition size (s : string) : Z := Z.of_nat (String.length s).

Definition encode_and_send (spec : RequestSpec) : CM (Result string) :=
  let* c := get in
  if negb (bool_decide (state c = Running)) then
    ret (Err (make_error Dom_Disconnected NotConnected
      ("session is " +:+ session_state_to_string (state c) +:+ ", not running")))
  else
    match find_meta (rs_type spec) with
    | None => ret (Err (protocol_error UnexpectedMessage
                          ("unknown message type '" +:+ rs_type spec +:+ "'")))
    | Some meta =>
        let* msg_id := next_msg_id in
        let* message := build (rs_type spec) (rs_body spec) msg_id EmptyString in
        let* message := if is_control meta then sign_next message else ret message in
        let* encoded := lift (dump message) in
        if kMaxControlFrameBytes <? size encoded then
          ret (Err (make_error Dom_Protocol FrameTooLarge
            (rs_type spec +:+ " frame is " +:+ dec_Z (size encoded) +:+
             " bytes, device limit is " +:+ dec_Z kMaxControlFrameBytes)))
        else
          let* ok := send_frame message encoded in
          if ok then ret (Ok msg_id)
          else ret (Err (make_error Dom_Disconnected TransportClosed
                           (rs_type spec +:+ " could not be sent")))
    end.

(** ** Ids *)

(** Message ids handed out on this connection. *)
Definition issued_ids (c : Core) (id : string) : Prop :=
  exists k, k <= msg_seq c /\ id = "s-" +:+ dec_Z k.

(** What building, signing and sending a frame can change: the counters of
    signed frames and of oracle reads, and the time of the last frame.  It emits
    only frames. *)
Definition is_send (e : event) : bool := match e with Ev_send _ _ => true | _ => false end.
Record tame (c c' : Core) (w : list event) : Prop := {
  tame_callbacks : callbacks_ c' = callbacks_ c;
  tame_state : state c' = state c;
  tame_auth : auth_ c' = auth_ c;
  tame_replay : replay_ c' = replay_ c;
  tame_s2c : s2c_seq c <= s2c_seq c';
  tame_ids : msg_seq c' = msg_seq c;
  tame_info : info c' = info c;
  tame_deadline : handshake_deadline c' = handshake_deadline c;
  tame_failed : failed c' = failed c;
  tame_events : Forall (fun e => is_send e = true) w
}.

#[global] Instance tame_composable : Composable tame.
Proof.
  split; [by split|]. intros s1 s2 s3 w1 w2 [] [].
  split; try congruence; [lia|]. by apply Forall_app.
Qed.

Lemma sends_not_called w : Forall (fun e => is_send e = true) w -> called w = [].
Proof. induction 1 as [|e w He _ IH]; [done|]. by destruct e. Qed.

Ltac tame_leaf := split; cbn; first [done | lia | by repeat constructor].

Lemma tame_oracle {A} (f : nat -> A) : respects tame (oracle f).
Proof. unfold oracle, cmod. respects_tac; tame_leaf. Qed.
#[local] Hint Resolve tame_oracle : fnt.

Lemma tame_build type body msg_id irt : respects tame (build type body msg_id irt).
Proof. unfold build, now_ms. respects_tac. Qed.
Lemma tame_sign_next message : respects tame (sign_next message).
Proof. unfold sign_next, cmod. respects_tac; tame_leaf. Qed.
Lemma tame_send_frame message encoded : respects tame (send_frame message encoded).
Proof. unfold send_frame, now, cmod. respects_tac; tame_leaf. Qed.
#[local] Hint Resolve tame_build tame_sign_next tame_send_frame : fnt.

Lemma tame_send_message type body irt : respects tame (send_message type body irt).
Proof. unfold send_message, transmit. respects_tac. Qed.
#[local] Hint Resolve tame_send_message : fnt.

(** Sending a request takes one id first and is tame from there. *)
Definition took_id (c : Core) : Core := set_msg_seq (msg_seq c + 1) c.
Lemma encode_and_send_tame spec c r c' w : encode_and_send spec c = (r, c', w) ->
  (tame c c' w /\ forall id, r <> Ret (Ok id)) \/
  (state c = Running /\ tame (took_id c) c' w /\
   forall id, r = Ret (Ok id) -> id = "s-" +:+ dec_Z (msg_seq c')).
Proof.
  unfold encode_and_send. intros H.
  unfold bind at 1, get in H.
  destruct (bool_decide (state c = Running)) eqn:Es; cbn [negb] in H.
  2: { injection H as <- <- <-. left. split; [apply comp_refl|discriminate]. }
  apply bool_decide_eq_true in Es.
  destruct (find_meta (rs_type spec)) as [meta|]; [|injection H as <- <- <-].
  2: { left. split; [apply comp_refl|discriminate]. }
  right. split; [done|]. unfold next_msg_id, cmod in H.
  match type of H with context [bind (bind (modify ?f) ?g) ?k] =>
    set (k0 := k) in H;
    assert (respects tame (k0 ("s-" +:+ dec_Z (msg_seq c + 1)))) as Hq
      by (unfold k0; respects_tac)
  end.
  unfold bind at 1 2, modify, gets in H. cbn [app] in H.
  change (set_msg_seq (msg_seq c + 1) c) with (took_id c) in H.
  change (msg_seq (took_id c)) with (msg_seq c + 1) in H.
  destruct (k0 ("s-" +:+ dec_Z (msg_seq c + 1)) (took_id c)) as [[r1 c1] w1] eqn:Ek.
  injection H as <- <- <-.
  pose proof (Hq _ _ _ _ Ek) as Ht. split; [done|]. intros id ->. rewrite (tame_ids _ _ _ Ht).
  unfold k0 in Ek.
  apply bind_ret_inv in Ek as (m1 & ? & ? & ? & _ & Ek & _).
  apply bind_ret_inv in Ek as (m2 & ? & ? & ? & _ & Ek & _).
  apply bind_ret_inv in Ek as (enc & ? & ? & ? & _ & Ek & _).
  destruct (kMaxControlFrameBytes <? size enc); [discriminate|].
  apply bind_ret_inv in Ek as (ok & ? & ? & ? & _ & Ek & _).
  destruct ok; [|discriminate]. injection Ek as <- _ _. done.
Qed.

Lemma dec_id_inj a b : "s-" +:+ dec_Z a = "s-" +:+ dec_Z b -> a = b.
Proof. intros [= H]. by apply dec_Z_inj. Qed.

Lemma send_issues_session spec c r c' w : encode_and_send spec c = (r, c', w) ->
  (forall i, issued_ids c i -> issued_ids c' i) /\
  (forall id, r = Ret (Ok id) -> ~ issued_ids c id /\ issued_ids c' id).
Proof.
  intros [[Ht Hr]|(_ & Ht & Hid)]%encode_and_send_tame; pose proof (tame_ids _ _ _ Ht) as Hi;
    cbn in Hi; (split; [intros i (k & Hk & ->); exists k; split; [lia|done]|]).
  - intros id ->. by destruct (Hr id).
  - intros id Hr. rewrite (Hid id Hr). split; [|exists (msg_seq c'); split; [lia|done]].
    intros (k & Hk & E). apply dec_id_inj in E. lia.
Qed.

Lemma send_quiet_session spec c r c' w : encode_and_send spec c = (r, c', w) -> called w = [].
Proof.
  intros [[Ht _]|(_ & Ht & _)]%encode_and_send_tame;
    apply sends_not_called; by apply (tame_events _ _ _ Ht).
Qed.

Definition session_sender : Sender Core := {|
  send_request := encode_and_send; issued := issued_ids;
  send_issues := send_issues_session; send_quiet := send_quiet_session
|}.
#[local] Existing Instance session_sender.

(** ** Entry points *)

Definition cget : SM Core := gets snd.
Definition smod (f : Core -> Core) : SM unit := modify (fun s => (s.1, f s.2)).

Definition set_callbacks (cb : Callbacks) : SM unit := smod (set_callbacks_ cb).

Definition enter (next : SessionState) : SM unit :=
  let* c := cget in
  if bool_decide (state c = next) then ret tt else
  smod (set_state next) ;;;
  dmod (set_sending (bool_decide (next = Running))).

Definition warn (reason type : string) : SM unit :=
  let* c := cget in
  when (cb_warning (callbacks_ c)) (emit (warn_event reason type)).

Definition on_transport_open : SM unit :=
  let* raw := on_snd (oracle (e_random env)) in
  let* nonce := lift (random_nonce_b64 raw) in
  smod (set_auth_ {| auth_key := []; auth_kid := cfg_kid config; auth_device_id := EmptyString;
                     auth_server_nonce := nonce; auth_client_nonce := EmptyString |}) ;;;
  smod (fun c => set_failed false (set_info info_default (set_msg_seq 0 (set_s2c_seq 0
                   (set_replay_ 0 c))))) ;;;
  let* t := on_snd now in
  smod (set_last_tx t) ;;;
  let* t := on_snd now in
  smod (set_handshake_deadline (t + cfg_handshake_timeout config)) ;;;
  enter AwaitHello.

Definition on_transport_closed (error : Error) : SM unit :=
  enter Closed ;;;
  fail_all error.

Definition abort (error : Error) (close_code : Z) (reason : string) : SM unit :=
  let* c := cget in
  if failed c then ret tt else
  smod (set_failed true) ;;;
  enter Closed ;;;
  fail_all error ;;;
  when (e_close env) (emit (Ev_close close_code reason)) ;;;
  let* c := cget in
  when (cb_failed (callbacks_ c)) (emit (Ev_failed error)).

Definition request (spec : RequestSpec) (h : handler) : SM unit :=
  let* t := on_snd now in
  submit spec h t.

Definition session_tick (t : TimePoint) : SM unit :=
  let* c := cget in
  if (bool_decide (state c = AwaitHello) || bool_decide (state c = AwaitProof)) &&
     (handshake_deadline c <=? t)
  then abort (make_error Dom_Protocol HandshakeFailed "no Fountain handshake within the deadline")
         4000 "handshake_timeout"
  else tick t.

(** The first key id of the device's list that the provider resolves; the last
    refusal is remembered. *)
Fixpoint choose_kid (resolve : string -> string -> Result (list Z)) (device_id : string)
    (kids : list json) (err : Error) : string * list Z * Error :=
  match kids with
  | [] => (EmptyString, [], err)
  | J_str candidate :: r =>
      match resolve device_id candidate with
      | Ok key => (candidate, key, err)
      | Err e => choose_kid resolve device_id r e
      end
  | _ :: r => choose_kid resolve device_id r err
  end.

Definition hello_refusal (reason : string) (ts : Z) : json :=
  J_obj (mof [("accepted", J_bool false); ("reason", J_str reason);
              ("supported_protocols", J_arr [J_int 1; J_int 2]); ("server_ts", J_int ts)]).

Definition handle_hello (message : json) : SM unit :=
  let* type := lift (value_string "type" message) in
  if String.eqb type "protocol_mismatch" then
    abort (protocol_error ProtocolMismatch "device reports no common protocol version")
      4000 "protocol_mismatch"
  else if negb (String.eqb type "hello") then
    abort (protocol_error UnexpectedMessage ("expected hello, got '" +:+ type +:+ "'"))
      4000 "expected_hello"
  else
  let field key (set : string -> ConnectionInfo -> ConnectionInfo) :=
    let* v := lift (value_string key message) in
    smod (fun c => set_info (set v (info c)) c) in
  field "device_id" set_ci_device_id ;;;
  field "serial" set_ci_serial ;;;
  field "fw_version" set_ci_firmware_version ;;;
  field "hw_rev" set_ci_hardware_revision ;;;
  field "boot_reason" set_ci_boot_reason ;;;
  let* pv := lift (value (get_int 32) "protocol_version" 0 message) in
  smod (fun c => set_info (set_ci_protocol_version (wrap_u 8 pv) (info c)) c) ;;;
  let* nonce := lift (value_string "client_nonce" message) in
  smod (fun c => set_auth_ {| auth_key := auth_key (auth_ c); auth_kid := auth_kid (auth_ c);
                              auth_device_id := auth_device_id (auth_ c);
                              auth_server_nonce := auth_server_nonce (auth_ c);
                              auth_client_nonce := nonce |} c) ;;;
  let* schemes := lift (value get_json "auth_schemes" (J_arr []) message) in
  let* kids := lift (value get_json "auth_kids" (J_arr []) message) in
  let scheme_ok := existsb (fun s => match s with
                                     | J_str s => String.eqb s kAuthScheme
                                     | _ => false end) (elements schemes) in
  let* c := cget in
  let '(chosen_kid, key, resolve_error) :=
    match cfg_credentials config with
    | Some resolve =>
        choose_kid resolve (ci_device_id (info c)) (elements kids)
          (make_error Dom_Authentication UnknownKeyId "device offered no key id we can resolve")
    | None => (EmptyString, [], config_error MissingCredentials "no credential provider configured")
    end in
  if negb (str_empty (cfg_expected_device_id config)) &&
     negb (String.eqb (ci_device_id (info c)) (cfg_expected_device_id config)) then
    let* ts := on_snd now_ms in
    let* irt := lift (value_string "msg_id" message) in
    let* _ := on_snd (send_message "hello_ack" (hello_refusal "unknown_device" ts) irt) in
    abort (make_error Dom_Authentication AuthRejected
             ("device identifies as '" +:+ ci_device_id (info c) +:+ "', expected '" +:+
              cfg_expected_device_id config +:+ "'")) 4004 "unknown_device"
  else if negb scheme_ok || str_empty chosen_kid then
    let* ts := on_snd now_ms in
    let* irt := lift (value_string "msg_id" message) in
    let* _ := on_snd (send_message "hello_ack" (hello_refusal "auth_required" ts) irt) in
    abort resolve_error 4004 "auth_required"
  else
    smod (fun c => set_auth_ {| auth_key := key; auth_kid := chosen_kid;
                                auth_device_id := ci_device_id (info c);
                                auth_server_nonce := auth_server_nonce (auth_ c);
                                auth_client_nonce := auth_client_nonce (auth_ c) |} c) ;;;
    smod (fun c => set_info (set_ci_auth_kid chosen_kid (set_ci_auth_scope kAuthScope
                               (set_ci_auth_scheme kAuthScheme (info c)))) c) ;;;
    let* ts := on_snd now_ms in
    let* c := cget in
    let* irt := lift (value_string "msg_id" message) in
    let* _ := on_snd (send_message "hello_ack"
      (J_obj (mof [("accepted", J_bool true);
                   ("supported_protocols", J_arr [J_int 1; J_int 2]); ("server_ts", J_int ts);
                   ("auth_required", J_bool true); ("auth_scheme", J_str kAuthScheme);
                   ("auth_scope", J_str kAuthScope); ("auth_kid", J_str chosen_kid);
                   ("server_nonce", J_str (auth_server_nonce (auth_ c)))])) irt) in
    enter AwaitProof.

(** [replay_.check] *)
Definition check_replay (seq : Z) : SM bool :=
  let* c := cget in
  let '(fresh, last) := antireplay_check (replay_ c) seq in
  smod (set_replay_ last) ;;;
  ret fresh.

(** [message["auth"].value("seq", 0)] of a message that carries [auth]. *)
Definition auth_seq (message : json) : outcome Z :=
  match jfind "auth" message with
  | Some a => value get_int64 "seq" 0 a
  | None => Throw (Exn_ub "operator[] on a missing key of a const object")
  end.

Definition answer_ota_check (message : json) : SM unit :=
  let* current_version := lift (value_string "current_version" message) in
  let* hw_rev := lift (value_string "hw_rev" message) in
  let* c := cget in
  let policy := match cfg_ota_policy config with Some p => p | None => no_update_policy end in
  let decision := policy (info c) {| oc_current_version := current_version; oc_hw_rev := hw_rev |} in
  let* in_reply_to := lift (value_string "msg_id" message) in
  match decision with
  | OtaAvailable version url sha256 size =>
      let* _ := on_snd (send_message "ota_available"
        (J_obj (mof [("version", J_str version); ("url", J_str url);
                     ("sha256", J_str sha256); ("size", J_uint size)])) in_reply_to) in
      ret tt
  | NoUpdate =>
      let* _ := on_snd (send_message "ota_none" (J_obj []) in_reply_to) in
      ret tt
  end.

(** The dispatcher's warning handler is [warn]: nothing is seen of it when the
    owner set no [on_warning]. *)
Definition is_warning (e : event) : bool := match e with Ev_warning _ => true | _ => false end.
Definition route_warnings {A} (m : SM A) : SM A := fun s =>
  let '(r, s', w) := m s in
  (r, s', if cb_warning (callbacks_ s.2) then w else List.filter (fun e => negb (is_warning e)) w).

Definition optional_seq (message : json) : outcome (option Z) :=
  match jfind "seq" message with
  | Some v => if is_number v then let! z := get_uint 32 v in Ret (Some z) else Ret None
  | None => Ret None
  end.

(** [if (message.contains("auth"))]: whether the message may be processed. *)
Definition authenticate (message : json) (type : string) : SM bool :=
  if contains "auth" message then
    let* c := cget in
    let* result := lift (verify (e_crypto env) message (auth_ c) C2s) in
    match result with
    | V_ok =>
        let* seq := lift (auth_seq message) in
        let* fresh := check_replay seq in
        if fresh then ret true
        else warn "dropping message: replay" type ;;; ret false
    | _ => warn ("dropping message: " +:+ verify_reason result) type ;;; ret false
    end
  else ret true.

(** The unsolicited reports, each delivered only when its callback is set. *)
Definition dispatch_report (type : string) (message : json) : SM unit :=
  let* c := cget in
  let cb := callbacks_ c in
  if String.eqb type "heartbeat" then
    if cb_heartbeat cb then
      let* uptime := lift (value (get_uint 32) "uptime_s" 0 message) in
      let* fw := lift (value_string "fw_version" message) in
      let* fault := lift (value get_bool "fault_active" false message) in
      let* t := on_snd now in
      emit (Ev_heartbeat {| hb_uptime_s := uptime; hb_firmware_version := fw;
                            hb_fault_active := fault; hb_received_at := t |})
    else ret tt
  else if String.eqb type "dp_report" then
    if cb_dp_report cb then
      let* seq := lift (optional_seq message) in
      let* dp := lift (value get_json "dp" (J_obj []) message) in
      emit (Ev_dp_report dp seq)
    else ret tt
  else if String.eqb type "device_alert" then
    if cb_device_alert cb then
      let* code := lift (value_string "code" message) in
      let* severity := lift (value_string "severity" message) in
      let* datapoint := lift (value_string "datapoint" message) in
      let* v := lift (optional_float message "value") in
      let* threshold := lift (optional_float message "threshold") in
      let* detail := lift (value_string "detail" message) in
      let* t := on_snd now in
      emit (Ev_device_alert {| da_code := code; da_severity := severity;
                               da_datapoint := datapoint; da_value := v;
                               da_threshold := threshold; da_detail := detail;
                               da_received_at := t |})
    else ret tt
  else if String.eqb type "ota_status" then
    if cb_ota_status cb then
      let* target := lift (value_string "target_version" message) in
      let* st := lift (value_string "state" message) in
      let* attempt := lift (value (get_int 32) "attempt" 0 message) in
      let* pct := lift (value (get_int 32) "progress_pct" 0 message) in
      let* err := lift (value_string "error" message) in
      let* detail := lift (value_string "error_detail" message) in
      emit (Ev_ota_status {| ota_target_version := target; ota_state := st;
                             ota_attempt := wrap_u 8 attempt;
                             ota_progress_pct := wrap_u 8 pct;
                             ota_error := err; ota_error_detail := detail |})
    else ret tt
  else if String.eqb type "error_report" then
    if cb_error_report cb then
      let* status := lift (value_string "status" message) in
      let* faults := lift (value get_json "active_faults" (J_arr []) message) in
      let* log := lift (value get_json "log" (J_arr []) message) in
      emit (Ev_error_report {| er_status := status; er_active_faults := faults; er_log := log |})
    else ret tt
  else
    match find_meta type with
    | None => when (cb_unknown cb) (emit (Ev_unknown type message))
    | Some _ => warn "unsolicited message without a pending request" type
    end.

Definition dispatch_running (message : json) : SM unit :=
  let* type := lift (value_string "type" message) in
  let* process := authenticate message type in
  if negb process then ret tt else
  let* consumed := route_warnings (on_message message) in
  if consumed then ret tt else
  dispatch_report type message.

Definition announce_ready : SM unit :=
  enter Running ;;;
  let* c := cget in
  when (cb_ready (callbacks_ c)) (emit (Ev_ready (info c))).

Definition handle_proof (message : json) : SM unit :=
  let* c := cget in
  let* result := lift (verify (e_crypto env) message (auth_ c) C2s) in
  match result with
  | V_ok =>
      let* seq := lift (auth_seq message) in
      let* fresh := check_replay seq in
      if negb fresh then
        abort (make_error Dom_Authentication ReplayDetected "session proof replayed")
          4004 "auth_failed"
      else
        let* t := on_snd now in
        smod (fun c => set_info (set_ci_established_at t (info c)) c) ;;;
        let* type := lift (value_string "type" message) in
        if String.eqb type kSessionProofMsg then
          answer_ota_check message ;;;
          announce_ready
        else
          announce_ready ;;;
          dispatch_running message
  | _ =>
      abort (make_error Dom_Authentication AuthRejected
               ("session proof failed: " +:+ verify_reason result)) 4004 "auth_failed"
  end.

Definition on_text (frame : string) : SM unit :=
  let message := e_parse env frame in
  let* c := cget in
  match message with
  | J_obj _ =>
      match state c with
      | AwaitHello => handle_hello message
      | AwaitProof => handle_proof message
      | Running => dispatch_running message
      | Closed => ret tt
      end
  | _ =>
      if bool_decide (state c = Running) then warn "invalid JSON discarded" EmptyString
      else
        abort (protocol_error MalformedMessage "peer sent something that is not a JSON object")
          4000 "invalid_json"
  end.
End Session.
#[export] Hint Resolve tame_oracle tame_build tame_sign_next tame_send_frame tame_send_message : fnt.
