(* ===== verification/SessionFacts.v ===== *)
(** * What the session guarantees

    The handshake as a state machine, authentication before processing,
    anti-replay, the accounting of handlers and of failures over whole
    connections, and what the device sees: the frames that leave before the
    session runs, and the signature of every control frame. *)
From S2P Require Import Prelude StdMap Errors Float Json Canonical Messages Auth Events Dispatcher.
From S2P Require Import DispatcherFacts Session.
Local Open Scope Z_scope.

Section Facts.
Context (env : senv).
#[local] Instance sender_here : Sender Core := session_sender env.
Abbreviation ST := (Dispatcher * Core)%type.

(** ** What the dispatcher leaves alone *)

(** Everything of the session but ids, sequence numbers and clock reads. *)
Record calm (c c' : Core) : Prop := {
  calm_callbacks : callbacks_ c' = callbacks_ c;
  calm_state : state c' = state c;
  calm_auth : auth_ c' = auth_ c;
  calm_replay : replay_ c' = replay_ c;
  calm_s2c : s2c_seq c <= s2c_seq c';
  calm_ids : msg_seq c <= msg_seq c';
  calm_info : info c' = info c;
  calm_deadline : handshake_deadline c' = handshake_deadline c;
  calm_failed : failed c' = failed c
}.
#[export] Instance calm_preorder : PreOrder calm.
Proof. split; [by split|]. intros ??? [] []. split; congruence || lia. Qed.

Lemma tame_calm c c' w : tame c c' w -> calm c c'.
Proof. intros []. split; congruence || lia. Qed.

Lemma calm_send spec : respects (fun c c' (_ : list event) => calm c c') (send_request spec).
Proof.
  intros c r c' w [[Ht _]|(_ & Ht & _)]%encode_and_send_tame; apply tame_calm in Ht; [done|].
  etransitivity; [|exact Ht]. split; cbn; done || lia.
Qed.

Abbreviation calmR := (fun (s s' : ST) (_ : list event) => calm s.2 s'.2).
Lemma calm_tick t : respects calmR (tick t).
Proof. exact (steps_tick calm calm_send t). Qed.
Lemma calm_submit spec h t : respects calmR (submit spec h t).
Proof. exact (steps_submit calm calm_send spec h t). Qed.
Lemma calm_on_message m : respects calmR (on_message m).
Proof. exact (steps_on_message calm m). Qed.
Lemma calm_fail_all e : respects calmR (fail_all e).
Proof. exact (steps_fail_all calm e). Qed.

(** ** Equations of the small steps *)

Lemma enter_eq next d c : exists d', enter next (d, c) = (Ret tt, (d', set_state next c), []) /\
  queue d' = queue d /\ pending d' = pending d /\
  d' = (if bool_decide (state c = next) then d
        else set_sending_enabled (bool_decide (next = Running)) d).
Proof.
  unfold enter, cget, smod, dmod. destruct (bool_decide (state c = next)) eqn:E.
  - exists d. apply bool_decide_eq_true in E. unfold bind, gets. cbn [snd]. rewrite E.
    rewrite bool_decide_true by done. unfold ret. split; [|done]. rewrite <- E.
    by destruct c.
  - eexists. unfold bind, gets, modify. cbn [fst snd app]. rewrite E. split; [reflexivity|].
    done.
Qed.

(** [abort] ends the connection: everything owed is answered with the error, and
    the owner and the transport are told once. *)
Definition abort_events (c : Core) (error : Error) (code : Z) (reason : string) : list event :=
  (if e_close env then [Ev_close code reason] else []) ++
  (if cb_failed (callbacks_ c) then [Ev_failed error] else []).
Definition answers (d : Dispatcher) (error : Error) : list event :=
  concat (map (fun kv => complete (p_handlers kv.2) (Err error)) (pending d)) ++
  concat (map (fun w => complete (w_handlers w) (Err error)) (queue d)).

Lemma abort_eq error code reason d c : failed c = false ->
  exists d', abort env error code reason (d, c) =
    (Ret tt, (d', set_state Closed (set_failed true c)),
     answers d error ++ abort_events c error code reason) /\
    queue d' = [] /\ pending d' = [] /\
    sending_enabled d' = (if bool_decide (state c = Closed) then sending_enabled d else false).
Proof.
  intros Hf. destruct (enter_eq Closed d (set_failed true c)) as (d1 & He & Hq & Hp & Hd1).
  destruct (fail_all_spec error d1 (set_state Closed (set_failed true c))) as (d2 & Hfa & Hq2 & Hp2 & _).
  exists d2. split.
  - unfold abort, cget, smod. rewrite run_gets. cbn [snd]. rewrite Hf, run_modify. cbn [fst snd].
    rewrite (run_bind_quiet _ _ _ _ _ He).
    eapply run_bind; [rewrite Hfa, Hq, Hp; reflexivity|]. unfold abort_events.
    eapply run_bind; [unfold when; destruct (e_close env); reflexivity|].
    rewrite run_gets. unfold when, emit, ret. cbn [snd callbacks_ set_state set_failed].
    by destruct (e_close env), (cb_failed (callbacks_ c)).
  - split; [done|]. split; [done|]. unfold fail_all, bind, dget, gets, dmod, modify, emits in Hfa.
    cbn in Hfa. injection Hfa as <-. subst d1. cbn. by destruct (bool_decide (state c = Closed)).
Qed.

Lemma abort_failed error code reason d c : failed c = true ->
  abort env error code reason (d, c) = (Ret tt, (d, c), []).
Proof. intros Hf. unfold abort, cget, bind, gets. cbn. by rewrite Hf. Qed.

Lemma abort_never_throws error code reason : respects (fun _ _ (w : list event) => True)
  (abort env error code reason).
Proof. by intros ? ? ? ? _. Qed.

(** A relation respected by [abort] in both cases. *)
Lemma abort_respects (R : ST -> ST -> list event -> Prop) `{!Composable R} error code reason :
  (forall d c d', failed c = false -> queue d' = [] -> pending d' = [] ->
     sending_enabled d' = (if bool_decide (state c = Closed) then sending_enabled d else false) ->
     R (d, c) (d', set_state Closed (set_failed true c))
       (answers d error ++ abort_events c error code reason)) ->
  respects R (abort env error code reason).
Proof.
  intros H [d c] r s' w Hm. destruct (failed c) eqn:Ef.
  - rewrite (abort_failed _ _ _ _ _ Ef) in Hm. injection Hm as <- <- <-. apply comp_refl.
  - destruct (abort_eq error code reason d c Ef) as (d' & He & Hq & Hp & Hs).
    rewrite He in Hm. injection Hm as <- <- <-. auto.
Qed.

(** ** Walking through the handlers *)

(** Relations that building and sending a frame is in. *)
Class FrameStep (R : ST -> ST -> list event -> Prop) : Prop :=
  frame_step : forall d c c' w, tame c c' w -> R (d, c) (d, c') w.

Lemma respects_tame {A} R `{!FrameStep R} (m : M Core event A) :
  respects tame m -> respects R (on_snd m).
Proof. intros H. apply respects_on_snd. intros d c r c' w Hm. by eapply frame_step, H. Qed.

Lemma tame_now : respects tame (now env).
Proof. apply tame_oracle. Qed.
Lemma tame_now_ms : respects tame (now_ms env).
Proof. apply tame_oracle. Qed.
#[local] Hint Resolve tame_now tame_now_ms : fnt.

Ltac sess_tac := unfold smod, cget; repeat first
  [ match goal with |- respects _ (on_snd _) =>
      apply respects_tame; [apply _|solve [eauto with fnt]] end
  | respects_step | progress simpl | solve [eauto with fnt] ].

(** ** The state machine *)

(** One step of the connection's life. *)
Inductive allowed : SessionState -> SessionState -> Prop :=
| al_stay s : allowed s s
| al_close s : allowed s Closed
| al_hello : allowed AwaitHello AwaitProof
| al_proof : allowed AwaitProof Running.

(** The state stays, or the session closes, or it becomes [next]. *)
Definition towards (next : SessionState) (s s' : ST) (_ : list event) : Prop :=
  state s'.2 = state s.2 \/ state s'.2 = Closed \/ state s'.2 = next.
#[local] Instance towards_composable next : Composable (towards next).
Proof. split; unfold towards; [auto|]. intuition congruence. Qed.
#[local] Instance towards_frame next : FrameStep (towards next).
Proof. intros d c c' w Ht. left. apply (tame_state _ _ _ Ht). Qed.

Lemma towards_keep next s s' w : state s'.2 = state s.2 -> towards next s s' w.
Proof. by left. Qed.

Lemma towards_abort next e code reason : respects (towards next) (abort env e code reason).
Proof. apply abort_respects; [apply _|]. intros. by right; left. Qed.

Lemma towards_enter next : respects (towards next) (enter next).
Proof.
  intros [d c] r s' w. destruct (enter_eq next d c) as (d' & -> & _). intros [= <- <- <-].
  by right; right.
Qed.

Lemma towards_warn next reason type : respects (towards next) (warn reason type).
Proof. unfold warn. sess_tac; by apply towards_keep. Qed.
#[local] Hint Resolve towards_abort towards_enter towards_warn : fnt.
#[local] Hint Extern 1 (towards _ _ _ _) => (apply towards_keep; reflexivity) : fnt.

Lemma towards_hello m : respects (towards AwaitProof) (handle_hello env m).
Proof. unfold handle_hello. sess_tac. Qed.

(** ** Processing in the running session *)

(** Answers to requests, reports and warnings. *)
Definition harmless (e : event) : bool :=
  match e with
  | Ev_send _ _ | Ev_close _ _ | Ev_ready _ | Ev_failed _ => false
  | _ => true
  end.

(** What processing one message in a running session can change. *)
Record steady (s s' : ST) (w : list event) : Prop := {
  st_callbacks : callbacks_ s'.2 = callbacks_ s.2;
  st_state : state s'.2 = state s.2;
  st_auth : auth_ s'.2 = auth_ s.2;
  st_replay : replay_ s.2 <= replay_ s'.2;
  st_s2c : s2c_seq s'.2 = s2c_seq s.2;
  st_ids : msg_seq s'.2 = msg_seq s.2;
  st_info : info s'.2 = info s.2;
  st_deadline : handshake_deadline s'.2 = handshake_deadline s.2;
  st_failed : failed s'.2 = failed s.2;
  st_events : Forall (fun e => harmless e = true) w
}.
#[local] Instance steady_composable : Composable steady.
Proof.
  split; [by split|]. intros s1 s2 s3 w1 w2 [] []. split; try congruence; [lia|]. by apply Forall_app.
Qed.

Lemma steady_same (s s' : ST) w : s'.2 = s.2 -> Forall (fun e => harmless e = true) w -> steady s s' w.
Proof. intros E Hw. split; rewrite ?E; done. Qed.

Lemma complete_harmless hs r : Forall (fun e => harmless e = true) (complete hs r).
Proof. induction hs as [|[h|] hs IH]; simpl; [constructor|by constructor|done]. Qed.

Ltac steady_leaf := apply steady_same; [reflexivity|first [by repeat constructor | apply complete_harmless]].

Lemma steady_on_message m : respects steady (on_message m).
Proof. unfold on_message, dget, dmod. respects_tac; steady_leaf. Qed.

Lemma steady_route {A} (m : M ST event A) : respects steady m -> respects steady (route_warnings m).
Proof.
  intros H s r s' w. unfold route_warnings. destruct (m s) as [[r1 s1] w1] eqn:E.
  intros [= <- <- <-]. destruct (H _ _ _ _ E). split; try done.
  destruct (cb_warning _); [done|]. rewrite Forall_elem in *. intros e He.
  apply list_elem_of_In, filter_In in He as [He _]. by apply st_events0, list_elem_of_In.
Qed.

Lemma steady_check_replay seq : respects steady (check_replay seq).
Proof.
  intros [d c] r s' w. unfold check_replay, cget, smod. rewrite run_gets. cbn [snd].
  unfold antireplay_check. destruct (Z.leb_spec seq (replay_ c)); rewrite run_modify;
    intros [= <- <- <-]; split; cbn; done || lia.
Qed.

Lemma steady_warn reason type : respects steady (warn reason type).
Proof. unfold warn. sess_tac; steady_leaf. Qed.
#[local] Hint Resolve steady_on_message steady_route steady_check_replay steady_warn : fnt.

Lemma steady_authenticate m type : respects steady (authenticate env m type).
Proof. unfold authenticate. sess_tac. Qed.

Lemma steady_now : respects steady (on_snd (now env)).
Proof. apply respects_on_snd. intros d c r c' w [= <- <- <-]. split; cbn; done. Qed.
#[local] Hint Resolve steady_authenticate steady_now : fnt.

Ltac run_tac := unfold smod, cget; repeat first
  [ match goal with |- respects _ (on_snd _) => solve [eauto with fnt] end
  | respects_step | progress simpl | solve [eauto with fnt] ].

Lemma steady_report type m : respects steady (dispatch_report env type m).
Proof. unfold dispatch_report. run_tac; steady_leaf. Qed.
#[local] Hint Resolve steady_report : fnt.

Lemma steady_running m : respects steady (dispatch_running env m).
Proof. unfold dispatch_running. run_tac. Qed.

Lemma steady_towards next s s' w : steady s s' w -> towards next s s' w.
Proof. intros []. by left. Qed.

Lemma towards_running next m : respects (towards next) (dispatch_running env m).
Proof. intros s r s' w H. by eapply steady_towards, steady_running. Qed.
Lemma towards_check next seq : respects (towards next) (check_replay seq).
Proof. intros s r s' w H. by eapply steady_towards, steady_check_replay. Qed.

Lemma towards_answer_ota next m : respects (towards next) (answer_ota_check env m).
Proof. unfold answer_ota_check. sess_tac. Qed.
#[local] Hint Resolve towards_running towards_check towards_answer_ota : fnt.

Lemma towards_ready : respects (towards Running) announce_ready.
Proof. unfold announce_ready. sess_tac. Qed.
#[local] Hint Resolve towards_ready : fnt.

Lemma towards_proof m : respects (towards Running) (handle_proof env m).
Proof. unfold handle_proof. sess_tac. Qed.

(** The frame is the proof the handshake asks for: it verifies under the keys and
    nonces of this connection and its sequence number is fresh. *)
Definition proves (c : Core) (m : json) : Prop :=
  verify (e_crypto env) m (auth_ c) C2s = Ret V_ok /\
  exists seq, auth_seq m = Ret seq /\ replay_ c < seq.

Lemma check_replay_run seq d c : check_replay seq (d, c) =
  if seq <=? replay_ c then (Ret false, (d, set_replay_ (replay_ c) c), [])
  else (Ret true, (d, set_replay_ seq c), []).
Proof.
  unfold check_replay, cget, smod. rewrite run_gets. cbn [snd]. unfold antireplay_check.
  destruct (seq <=? replay_ c); by rewrite run_modify.
Qed.

Lemma abort_closes e code reason d c r d' c' w :
  abort env e code reason (d, c) = (r, (d', c'), w) -> state c' = state c \/ state c' = Closed.
Proof. intros H. apply (towards_abort Closed) in H as [H|[H|H]]; auto. Qed.

Lemma handle_proof_running m d c r d' c' w : handle_proof env m (d, c) = (r, (d', c'), w) ->
  state c = AwaitProof -> state c' = Running -> proves c m.
Proof.
  intros H Hs Hr. unfold handle_proof, cget in H. rewrite run_gets, run_lift in H. cbn [snd] in H.
  unfold proves. destruct (verify _ m (auth_ c) C2s) as [[]|e]; try (apply abort_closes in H; intuition congruence).
  2: { injection H as _ _ <- _. congruence. }
  split; [done|]. rewrite run_lift in H.
  destruct (auth_seq m) as [seq|e]; [|injection H as _ _ <- _; congruence].
  exists seq. split; [done|]. destruct (Z.leb_spec seq (replay_ c)) as [Hle|Hlt]; [exfalso|lia].
  erewrite run_bind_quiet in H; [|rewrite check_replay_run].
  2: { replace (seq <=? replay_ c) with true by lia. reflexivity. }
  apply abort_closes in H. cbn [state set_replay_] in H. intuition congruence.
Qed.

(** ** Whole connections *)

Inductive sop :=
| So_open
| So_closed (e : Error)
| So_text (frame : string)
| So_tick (t : TimePoint)
| So_request (spec : RequestSpec) (h : handler)
| So_callbacks (cb : Callbacks)
| So_send (type : string) (body : json) (in_reply_to : string).

Definition run_sop (op : sop) : M ST event unit :=
  match op with
  | So_open => on_transport_open env
  | So_closed e => on_transport_closed e
  | So_text frame => on_text env frame
  | So_tick t => session_tick env t
  | So_request spec h => request env spec h
  | So_callbacks cb => set_callbacks cb
  | So_send type body irt => on_snd (send_message env type body irt) ;;; ret tt
  end.

Lemma send_step R `{!Composable R, !FrameStep R} type body irt :
  respects R (run_sop (So_send type body irt)).
Proof. cbn [run_sop]. respects_step; [apply (respects_tame R), tame_send_message|by respects_step]. Qed.

Lemma towards_text next frame d c r d' c' w :
  on_text env frame (d, c) = (r, (d', c'), w) ->
  next = match state c with AwaitHello => AwaitProof | AwaitProof => Running | s => s end ->
  state c' = state c \/ state c' = Closed \/ state c' = next.
Proof.
  intros H ->. unfold on_text, cget in H. rewrite run_gets in H. cbn [snd] in H.
  destruct (e_parse env frame) as [| | | | | | |m| |];
    try (destruct (bool_decide (state c = Running));
         [apply (towards_warn Closed) in H|apply (towards_abort Closed) in H];
         destruct H as [H|[H|H]]; by auto).
  destruct (state c) eqn:Es.
  - injection H as _ _ <- _. auto.
  - apply towards_hello in H as [H|H]; cbn in H; rewrite ?Es in H; auto.
  - apply towards_proof in H as [H|H]; cbn in H; rewrite ?Es in H; auto.
  - apply (towards_running Closed) in H as [H|[H|H]]; cbn in H; rewrite ?Es in H; auto.
Qed.

Lemma sop_step op d c r d' c' w : run_sop op (d, c) = (r, (d', c'), w) ->
  match op with
  | So_open => state c' = state c \/ state c' = AwaitHello
  | So_text _ => allowed (state c) (state c')
  | _ => state c' = state c \/ state c' = Closed
  end.
Proof.
  destruct op as [|e|frame|t|spec h|cb|type body irt]; simpl; intros H.
  - unfold on_transport_open in H. revert H.
    assert (respects (fun s s' (_ : list event) => state s'.2 = state s.2 \/ state s'.2 = AwaitHello)
      (on_transport_open env)) as Hr; [|by apply Hr].
    assert (Composable (fun (s s' : ST) (_ : list event) =>
      state s'.2 = state s.2 \/ state s'.2 = AwaitHello)) as HC by (split; [auto|intuition congruence]).
    assert (FrameStep (fun (s s' : ST) (_ : list event) =>
      state s'.2 = state s.2 \/ state s'.2 = AwaitHello)) as HF.
    { intros d0 c0 c1 w1 Ht. left. apply (tame_state _ _ _ Ht). }
    unfold on_transport_open. sess_tac; auto.
    intros [d0 c0] r0 s0 w0. destruct (enter_eq AwaitHello d0 c0) as (d1 & -> & _).
    intros [= <- <- <-]. by right.
  - unfold on_transport_closed in H.
    destruct (enter_eq Closed d c) as (d1 & He & _). rewrite (run_bind_quiet _ _ _ _ _ He) in H.
    destruct (fail_all_spec e d1 (set_state Closed c)) as (d2 & Hf & _). rewrite Hf in H.
    injection H as _ _ <- _. by right.
  - eapply towards_text in H; [|reflexivity].
    destruct (state c), (state c'); try constructor; intuition discriminate.
  - unfold session_tick, cget in H. rewrite run_gets in H. cbn [snd] in H.
    destruct (_ && _); [by apply abort_closes in H|].
    apply calm_tick in H. left. apply (calm_state _ _ H).
  - unfold request in H. assert (respects calmR (request env spec h)) as Hr.
    { apply respects_bind; [split; [reflexivity|intros; by etransitivity]| |intros t; apply calm_submit].
      apply respects_on_snd. intros d0 c0 r0 c1 w0 Ho. apply tame_now in Ho. by eapply tame_calm. }
    apply Hr in H. left. apply (calm_state _ _ H).
  - injection H as _ _ <- _. by left.
  - apply (send_step (towards Closed)) in H as [H|[H|H]]; auto.
Qed.

(** The session is the state machine of the protocol: whatever happens, and
    even when a handler is left by an exception, a call keeps the state, closes
    the session, or takes the one step that is next in the handshake; only the
    opening of the transport starts over, and only a received frame advances. *)
Theorem session_transitions op d c r d' c' w : run_sop op (d, c) = (r, (d', c'), w) ->
  match op with
  | So_open => state c' = state c \/ state c' = AwaitHello
  | So_text _ => allowed (state c) (state c')
  | _ => state c' = state c \/ state c' = Closed
  end.
Proof. apply sop_step. Qed.

(** The session reaches RUNNING, the only state that counts as connected,
    only out of AWAIT_PROOF and only on a frame that verifies under the key,
    key id and nonces of this connection and carries a fresh sequence number. *)
Theorem running_requires_proof op d c r d' c' w : run_sop op (d, c) = (r, (d', c'), w) ->
  state c <> Running -> state c' = Running ->
  state c = AwaitProof /\ exists frame, op = So_text frame /\ proves c (e_parse env frame).
Proof.
  intros H Hn Hr. pose proof (sop_step op d c r d' c' w H) as Ht.
  destruct op as [|e|frame|t|spec h|cb|type body irt]; try (exfalso; intuition congruence).
  assert (state c = AwaitProof) as Hs by (rewrite Hr in Ht; inversion Ht; congruence).
  split; [done|]. exists frame. split; [done|]. simpl in H. unfold on_text, cget in H.
  rewrite run_gets in H. cbn [snd] in H. rewrite Hs in H.
  destruct (e_parse env frame);
    first [by eapply handle_proof_running | apply abort_closes in H; intuition congruence].
Qed.

(** ** Accounting over a connection *)

(** The link between the dispatcher and the session: sending is on exactly when
    the session runs, and before that nothing can be open. *)
Definition sess_ok (s : ST) : Prop :=
  sending_enabled s.1 = bool_decide (state s.2 = Running) /\
  (state s.2 <> Running -> pending s.1 = []) /\ ids_ok s.

Definition balance (s s' : ST) (w : list event) : Prop := live s.1 ≡ₚ called w ++ live s'.1.

(** Steps of the handshake: nothing is open before or after. *)
Definition shake (s s' : ST) (w : list event) : Prop :=
  sess_ok s /\ pending s.1 = [] -> (sess_ok s' /\ pending s'.1 = []) /\ balance s s' w.
(** Steps of the running session. *)
Definition work (s s' : ST) (w : list event) : Prop :=
  sess_ok s -> (sess_ok s' /\ balance s s' w) /\ (pending s.1 = [] -> pending s'.1 = []).

Lemma balance_trans s1 s2 s3 w1 w2 : balance s1 s2 w1 -> balance s2 s3 w2 -> balance s1 s3 (w1 ++ w2).
Proof. unfold balance. intros H1 H2. by rewrite H1, H2, called_app, app_assoc. Qed.
Lemma balance_refl s : balance s s [].
Proof. unfold balance. reflexivity. Qed.
#[local] Hint Resolve balance_trans balance_refl : fnt.

#[local] Instance shake_composable : Composable shake.
Proof.
  split; [intros s H; split; [exact H|apply balance_refl]|].
  intros s1 s2 s3 w1 w2 H1 H2 H. destruct (H1 H) as [Hok B1]. destruct (H2 Hok) as [Hok' B2].
  split; [done|]. by eapply balance_trans.
Qed.
#[local] Instance work_composable : Composable work.
Proof.
  split; [intros s H; split; [split; [exact H|apply balance_refl]|done]|].
  intros s1 s2 s3 w1 w2 H1 H2 H. destruct (H1 H) as [[Hok B1] P1].
  destruct (H2 Hok) as [[Hok' B2] P2]. split; [split; [done|by eapply balance_trans]|auto].
Qed.

Lemma work_shake s s' w : work s s' w -> shake s s' w.
Proof. intros H [Hok Hp]. destruct (H Hok) as [[H1 H2] H3]. auto. Qed.

(** A step of the session's own members that keeps state and ids. *)
Lemma work_core d c c' w : state c' = state c -> msg_seq c <= msg_seq c' -> called w = [] ->
  work (d, c) (d, c') w.
Proof.
  intros Hs Hm Hw (H1 & H2 & H3 & H4). split; [|done]. split; [|unfold balance; by rewrite Hw].
  split; [by cbn in *; rewrite Hs|]. split; [cbn in *; by rewrite Hs|]. split; [done|].
  cbn in *. intros id Hid. destruct (H4 id Hid) as (k & Hk & ->). exists k. split; [lia|done].
Qed.

#[local] Instance work_frame : FrameStep work.
Proof.
  intros d c c' w Ht. apply work_core; [apply (tame_state _ _ _ Ht)|rewrite (tame_ids _ _ _ Ht); lia|].
  apply sends_not_called, (tame_events _ _ _ Ht).
Qed.
#[local] Instance shake_frame : FrameStep shake.
Proof. intros d c c' w Ht. by apply work_shake, frame_step. Qed.

Lemma nothing_pending_ok d c : pending d = [] -> ids_ok (d, c).
Proof.
  intros Hp. split; cbn; rewrite Hp; [apply msorted_nil|by intros id Hid%elem_of_nil].
Qed.

Lemma answers_called d e : called (answers d e) ≡ₚ live d.
Proof.
  unfold answers, live. rewrite called_app, omap_app.
  rewrite <- (map_map (fun kv => p_handlers kv.2) (fun hs => complete hs (Err e))).
  rewrite <- (map_map w_handlers (fun hs => complete hs (Err e))).
  rewrite !called_complete_all. apply Permutation_app_comm.
Qed.

(** [abort] and the loss of the transport settle every account. *)
Lemma work_abort e code reason : respects work (abort env e code reason).
Proof.
  apply abort_respects; [apply _|]. intros d c d' Hf Hq Hp Hs (H1 & H2 & H3).
  split; [|by intros _]. split.
  - split; [|split; [by intros _|by apply nothing_pending_ok]]. cbn [fst snd state set_state]. rewrite Hs.
    cbn [fst snd] in H1. rewrite H1. by destruct (state c).
  - unfold balance. cbn [fst]. rewrite called_app, answers_called.
    assert (called (abort_events c e code reason) = []) as ->.
    { unfold abort_events. by destruct (e_close env), (cb_failed (callbacks_ c)). }
    rewrite app_nil_r. unfold live at 3. rewrite Hq, Hp. simpl. by rewrite app_nil_r.
Qed.

Lemma shake_enter next : respects shake (enter next).
Proof.
  intros [d c] r s' w. destruct (enter_eq next d c) as (d' & -> & Hq & Hp & Hd).
  intros [= <- <- <-] [(H1 & H2 & H3) H4]. cbn [fst snd] in *. rewrite H4 in Hp. split; [split; [|done]|].
  - split; [|split; [by intros _|by apply nothing_pending_ok]]. cbn [fst snd state set_state].
    subst d'. destruct (bool_decide (state c = next)) eqn:Hc; [|done].
    apply bool_decide_eq_true in Hc. by rewrite <- Hc.
  - unfold balance, live. cbn [fst]. by rewrite Hq, Hp, H4.
Qed.

Lemma work_warn reason type : respects work (warn reason type).
Proof. unfold warn. sess_tac; by apply work_core. Qed.

Lemma work_check_replay seq : respects work (check_replay seq).
Proof.
  intros [d c] r s' w. rewrite check_replay_run.
  destruct (_ <=? _); intros [= <- <- <-]; by apply work_core.
Qed.
#[local] Hint Resolve work_abort shake_enter work_warn work_check_replay : fnt.

Lemma shake_of_work {A} (m : M ST event A) : respects work m -> respects shake m.
Proof. intros H s r s' w Hm. by eapply work_shake, H. Qed.

(** [on_message] only ever returns or leaves everything as it was. *)
Lemma on_message_throw m d (c : Core) e s' w : on_message m (d, c) = (Throw e, s', w) ->
  s' = (d, c) /\ w = [].
Proof.
  intros H. unfold on_message, dget, dmod in H. rewrite run_lift in H.
  destruct (value_string "in_reply_to" m) as [irt|]; [|by injection H as _ <- <-].
  destruct (str_empty irt); [discriminate|]. rewrite run_gets in H. cbn [fst] in H.
  destruct (mget irt (pending d)) as [p|].
  - rewrite run_lift in H. destruct (value_string "type" m) as [ty|]; [|by injection H as _ <- <-].
    exfalso. rewrite run_modify in H.
    destruct (find_meta (p_type p)) as [meta|]; [destruct (negb (accepts_response meta ty))|];
      rewrite ?run_modify in H;
      try match type of H with context [when ?b _] => destruct b end; discriminate.
  - destruct (warning d); [|discriminate]. rewrite run_assoc, run_lift in H.
    destruct (value_string "type" m) as [ty|]; [discriminate|]. by injection H as _ <- <-.
Qed.

Lemma work_on_message m : respects work (on_message m).
Proof.
  intros [d c] r [d' c'] w H (H1 & H2 & H3).
  pose proof (steady_on_message m _ _ _ _ H) as Hst.
  pose proof (sending_on_message m _ _ _ _ H) as Hse.
  pose proof (none_pending_on_message m _ _ _ _ H) as Hno.
  unfold keeps_sending in Hse. cbn [fst snd] in *. pose proof (st_state _ _ _ Hst) as Hs.
  assert (ids_ok (d', c') /\ balance (d, c) (d', c') w) as [Hi HB].
  { destruct r as [b|e].
    - by destruct (conserves_on_message m _ _ _ _ H H3).
    - apply on_message_throw in H as [[= -> ->] ->]. split; [done|apply balance_refl]. }
  split; [|done]. split; [|done]. split; [cbn in *; by rewrite Hse, H1, Hs|]. split; [|done].
  cbn in *. rewrite Hs. auto.
Qed.

Lemma called_no_warnings w : called (List.filter (fun e => negb (is_warning e)) w) = called w.
Proof.
  induction w as [|e w IH]; [done|]. destruct e; cbn [List.filter is_warning negb]; try done.
  cbn. f_equal. exact IH.
Qed.

Lemma work_route {A} (m : M ST event A) : respects work m -> respects work (route_warnings m).
Proof.
  intros H s r s' w. unfold route_warnings. destruct (m s) as [[r1 s1] w1] eqn:E.
  intros [= <- <- <-] Hok. destruct (H _ _ _ _ E Hok) as [[H1 H2] H3]. split; [|done]. split; [done|].
  unfold balance in *. rewrite H2. destruct (cb_warning _); [done|].
  by rewrite called_no_warnings.
Qed.
#[local] Hint Resolve work_on_message work_route : fnt.

Lemma work_authenticate m type : respects work (authenticate env m type).
Proof. unfold authenticate. sess_tac. Qed.
Lemma work_report type m : respects work (dispatch_report env type m).
Proof. unfold dispatch_report. sess_tac; by apply work_core. Qed.
#[local] Hint Resolve work_authenticate work_report : fnt.
Lemma work_running m : respects work (dispatch_running env m).
Proof. unfold dispatch_running. sess_tac. Qed.
#[local] Hint Resolve work_running shake_of_work : fnt.

Ltac work_leaf := first [apply work_shake; by apply work_core | by apply work_core].

Lemma shake_hello m : respects shake (handle_hello env m).
Proof. unfold handle_hello. sess_tac; work_leaf. Qed.
Lemma shake_answer_ota m : respects shake (answer_ota_check env m).
Proof. unfold answer_ota_check. sess_tac. Qed.
Lemma shake_ready : respects shake announce_ready.
Proof. unfold announce_ready. sess_tac; work_leaf. Qed.
#[local] Hint Resolve shake_hello shake_answer_ota shake_ready : fnt.
Lemma shake_proof m : respects shake (handle_proof env m).
Proof. unfold handle_proof. sess_tac; work_leaf. Qed.

(** Submitting [extra] and otherwise settling accounts. *)
Definition accounts (extra : list nat) (s s' : ST) (w : list event) : Prop :=
  sess_ok s -> sess_ok s' /\ extra ++ live s.1 ≡ₚ called w ++ live s'.1.

Lemma accounts_work s s' w : work s s' w -> accounts [] s s' w.
Proof. intros H Hok. by destruct (H Hok) as [[H1 H2] _]. Qed.
Lemma accounts_shake s s' w : state s.2 <> Running -> shake s s' w -> accounts [] s s' w.
Proof. intros Hs H Hok. destruct H as [[H1 _] H2]; [|done]. split; [done|]. by apply Hok. Qed.

Lemma accounts_text frame : respects (accounts []) (on_text env frame).
Proof.
  intros [d c] r s' w H. unfold on_text, cget in H. rewrite run_gets in H. cbn [snd] in H.
  assert (forall e code reason, abort env e code reason (d, c) = (r, s', w) ->
    accounts [] (d, c) s' w) as Hab by (intros; by eapply accounts_work, work_abort).
  assert (forall m, dispatch_running env m (d, c) = (r, s', w) -> accounts [] (d, c) s' w) as Hrun
    by (intros; by eapply accounts_work, work_running).
  destruct (e_parse env frame) as [| | | | | | |m| |];
    try (destruct (bool_decide (state c = Running));
         [by eapply accounts_work, work_warn|by eapply Hab]).
  destruct (state c) eqn:Es.
  - injection H as <- <- <-. apply accounts_work, work_core; done.
  - eapply accounts_shake; [cbn; congruence|]. by eapply shake_hello.
  - eapply accounts_shake; [cbn; congruence|]. by eapply shake_proof.
  - by eapply Hrun.
Qed.

(** A tick of the dispatcher inside the session. *)
Lemma accounts_dispatch extra d c m d' c' w (a : unit) :
  m (d, c) = (Ret a, (d', c'), w) ->
  conserves extra (d, c) (d', c') w -> calm c c' -> sending_enabled d' = sending_enabled d ->
  (sending_enabled d = false -> pending d = [] -> pending d' = []) ->
  accounts extra (d, c) (d', c') w.
Proof.
  intros Hm Hc Hcalm Hse Hno (H1 & H2 & H3). destruct (Hc H3) as [Hi HP].
  pose proof (calm_state _ _ Hcalm) as Hs. cbn [fst snd] in *.
  split; [|done]. split; [cbn in *; by rewrite Hse, H1, Hs|]. split; [|done].
  cbn. rewrite Hs. intros Hn. apply Hno; [|auto]. rewrite H1. by apply bool_decide_eq_false.
Qed.

Lemma tick_none_pending t d (c : Core) r d' c' w : tick t (d, c) = (r, (d', c'), w) ->
  sending_enabled d = false -> pending d = [] -> pending d' = [].
Proof.
  intros H Hs Hp. rewrite tick_disabled in H by done. destruct (expired t d) as [d1 w1] eqn:E.
  injection H as _ <- _ _. apply expired_facts in E as (_ & _ & E & _). auto.
Qed.

Lemma accounts_tick t : yields (accounts []) (tick t).
Proof.
  intros [d c] a [d' c'] w H. eapply accounts_dispatch; [exact H|by eapply conserves_tick| | |].
  - by apply calm_tick in H.
  - by apply sending_tick in H.
  - by eapply tick_none_pending.
Qed.

Lemma accounts_submit spec h t : yields (accounts (omap id [h])) (submit spec h t).
Proof.
  intros [d c] a [d' c'] w H. eapply accounts_dispatch; [exact H|by eapply conserves_submit| | |].
  - by apply calm_submit in H.
  - destruct (submit_cases spec h t d c) as [(d1 & E & Hs & _)|(d1 & E & Hs & _)]; rewrite E in H.
    + by injection H as _ <- _ _.
    + apply sending_tick in H. unfold keeps_sending in H. cbn in H. congruence.
  - destruct (submit_cases spec h t d c) as [(d1 & E & Hs & Hp)|(d1 & E & Hs & Hp)]; rewrite E in H.
    + injection H as _ <- _ _. congruence.
    + intros H1 H2. eapply tick_none_pending; [exact H|congruence..].
Qed.

Lemma accounts_refl s : accounts [] s s [].
Proof. intros H. split; [done|reflexivity]. Qed.
#[local] Instance accounts_composable : Composable (accounts []).
Proof.
  split; [apply accounts_refl|]. intros s1 s2 s3 w1 w2 H1 H2 H. destruct (H1 H) as [Hok B1].
  destruct (H2 Hok) as [Hok' B2]. split; [done|]. cbn [app] in *. by rewrite B1, B2, called_app, app_assoc.
Qed.

Definition sop_handlers (op : sop) : list nat :=
  match op with So_request _ h => option_list h | _ => [] end.

Lemma shake_open : respects shake (on_transport_open env).
Proof.
  unfold on_transport_open. sess_tac; try work_leaf.
  intros [(H1 & H2 & H3) H4]. split; [split; [|done]|unfold balance; reflexivity].
  split; [exact H1|]. split; [exact H2|]. by apply nothing_pending_ok.
Qed.

Lemma accounts_op op s s' w : run_sop op s = (Ret tt, s', w) ->
  (op = So_open -> state s.2 <> Running) -> accounts (sop_handlers op) s s' w.
Proof.
  intros H Hop. destruct s as [d c], op as [|e|frame|t|spec h|cb|type body irt]; simpl in *.
  - apply accounts_shake; [by apply Hop|]. by eapply shake_open.
  - unfold on_transport_closed in H. destruct (enter_eq Closed d c) as (d1 & He & Hq & Hp & Hd).
    rewrite (run_bind_quiet _ _ _ _ _ He) in H. intros (H1 & H2 & H3).
    destruct (conserves_fail_all e (d1, set_state Closed c) tt s' w H) as [Hi HP].
    { split; cbn; rewrite Hp; apply H3. }
    destruct (fail_all_spec e d1 (set_state Closed c)) as (d2 & Hf & Hq2 & Hp2 & _).
    rewrite H in Hf. injection Hf as ->. split.
    + split; [|split; [by intros _|done]]. cbn [fst snd state set_state] in *.
      apply sending_fail_all in H. unfold keeps_sending in H. cbn [fst] in H. rewrite H. subst d1.
      cbn in H1. destruct (bool_decide (state c = Closed)) eqn:Ec; [|done].
      apply bool_decide_eq_true in Ec. by rewrite H1, Ec.
    + cbn [app fst] in *. rewrite <- HP. unfold live. by rewrite Hq, Hp.
  - by eapply accounts_text.
  - unfold session_tick, cget in H. rewrite run_gets in H. cbn [snd] in H.
    destruct (_ && _); [by eapply accounts_work, work_abort|by eapply accounts_tick].
  - unfold request in H. apply bind_ret_inv in H as (t & s1 & w1 & w2 & Ht & H & ->).
    intros Hok. destruct (respects_tame work _ tame_now _ _ _ _ Ht Hok) as [[Hok1 HB] _].
    destruct (accounts_submit _ _ _ _ _ _ _ H Hok1) as [Hok2 HP]. split; [done|].
    unfold balance in HB. rewrite HB, called_app, <- app_assoc, <- HP.
    unfold on_snd in Ht. cbn in Ht. injection Ht as _ <- <-. done.
  - injection H as <- <-. apply accounts_work, work_core; done.
  - apply accounts_work. by apply (send_step work) in H.
Qed.

(** A sequence of calls on one session that all return; the transport opens only
    while the session is not running. *)
Inductive sess_runs : ST -> list nat -> ST -> list event -> Prop :=
| sruns_done s : sess_runs s [] s []
| sruns_op op s s1 s2 hs w1 w2 : run_sop op s = (Ret tt, s1, w1) ->
    (op = So_open -> state s.2 <> Running) -> sess_runs s1 hs s2 w2 ->
    sess_runs s (sop_handlers op ++ hs) s2 (w1 ++ w2).

Lemma accounts_runs s hs s' w : sess_runs s hs s' w -> accounts hs s s' w.
Proof.
  induction 1 as [s|op s s1 s2 hs w1 w2 H Ho Hr IH]; [apply accounts_refl|]. intros Hok.
  destruct (accounts_op _ _ _ _ H Ho Hok) as [Hok1 P1]. destruct (IH Hok1) as [Hok2 P2].
  split; [done|]. rewrite called_app, <- !app_assoc, <- P2.
  rewrite (app_assoc (called w1)), (Permutation_app_comm (called w1) hs), <- app_assoc, <- P1.
  solve_Permutation.
Qed.

Lemma sess_ok_new : sess_ok (new_session env).
Proof. split; [done|]. split; [done|]. by apply nothing_pending_ok. Qed.

(** C2: Over any life of a session, across handshakes, failures, reconnects and
    requests submitted in any state, the handlers handed to [request] are the
    handlers called plus the ones still held: each is called at most once and
    none is lost as long as the session object lives. *)
Theorem session_handlers_conserved hs s w : sess_runs (new_session env) hs s w ->
  hs ≡ₚ called w ++ live s.1.
Proof.
  intros H. destruct (accounts_runs _ _ _ _ H sess_ok_new) as [_ HP].
  cbn in HP. by rewrite app_nil_r in HP.
Qed.

(** ** What the device sees *)

(** The frames of the handshake: the text of a message of one of its types. *)
Definition handshake_types : list string := ["hello_ack"; "ota_none"; "ota_available"].
Definition handshake_frame (e : event) : Prop :=
  match e with
  | Ev_send m frame => (exists t, jfind "type" m = Some (J_str t) /\ t ∈ handshake_types) /\ dump env m = Ret frame
  | _ => True
  end.
Definition no_send (e : event) : Prop := match e with Ev_send _ _ => False | _ => True end.

Definition typed (type : string) (m : json) : Prop :=
  (exists o, m = J_obj o) /\ jfind "type" m = Some (J_str type).

Lemma build_typed type b msg_id irt : NoDup (keys b) -> mget "type" b = None ->
  results (typed type) (build env type (J_obj b) msg_id irt).
Proof.
  intros Hb Ht c m c' w H. unfold build in H.
  apply bind_ret_inv in H as (ts & c1 & w1 & w2 & _ & H & _).
  apply bind_ret_inv in H as (again & c2 & w3 & w4 & _ & H & _).
  injection H as H _ _. split.
  - unfold build_message in H. destruct (find_meta type); [|discriminate]. injection H as <-. eauto.
  - destruct (build_message_lookup again type b msg_id irt ts m "type" H Hb) as (meta & _ & ->).
    by rewrite Ht.
Qed.

Lemma sign_next_typed type m : typed type m -> results (typed type) (sign_next env m).
Proof.
  intros [[o ->] Ht] c m' c' w H. unfold sign_next, cmod in H. rewrite run_modify, run_get in H.
  injection H as H _ _. apply sign_obj in H as (raw & _ & ->). split; [eexists; reflexivity|].
  by rewrite jfind_jset_ne.
Qed.

Abbreviation eventsR P := (fun (_ _ : Core) (w : list event) => Forall P w).
Lemma tame_only_sends {A} (m : M Core event A) (P : event -> Prop) :
  respects tame m -> (forall e, is_send e = true -> P e) -> respects (eventsR P) m.
Proof.
  intros H HP s r s' w Hm. eapply Forall_impl; [|exact (tame_events _ _ _ (H _ _ _ _ Hm))].
  done.
Qed.

Lemma silent {A} (m : M Core event A) P : respects (fun _ _ w => w = []) m -> respects (eventsR P) m.
Proof. intros H s r s' w Hm. by rewrite (H _ _ _ _ Hm). Qed.

#[local] Instance silent_composable {S} : Composable (fun (_ _ : S) (w : list event) => w = []).
Proof. split; [done|]. by intros ????? -> ->. Qed.

Lemma silent_oracle {A} (f : nat -> A) : respects (fun _ _ w => w = []) (oracle f).
Proof. unfold oracle, cmod. by respects_tac. Qed.
#[local] Hint Resolve silent_oracle : fnt.
Lemma silent_build type b msg_id irt : respects (fun _ _ w => w = []) (build env type b msg_id irt).
Proof. unfold build, now_ms. respects_tac. Qed.
Lemma silent_sign_next m : respects (fun _ _ w => w = []) (sign_next env m).
Proof. unfold sign_next, cmod. by respects_tac. Qed.

Lemma send_message_frame type b irt : NoDup (keys b) -> mget "type" b = None ->
  type ∈ handshake_types ->
  respects (eventsR handshake_frame) (send_message env type (J_obj b) irt).
Proof.
  intros Hb Ht Hin. unfold send_message.
  apply respects_bind_results with (typed type); [apply _|apply silent, silent_build|by apply build_typed|].
  intros m Hm. apply respects_bind_results with (typed type); [apply _|..].
  - destruct (find_meta type) as [meta|]; [destruct (is_control meta)|];
      first [apply silent, silent_sign_next | apply respects_ret, _].
  - destruct (find_meta type) as [meta|]; [destruct (is_control meta)|];
      first [by apply sign_next_typed | by intros ? ? ? ? [= <- _ _]].
  - intros m' [_ Hm']. unfold transmit. destruct (e_send env) as [send|] eqn:Es; [|apply respects_ret, _].
    apply respects_bind_results with (fun frame => dump env m' = Ret frame);
      [apply _|apply respects_lift, _|by intros ? ? ? ? [= ? _ _]|].
    intros frame Hf. unfold send_frame, now, cmod. rewrite Es.
    respects_tac; first [apply silent, silent_oracle | constructor; [|constructor]; split; [by exists type|done]
                        | constructor].
Qed.

Abbreviation sessR P := (fun (_ _ : ST) (w : list event) => Forall P w).

Lemma steady_frames {A} (m : M ST event A) : respects steady m -> respects (sessR handshake_frame) m.
Proof.
  intros H s r s' w Hm. eapply Forall_impl; [|exact (st_events _ _ _ (H _ _ _ _ Hm))].
  by intros [].
Qed.

Lemma calls_frames w : Forall (fun e => is_call e = true) w -> Forall handshake_frame w.
Proof. apply Forall_impl. by intros []. Qed.

Lemma answers_calls d e : Forall (fun e => is_call e = true) (answers d e).
Proof.
  unfold answers. apply Forall_app.
  split; (apply Forall_concat, Forall_map, Forall_elem; intros x _; apply complete_calls).
Qed.

Lemma abort_frames e code reason : respects (sessR handshake_frame) (abort env e code reason).
Proof.
  apply abort_respects; [apply _|]. intros d c d' _ _ _ _. apply Forall_app.
  split; [apply calls_frames, answers_calls|]. unfold abort_events.
  destruct (e_close env), (cb_failed (callbacks_ c)); by repeat constructor.
Qed.

Lemma enter_frames next : respects (sessR handshake_frame) (enter next).
Proof.
  intros [d c] r s' w. destruct (enter_eq next d c) as (d' & -> & _). by intros [= _ _ <-].
Qed.

Lemma on_snd_frames {A} (m : M Core event A) :
  respects (eventsR handshake_frame) m -> respects (sessR handshake_frame) (on_snd m).
Proof. intros H. apply respects_on_snd. auto. Qed.

Lemma warn_frames reason type : respects (sessR handshake_frame) (warn reason type).
Proof. apply steady_frames, steady_warn. Qed.
Lemma running_frames m : respects (sessR handshake_frame) (dispatch_running env m).
Proof. apply steady_frames, steady_running. Qed.
Lemma check_frames seq : respects (sessR handshake_frame) (check_replay seq).
Proof. apply steady_frames, steady_check_replay. Qed.
Lemma now_frames : respects (sessR handshake_frame) (on_snd (now env)).
Proof. apply on_snd_frames, silent, silent_oracle. Qed.
Lemma now_ms_frames : respects (sessR handshake_frame) (on_snd (now_ms env)).
Proof. apply on_snd_frames, silent, silent_oracle. Qed.
#[local] Hint Resolve abort_frames enter_frames warn_frames running_frames check_frames now_frames
  now_ms_frames : fnt.

Ltac frame_leaf := first
  [ apply on_snd_frames, send_message_frame;
      [apply msorted_NoDup, msorted_mof || constructor|reflexivity|unfold handshake_types; set_solver]
  | by repeat constructor | done ].

Lemma hello_frames m : respects (sessR handshake_frame) (handle_hello env m).
Proof. unfold handle_hello. run_tac; frame_leaf. Qed.

Lemma answer_frames m : respects (sessR handshake_frame) (answer_ota_check env m).
Proof. unfold answer_ota_check. run_tac; frame_leaf. Qed.
#[local] Hint Resolve answer_frames : fnt.

Lemma ready_frames : respects (sessR handshake_frame) announce_ready.
Proof. unfold announce_ready. run_tac; frame_leaf. Qed.
#[local] Hint Resolve ready_frames : fnt.

Lemma proof_frames m : respects (sessR handshake_frame) (handle_proof env m).
Proof. unfold handle_proof. run_tac; frame_leaf. Qed.

Lemma text_frames frame : respects (sessR handshake_frame) (on_text env frame).
Proof.
  unfold on_text. pose proof hello_frames. pose proof proof_frames. run_tac; frame_leaf.
Qed.

Lemma open_frames : respects (sessR handshake_frame) (on_transport_open env).
Proof.
  unfold on_transport_open. run_tac; first [apply on_snd_frames, silent, silent_oracle | frame_leaf].
Qed.

Lemma tick_off_frames t d c r s' w : sending_enabled d = false ->
  tick t (d, c) = (r, s', w) -> Forall handshake_frame w.
Proof.
  intros Hs H. rewrite tick_disabled in H by done. destruct (expired t d) as [d1 w1] eqn:E.
  injection H as _ _ <-. apply expired_facts in E as (_ & _ & _ & E). by apply calls_frames.
Qed.

(** Every call but the message without a response. *)
Definition gated (op : sop) : Prop := match op with So_send _ _ _ => False | _ => True end.

Lemma reachable_ok hs s w : sess_runs (new_session env) hs s w -> sess_ok s.
Proof. intros H. by destruct (accounts_runs _ _ _ _ H sess_ok_new). Qed.

Lemma gated_frames d c op r s' w : sess_ok (d, c) -> state c <> Running -> gated op ->
  run_sop op (d, c) = (r, s', w) -> Forall handshake_frame w.
Proof.
  intros (H1 & _) Hn Hg H.
  assert (sending_enabled d = false) as Hs
    by (cbn in H1; rewrite H1; by apply bool_decide_eq_false).
  destruct op as [|e|frame|t|spec h|cb|type body irt]; simpl in H.
  - by eapply open_frames.
  - unfold on_transport_closed in H. destruct (enter_eq Closed d c) as (d1 & He & _).
    rewrite (run_bind_quiet _ _ _ _ _ He) in H.
    destruct (fail_all_spec e d1 (set_state Closed c)) as (d2 & Hf & _). rewrite Hf in H.
    injection H as _ _ <-. apply (calls_frames _ (answers_calls d1 e)).
  - by eapply text_frames.
  - unfold session_tick, cget in H. rewrite run_gets in H.
    destruct (_ && _); [by eapply abort_frames|by eapply tick_off_frames].
  - unfold request, on_snd in H.
    assert (exists c1, now env c = (Ret (e_now env (reads c)), c1, [])) as [c1 Hc1] by (by eexists).
    erewrite run_bind_quiet in H by (cbn [fst snd]; rewrite Hc1; reflexivity). cbn [fst] in H.
    destruct (submit_cases (HX := session_sender env) spec h (e_now env (reads c)) d c1)
      as [(d1 & E & Hs1 & _)|(d1 & E & Hs1 & _)]; rewrite E in H.
    + by injection H as _ _ <-.
    + eapply tick_off_frames; [|exact H]. congruence.
  - injection H as _ _ <-. constructor.
  - by destruct Hg.
Qed.

(** Until the device has proven itself nothing but the handshake leaves: at
    every reachable point that is not RUNNING, every call but the application's
    own [send_message], whatever its outcome, sends only [hello_ack], [ota_none]
    and [ota_available] frames; requests submitted early wait. *)
Theorem only_handshake_before_running hs d c w0 op r s' w :
  sess_runs (new_session env) hs (d, c) w0 -> state c <> Running -> gated op ->
  run_sop op (d, c) = (r, s', w) -> Forall handshake_frame w.
Proof. intros Hreach. by apply gated_frames, (reachable_ok _ _ _ Hreach). Qed.

(** ** Failing once *)

Definition is_failed (e : event) : bool := match e with Ev_failed _ => true | _ => false end.
Definition is_close (e : event) : bool := match e with Ev_close _ _ => true | _ => false end.
Definition count (P : event -> bool) (w : list event) : nat := length (List.filter P w).

Lemma count_app P w1 w2 : count P (w1 ++ w2) = (count P w1 + count P w2)%nat.
Proof. unfold count. by rewrite List.filter_app, length_app. Qed.
Lemma count_none P w : Forall (fun e => P e = false) w -> count P w = 0%nat.
Proof. induction 1 as [|e w He _ IH]; [done|]. unfold count in *. simpl. by rewrite He. Qed.

(** The failure notices plus the flag never exceed one. *)
Definition once (P : event -> bool) (s s' : ST) (w : list event) : Prop :=
  (count P w + Nat.b2n (failed s.2) <= Nat.b2n (failed s'.2))%nat.

#[local] Instance once_composable P : Composable (once P).
Proof.
  split; unfold once; [done|]. intros s1 s2 s3 w1 w2 H1 H2. rewrite count_app. lia.
Qed.

Definition notice (P : event -> bool) : Prop := P = is_failed \/ P = is_close.

Lemma once_quiet P (s s' : ST) w : notice P -> failed s'.2 = failed s.2 ->
  Forall (fun e => is_failed e = false /\ is_close e = false) w -> once P s s' w.
Proof.
  intros HP Hf Hw. unfold once. rewrite Hf, count_none; [done|].
  eapply Forall_impl; [|exact Hw]. intros e [H1 H2]. by destruct HP as [-> | ->].
Qed.

Lemma once_abort P e code reason : notice P -> respects (once P) (abort env e code reason).
Proof.
  intros HP. apply abort_respects; [apply _|]. intros d c d' Hf _ _ _. unfold once.
  cbn [snd failed set_state set_failed]. rewrite Hf, count_app.
  rewrite (count_none P (answers d e)).
  - unfold abort_events. destruct HP as [-> | ->], (e_close env), (cb_failed (callbacks_ c)); cbn; lia.
  - eapply Forall_impl; [|apply answers_calls]. destruct HP as [-> | ->]; by intros [].
Qed.

Section Once.
Context (P : event -> bool) (HP : notice P).

#[local] Instance once_frame : FrameStep (once P).
Proof.
  intros d c c' w Ht. apply once_quiet; [done|apply (tame_failed _ _ _ Ht)|].
  eapply Forall_impl; [|exact (tame_events _ _ _ Ht)]. by intros [].
Qed.

Lemma once_steady {A} (m : M ST event A) : respects steady m -> respects (once P) m.
Proof.
  intros H s r s' w Hm. destruct (H _ _ _ _ Hm). apply once_quiet; [done..|].
  eapply Forall_impl; [|done]. by intros [].
Qed.

Lemma once_enter next : respects (once P) (enter next).
Proof.
  intros [d c] r s' w. destruct (enter_eq next d c) as (d' & -> & _). intros [= _ <- <-].
  by apply once_quiet.
Qed.
Lemma once_warn reason type : respects (once P) (warn reason type).
Proof. apply once_steady, steady_warn. Qed.
Lemma once_check seq : respects (once P) (check_replay seq).
Proof. apply once_steady, steady_check_replay. Qed.
Lemma once_running m : respects (once P) (dispatch_running env m).
Proof. apply once_steady, steady_running. Qed.
#[local] Hint Resolve once_enter once_warn once_check once_running : fnt.
#[local] Hint Extern 2 (respects (once _) (abort _ _ _ _)) => (by apply once_abort) : fnt.

Ltac once_leaf := apply once_quiet; [done|done|by repeat constructor].

Lemma once_text frame : respects (once P) (on_text env frame).
Proof.
  assert (forall m, respects (once P) (handle_hello env m)) by (intros; unfold handle_hello; sess_tac; once_leaf).
  assert (respects (once P) announce_ready) by (unfold announce_ready; sess_tac; once_leaf).
  assert (forall m, respects (once P) (answer_ota_check env m)) by (intros; unfold answer_ota_check; sess_tac).
  assert (forall m, respects (once P) (handle_proof env m)) by (intros; unfold handle_proof; sess_tac; once_leaf).
  unfold on_text. sess_tac.
Qed.

Definition no_notice (e : event) : Prop := is_failed e = false /\ is_close e = false.

Lemma no_notice_send spec :
  respects (fun (_ _ : Core) (w : list event) => Forall no_notice w) (send_request spec).
Proof.
  intros c r c' w H. assert (Forall (fun e => is_send e = true) w) as Hw.
  { apply encode_and_send_tame in H as [[Ht _]|(_ & Ht & _)]; apply (tame_events _ _ _ Ht). }
  eapply Forall_impl; [|exact Hw]. by intros [].
Qed.

Lemma once_calm (s s' : ST) w : calm s.2 s'.2 -> Forall no_notice w -> once P s s' w.
Proof. intros Hc Hw. apply once_quiet; [done|apply (calm_failed _ _ Hc)|done]. Qed.

Lemma once_op op : op <> So_open -> respects (once P) (run_sop op).
Proof.
  intros Hop. destruct op as [|e|frame|t|spec h|cb|type body irt]; simpl; [done|..].
  - unfold on_transport_closed. apply respects_bind; [apply _|apply once_enter|]. intros _ [d c] r s' w.
    destruct (fail_all_spec e d c) as (d' & -> & _). intros [= _ <- <-].
    apply once_quiet; [done|done|]. eapply Forall_impl; [|exact (answers_calls d e)]. by intros [].
  - apply once_text.
  - unfold session_tick. sess_tac.
    intros s r s' w H. apply once_calm; [by apply calm_tick in H|].
    by apply (events_tick no_notice ltac:(done) no_notice_send) in H.
  - unfold request. sess_tac. intros s r s' w H. apply once_calm; [by apply calm_submit in H|].
    by apply (events_submit no_notice ltac:(done) no_notice_send) in H.
  - intros [d c] r s' w [= _ <- <-]. by apply once_quiet.
  - apply (send_step (once P)).
Qed.

Lemma once_ops ops : Forall (fun op => op <> So_open) ops -> respects (once P) (forM ops run_sop).
Proof.
  induction 1 as [|op ops Hop _ IH]; [apply respects_ret, _|]. simpl.
  apply respects_bind; [apply _|by apply once_op|done].
Qed.
End Once.

(** A connection fails at most once: over any calls between two openings of
    the transport, returning or not, the owner gets at most one [on_failed] and
    the transport at most one request to close. *)
Theorem fails_at_most_once ops s r s' w : Forall (fun op => op <> So_open) ops ->
  forM ops run_sop s = (r, s', w) -> (count is_failed w <= 1)%nat /\ (count is_close w <= 1)%nat.
Proof.
  intros Hops H.
  pose proof (once_ops is_failed (or_introl eq_refl) ops Hops _ _ _ _ H) as H1.
  pose proof (once_ops is_close (or_intror eq_refl) ops Hops _ _ _ _ H) as H2.
  unfold once in *. destruct (failed s.2), (failed s'.2); cbn in *; lia.
Qed.

(** C34: The handshake has a deadline: a tick at or past it, in a session that is
    still shaking hands, closes the session, answers every waiting request with
    the handshake error and tells the transport (code 4000) and the owner. *)
Theorem handshake_deadline_enforced t d c : state c = AwaitHello \/ state c = AwaitProof ->
  failed c = false -> handshake_deadline c <= t ->
  let e := make_error Dom_Protocol HandshakeFailed "no Fountain handshake within the deadline" in
  exists d', session_tick env t (d, c) =
    (Ret tt, (d', set_state Closed (set_failed true c)),
     answers d e ++ abort_events c e 4000 "handshake_timeout") /\
    queue d' = [] /\ pending d' = [] /\ sending_enabled d' = false.
Proof.
  intros Hs Hf Ht e. destruct (abort_eq e 4000 "handshake_timeout" d c Hf) as (d' & He & Hq & Hp & Hse).
  exists d'. unfold session_tick, cget. rewrite run_gets. cbn [snd].
  replace (handshake_deadline c <=? t) with true by lia.
  split; [destruct Hs as [Hs|Hs]; rewrite Hs; exact He|]. split; [done|]. split; [done|].
  rewrite Hse. by destruct Hs as [Hs|Hs]; rewrite Hs.
Qed.
End Facts.
