(* ===== verification/SessionFrames.v ===== *)
(** * Single frames of a session

    What one control frame looks like to the device, what one received frame can
    do, how the handshake chooses device and key, the server nonce, and two
    places where the code departs from its intent. *)
From S2P Require Import Prelude StdMap Errors Float Json Canonical Messages Auth Events Dispatcher.
From S2P Require Import DispatcherFacts Session SessionFacts.
Local Open Scope Z_scope.

Section Frames.
Context (env : senv).
#[local] Instance sender_frames : Sender Core := session_sender env.
Abbreviation ST := (Dispatcher * Core)%type.

(** ** Sending a request *)

Lemma build_obj type b msg_id irt : results (fun m => exists o, m = J_obj o) (build env type b msg_id irt).
Proof.
  intros c m c' w H. unfold build in H.
  apply bind_ret_inv in H as (ts & c1 & w1 & w2 & _ & H & _).
  apply bind_ret_inv in H as (again & c2 & w3 & w4 & _ & H & _).
  injection H as H _ _. unfold build_message in H.
  destruct (find_meta type); [|discriminate]. injection H as <-. eauto.
Qed.

Lemma send_frame_true m enc c c' w : send_frame env m enc c = (Ret true, c', w) -> w = [Ev_send m enc].
Proof.
  unfold send_frame, oracle, cmod. destruct (e_send env) as [send|]; [|discriminate].
  rewrite run_assoc, run_gets, run_assoc, run_modify, run_ret.
  destruct (send (reads c) enc); cbn [negb]; [|discriminate].
  intros (? & ? & ? & ? & Hd & H & ->)%bind_ret_inv. injection Hd as _ <- <-.
  unfold now, oracle, cmod in H. rewrite run_assoc, run_gets, run_assoc, run_modify, run_ret, run_modify in H.
  by injection H as _ <-.
Qed.

Definition same_s2c (c c' : Core) : Prop := s2c_seq c' = s2c_seq c.
#[local] Instance same_s2c_preorder : PreOrder same_s2c.
Proof. split; [done|]. unfold same_s2c. intros ???. congruence. Qed.
Abbreviation s2cR := (fun (c c' : Core) (_ : list event) => same_s2c c c').
Lemma s2c_oracle {A} (f : nat -> A) : respects s2cR (oracle f).
Proof. unfold oracle, cmod. by respects_tac. Qed.
#[local] Hint Resolve s2c_oracle : fnt.
Lemma s2c_build type b msg_id irt : respects s2cR (build env type b msg_id irt).
Proof. unfold build, now_ms. respects_tac. Qed.
Lemma s2c_send_frame m enc : respects s2cR (send_frame env m enc).
Proof. unfold send_frame, now, cmod. by respects_tac. Qed.

Definition seq_in_range (z : Z) : Prop := - 2 ^ 63 <= z < 2 ^ 63.

(** C31: A request the session accepts leaves as exactly one frame of at most
    4096 bytes; if its type is a control type, the device's check under the
    session's key accepts it, and it carries the next sequence number. *)
Theorem control_frame_verifies spec c id c' w meta :
  encode_and_send env spec c = (Ret (Ok id), c', w) -> find_meta (rs_type spec) = Some meta ->
  exists m frame, w = [Ev_send m frame] /\ e_dump env m = Some frame /\
    size frame <= kMaxControlFrameBytes /\
    (is_control meta = true -> seq_in_range (s2c_seq c + 1) ->
     verify (e_crypto env) m (auth_ c) S2c = Ret V_ok /\
     auth_seq m = Ret (s2c_seq c + 1) /\ s2c_seq c' = s2c_seq c + 1).
Proof.
  intros H Hm. unfold encode_and_send in H. rewrite run_get in H.
  destruct (bool_decide _); cbn [negb] in H; [|discriminate]. rewrite Hm in H.
  apply bind_ret_inv in H as (mid & c1 & w1 & w2 & H1 & H & ->). injection H1 as _ <- <-.
  apply bind_ret_inv in H as (m0 & c2 & w3 & w4 & H1 & H & ->).
  pose proof (build_obj _ _ _ _ _ _ _ _ H1) as [o ->].
  pose proof (silent_build env _ _ _ _ _ _ _ _ H1) as ->.
  pose proof (s2c_build _ _ _ _ _ _ _ _ H1) as Hn1. apply tame_build in H1.
  pose proof (tame_auth _ _ _ H1) as Ha. unfold same_s2c in Hn1. cbn in Ha, Hn1.
  apply bind_ret_inv in H as (m & c3 & w5 & w6 & H2 & H & ->).
  assert (w5 = []) as ->.
  { destruct (is_control meta); [by apply (silent_sign_next env) in H2|by injection H2 as _ _ <-]. }
  apply bind_ret_inv in H as (enc & c4 & w7 & w8 & H3 & H & ->). injection H3 as H3 <- <-.
  unfold dump in H3. destruct (e_dump env m) as [frame|] eqn:Ed; [|discriminate]. injection H3 as ->.
  destruct (Z.ltb_spec kMaxControlFrameBytes (size enc)) as [|Hsz]; [discriminate|].
  apply bind_ret_inv in H as (ok & c5 & w9 & w10 & H4 & H & ->). destruct ok; [|discriminate].
  injection H as _ <- <-. pose proof (send_frame_true _ _ _ _ _ H4) as ->.
  pose proof (s2c_send_frame _ _ _ _ _ _ H4) as Hn4. unfold same_s2c in Hn4.
  exists m, enc. split; [by rewrite app_nil_r|]. split; [done|]. split; [lia|]. intros Hc Hr.
  rewrite Hc in H2. unfold sign_next, cmod in H2. rewrite run_modify, run_get in H2.
  injection H2 as Hsign <-. cbn [auth_ s2c_seq set_s2c_seq] in *. rewrite Ha, Hn1 in *.
  split; [by eapply sign_verifies|]. apply sign_obj in Hsign as (raw & _ & ->).
  split; [|done]. unfold auth_seq. rewrite jfind_jset_eq. unfold value.
  match goal with |- match ?g with _ => _ end = _ =>
    change g with (Some (J_int (s2c_seq c + 1))) end.
  cbn [get_int64]. by rewrite wrap_s64_id.
Qed.

(** ** Receiving *)

(** A running session survives every frame: it stays running under the same
    keys, its anti-replay floor only rises, and nothing is sent, closed or
    reported as failed; the frame can only answer requests, be reported or be
    warned about. *)
Theorem running_survives frame d c r d' c' w : state c = Running ->
  on_text env frame (d, c) = (r, (d', c'), w) ->
  state c' = Running /\ auth_ c' = auth_ c /\ failed c' = failed c /\ replay_ c <= replay_ c' /\
  Forall (fun e => harmless e = true) w.
Proof.
  intros Hs H. assert (steady (d, c) (d', c') w) as [].
  { unfold on_text, cget in H. rewrite run_gets in H. cbn [snd] in H. rewrite Hs in H.
    destruct (e_parse env frame); try rewrite bool_decide_true in H by done;
      first [by eapply steady_running|by eapply steady_warn]. }
  cbn in *. rewrite <- Hs. auto.
Qed.

Lemma authenticate_cases m type d c r s' w : authenticate env m type (d, c) = (r, s', w) ->
  contains "auth" m = true ->
  (proves env c m /\ r = Ret true /\ w = []) \/
  ((r = Ret false \/ exists e, r = Throw e) /\ Forall (fun e => is_warning e = true) w).
Proof.
  intros H Hc. unfold authenticate, cget in H. rewrite Hc, run_gets, run_lift in H. cbn [snd] in H.
  assert (forall reason (s : ST), bind (warn reason type) (fun _ => ret false) s = (r, s', w) ->
    (r = Ret false \/ exists e, r = Throw e) /\ Forall (fun e => is_warning e = true) w) as Hw.
  { intros reason s Hb. unfold warn, cget, bind, gets, when, emit, ret in Hb.
    destruct (cb_warning _); injection Hb as <- _ <-; (split; [by left|by repeat constructor]). }
  destruct (verify _ m (auth_ c) C2s) as [[]|e] eqn:Ev; try (right; by eapply Hw).
  2: { injection H as <- _ <-. right. split; [by right; eexists|constructor]. }
  rewrite run_lift in H. destruct (auth_seq m) as [seq|e] eqn:Eq.
  2: { injection H as <- _ <-. right. split; [by right; eexists|constructor]. }
  destruct (Z.leb_spec seq (replay_ c)) as [Hle|Hlt].
  - erewrite run_bind_quiet in H.
    2: { rewrite check_replay_run. replace (seq <=? replay_ c) with true by lia. reflexivity. }
    right. exact (Hw _ _ H).
  - erewrite run_bind_quiet in H.
    2: { rewrite check_replay_run. replace (seq <=? replay_ c) with false by lia. reflexivity. }
    injection H as <- _ <-. left. split; [|done]. split; [done|]. eauto.
Qed.

(** C32: In a running session a frame that claims authentication has an effect
    only if it deserves it: when a frame carries [auth] and anything but a warning
    comes of it (an answer to a request, a report), it verifies under the
    connection's key and nonces and its sequence number is above every one
    accepted before. *)
Theorem authenticated_effects frame d c r s' w e : state c = Running ->
  contains "auth" (e_parse env frame) = true ->
  on_text env frame (d, c) = (r, s', w) -> e ∈ w -> is_warning e = false ->
  proves env c (e_parse env frame).
Proof.
  intros Hs Hc H He Hw. unfold on_text, cget in H. rewrite run_gets in H. cbn [snd] in H.
  destruct (e_parse env frame) as [| | | | | | |m| |] eqn:Ep; try discriminate. rewrite Hs in H.
  unfold dispatch_running in H. rewrite run_lift in H.
  destruct (value_string "type" (J_obj m)) as [ty|x]; [|injection H as _ _ <-; by apply elem_of_nil in He].
  destruct (authenticate env (J_obj m) ty (d, c)) as [[ra sa] wa] eqn:Ea.
  destruct (authenticate_cases _ _ _ _ _ _ _ Ea Hc) as [(Hp & _ & _)|[Hr Hwa]]; [done|].
  exfalso. assert (w = wa) as ->.
  { destruct Hr as [-> | [x ->]].
    - erewrite run_bind in H; [|exact Ea|reflexivity]. injection H as _ _ <-. by rewrite app_nil_r.
    - erewrite run_throw in H; [|exact Ea]. by injection H as _ _ <-. }
  rewrite Forall_elem in Hwa. specialize (Hwa e He). congruence.
Qed.

(** ** Choosing device and key *)

Lemma choose_kid_spec resolve dev kids err kid key e : choose_kid resolve dev kids err = (kid, key, e) ->
  kid <> EmptyString -> J_str kid ∈ kids /\ resolve dev kid = Ok key.
Proof.
  revert err. induction kids as [|k kids IH]; intros err; cbn [choose_kid]; [by intros [= <-]|].
  assert (forall err, choose_kid resolve dev kids err = (kid, key, e) -> kid <> EmptyString ->
    J_str kid ∈ k :: kids /\ resolve dev kid = Ok key) as Hr.
  { intros err' H Hn. destruct (IH _ H Hn). split; [by right|done]. }
  destruct k as [| | | | |s| | | |]; try apply Hr.
  destruct (resolve dev s) as [key'|e'] eqn:E; [|apply Hr].
  intros [= <- <- <-] _. split; [left|done].
Qed.

(** The device and key a session has settled on. *)
Definition settled (c : Core) : Prop :=
  exists resolve, cfg_credentials (e_config env) = Some resolve /\
    auth_kid (auth_ c) <> EmptyString /\
    resolve (ci_device_id (info c)) (auth_kid (auth_ c)) = Ok (auth_key (auth_ c)) /\
    auth_device_id (auth_ c) = ci_device_id (info c) /\ ci_auth_kid (info c) = auth_kid (auth_ c) /\
    (cfg_expected_device_id (e_config env) = EmptyString \/
     ci_device_id (info c) = cfg_expected_device_id (e_config env)).

Lemma str_empty_true s : str_empty s = true <-> s = EmptyString.
Proof. by destruct s. Qed.

Lemma now_ms_run {B} (k : Z -> M ST event B) d c : bind (on_snd (now_ms env)) k (d, c) =
  k (e_now_ms env (reads c)) (d, set_reads (S (reads c)) c).
Proof. by apply run_bind_quiet. Qed.

(** A refusal closes; an acceptance keeps what was settled before it. *)
Lemma refuse_state type body irt e code reason d c r d' c' w :
  bind (on_snd (send_message env type body irt)) (fun _ => abort env e code reason) (d, c) =
    (r, (d', c'), w) -> state c' = state c \/ state c' = Closed.
Proof.
  intros H. destruct (send_message env type body irt c) as [[rs c3] ws] eqn:Es.
  pose proof (tame_send_message _ _ _ _ _ _ _ _ Es) as Ht. apply tame_state in Ht.
  unfold on_snd, bind in H. cbn [fst snd] in H. rewrite Es in H. destruct rs as [b|x].
  - destruct (abort env e code reason (d, c3)) as [[ra [da ca]] wa] eqn:Ea.
    injection H as _ _ <- _. apply abort_closes in Ea. intuition congruence.
  - injection H as _ _ <- _. auto.
Qed.

Lemma accept_state {A} (send : M Core event A) next d c r d' c' w : respects tame send ->
  state c <> next -> bind (on_snd send) (fun _ => enter next) (d, c) = (r, (d', c'), w) ->
  state c' = next -> auth_ c' = auth_ c /\ info c' = info c.
Proof.
  intros Hsend Hn H Hs'. destruct (send c) as [[rs c3] ws] eqn:Es. pose proof (Hsend _ _ _ _ Es) as Ht.
  unfold on_snd, bind in H. cbn [fst snd] in H. rewrite Es in H. destruct rs as [b|x].
  2: { injection H as _ _ <- _. apply tame_state in Ht. congruence. }
  destruct (enter_eq next d c3) as (d1 & He & _). rewrite He in H. injection H as _ _ <- _.
  split; [apply (tame_auth _ _ _ Ht)|apply (tame_info _ _ _ Ht)].
Qed.

(** C33: The handshake advances only on a usable hello: when a frame takes the
    session to AWAIT_PROOF, the credential provider has resolved a key for the
    device id the device gave, under a key id it offered; that key, that key id
    and that device id are the ones later frames are checked with; and the
    device is the expected one, where one is configured. *)
Theorem await_proof_settled frame d c r d' c' w : state c = AwaitHello ->
  on_text env frame (d, c) = (r, (d', c'), w) -> state c' = AwaitProof -> settled c'.
Proof.
  intros Hs H Hs'. unfold on_text, cget in H. rewrite run_gets in H. cbn [snd] in H. rewrite Hs in H.
  destruct (e_parse env frame) as [| | | | | | |o| |]; 
    try (apply abort_closes in H; intuition congruence).
  set (m := J_obj o) in *. clearbody m. unfold handle_hello, smod in H.
  assert (forall e code reason d c, state c = AwaitHello ->
    abort env e code reason (d, c) = (r, (d', c'), w) -> settled c') as Hab.
  { intros e code reason d0 c0 Hs0 Ha. apply abort_closes in Ha. intuition congruence. }
  assert (forall e d0 c0 w0, state c0 = AwaitHello -> (Throw e, (d0, c0), w0) = (r, (d', c'), w) -> settled c') as Hth.
  { intros e d0 c0 w0 Hs0 [= _ _ <- _]. congruence. }
  rewrite run_lift in H. destruct (value_string "type" m) as [ty|e]; [|by eapply Hth in H].
  destruct (String.eqb ty "protocol_mismatch"); [by eapply Hab in H|].
  destruct (negb (String.eqb ty "hello")); [by eapply Hab in H|].
  cbv zeta in H.
  repeat (rewrite ?run_assoc, run_lift in H; cbn [fst snd] in H;
    lazymatch type of H with context [match ?x with Ret _ => _ | Throw _ => _ end] =>
      destruct x as [?v|?e]; [|by eapply Hth in H] end;
    rewrite ?run_modify in H; cbn [fst snd] in H).
  unfold cget in H. rewrite run_gets in H. cbn [snd] in H.
  match type of H with _ (d, ?cc) = _ => set (c1 := cc) in *;
    assert (state c1 = AwaitHello) as Hs1 by exact Hs; clearbody c1 end.
  destruct (match cfg_credentials (config env) with Some _ => _ | None => _ end)
    as [[kid key] err] eqn:Ek.
  destruct (negb (str_empty (cfg_expected_device_id (config env))) &&
    negb (String.eqb (ci_device_id (info c1)) (cfg_expected_device_id (config env)))) eqn:Eexp.
  { rewrite now_ms_run, run_lift in H.
    destruct (value_string "msg_id" m); [apply refuse_state in H; cbn in H; intuition congruence|by eapply Hth in H]. }
  destruct (negb _ || str_empty kid) eqn:Escheme.
  { rewrite now_ms_run, run_lift in H.
    destruct (value_string "msg_id" m); [apply refuse_state in H; cbn in H; intuition congruence|by eapply Hth in H]. }
  apply orb_false_elim in Escheme as [_ Ekid].
  rewrite !run_modify, now_ms_run, run_gets, run_lift in H. cbn [fst snd] in H.
  destruct (value_string "msg_id" m) as [irt|x]; [|by eapply Hth in H].
  apply accept_state in H as [Ha Hi]; [|apply tame_send_message|cbn; congruence|done].
  unfold settled. rewrite Ha, Hi. cbn.
  apply not_true_iff_false in Ekid. rewrite str_empty_true in Ekid.
  destruct (cfg_credentials (config env)) as [resolve|] eqn:Ecr; [|by injection Ek as <- _ _].
  apply choose_kid_spec in Ek as [_ Hres]; [|done].
  exists resolve. split; [exact Ecr|]. split; [done|]. split; [done|]. split; [done|]. split; [done|].
  apply andb_false_iff in Eexp as [Eexp|Eexp]; apply negb_false_iff in Eexp.
  - left. by apply str_empty_true.
  - right. by apply String.eqb_eq.
Qed.

(** ** The frame that ends the handshake *)

(** The first authenticated frame of a connection is lost unless it is the
    [ota_check]: a proof of any other type takes the session to RUNNING and is
    then handed to the running session, whose anti-replay check has just been
    given its sequence number and drops it with a warning. *)
Theorem first_frame_dropped frame d c o ty :
  state c = AwaitProof -> e_parse env frame = J_obj o -> proves env c (J_obj o) ->
  value_string "type" (J_obj o) = Ret ty -> ty <> kSessionProofMsg ->
  cb_ready (callbacks_ c) = true -> cb_warning (callbacks_ c) = true ->
  exists d' c' i, on_text env frame (d, c) =
    (Ret tt, (d', c'), [Ev_ready i; warn_event "dropping message: replay" ty]) /\
    state c' = Running.
Proof.
  intros Hs Hp (Hv & seq & Hq & Hlt) Ht Hty Hcr Hcw.
  assert (contains "auth" (J_obj o) = true) as Hc.
  { unfold verify, contains in *. destruct (jfind "auth" (J_obj o)); [done|discriminate]. }
  set (t := e_now env (reads c)).
  set (c1 := set_info (set_ci_established_at t (info c)) (set_reads (S (reads c)) (set_replay_ seq c))).
  destruct (enter_eq Running d c1) as (d1 & He & _).
  exists d1, (set_replay_ (replay_ c1) (set_state Running c1)), (info c1). split; [|done].
  unfold on_text, cget. rewrite run_gets. cbn [snd]. rewrite Hp, Hs.
  unfold handle_proof, cget. rewrite run_gets, run_lift. cbn [snd]. rewrite Hv, run_lift, Hq.
  erewrite run_bind_quiet.
  2: { rewrite check_replay_run. replace (seq <=? replay_ c) with false by lia. reflexivity. }
  cbn [negb]. erewrite run_bind_quiet; [|reflexivity]. unfold smod. rewrite run_modify, run_lift, Ht.
  apply String.eqb_neq in Hty as ->. cbn [fst snd].
  change (d, set_info _ _) with (d, c1).
  eapply (run_bind _ _ _ tt _ [Ev_ready (info c1)] _ _ [_]).
  - unfold announce_ready, cget. rewrite (run_bind_quiet _ _ _ _ _ He), run_gets.
    cbn [snd callbacks_ set_state]. change (callbacks_ c1) with (callbacks_ c). rewrite Hcr. reflexivity.
  - unfold dispatch_running. rewrite run_lift, Ht.
    assert (authenticate env (J_obj o) ty (d1, set_state Running c1) =
      (Ret false, (d1, set_replay_ (replay_ c1) (set_state Running c1)),
       [warn_event "dropping message: replay" ty])) as Ha.
    { unfold authenticate, cget. rewrite Hc, run_gets, run_lift. cbn [snd].
      change (auth_ (set_state Running c1)) with (auth_ c). rewrite Hv, run_lift, Hq.
      erewrite run_bind_quiet.
      2: { rewrite check_replay_run. cbn [replay_ set_state]. change (replay_ c1) with seq.
           rewrite Z.leb_refl. reflexivity. }
      unfold warn, cget. rewrite run_assoc, run_gets. cbn [snd callbacks_ set_replay_ set_state].
      change (callbacks_ c1) with (callbacks_ c). rewrite Hcw. reflexivity. }
    unfold bind at 1. rewrite Ha. reflexivity.
Qed.

(** A frame with a [type] that is not a string is not rejected but throws:
    during the hello and in the running session the JSON accessor's exception
    leaves [on_text], with nothing changed and nobody told. *)
Theorem mistyped_frame_throws frame d c o v :
  state c = AwaitHello \/ state c = Running -> e_parse env frame = J_obj o ->
  mget "type" o = Some v -> is_string v = false ->
  on_text env frame (d, c) = (Throw Exn_type_error, (d, c), []).
Proof.
  intros Hs Hp Hg Hv. unfold on_text, cget. rewrite run_gets. cbn [snd]. rewrite Hp.
  assert (value_string "type" (J_obj o) = Throw Exn_type_error) as Ht.
  { unfold value_string, value. rewrite Hg. by destruct v. }
  destruct Hs as [-> | ->]; unfold handle_hello, dispatch_running; by rewrite run_lift, Ht.
Qed.
End Frames.

(** ** The server nonce *)

Lemma lor_low x y k : 0 <= k -> 0 <= y < 2 ^ k -> Z.lor (Z.shiftl x k) y = x * 2 ^ k + y.
Proof.
  intros Hk Hy. rewrite <- Z.shiftl_mul_pow2 by done. symmetry. apply Z.add_nocarry_lor.
  destruct (decide (y = 0)) as [->|Hne]; [apply Z.land_0_r|].
  apply Z.bits_inj'. intros n Hn. rewrite Z.land_spec, Z.bits_0.
  destruct (Z.ltb_spec n k).
  - rewrite Z.shiftl_spec_low by done. done.
  - rewrite (Z.bits_above_log2 y n), andb_false_r; [done|lia|].
    apply Z.log2_lt_pow2; [lia|].
    apply Z.lt_le_trans with (2 ^ k); [lia|]. apply Z.pow_le_mono_r; lia.
Qed.

Definition digit_at (v k : Z) : Z := Z.land (Z.shiftr v k) 63.
Lemma digit_at_eq v k : 0 <= k -> digit_at v k = (v / 2 ^ k) mod 64.
Proof.
  intros Hk. unfold digit_at. rewrite Z.shiftr_div_pow2 by done.
  change 63 with (Z.ones 6). by rewrite Z.land_ones.
Qed.

(** The value of a base64 digit. *)
Definition unb64 (c : ascii) : nat :=
  match String.index 0 (String c EmptyString) base64_alphabet with Some n => n | None => 64 end.

Lemma b64_char_unb64 v : 0 <= v < 64 -> exists c, b64_char v = String c EmptyString /\ Z.of_nat (unb64 c) = v.
Proof.
  intros H. assert (forall n, (n < 64)%nat ->
    match b64_char (Z.of_nat n) with String c EmptyString => Nat.eqb (unb64 c) n | _ => false end = true) as Hall.
  { assert (forallb (fun n => match b64_char (Z.of_nat n) with
                              | String c EmptyString => Nat.eqb (unb64 c) n | _ => false end)
              (seq 0 64) = true) as Hc by (vm_compute; reflexivity).
    intros n Hn. rewrite forallb_forall in Hc. apply Hc, in_seq. lia. }
  specialize (Hall (Z.to_nat v) ltac:(lia)). rewrite Z2Nat.id in Hall by lia.
  destruct (b64_char v) as [|c [|]]; try discriminate. exists c. split; [done|].
  apply Nat.eqb_eq in Hall. lia.
Qed.

Lemma b64_char_inj u v r1 r2 : 0 <= u < 64 -> 0 <= v < 64 ->
  b64_char u +:+ r1 = b64_char v +:+ r2 -> u = v /\ r1 = r2.
Proof.
  intros Hu Hv. destruct (b64_char_unb64 u Hu) as (c & -> & <-).
  destruct (b64_char_unb64 v Hv) as (c' & -> & <-). cbn [String.append]. by intros [= -> ->].
Qed.

Lemma b64_char_length v : 0 <= v < 64 -> String.length (b64_char v) = 1%nat.
Proof. intros H. by destruct (b64_char_unb64 v H) as (c & -> & _). Qed.

Definition triple (a b c : Z) : Z := Z.lor (Z.lor (Z.shiftl a 16) (Z.shiftl b 8)) c.
Lemma triple_eq a b c : is_byte a -> is_byte b -> is_byte c -> triple a b c = a * 65536 + b * 256 + c.
Proof.
  unfold is_byte, triple. intros Ha Hb Hc.
  assert (Z.shiftl b 8 = b * 256) as Hb8 by (by rewrite Z.shiftl_mul_pow2).
  rewrite (lor_low a (Z.shiftl b 8) 16) by lia. rewrite Hb8.
  replace (a * 2 ^ 16 + b * 256) with (Z.shiftl (a * 256 + b) 8)
    by (rewrite Z.shiftl_mul_pow2 by lia; lia).
  rewrite lor_low by lia. lia.
Qed.

Lemma digit_range v k : 0 <= k -> 0 <= digit_at v k < 64.
Proof. intros H. rewrite digit_at_eq by done. apply Z.mod_pos_bound. lia. Qed.

Lemma triple_digits v : 0 <= v < 2 ^ 24 ->
  v = digit_at v 18 * 2 ^ 18 + digit_at v 12 * 2 ^ 12 + digit_at v 6 * 2 ^ 6 + digit_at v 0.
Proof.
  intros H. rewrite !digit_at_eq by lia. rewrite Z.pow_0_r, Z.div_1_r.
  change (2 ^ 18) with 262144. change (2 ^ 12) with 4096. change (2 ^ 6) with 64.
  change (2 ^ 24) with 16777216 in H. Z.div_mod_to_equations. lia.
Qed.

Lemma nonce_digits_triple a b c r : nonce_digits (a :: b :: c :: r) =
  b64_char (digit_at (triple a b c) 18) +:+ b64_char (digit_at (triple a b c) 12) +:+
  b64_char (digit_at (triple a b c) 6) +:+ b64_char (digit_at (triple a b c) 0) +:+ nonce_digits r.
Proof. cbn [nonce_digits]. unfold digit_at. by rewrite Z.shiftr_0_r. Qed.

Lemma nonce_triple_inj a b c r a' b' c' r' :
  Forall is_byte [a; b; c] -> Forall is_byte [a'; b'; c'] ->
  nonce_digits (a :: b :: c :: r) = nonce_digits (a' :: b' :: c' :: r') ->
  [a; b; c] = [a'; b'; c'] /\ nonce_digits r = nonce_digits r'.
Proof.
  intros H1 H2. rewrite !Forall_cons_iff in H1, H2. destruct H1 as (Ha & Hb & Hc & _).
  destruct H2 as (Ha' & Hb' & Hc' & _). rewrite !nonce_digits_triple.
  intros E. do 4 (apply b64_char_inj in E as [? E]; [|by apply digit_range..]).
  assert (triple a b c = triple a' b' c') as Ht.
  { rewrite (triple_digits (triple a b c)), (triple_digits (triple a' b' c')) by
      (rewrite triple_eq by done; unfold is_byte in *; lia). congruence. }
  rewrite !triple_eq in Ht by done. unfold is_byte in *.
  assert (a = a') by lia. assert (b = b') by lia. assert (c = c') by lia. by subst.
Qed.

Lemma nonce_single_inj a a' : is_byte a -> is_byte a' -> nonce_digits [a] = nonce_digits [a'] -> a = a'.
Proof.
  intros Ha Ha'. cbn [nonce_digits]. fold (digit_at (Z.shiftl a 16) 18) (digit_at (Z.shiftl a 16) 12)
    (digit_at (Z.shiftl a' 16) 18) (digit_at (Z.shiftl a' 16) 12).
  intros E. do 2 (apply b64_char_inj in E as [? E]; [|by apply digit_range..]).
  rewrite !digit_at_eq, !Z.shiftl_mul_pow2 in * by lia. unfold is_byte in *.
  change (2 ^ 18) with 262144 in *. change (2 ^ 12) with 4096 in *. change (2 ^ 16) with 65536 in *.
  Z.div_mod_to_equations. lia.
Qed.

Lemma nonce_inj l1 l2 k : length l1 = (3 * k + 1)%nat -> length l2 = (3 * k + 1)%nat ->
  Forall is_byte l1 -> Forall is_byte l2 -> nonce_digits l1 = nonce_digits l2 -> l1 = l2.
Proof.
  revert l1 l2. induction k as [|k IH]; intros l1 l2 H1 H2 B1 B2 E.
  - destruct l1 as [|a [|]], l2 as [|a' [|]]; try discriminate.
    apply Forall_cons_iff in B1 as [Ba _], B2 as [Ba' _]. f_equal. by apply nonce_single_inj.
  - destruct l1 as [|a [|b [|c l1]]], l2 as [|a' [|b' [|c' l2]]]; simpl in H1, H2; try lia.
    rewrite !Forall_cons_iff in B1, B2. destruct B1 as (? & ? & ? & B1), B2 as (? & ? & ? & B2).
    apply nonce_triple_inj in E as [[= -> -> ->] E]; [|auto 6..].
    do 3 f_equal. apply IH; [lia..|done|done|done].
Qed.

Lemma nonce_length l k : length l = (3 * k + 1)%nat -> Forall is_byte l ->
  String.length (nonce_digits l) = (4 * (k + 1))%nat.
Proof.
  assert (forall a b, String.length (a +:+ b) = (String.length a + String.length b)%nat) as Happ.
  { intros a b. induction a; simpl; [done|]. by f_equal. }
  revert l. induction k as [|k IH]; intros l Hl B.
  - destruct l as [|a [|]]; try discriminate. cbn [nonce_digits].
    fold (digit_at (Z.shiftl a 16) 18) (digit_at (Z.shiftl a 16) 12).
    rewrite !Happ, !b64_char_length by (by apply digit_range). done.
  - destruct l as [|a [|b [|c l]]]; simpl in Hl; try lia. rewrite !Forall_cons_iff in B.
    rewrite nonce_digits_triple, !Happ, !b64_char_length, IH by (lia || naive_solver || by apply digit_range).
    lia.
Qed.

(** The server nonce is the base64 text of the sixteen random bytes: always
    24 characters, and different bytes give different nonces, so a nonce repeats
    only when the generator does. *)
Theorem server_nonce_injective raw1 raw2 n : length raw1 = 16%nat -> length raw2 = 16%nat ->
  Forall is_byte raw1 -> Forall is_byte raw2 ->
  random_nonce_b64 (Some raw1) = Ret n ->
  String.length n = 24%nat /\ (random_nonce_b64 (Some raw2) = Ret n -> raw1 = raw2).
Proof.
  intros H1 H2 B1 B2 [= <-]. split; [by apply (nonce_length raw1 5)|].
  intros [= E]. symmetry. by apply (nonce_inj raw2 raw1 5).
Qed.
