(* ===== verification/SessionExamples.v ===== *)
(** * A session on concrete frames

    A small environment (a toy cipher, the canonical serializer as printer, a
    parser that knows a handful of frames) in which the handshake runs to
    RUNNING; every theorem about sessions is applied along that run. *)
From S2P Require Import Prelude StdMap Errors Float Json Canonical Messages Auth Events Dispatcher.
From S2P Require Import DispatcherFacts Session SessionFacts SessionFrames.
Local Open Scope Z_scope.

Definition toy_bytes : list Z := [0; 1; 2; 3; 4; 5; 6; 7; 8; 9; 10; 11; 12; 13; 14; 15].
Definition toy_hello : json := J_obj (mof
  [("type", J_str "hello"); ("device_id", J_str "dev-1"); ("client_nonce", J_str "cn");
   ("msg_id", J_str "d-1"); ("auth_schemes", J_arr [J_str kAuthScheme]);
   ("auth_kids", J_arr [J_str "0"; J_str "1"])]).
(** What the device shares with the session after that hello. *)
Definition toy_device : AuthContext := {|
  auth_key := [1; 2; 3]; auth_kid := "1"; auth_device_id := "dev-1";
  auth_server_nonce := nonce_digits toy_bytes; auth_client_nonce := "cn" |}.
Definition signed (seq : Z) (m : smap json) : json :=
  match sign toy_crypto (J_obj m) toy_device seq C2s with Ret j => j | Throw _ => J_null end.

Definition toy_parse (frame : string) : json :=
  if String.eqb frame "hello" then toy_hello
  else if String.eqb frame "proof" then
    signed 1 (mof [("type", J_str "ota_check"); ("msg_id", J_str "d-2")])
  else if String.eqb frame "early" then signed 1 (mof [("type", J_str "heartbeat")])
  else if String.eqb frame "beat" then signed 2 (mof [("type", J_str "heartbeat")])
  else if String.eqb frame "answer" then
    J_obj (mof [("type", J_str "command_result"); ("in_reply_to", J_str "s-1")])
  else if String.eqb frame "mistyped" then J_obj [("type", J_int 5)]
  else J_discarded.

Definition all_callbacks : Callbacks :=
  {| cb_ready := true; cb_failed := true; cb_dp_report := true; cb_heartbeat := true;
     cb_device_alert := true; cb_ota_status := true; cb_error_report := true;
     cb_warning := true; cb_unknown := true |}.

Definition toy_config : SessionConfig := {|
  cfg_credentials := Some (fun _ kid => if String.eqb kid "1" then Ok [1; 2; 3]
                                        else Err (internal_error "no such key"));
  cfg_kid := "1"; cfg_expected_device_id := "dev-1"; cfg_ota_policy := None;
  cfg_handshake_timeout := ms 15000; cfg_default_request_timeout := ms 10000;
  cfg_budget := default_budget |}.

Definition toy_env : senv := {|
  e_config := toy_config; e_crypto := toy_crypto; e_parse := toy_parse;
  e_dump := fun j => match canonical_serialize j with Ret s => Some s | Throw _ => None end;
  e_now := fun n => Z.of_nat n; e_now_ms := fun n => 1000 + Z.of_nat n;
  e_random := fun _ => Some toy_bytes; e_send := Some (fun _ _ => true); e_close := true |}.

Definition toy_command : RequestSpec :=
  {| rs_type := "command"; rs_body := J_obj [("op", J_str "reset")]; rs_timeout := None;
     rs_priority := SafetyControl; rs_coalesce_key := EmptyString |}.

(** The state after a list of calls. *)
Definition after (ops : list sop) : Dispatcher * Core :=
  (forM ops (run_sop toy_env) (new_session toy_env)).1.2.
Definition op_open := [So_callbacks all_callbacks; So_open].
Definition op_hello := op_open ++ [So_text "hello"].
Definition op_proof := op_hello ++ [So_text "proof"].

Example toy_handshake :
  map (fun ops => state (after ops).2) [[]; op_open; op_hello; op_proof] =
    [Closed; AwaitHello; AwaitProof; Running].
Proof. vm_compute. reflexivity. Qed.

(** [send_message] has no gate: while the session still waits for the hello, the
    application's message leaves, signed under the empty key. *)
Example raw_send_ungated : state (after op_open).2 = AwaitHello /\
  map (fun e => match e with Ev_send m _ => jfind "type" m | _ => None end)
    (run_sop toy_env (So_send "dp_write" (J_obj [("dp", J_obj [])]) EmptyString) (after op_open)).2 =
    [Some (J_str "dp_write")].
Proof. vm_compute. split; reflexivity. Qed.

Ltac sess_run := repeat first
  [ eapply sruns_op; [vm_compute; reflexivity|vm_compute; discriminate|] | apply sruns_done ].

Lemma session_transitions_witness : exists d' c' w,
  run_sop toy_env (So_text "hello") ((after op_open).1, (after op_open).2) = (Ret tt, (d', c'), w) /\
  allowed (state (after op_open).2) (state c').
Proof.
  evaluate (run_sop toy_env (So_text "hello") ((after op_open).1, (after op_open).2)) H.
  eexists _, _, _. split; [exact H|]. exact (session_transitions toy_env _ _ _ _ _ _ _ H).
Defined.

Lemma running_requires_proof_witness : exists d' c' w,
  run_sop toy_env (So_text "proof") ((after op_hello).1, (after op_hello).2) = (Ret tt, (d', c'), w) /\
  state c' = Running /\ proves toy_env (after op_hello).2 (toy_parse "proof").
Proof.
  evaluate (run_sop toy_env (So_text "proof") ((after op_hello).1, (after op_hello).2)) H.
  destruct (running_requires_proof toy_env _ _ _ _ _ _ _ H) as (_ & f & Hf & Hp).
  { vm_compute. discriminate. }
  { reflexivity. }
  eexists _, _, _. split; [exact H|]. split; [reflexivity|]. injection Hf as <-. exact Hp.
Defined.

Lemma session_handlers_conserved_witness : exists s w,
  sess_runs toy_env (new_session toy_env) [7]%nat s w /\ [7]%nat ≡ₚ called w ++ live s.1.
Proof.
  assert (exists s w, sess_runs toy_env (new_session toy_env) [7]%nat s w) as (s & w & H).
  { eexists _, _. change [7]%nat with (sop_handlers (So_callbacks all_callbacks) ++
      sop_handlers So_open ++ sop_handlers (So_text "hello") ++ sop_handlers (So_text "proof") ++
      sop_handlers (So_request toy_command (Some 7%nat)) ++ sop_handlers (So_text "answer") ++ [])%nat.
    sess_run. }
  exists s, w. split; [exact H|]. exact (session_handlers_conserved toy_env _ _ _ H).
Defined.

Lemma only_handshake_before_running_witness : exists d c w0 s' w,
  sess_runs toy_env (new_session toy_env) [] (d, c) w0 /\ state c = AwaitHello /\
  run_sop toy_env (So_text "hello") (d, c) = (Ret tt, s', w) /\ Forall (handshake_frame toy_env) w.
Proof.
  assert (exists d c w0, sess_runs toy_env (new_session toy_env) [] (d, c) w0 /\
    (d, c) = after op_open) as (d & c & w0 & Hr & E).
  { eexists _, _, _. split.
    - change (@nil nat) with (sop_handlers (So_callbacks all_callbacks) ++
        sop_handlers So_open ++ []). sess_run.
    - vm_compute. reflexivity. }
  assert (state c = AwaitHello) as Hs.
  { change c with (d, c).2. rewrite E. vm_compute. reflexivity. }
  evaluate (run_sop toy_env (So_text "hello") (after op_open)) H. rewrite <- E in H.
  exists d, c, w0. eexists _, _. split; [exact Hr|]. split; [exact Hs|]. split; [exact H|].
  exact (only_handshake_before_running toy_env [] d c w0 (So_text "hello") _ _ _ Hr
    ltac:(rewrite Hs; discriminate) I H).
Defined.

Lemma fails_at_most_once_witness : exists s' w,
  forM [So_text "junk"; So_text "junk"; So_tick (sec 60)] (run_sop toy_env) (after op_open) =
    (Ret tt, s', w) /\ (count is_failed w <= 1)%nat.
Proof.
  evaluate (forM [So_text "junk"; So_text "junk"; So_tick (sec 60)] (run_sop toy_env) (after op_open)) H.
  eexists _, _. split; [exact H|].
  refine (proj1 (fails_at_most_once toy_env _ _ _ _ _ _ H)).
  repeat (constructor; [discriminate|]). constructor.
Defined.

Lemma handshake_deadline_enforced_witness : exists d',
  session_tick toy_env (sec 60) ((after op_open).1, (after op_open).2) =
    (Ret tt, (d', set_state Closed (set_failed true (after op_open).2)),
     [Ev_close 4000 "handshake_timeout"; Ev_failed
        (make_error Dom_Protocol HandshakeFailed "no Fountain handshake within the deadline")]).
Proof.
  destruct (handshake_deadline_enforced toy_env (sec 60) (after op_open).1 (after op_open).2)
    as (d' & H & _).
  { left. vm_compute. reflexivity. }
  { vm_compute. reflexivity. }
  { vm_compute. discriminate. }
  exists d'. exact H.
Defined.

Lemma control_frame_verifies_witness : exists c' w m frame,
  encode_and_send toy_env toy_command (after op_proof).2 = (Ret (Ok "s-1"), c', w) /\
  w = [Ev_send m frame] /\ verify toy_crypto m (auth_ (after op_proof).2) S2c = Ret V_ok.
Proof.
  evaluate (encode_and_send toy_env toy_command (after op_proof).2) H.
  destruct (control_frame_verifies toy_env toy_command _ _ _ _ _ H (eq_refl (find_meta "command")))
    as (m & frame & Hw & _ & _ & Hv).
  eexists _, _, m, frame. split; [exact H|]. split; [exact Hw|].
  exact (proj1 (Hv ltac:(reflexivity) ltac:(split; vm_compute; [discriminate|reflexivity]))).
Defined.

Lemma running_survives_witness : exists d' c' w,
  on_text toy_env "beat" ((after op_proof).1, (after op_proof).2) = (Ret tt, (d', c'), w) /\
  state c' = Running.
Proof.
  evaluate (on_text toy_env "beat" ((after op_proof).1, (after op_proof).2)) H.
  eexists _, _, _. split; [exact H|].
  refine (proj1 (running_survives toy_env _ _ _ _ _ _ _ _ H)). vm_compute. reflexivity.
Defined.

Lemma authenticated_effects_witness : exists s' e w,
  on_text toy_env "beat" ((after op_proof).1, (after op_proof).2) = (Ret tt, s', e :: w) /\
  is_warning e = false /\ proves toy_env (after op_proof).2 (toy_parse "beat").
Proof.
  evaluate (on_text toy_env "beat" ((after op_proof).1, (after op_proof).2)) H.
  eexists _, _, _. split; [exact H|]. split; [reflexivity|].
  refine (authenticated_effects toy_env "beat" _ _ _ _ _ _ _ _ H (list_elem_of_here _ _) eq_refl);
    vm_compute; reflexivity.
Defined.

Lemma await_proof_settled_witness : exists d' c' w,
  on_text toy_env "hello" ((after op_open).1, (after op_open).2) = (Ret tt, (d', c'), w) /\
  settled toy_env c'.
Proof.
  evaluate (on_text toy_env "hello" ((after op_open).1, (after op_open).2)) H.
  eexists _, _, _. split; [exact H|].
  refine (await_proof_settled toy_env _ _ _ _ _ _ _ _ H _); vm_compute; reflexivity.
Defined.

Lemma first_frame_dropped_witness : exists d' c' i,
  on_text toy_env "early" ((after op_hello).1, (after op_hello).2) =
    (Ret tt, (d', c'), [Ev_ready i; warn_event "dropping message: replay" "heartbeat"]).
Proof.
  pose (o := match toy_parse "early" with J_obj o => o | _ => [] end).
  destruct (first_frame_dropped toy_env "early" (after op_hello).1 (after op_hello).2 o "heartbeat")
    as (d' & c' & i & H & _); try (vm_compute; reflexivity).
  - split; [vm_compute; reflexivity|]. exists 1. split; vm_compute; reflexivity.
  - vm_compute. discriminate.
  - exists d', c', i. exact H.
Defined.

Lemma mistyped_frame_throws_witness :
  on_text toy_env "mistyped" ((after op_proof).1, (after op_proof).2) =
    (Throw Exn_type_error, ((after op_proof).1, (after op_proof).2), []).
Proof.
  apply (mistyped_frame_throws toy_env "mistyped" _ _ [("type", J_int 5)] (J_int 5));
    [right|..]; vm_compute; reflexivity.
Defined.

Lemma server_nonce_injective_witness : exists n,
  random_nonce_b64 (Some toy_bytes) = Ret n /\ String.length n = 24%nat.
Proof.
  evaluate (random_nonce_b64 (Some toy_bytes)) H. eexists. split; [exact H|].
  refine (proj1 (server_nonce_injective toy_bytes toy_bytes _ _ _ _ _ H));
    try reflexivity; repeat (constructor; [split; vm_compute; [discriminate|reflexivity]|]); constructor.
Defined.
