(* ===== verification/Datapoint.v ===== *)
(** * Datapoint core types ([datapoints/datapoint.hpp], [catalog.cpp])

    The types the catalogue generator instantiates, and the dynamic value with
    its wire-type alternatives ([DatapointValue], [codec.hpp]). *)
From S2P Require Import Prelude StdMap Errors Float.
Local Open Scope Z_scope.

Inductive DatapointType :=
| T_Bool | T_U8 | T_U16 | T_U32 | T_U64 | T_I8 | T_I16 | T_I32 | T_F32 | T_Enum | T_Str.
Inductive Access := ReadOnly | ReadWrite | WriteOnly.
Inductive Persistence := Volatile | Nvs | Static.
Inductive PollClass := PC_Realtime | PC_Status | PC_Config | PC_OnConnect | PC_Disabled.

#[export] Instance DatapointType_eq_dec : EqDecision DatapointType.
Proof. solve_decision. Defined.
#[export] Instance Access_eq_dec : EqDecision Access.
Proof. solve_decision. Defined.
#[export] Instance Persistence_eq_dec : EqDecision Persistence.
Proof. solve_decision. Defined.
#[export] Instance PollClass_eq_dec : EqDecision PollClass.
Proof. solve_decision. Defined.

Definition type_to_string (t : DatapointType) : string :=
  match t with
  | T_Bool => "BOOL" | T_U8 => "U8" | T_U16 => "U16" | T_U32 => "U32" | T_U64 => "U64"
  | T_I8 => "I8" | T_I16 => "I16" | T_I32 => "I32" | T_F32 => "F32" | T_Enum => "ENUM"
  | T_Str => "STR"
  end.
Definition access_to_string (a : Access) : string :=
  match a with ReadOnly => "RO" | ReadWrite => "RW" | WriteOnly => "WO" end.
Definition persistence_to_string (p : Persistence) : string :=
  match p with Volatile => "VOLATILE" | Nvs => "NVS" | Static => "STATIC" end.
Definition poll_class_to_string (p : PollClass) : string :=
  match p with
  | PC_Realtime => "Realtime" | PC_Status => "Status" | PC_Config => "Config"
  | PC_OnConnect => "OnConnect" | PC_Disabled => "Disabled"
  end.

(** Maximum usable length of a STR datapoint. *)
Definition kDatapointStringMax : Z := 63.

Record DatapointMetadata := mkMeta {
  md_unit : string;
  md_decimals : Z;
  md_deadband : float;
  md_value_map : string;
  md_format : string
}.

Record DatapointDescriptor := mkDesc {
  d_index : Z;
  d_name : string;
  d_type : DatapointType;
  d_access : Access;
  d_persistence : Persistence;
  d_nvs_id : Z;
  d_default : float;
  d_min : float;                (* NaN = unbounded *)
  d_max : float;
  d_metadata : DatapointMetadata;
  d_poll_class : PollClass
}.

Definition writable (d : DatapointDescriptor) : bool :=
  match d_access d with ReadWrite | WriteOnly => true | ReadOnly => false end.
Definition readable (d : DatapointDescriptor) : bool :=
  match d_access d with WriteOnly => false | _ => true end.
Definition numeric (d : DatapointDescriptor) : bool :=
  match d_type d with T_Bool | T_Str | T_U64 => false | _ => true end.

(** The C++ value types of the typed constants. *)
Inductive value_type := CT_bool | CT_u8 | CT_u16 | CT_u32 | CT_u64 | CT_i8 | CT_i16 | CT_i32
  | CT_float | CT_string.
#[export] Instance value_type_eq_dec : EqDecision value_type.
Proof. solve_decision. Defined.

Definition datapoint_value_type (t : DatapointType) : value_type :=
  match t with
  | T_Bool => CT_bool | T_U8 => CT_u8 | T_U16 => CT_u16 | T_U32 => CT_u32 | T_U64 => CT_u64
  | T_I8 => CT_i8 | T_I16 => CT_i16 | T_I32 => CT_i32 | T_F32 => CT_float | T_Enum => CT_u8
  | T_Str => CT_string
  end.

(** A typed constant: [Datapoint<T, A, P>{index, name}]. *)
Record Datapoint := mkDatapoint {
  dp_type : value_type;
  dp_access : Access;
  dp_persistence : Persistence;
  dp_index : Z;
  dp_name : string
}.
Definition WritableDatapoint (dp : Datapoint) : bool :=
  match dp_access dp with ReadWrite | WriteOnly => true | ReadOnly => false end.
Definition ReadableDatapoint (dp : Datapoint) : bool :=
  match dp_access dp with WriteOnly => false | _ => true end.

(** The variant of the dynamic API, alternatives in their order. *)
Inductive DatapointValue :=
| V_bool (b : bool)
| V_u8 (z : Z)
| V_u16 (z : Z)
| V_u32 (z : Z)
| V_u64 (z : Z)
| V_i8 (z : Z)
| V_i16 (z : Z)
| V_i32 (z : Z)
| V_float (f : float)
| V_string (s : string).
#[export] Instance DatapointValue_eq_dec : EqDecision DatapointValue.
Proof. solve_decision. Defined.

(** [variant::index()] *)
Definition value_index (v : DatapointValue) : nat :=
  match v with
  | V_bool _ => 0 | V_u8 _ => 1 | V_u16 _ => 2 | V_u32 _ => 3 | V_u64 _ => 4
  | V_i8 _ => 5 | V_i16 _ => 6 | V_i32 _ => 7 | V_float _ => 8 | V_string _ => 9
  end.

(** Integers in the width of their alternative. *)
Definition value_ok (v : DatapointValue) : Prop :=
  match v with
  | V_u8 z => 0 <= z < 2 ^ 8 | V_u16 z => 0 <= z < 2 ^ 16 | V_u32 z => 0 <= z < 2 ^ 32
  | V_u64 z => 0 <= z < 2 ^ 64
  | V_i8 z => - 2 ^ 7 <= z < 2 ^ 7 | V_i16 z => - 2 ^ 15 <= z < 2 ^ 15
  | V_i32 z => - 2 ^ 31 <= z < 2 ^ 31
  | _ => True
  end.
