(* ===== verification/Generated.v ===== *)
(** * The generated datapoint catalogue ([datapoints/generated.hpp])

    The descriptor table, the enumeration of ids and the typed constants, entry
    by entry as the generator wrote them.  [Catalog.catalog_consistent] shows that the
    three agree; clients rely on it when they index the table by a constant. *)
From S2P Require Import Prelude StdMap Errors Float Datapoint.
Local Open Scope Z_scope.

Definition kDatapointSchemaHash : string := "8ec39f852fb788c34d2922259aed6b42".
Definition kDatapointCount : Z := 107.
Definition kDatapointUnbounded : float := F_nan.

(** [enum class DatapointId] *)
Inductive DatapointId :=
  | Id_Device_Serial_Number | Id_Device_HW_Version | Id_Device_SW_Version
  | Id_Device_Build_Version | Id_System_Temperature | Id_System_Utilization
  | Id_System_Memory_Free | Id_System_Min_Memory_Free | Id_System_Largest_Free_Block
  | Id_System_Flash_Free | Id_System_RSSI | Id_System_Uptime | Id_System_Min_Stack_Free
  | Id_System_Reconnect_Count | Id_System_Reset_Reason | Id_System_Power_Mode
  | Id_System_Event_Drops | Id_Net_Link_Score | Id_Net_Link_State | Id_Net_Session_Drops
  | Id_Net_Send_Fail_Count | Id_Net_Offline_Seconds | Id_Net_Last_Offline_S
  | Id_Ambient_Temperature | Id_Ambient_Humidity | Id_Fon_Current_Pressure
  | Id_Fon_Sensor_Voltage_mV | Id_Fon_Current_State | Id_Fon_Relay_Output | Id_Fon_Run_Time
  | Id_Fon_Cycles_Total | Id_Fon_Remaining_Time | Id_Fon_Pressure_Filtered
  | Id_Fon_Pressure_Slope | Id_Fon_Demand_State | Id_Fon_Anomaly_Score | Id_Fon_Event_Duration
  | Id_Fon_Est_Flow_L_Min | Id_Fon_Est_Volume_Total | Id_Fon_Fault_Code | Id_Fon_Starts_Per_Hour
  | Id_Fon_Sensor_Err_Count | Id_Fon_Sensor_Noise_mV | Id_Fon_Fault_Ack | Id_Fon_Event_Label
  | Id_Fon_Pressure_Manual | Id_Fon_Pressure_Value | Id_Fon_Min_Pressure | Id_Fon_Max_Pressure
  | Id_Fon_Alert_High_Pressure | Id_Fon_Alert_Low_Pressure | Id_Fon_Min_On_Time
  | Id_Fon_Max_On_Time | Id_Fon_Dry_Run_Detect_Time | Id_Fon_Dry_Run_Min_Rise
  | Id_Fon_Check_Valve_Timeout | Id_Fon_Pressure_Drop_Rate | Id_Fon_Report_Interval
  | Id_Fon_Sensor_Offset | Id_Fon_Sensor_Scale | Id_Fon_Sensor_Range_Bar | Id_Fon_Min_Off_Time
  | Id_Fon_Filter_Alpha | Id_Fon_Stable_Slope | Id_Fon_Max_Starts_Per_Hour
  | Id_Fon_Hand_Min_Pressure | Id_Fon_Hand_Max_Pressure | Id_Fon_Tank_Min_Pressure
  | Id_Fon_Tank_Max_Pressure | Id_Fon_Hand_Max_Duration | Id_Fon_Tank_Max_Duration
  | Id_Fon_Unknown_Max_Duration | Id_Fon_Flow_K_Hand | Id_Fon_Flow_K_Tank | Id_Network_SSID
  | Id_Network_Password | Id_Network_Server | Id_Network_Server_Port | Id_Network_DHCP
  | Id_Network_IP_Address | Id_Network_Subnetmask | Id_Network_Gateway | Id_Net_PS_Override
  | Id_Backup_DHCP | Id_Backup_IP_Address | Id_Backup_Subnetmask | Id_Backup_Gateway
  | Id_Backup_Server | Id_Backup_Server_Port | Id_Backup_SSID | Id_Backup_Password
  | Id_Log_Enabled | Id_Log_Runtime_Level | Id_Log_Flash_Level | Id_Network_Save
  | Id_Network_Trial_State | Id_Log_Next_Seq | Id_Log_Dropped | Id_Log_Dropped_Flash
  | Id_Log_Prev_Boot_Available | Id_Log_Command | Id_Pressure_Hist_Next_Seq
  | Id_Pressure_Hist_Overwritten | Id_Pressure_Hist_Highwater | Id_System_WD_Last_Channel
  | Id_System_WD_Last_Checkpoint | Id_System_WD_Reboot_Count.

Definition id_index (id : DatapointId) : Z :=
  match id with
  | Id_Device_Serial_Number => 0
  | Id_Device_HW_Version => 1
  | Id_Device_SW_Version => 2
  | Id_Device_Build_Version => 3
  | Id_System_Temperature => 4
  | Id_System_Utilization => 5
  | Id_System_Memory_Free => 6
  | Id_System_Min_Memory_Free => 7
  | Id_System_Largest_Free_Block => 8
  | Id_System_Flash_Free => 9
  | Id_System_RSSI => 10
  | Id_System_Uptime => 11
  | Id_System_Min_Stack_Free => 12
  | Id_System_Reconnect_Count => 13
  | Id_System_Reset_Reason => 14
  | Id_System_Power_Mode => 15
  | Id_System_Event_Drops => 16
  | Id_Net_Link_Score => 17
  | Id_Net_Link_State => 18
  | Id_Net_Session_Drops => 19
  | Id_Net_Send_Fail_Count => 20
  | Id_Net_Offline_Seconds => 21
  | Id_Net_Last_Offline_S => 22
  | Id_Ambient_Temperature => 23
  | Id_Ambient_Humidity => 24
  | Id_Fon_Current_Pressure => 25
  | Id_Fon_Sensor_Voltage_mV => 26
  | Id_Fon_Current_State => 27
  | Id_Fon_Relay_Output => 28
  | Id_Fon_Run_Time => 29
  | Id_Fon_Cycles_Total => 30
  | Id_Fon_Remaining_Time => 31
  | Id_Fon_Pressure_Filtered => 32
  | Id_Fon_Pressure_Slope => 33
  | Id_Fon_Demand_State => 34
  | Id_Fon_Anomaly_Score => 35
  | Id_Fon_Event_Duration => 36
  | Id_Fon_Est_Flow_L_Min => 37
  | Id_Fon_Est_Volume_Total => 38
  | Id_Fon_Fault_Code => 39
  | Id_Fon_Starts_Per_Hour => 40
  | Id_Fon_Sensor_Err_Count => 41
  | Id_Fon_Sensor_Noise_mV => 42
  | Id_Fon_Fault_Ack => 43
  | Id_Fon_Event_Label => 44
  | Id_Fon_Pressure_Manual => 45
  | Id_Fon_Pressure_Value => 46
  | Id_Fon_Min_Pressure => 47
  | Id_Fon_Max_Pressure => 48
  | Id_Fon_Alert_High_Pressure => 49
  | Id_Fon_Alert_Low_Pressure => 50
  | Id_Fon_Min_On_Time => 51
  | Id_Fon_Max_On_Time => 52
  | Id_Fon_Dry_Run_Detect_Time => 53
  | Id_Fon_Dry_Run_Min_Rise => 54
  | Id_Fon_Check_Valve_Timeout => 55
  | Id_Fon_Pressure_Drop_Rate => 56
  | Id_Fon_Report_Interval => 57
  | Id_Fon_Sensor_Offset => 58
  | Id_Fon_Sensor_Scale => 59
  | Id_Fon_Sensor_Range_Bar => 60
  | Id_Fon_Min_Off_Time => 61
  | Id_Fon_Filter_Alpha => 62
  | Id_Fon_Stable_Slope => 63
  | Id_Fon_Max_Starts_Per_Hour => 64
  | Id_Fon_Hand_Min_Pressure => 65
  | Id_Fon_Hand_Max_Pressure => 66
  | Id_Fon_Tank_Min_Pressure => 67
  | Id_Fon_Tank_Max_Pressure => 68
  | Id_Fon_Hand_Max_Duration => 69
  | Id_Fon_Tank_Max_Duration => 70
  | Id_Fon_Unknown_Max_Duration => 71
  | Id_Fon_Flow_K_Hand => 72
  | Id_Fon_Flow_K_Tank => 73
  | Id_Network_SSID => 74
  | Id_Network_Password => 75
  | Id_Network_Server => 76
  | Id_Network_Server_Port => 77
  | Id_Network_DHCP => 78
  | Id_Network_IP_Address => 79
  | Id_Network_Subnetmask => 80
  | Id_Network_Gateway => 81
  | Id_Net_PS_Override => 82
  | Id_Backup_DHCP => 83
  | Id_Backup_IP_Address => 84
  | Id_Backup_Subnetmask => 85
  | Id_Backup_Gateway => 86
  | Id_Backup_Server => 87
  | Id_Backup_Server_Port => 88
  | Id_Backup_SSID => 89
  | Id_Backup_Password => 90
  | Id_Log_Enabled => 91
  | Id_Log_Runtime_Level => 92
  | Id_Log_Flash_Level => 93
  | Id_Network_Save => 94
  | Id_Network_Trial_State => 95
  | Id_Log_Next_Seq => 96
  | Id_Log_Dropped => 97
  | Id_Log_Dropped_Flash => 98
  | Id_Log_Prev_Boot_Available => 99
  | Id_Log_Command => 100
  | Id_Pressure_Hist_Next_Seq => 101
  | Id_Pressure_Hist_Overwritten => 102
  | Id_Pressure_Hist_Highwater => 103
  | Id_System_WD_Last_Channel => 104
  | Id_System_WD_Last_Checkpoint => 105
  | Id_System_WD_Reboot_Count => 106
  end.

Definition all_ids : list DatapointId := [
  Id_Device_Serial_Number; Id_Device_HW_Version; Id_Device_SW_Version; Id_Device_Build_Version;
  Id_System_Temperature; Id_System_Utilization; Id_System_Memory_Free;
  Id_System_Min_Memory_Free; Id_System_Largest_Free_Block; Id_System_Flash_Free; Id_System_RSSI;
  Id_System_Uptime; Id_System_Min_Stack_Free; Id_System_Reconnect_Count; Id_System_Reset_Reason;
  Id_System_Power_Mode; Id_System_Event_Drops; Id_Net_Link_Score; Id_Net_Link_State;
  Id_Net_Session_Drops; Id_Net_Send_Fail_Count; Id_Net_Offline_Seconds; Id_Net_Last_Offline_S;
  Id_Ambient_Temperature; Id_Ambient_Humidity; Id_Fon_Current_Pressure;
  Id_Fon_Sensor_Voltage_mV; Id_Fon_Current_State; Id_Fon_Relay_Output; Id_Fon_Run_Time;
  Id_Fon_Cycles_Total; Id_Fon_Remaining_Time; Id_Fon_Pressure_Filtered; Id_Fon_Pressure_Slope;
  Id_Fon_Demand_State; Id_Fon_Anomaly_Score; Id_Fon_Event_Duration; Id_Fon_Est_Flow_L_Min;
  Id_Fon_Est_Volume_Total; Id_Fon_Fault_Code; Id_Fon_Starts_Per_Hour; Id_Fon_Sensor_Err_Count;
  Id_Fon_Sensor_Noise_mV; Id_Fon_Fault_Ack; Id_Fon_Event_Label; Id_Fon_Pressure_Manual;
  Id_Fon_Pressure_Value; Id_Fon_Min_Pressure; Id_Fon_Max_Pressure; Id_Fon_Alert_High_Pressure;
  Id_Fon_Alert_Low_Pressure; Id_Fon_Min_On_Time; Id_Fon_Max_On_Time; Id_Fon_Dry_Run_Detect_Time;
  Id_Fon_Dry_Run_Min_Rise; Id_Fon_Check_Valve_Timeout; Id_Fon_Pressure_Drop_Rate;
  Id_Fon_Report_Interval; Id_Fon_Sensor_Offset; Id_Fon_Sensor_Scale; Id_Fon_Sensor_Range_Bar;
  Id_Fon_Min_Off_Time; Id_Fon_Filter_Alpha; Id_Fon_Stable_Slope; Id_Fon_Max_Starts_Per_Hour;
  Id_Fon_Hand_Min_Pressure; Id_Fon_Hand_Max_Pressure; Id_Fon_Tank_Min_Pressure;
  Id_Fon_Tank_Max_Pressure; Id_Fon_Hand_Max_Duration; Id_Fon_Tank_Max_Duration;
  Id_Fon_Unknown_Max_Duration; Id_Fon_Flow_K_Hand; Id_Fon_Flow_K_Tank; Id_Network_SSID;
  Id_Network_Password; Id_Network_Server; Id_Network_Server_Port; Id_Network_DHCP;
  Id_Network_IP_Address; Id_Network_Subnetmask; Id_Network_Gateway; Id_Net_PS_Override;
  Id_Backup_DHCP; Id_Backup_IP_Address; Id_Backup_Subnetmask; Id_Backup_Gateway;
  Id_Backup_Server; Id_Backup_Server_Port; Id_Backup_SSID; Id_Backup_Password; Id_Log_Enabled;
  Id_Log_Runtime_Level; Id_Log_Flash_Level; Id_Network_Save; Id_Network_Trial_State;
  Id_Log_Next_Seq; Id_Log_Dropped; Id_Log_Dropped_Flash; Id_Log_Prev_Boot_Available;
  Id_Log_Command; Id_Pressure_Hist_Next_Seq; Id_Pressure_Hist_Overwritten;
  Id_Pressure_Hist_Highwater; Id_System_WD_Last_Channel; Id_System_WD_Last_Checkpoint;
  Id_System_WD_Reboot_Count].

Definition kDatapointDescriptors_0 : list DatapointDescriptor := [
  mkDesc 0 "Device_Serial_Number" T_U64 ReadOnly Static 0 (lit 0 0) kDatapointUnbounded kDatapointUnbounded
    (mkMeta EmptyString (-1) (lit 0 0) EmptyString EmptyString) PC_OnConnect;
  mkDesc 1 "Device_HW_Version" T_Str ReadOnly Static 0 (lit 0 0) kDatapointUnbounded kDatapointUnbounded
    (mkMeta EmptyString (-1) (lit 0 0) EmptyString EmptyString) PC_OnConnect;
  mkDesc 2 "Device_SW_Version" T_Str ReadOnly Static 0 (lit 0 0) kDatapointUnbounded kDatapointUnbounded
    (mkMeta EmptyString (-1) (lit 0 0) EmptyString EmptyString) PC_OnConnect;
  mkDesc 3 "Device_Build_Version" T_U64 ReadOnly Static 0 (lit 0 0) kDatapointUnbounded kDatapointUnbounded
    (mkMeta EmptyString (-1) (lit 0 0) EmptyString "datetime") PC_OnConnect;
  mkDesc 4 "System_Temperature" T_F32 ReadOnly Volatile 0 (lit 0 0) kDatapointUnbounded kDatapointUnbounded
    (mkMeta "°C" 1 (lit 1 0) EmptyString EmptyString) PC_Status;
  mkDesc 5 "System_Utilization" T_U8 ReadOnly Volatile 0 (lit 0 0) kDatapointUnbounded kDatapointUnbounded
    (mkMeta "%" (-1) (lit 0 0) EmptyString EmptyString) PC_Status;
  mkDesc 6 "System_Memory_Free" T_U32 ReadOnly Volatile 0 (lit 0 0) kDatapointUnbounded kDatapointUnbounded
    (mkMeta "B" (-1) (lit 0 0) EmptyString EmptyString) PC_Status;
  mkDesc 7 "System_Min_Memory_Free" T_U32 ReadOnly Volatile 0 (lit 0 0) kDatapointUnbounded kDatapointUnbounded
    (mkMeta "B" (-1) (lit 0 0) EmptyString EmptyString) PC_Status;
  mkDesc 8 "System_Largest_Free_Block" T_U32 ReadOnly Volatile 0 (lit 0 0) kDatapointUnbounded kDatapointUnbounded
    (mkMeta "B" (-1) (lit 0 0) EmptyString EmptyString) PC_Status;
  mkDesc 9 "System_Flash_Free" T_U32 ReadOnly Volatile 0 (lit 0 0) kDatapointUnbounded kDatapointUnbounded
    (mkMeta "B" (-1) (lit 0 0) EmptyString EmptyString) PC_Status;
  mkDesc 10 "System_RSSI" T_I8 ReadOnly Volatile 0 (lit 0 0) kDatapointUnbounded kDatapointUnbounded
    (mkMeta "dBm" (-1) (lit 0 0) EmptyString EmptyString) PC_Status;
  mkDesc 11 "System_Uptime" T_U32 ReadOnly Volatile 0 (lit 0 0) kDatapointUnbounded kDatapointUnbounded
    (mkMeta "s" (-1) (lit 0 0) EmptyString EmptyString) PC_Status;
  mkDesc 12 "System_Min_Stack_Free" T_U32 ReadOnly Volatile 0 (lit 0 0) kDatapointUnbounded kDatapointUnbounded
    (mkMeta "B" (-1) (lit 0 0) EmptyString EmptyString) PC_Status;
  mkDesc 13 "System_Reconnect_Count" T_U32 ReadOnly Volatile 0 (lit 0 0) kDatapointUnbounded kDatapointUnbounded
    (mkMeta EmptyString (-1) (lit 0 0) EmptyString EmptyString) PC_Status;
  mkDesc 14 "System_Reset_Reason" T_Enum ReadOnly Volatile 0 (lit 0 0) kDatapointUnbounded kDatapointUnbounded
    (mkMeta EmptyString (-1) (lit 0 0) "reset" EmptyString) PC_Status;
  mkDesc 15 "System_Power_Mode" T_U8 ReadOnly Volatile 0 (lit 0 0) kDatapointUnbounded kDatapointUnbounded
    (mkMeta EmptyString (-1) (lit 0 0) "power" EmptyString) PC_Status;
  mkDesc 16 "System_Event_Drops" T_U32 ReadOnly Volatile 0 (lit 0 0) kDatapointUnbounded kDatapointUnbounded
    (mkMeta EmptyString (-1) (lit 0 0) EmptyString EmptyString) PC_Status;
  mkDesc 17 "Net_Link_Score" T_U8 ReadOnly Volatile 0 (lit 100 0) kDatapointUnbounded kDatapointUnbounded
    (mkMeta EmptyString (-1) (lit 0 0) EmptyString EmptyString) PC_Status;
  mkDesc 18 "Net_Link_State" T_U8 ReadOnly Volatile 0 (lit 0 0) kDatapointUnbounded kDatapointUnbounded
    (mkMeta EmptyString (-1) (lit 0 0) "linkstate" EmptyString) PC_Status;
  mkDesc 19 "Net_Session_Drops" T_U32 ReadOnly Volatile 0 (lit 0 0) kDatapointUnbounded kDatapointUnbounded
    (mkMeta EmptyString (-1) (lit 0 0) EmptyString EmptyString) PC_Status;
  mkDesc 20 "Net_Send_Fail_Count" T_U32 ReadOnly Volatile 0 (lit 0 0) kDatapointUnbounded kDatapointUnbounded
    (mkMeta EmptyString (-1) (lit 0 0) EmptyString EmptyString) PC_Status;
  mkDesc 21 "Net_Offline_Seconds" T_U32 ReadOnly Volatile 0 (lit 0 0) kDatapointUnbounded kDatapointUnbounded
    (mkMeta "s" (-1) (lit 0 0) EmptyString EmptyString) PC_Status;
  mkDesc 22 "Net_Last_Offline_S" T_U32 ReadOnly Volatile 0 (lit 0 0) kDatapointUnbounded kDatapointUnbounded
    (mkMeta "s" (-1) (lit 0 0) EmptyString EmptyString) PC_Status;
  mkDesc 23 "Ambient_Temperature" T_F32 ReadOnly Volatile 0 (lit 0 0) kDatapointUnbounded kDatapointUnbounded
    (mkMeta "°C" 1 (lit 2 1) EmptyString EmptyString) PC_Status;
  mkDesc 24 "Ambient_Humidity" T_F32 ReadOnly Volatile 0 (lit 0 0) kDatapointUnbounded kDatapointUnbounded
    (mkMeta "%rH" 1 (lit 1 0) EmptyString EmptyString) PC_Status;
  mkDesc 25 "Fon_Current_Pressure" T_F32 ReadOnly Volatile 0 (lit 0 0) kDatapointUnbounded kDatapointUnbounded
    (mkMeta "bar" 2 (lit 5 2) EmptyString EmptyString) PC_Realtime;
  mkDesc 26 "Fon_Sensor_Voltage_mV" T_U32 ReadOnly Volatile 0 (lit 0 0) kDatapointUnbounded kDatapointUnbounded
    (mkMeta "mV" (-1) (lit 0 0) EmptyString EmptyString) PC_Status;
  mkDesc 27 "Fon_Current_State" T_Enum ReadOnly Volatile 0 (lit 0 0) kDatapointUnbounded kDatapointUnbounded
    (mkMeta EmptyString (-1) (lit 0 0) "state" EmptyString) PC_Realtime;
  mkDesc 28 "Fon_Relay_Output" T_Bool ReadOnly Volatile 0 (lit 0 0) kDatapointUnbounded kDatapointUnbounded
    (mkMeta EmptyString (-1) (lit 0 0) "onoff" EmptyString) PC_Realtime;
  mkDesc 29 "Fon_Run_Time" T_U32 ReadOnly Volatile 0 (lit 0 0) kDatapointUnbounded kDatapointUnbounded
    (mkMeta "s" (-1) (lit 0 0) EmptyString EmptyString) PC_Realtime;
  mkDesc 30 "Fon_Cycles_Total" T_U32 ReadOnly Volatile 0 (lit 0 0) kDatapointUnbounded kDatapointUnbounded
    (mkMeta EmptyString (-1) (lit 0 0) EmptyString EmptyString) PC_Status;
  mkDesc 31 "Fon_Remaining_Time" T_U32 ReadOnly Volatile 0 (lit 0 0) kDatapointUnbounded kDatapointUnbounded
    (mkMeta "s" (-1) (lit 0 0) EmptyString EmptyString) PC_Realtime;
  mkDesc 32 "Fon_Pressure_Filtered" T_F32 ReadOnly Volatile 0 (lit 0 0) kDatapointUnbounded kDatapointUnbounded
    (mkMeta "bar" 2 (lit 5 2) EmptyString EmptyString) PC_Realtime;
  mkDesc 33 "Fon_Pressure_Slope" T_F32 ReadOnly Volatile 0 (lit 0 0) kDatapointUnbounded kDatapointUnbounded
    (mkMeta "bar/s" 3 (lit 1 2) EmptyString EmptyString) PC_Realtime;
  mkDesc 34 "Fon_Demand_State" T_Enum ReadOnly Volatile 0 (lit 0 0) kDatapointUnbounded kDatapointUnbounded
    (mkMeta EmptyString (-1) (lit 0 0) "demand" EmptyString) PC_Realtime;
  mkDesc 35 "Fon_Anomaly_Score" T_U16 ReadOnly Volatile 0 (lit 0 0) kDatapointUnbounded kDatapointUnbounded
    (mkMeta EmptyString (-1) (lit 0 0) EmptyString EmptyString) PC_Status;
  mkDesc 36 "Fon_Event_Duration" T_U32 ReadOnly Volatile 0 (lit 0 0) kDatapointUnbounded kDatapointUnbounded
    (mkMeta "s" (-1) (lit 0 0) EmptyString EmptyString) PC_Status;
  mkDesc 37 "Fon_Est_Flow_L_Min" T_F32 ReadOnly Volatile 0 (lit 0 0) kDatapointUnbounded kDatapointUnbounded
    (mkMeta "l/min" 1 (lit 1 1) EmptyString EmptyString) PC_Status;
  mkDesc 38 "Fon_Est_Volume_Total" T_F32 ReadOnly Volatile 0 (lit 0 0) kDatapointUnbounded kDatapointUnbounded
    (mkMeta "l" 1 (lit 5 1) EmptyString EmptyString) PC_Status;
  mkDesc 39 "Fon_Fault_Code" T_U8 ReadOnly Volatile 0 (lit 0 0) kDatapointUnbounded kDatapointUnbounded
    (mkMeta EmptyString (-1) (lit 0 0) "fault" EmptyString) PC_Realtime;
  mkDesc 40 "Fon_Starts_Per_Hour" T_U8 ReadOnly Volatile 0 (lit 0 0) kDatapointUnbounded kDatapointUnbounded
    (mkMeta "/h" (-1) (lit 0 0) EmptyString EmptyString) PC_Status;
  mkDesc 41 "Fon_Sensor_Err_Count" T_U32 ReadOnly Volatile 0 (lit 0 0) kDatapointUnbounded kDatapointUnbounded
    (mkMeta EmptyString (-1) (lit 0 0) EmptyString EmptyString) PC_Status;
  mkDesc 42 "Fon_Sensor_Noise_mV" T_U16 ReadOnly Volatile 0 (lit 0 0) kDatapointUnbounded kDatapointUnbounded
    (mkMeta "mV" (-1) (lit 0 0) EmptyString EmptyString) PC_Status;
  mkDesc 43 "Fon_Fault_Ack" T_U8 ReadWrite Volatile 0 (lit 0 0) (lit 0 0) (lit 1 0)
    (mkMeta EmptyString (-1) (lit 0 0) EmptyString EmptyString) PC_Status;
  mkDesc 44 "Fon_Event_Label" T_U8 ReadWrite Volatile 0 (lit 0 0) (lit 0 0) (lit 7 0)
    (mkMeta EmptyString (-1) (lit 0 0) EmptyString EmptyString) PC_Status;
  mkDesc 45 "Fon_Pressure_Manual" T_Bool ReadWrite Volatile 0 (lit 0 0) kDatapointUnbounded kDatapointUnbounded
    (mkMeta EmptyString (-1) (lit 0 0) "onoff" EmptyString) PC_Realtime;
  mkDesc 46 "Fon_Pressure_Value" T_F32 ReadWrite Volatile 0 (lit 0 0) (lit 0 0) (lit 100 0)
    (mkMeta "bar" 2 (lit 5 2) EmptyString EmptyString) PC_Realtime;
  mkDesc 47 "Fon_Min_Pressure" T_F32 ReadWrite Nvs 101 (lit 2 0) (lit 0 0) (lit 10 0)
    (mkMeta "bar" 2 (lit 0 0) EmptyString EmptyString) PC_Config;
  mkDesc 48 "Fon_Max_Pressure" T_F32 ReadWrite Nvs 102 (lit 35 1) (lit 0 0) (lit 10 0)
    (mkMeta "bar" 2 (lit 0 0) EmptyString EmptyString) PC_Config;
  mkDesc 49 "Fon_Alert_High_Pressure" T_F32 ReadWrite Nvs 103 (lit 45 1) (lit 0 0) (lit 12 0)
    (mkMeta "bar" 2 (lit 0 0) EmptyString EmptyString) PC_Config;
  mkDesc 50 "Fon_Alert_Low_Pressure" T_F32 ReadWrite Nvs 104 (lit 3 1) (lit 0 0) (lit 10 0)
    (mkMeta "bar" 2 (lit 0 0) EmptyString EmptyString) PC_Config;
  mkDesc 51 "Fon_Min_On_Time" T_U16 ReadWrite Nvs 105 (lit 30 0) (lit 0 0) (lit 3600 0)
    (mkMeta "s" (-1) (lit 0 0) EmptyString EmptyString) PC_Config;
  mkDesc 52 "Fon_Max_On_Time" T_U16 ReadWrite Nvs 106 (lit 300 0) (lit 10 0) (lit 65535 0)
    (mkMeta "s" (-1) (lit 0 0) EmptyString EmptyString) PC_Config;
  mkDesc 53 "Fon_Dry_Run_Detect_Time" T_U16 ReadWrite Nvs 107 (lit 30 0) (lit 1 0) (lit 3600 0)
    (mkMeta "s" (-1) (lit 0 0) EmptyString EmptyString) PC_Config].

Definition kDatapointDescriptors_1 : list DatapointDescriptor := [
  mkDesc 54 "Fon_Dry_Run_Min_Rise" T_U16 ReadWrite Nvs 108 (lit 100 0) (lit 0 0) (lit 10000 0)
    (mkMeta EmptyString (-1) (lit 0 0) EmptyString EmptyString) PC_Config;
  mkDesc 55 "Fon_Check_Valve_Timeout" T_U16 ReadWrite Nvs 109 (lit 10 0) (lit 1 0) (lit 3600 0)
    (mkMeta "s" (-1) (lit 0 0) EmptyString EmptyString) PC_Config;
  mkDesc 56 "Fon_Pressure_Drop_Rate" T_U16 ReadWrite Nvs 110 (lit 500 0) (lit 0 0) (lit 65535 0)
    (mkMeta EmptyString (-1) (lit 0 0) EmptyString EmptyString) PC_Config;
  mkDesc 57 "Fon_Report_Interval" T_U16 ReadWrite Nvs 111 (lit 10 0) (lit 1 0) (lit 3600 0)
    (mkMeta EmptyString (-1) (lit 0 0) EmptyString EmptyString) PC_Config;
  mkDesc 58 "Fon_Sensor_Offset" T_I16 ReadWrite Nvs 112 (lit 0 0) (lit (-5000) 0) (lit 5000 0)
    (mkMeta EmptyString (-1) (lit 0 0) EmptyString EmptyString) PC_Config;
  mkDesc 59 "Fon_Sensor_Scale" T_F32 ReadWrite Nvs 113 (lit 1 0) kDatapointUnbounded kDatapointUnbounded
    (mkMeta EmptyString (-1) (lit 0 0) EmptyString EmptyString) PC_Config;
  mkDesc 60 "Fon_Sensor_Range_Bar" T_F32 ReadWrite Nvs 114 (lit 3447 2) (lit 1 1) (lit 100 0)
    (mkMeta "bar" 2 (lit 0 0) EmptyString EmptyString) PC_Config;
  mkDesc 61 "Fon_Min_Off_Time" T_U16 ReadWrite Nvs 115 (lit 30 0) (lit 0 0) (lit 3600 0)
    (mkMeta "s" (-1) (lit 0 0) EmptyString EmptyString) PC_Config;
  mkDesc 62 "Fon_Filter_Alpha" T_F32 ReadWrite Nvs 116 (lit 1 1) (lit 1 2) (lit 1 0)
    (mkMeta EmptyString (-1) (lit 0 0) EmptyString EmptyString) PC_Config;
  mkDesc 63 "Fon_Stable_Slope" T_F32 ReadWrite Nvs 117 (lit 2 2) (lit 1 3) (lit 1 0)
    (mkMeta EmptyString (-1) (lit 0 0) EmptyString EmptyString) PC_Config;
  mkDesc 64 "Fon_Max_Starts_Per_Hour" T_U8 ReadWrite Nvs 118 (lit 10 0) (lit 1 0) (lit 16 0)
    (mkMeta EmptyString (-1) (lit 0 0) EmptyString EmptyString) PC_Config;
  mkDesc 65 "Fon_Hand_Min_Pressure" T_F32 ReadWrite Nvs 119 (lit 17 1) (lit 0 0) (lit 100 0)
    (mkMeta "bar" 2 (lit 0 0) EmptyString EmptyString) PC_Config;
  mkDesc 66 "Fon_Hand_Max_Pressure" T_F32 ReadWrite Nvs 120 (lit 2 0) (lit 0 0) (lit 100 0)
    (mkMeta "bar" 2 (lit 0 0) EmptyString EmptyString) PC_Config;
  mkDesc 67 "Fon_Tank_Min_Pressure" T_F32 ReadWrite Nvs 121 (lit 12 1) (lit 0 0) (lit 100 0)
    (mkMeta "bar" 2 (lit 0 0) EmptyString EmptyString) PC_Config;
  mkDesc 68 "Fon_Tank_Max_Pressure" T_F32 ReadWrite Nvs 122 (lit 16 1) (lit 0 0) (lit 100 0)
    (mkMeta "bar" 2 (lit 0 0) EmptyString EmptyString) PC_Config;
  mkDesc 69 "Fon_Hand_Max_Duration" T_U16 ReadWrite Nvs 123 (lit 20 0) (lit 1 0) (lit 1440 0)
    (mkMeta "min" (-1) (lit 0 0) EmptyString EmptyString) PC_Config;
  mkDesc 70 "Fon_Tank_Max_Duration" T_U16 ReadWrite Nvs 124 (lit 12 0) (lit 1 0) (lit 1440 0)
    (mkMeta "min" (-1) (lit 0 0) EmptyString EmptyString) PC_Config;
  mkDesc 71 "Fon_Unknown_Max_Duration" T_U16 ReadWrite Nvs 125 (lit 10 0) (lit 1 0) (lit 1440 0)
    (mkMeta "min" (-1) (lit 0 0) EmptyString EmptyString) PC_Config;
  mkDesc 72 "Fon_Flow_K_Hand" T_F32 ReadWrite Nvs 126 (lit 0 0) (lit 0 0) (lit 1000 0)
    (mkMeta EmptyString (-1) (lit 0 0) EmptyString EmptyString) PC_Config;
  mkDesc 73 "Fon_Flow_K_Tank" T_F32 ReadWrite Nvs 127 (lit 0 0) (lit 0 0) (lit 1000 0)
    (mkMeta EmptyString (-1) (lit 0 0) EmptyString EmptyString) PC_Config;
  mkDesc 74 "Network_SSID" T_Str ReadWrite Nvs 201 (lit 0 0) kDatapointUnbounded kDatapointUnbounded
    (mkMeta EmptyString (-1) (lit 0 0) EmptyString EmptyString) PC_Config;
  mkDesc 75 "Network_Password" T_Str ReadWrite Nvs 202 (lit 0 0) kDatapointUnbounded kDatapointUnbounded
    (mkMeta EmptyString (-1) (lit 0 0) EmptyString EmptyString) PC_Disabled;
  mkDesc 76 "Network_Server" T_Str ReadWrite Nvs 203 (lit 0 0) kDatapointUnbounded kDatapointUnbounded
    (mkMeta EmptyString (-1) (lit 0 0) EmptyString EmptyString) PC_Config;
  mkDesc 77 "Network_Server_Port" T_U16 ReadWrite Nvs 204 (lit 8443 0) (lit 1 0) (lit 65535 0)
    (mkMeta EmptyString (-1) (lit 0 0) EmptyString EmptyString) PC_Config;
  mkDesc 78 "Network_DHCP" T_Bool ReadWrite Nvs 205 (lit 1 0) kDatapointUnbounded kDatapointUnbounded
    (mkMeta EmptyString (-1) (lit 0 0) "dhcp" EmptyString) PC_Config;
  mkDesc 79 "Network_IP_Address" T_Str ReadWrite Nvs 206 (lit 0 0) kDatapointUnbounded kDatapointUnbounded
    (mkMeta EmptyString (-1) (lit 0 0) EmptyString EmptyString) PC_Config;
  mkDesc 80 "Network_Subnetmask" T_Str ReadWrite Nvs 207 (lit 0 0) kDatapointUnbounded kDatapointUnbounded
    (mkMeta EmptyString (-1) (lit 0 0) EmptyString EmptyString) PC_Config;
  mkDesc 81 "Network_Gateway" T_Str ReadWrite Nvs 208 (lit 0 0) kDatapointUnbounded kDatapointUnbounded
    (mkMeta EmptyString (-1) (lit 0 0) EmptyString EmptyString) PC_Config;
  mkDesc 82 "Net_PS_Override" T_U8 ReadWrite Nvs 210 (lit 0 0) (lit 0 0) (lit 2 0)
    (mkMeta EmptyString (-1) (lit 0 0) EmptyString EmptyString) PC_Config;
  mkDesc 83 "Backup_DHCP" T_Bool ReadOnly Nvs 301 (lit 1 0) kDatapointUnbounded kDatapointUnbounded
    (mkMeta EmptyString (-1) (lit 0 0) "dhcp" EmptyString) PC_Config;
  mkDesc 84 "Backup_IP_Address" T_Str ReadOnly Nvs 302 (lit 0 0) kDatapointUnbounded kDatapointUnbounded
    (mkMeta EmptyString (-1) (lit 0 0) EmptyString EmptyString) PC_Config;
  mkDesc 85 "Backup_Subnetmask" T_Str ReadOnly Nvs 303 (lit 0 0) kDatapointUnbounded kDatapointUnbounded
    (mkMeta EmptyString (-1) (lit 0 0) EmptyString EmptyString) PC_Config;
  mkDesc 86 "Backup_Gateway" T_Str ReadOnly Nvs 304 (lit 0 0) kDatapointUnbounded kDatapointUnbounded
    (mkMeta EmptyString (-1) (lit 0 0) EmptyString EmptyString) PC_Config;
  mkDesc 87 "Backup_Server" T_Str ReadOnly Nvs 305 (lit 0 0) kDatapointUnbounded kDatapointUnbounded
    (mkMeta EmptyString (-1) (lit 0 0) EmptyString EmptyString) PC_Config;
  mkDesc 88 "Backup_Server_Port" T_U16 ReadOnly Nvs 306 (lit 8443 0) kDatapointUnbounded kDatapointUnbounded
    (mkMeta EmptyString (-1) (lit 0 0) EmptyString EmptyString) PC_Config;
  mkDesc 89 "Backup_SSID" T_Str ReadOnly Nvs 307 (lit 0 0) kDatapointUnbounded kDatapointUnbounded
    (mkMeta EmptyString (-1) (lit 0 0) EmptyString EmptyString) PC_Config;
  mkDesc 90 "Backup_Password" T_Str ReadOnly Nvs 308 (lit 0 0) kDatapointUnbounded kDatapointUnbounded
    (mkMeta EmptyString (-1) (lit 0 0) EmptyString EmptyString) PC_Disabled;
  mkDesc 91 "Log_Enabled" T_Bool ReadWrite Nvs 401 (lit 1 0) kDatapointUnbounded kDatapointUnbounded
    (mkMeta EmptyString (-1) (lit 0 0) EmptyString EmptyString) PC_Config;
  mkDesc 92 "Log_Runtime_Level" T_U8 ReadWrite Nvs 402 (lit 3 0) (lit 0 0) (lit 5 0)
    (mkMeta EmptyString (-1) (lit 0 0) EmptyString EmptyString) PC_Config;
  mkDesc 93 "Log_Flash_Level" T_U8 ReadWrite Nvs 403 (lit 2 0) (lit 0 0) (lit 5 0)
    (mkMeta EmptyString (-1) (lit 0 0) EmptyString EmptyString) PC_Config;
  mkDesc 94 "Network_Save" T_U8 ReadWrite Volatile 0 (lit 0 0) (lit 0 0) (lit 4 0)
    (mkMeta EmptyString (-1) (lit 0 0) EmptyString EmptyString) PC_Disabled;
  mkDesc 95 "Network_Trial_State" T_U8 ReadOnly Volatile 0 (lit 0 0) kDatapointUnbounded kDatapointUnbounded
    (mkMeta EmptyString (-1) (lit 0 0) "trial" EmptyString) PC_Config;
  mkDesc 96 "Log_Next_Seq" T_U32 ReadOnly Volatile 0 (lit 0 0) kDatapointUnbounded kDatapointUnbounded
    (mkMeta EmptyString (-1) (lit 0 0) EmptyString EmptyString) PC_Status;
  mkDesc 97 "Log_Dropped" T_U32 ReadOnly Volatile 0 (lit 0 0) kDatapointUnbounded kDatapointUnbounded
    (mkMeta EmptyString (-1) (lit 0 0) EmptyString EmptyString) PC_Status;
  mkDesc 98 "Log_Dropped_Flash" T_U32 ReadOnly Volatile 0 (lit 0 0) kDatapointUnbounded kDatapointUnbounded
    (mkMeta EmptyString (-1) (lit 0 0) EmptyString EmptyString) PC_Status;
  mkDesc 99 "Log_Prev_Boot_Available" T_Bool ReadOnly Volatile 0 (lit 0 0) kDatapointUnbounded kDatapointUnbounded
    (mkMeta EmptyString (-1) (lit 0 0) EmptyString EmptyString) PC_Status;
  mkDesc 100 "Log_Command" T_U8 ReadWrite Volatile 0 (lit 0 0) (lit 0 0) (lit 3 0)
    (mkMeta EmptyString (-1) (lit 0 0) EmptyString EmptyString) PC_Disabled;
  mkDesc 101 "Pressure_Hist_Next_Seq" T_U32 ReadOnly Volatile 0 (lit 0 0) kDatapointUnbounded kDatapointUnbounded
    (mkMeta EmptyString (-1) (lit 0 0) EmptyString EmptyString) PC_Status;
  mkDesc 102 "Pressure_Hist_Overwritten" T_U32 ReadOnly Volatile 0 (lit 0 0) kDatapointUnbounded kDatapointUnbounded
    (mkMeta EmptyString (-1) (lit 0 0) EmptyString EmptyString) PC_Status;
  mkDesc 103 "Pressure_Hist_Highwater" T_U32 ReadOnly Volatile 0 (lit 0 0) kDatapointUnbounded kDatapointUnbounded
    (mkMeta EmptyString (-1) (lit 0 0) EmptyString EmptyString) PC_Status;
  mkDesc 104 "System_WD_Last_Channel" T_U8 ReadOnly Volatile 0 (lit 0 0) kDatapointUnbounded kDatapointUnbounded
    (mkMeta EmptyString (-1) (lit 0 0) EmptyString EmptyString) PC_Status;
  mkDesc 105 "System_WD_Last_Checkpoint" T_U16 ReadOnly Volatile 0 (lit 0 0) kDatapointUnbounded kDatapointUnbounded
    (mkMeta EmptyString (-1) (lit 0 0) EmptyString EmptyString) PC_Status;
  mkDesc 106 "System_WD_Reboot_Count" T_U8 ReadOnly Volatile 0 (lit 0 0) kDatapointUnbounded kDatapointUnbounded
    (mkMeta EmptyString (-1) (lit 0 0) EmptyString EmptyString) PC_Status].

Definition kDatapointDescriptors : list DatapointDescriptor :=
  kDatapointDescriptors_0 ++ kDatapointDescriptors_1.

(** ** Typed constants *)
Module dp.
Definition Device_Serial_Number : Datapoint := mkDatapoint CT_u64 ReadOnly Static 0 "Device_Serial_Number".
Definition Device_HW_Version : Datapoint := mkDatapoint CT_string ReadOnly Static 1 "Device_HW_Version".
Definition Device_SW_Version : Datapoint := mkDatapoint CT_string ReadOnly Static 2 "Device_SW_Version".
Definition Device_Build_Version : Datapoint := mkDatapoint CT_u64 ReadOnly Static 3 "Device_Build_Version".
Definition System_Temperature : Datapoint := mkDatapoint CT_float ReadOnly Volatile 4 "System_Temperature".
Definition System_Utilization : Datapoint := mkDatapoint CT_u8 ReadOnly Volatile 5 "System_Utilization".
Definition System_Memory_Free : Datapoint := mkDatapoint CT_u32 ReadOnly Volatile 6 "System_Memory_Free".
Definition System_Min_Memory_Free : Datapoint := mkDatapoint CT_u32 ReadOnly Volatile 7 "System_Min_Memory_Free".
Definition System_Largest_Free_Block : Datapoint := mkDatapoint CT_u32 ReadOnly Volatile 8 "System_Largest_Free_Block".
Definition System_Flash_Free : Datapoint := mkDatapoint CT_u32 ReadOnly Volatile 9 "System_Flash_Free".
Definition System_RSSI : Datapoint := mkDatapoint CT_i8 ReadOnly Volatile 10 "System_RSSI".
Definition System_Uptime : Datapoint := mkDatapoint CT_u32 ReadOnly Volatile 11 "System_Uptime".
Definition System_Min_Stack_Free : Datapoint := mkDatapoint CT_u32 ReadOnly Volatile 12 "System_Min_Stack_Free".
Definition System_Reconnect_Count : Datapoint := mkDatapoint CT_u32 ReadOnly Volatile 13 "System_Reconnect_Count".
Definition System_Reset_Reason : Datapoint := mkDatapoint CT_u8 ReadOnly Volatile 14 "System_Reset_Reason".
Definition System_Power_Mode : Datapoint := mkDatapoint CT_u8 ReadOnly Volatile 15 "System_Power_Mode".
Definition System_Event_Drops : Datapoint := mkDatapoint CT_u32 ReadOnly Volatile 16 "System_Event_Drops".
Definition Net_Link_Score : Datapoint := mkDatapoint CT_u8 ReadOnly Volatile 17 "Net_Link_Score".
Definition Net_Link_State : Datapoint := mkDatapoint CT_u8 ReadOnly Volatile 18 "Net_Link_State".
Definition Net_Session_Drops : Datapoint := mkDatapoint CT_u32 ReadOnly Volatile 19 "Net_Session_Drops".
Definition Net_Send_Fail_Count : Datapoint := mkDatapoint CT_u32 ReadOnly Volatile 20 "Net_Send_Fail_Count".
Definition Net_Offline_Seconds : Datapoint := mkDatapoint CT_u32 ReadOnly Volatile 21 "Net_Offline_Seconds".
Definition Net_Last_Offline_S : Datapoint := mkDatapoint CT_u32 ReadOnly Volatile 22 "Net_Last_Offline_S".
Definition Ambient_Temperature : Datapoint := mkDatapoint CT_float ReadOnly Volatile 23 "Ambient_Temperature".
Definition Ambient_Humidity : Datapoint := mkDatapoint CT_float ReadOnly Volatile 24 "Ambient_Humidity".
Definition Fon_Current_Pressure : Datapoint := mkDatapoint CT_float ReadOnly Volatile 25 "Fon_Current_Pressure".
Definition Fon_Sensor_Voltage_mV : Datapoint := mkDatapoint CT_u32 ReadOnly Volatile 26 "Fon_Sensor_Voltage_mV".
Definition Fon_Current_State : Datapoint := mkDatapoint CT_u8 ReadOnly Volatile 27 "Fon_Current_State".
Definition Fon_Relay_Output : Datapoint := mkDatapoint CT_bool ReadOnly Volatile 28 "Fon_Relay_Output".
Definition Fon_Run_Time : Datapoint := mkDatapoint CT_u32 ReadOnly Volatile 29 "Fon_Run_Time".
Definition Fon_Cycles_Total : Datapoint := mkDatapoint CT_u32 ReadOnly Volatile 30 "Fon_Cycles_Total".
Definition Fon_Remaining_Time : Datapoint := mkDatapoint CT_u32 ReadOnly Volatile 31 "Fon_Remaining_Time".
Definition Fon_Pressure_Filtered : Datapoint := mkDatapoint CT_float ReadOnly Volatile 32 "Fon_Pressure_Filtered".
Definition Fon_Pressure_Slope : Datapoint := mkDatapoint CT_float ReadOnly Volatile 33 "Fon_Pressure_Slope".
Definition Fon_Demand_State : Datapoint := mkDatapoint CT_u8 ReadOnly Volatile 34 "Fon_Demand_State".
Definition Fon_Anomaly_Score : Datapoint := mkDatapoint CT_u16 ReadOnly Volatile 35 "Fon_Anomaly_Score".
Definition Fon_Event_Duration : Datapoint := mkDatapoint CT_u32 ReadOnly Volatile 36 "Fon_Event_Duration".
Definition Fon_Est_Flow_L_Min : Datapoint := mkDatapoint CT_float ReadOnly Volatile 37 "Fon_Est_Flow_L_Min".
Definition Fon_Est_Volume_Total : Datapoint := mkDatapoint CT_float ReadOnly Volatile 38 "Fon_Est_Volume_Total".
Definition Fon_Fault_Code : Datapoint := mkDatapoint CT_u8 ReadOnly Volatile 39 "Fon_Fault_Code".
Definition Fon_Starts_Per_Hour : Datapoint := mkDatapoint CT_u8 ReadOnly Volatile 40 "Fon_Starts_Per_Hour".
Definition Fon_Sensor_Err_Count : Datapoint := mkDatapoint CT_u32 ReadOnly Volatile 41 "Fon_Sensor_Err_Count".
Definition Fon_Sensor_Noise_mV : Datapoint := mkDatapoint CT_u16 ReadOnly Volatile 42 "Fon_Sensor_Noise_mV".
Definition Fon_Fault_Ack : Datapoint := mkDatapoint CT_u8 ReadWrite Volatile 43 "Fon_Fault_Ack".
Definition Fon_Event_Label : Datapoint := mkDatapoint CT_u8 ReadWrite Volatile 44 "Fon_Event_Label".
Definition Fon_Pressure_Manual : Datapoint := mkDatapoint CT_bool ReadWrite Volatile 45 "Fon_Pressure_Manual".
Definition Fon_Pressure_Value : Datapoint := mkDatapoint CT_float ReadWrite Volatile 46 "Fon_Pressure_Value".
Definition Fon_Min_Pressure : Datapoint := mkDatapoint CT_float ReadWrite Nvs 47 "Fon_Min_Pressure".
Definition Fon_Max_Pressure : Datapoint := mkDatapoint CT_float ReadWrite Nvs 48 "Fon_Max_Pressure".
Definition Fon_Alert_High_Pressure : Datapoint := mkDatapoint CT_float ReadWrite Nvs 49 "Fon_Alert_High_Pressure".
Definition Fon_Alert_Low_Pressure : Datapoint := mkDatapoint CT_float ReadWrite Nvs 50 "Fon_Alert_Low_Pressure".
Definition Fon_Min_On_Time : Datapoint := mkDatapoint CT_u16 ReadWrite Nvs 51 "Fon_Min_On_Time".
Definition Fon_Max_On_Time : Datapoint := mkDatapoint CT_u16 ReadWrite Nvs 52 "Fon_Max_On_Time".
Definition Fon_Dry_Run_Detect_Time : Datapoint := mkDatapoint CT_u16 ReadWrite Nvs 53 "Fon_Dry_Run_Detect_Time".
Definition Fon_Dry_Run_Min_Rise : Datapoint := mkDatapoint CT_u16 ReadWrite Nvs 54 "Fon_Dry_Run_Min_Rise".
Definition Fon_Check_Valve_Timeout : Datapoint := mkDatapoint CT_u16 ReadWrite Nvs 55 "Fon_Check_Valve_Timeout".
Definition Fon_Pressure_Drop_Rate : Datapoint := mkDatapoint CT_u16 ReadWrite Nvs 56 "Fon_Pressure_Drop_Rate".
Definition Fon_Report_Interval : Datapoint := mkDatapoint CT_u16 ReadWrite Nvs 57 "Fon_Report_Interval".
Definition Fon_Sensor_Offset : Datapoint := mkDatapoint CT_i16 ReadWrite Nvs 58 "Fon_Sensor_Offset".
Definition Fon_Sensor_Scale : Datapoint := mkDatapoint CT_float ReadWrite Nvs 59 "Fon_Sensor_Scale".
Definition Fon_Sensor_Range_Bar : Datapoint := mkDatapoint CT_float ReadWrite Nvs 60 "Fon_Sensor_Range_Bar".
Definition Fon_Min_Off_Time : Datapoint := mkDatapoint CT_u16 ReadWrite Nvs 61 "Fon_Min_Off_Time".
Definition Fon_Filter_Alpha : Datapoint := mkDatapoint CT_float ReadWrite Nvs 62 "Fon_Filter_Alpha".
Definition Fon_Stable_Slope : Datapoint := mkDatapoint CT_float ReadWrite Nvs 63 "Fon_Stable_Slope".
Definition Fon_Max_Starts_Per_Hour : Datapoint := mkDatapoint CT_u8 ReadWrite Nvs 64 "Fon_Max_Starts_Per_Hour".
Definition Fon_Hand_Min_Pressure : Datapoint := mkDatapoint CT_float ReadWrite Nvs 65 "Fon_Hand_Min_Pressure".
Definition Fon_Hand_Max_Pressure : Datapoint := mkDatapoint CT_float ReadWrite Nvs 66 "Fon_Hand_Max_Pressure".
Definition Fon_Tank_Min_Pressure : Datapoint := mkDatapoint CT_float ReadWrite Nvs 67 "Fon_Tank_Min_Pressure".
Definition Fon_Tank_Max_Pressure : Datapoint := mkDatapoint CT_float ReadWrite Nvs 68 "Fon_Tank_Max_Pressure".
Definition Fon_Hand_Max_Duration : Datapoint := mkDatapoint CT_u16 ReadWrite Nvs 69 "Fon_Hand_Max_Duration".
Definition Fon_Tank_Max_Duration : Datapoint := mkDatapoint CT_u16 ReadWrite Nvs 70 "Fon_Tank_Max_Duration".
Definition Fon_Unknown_Max_Duration : Datapoint := mkDatapoint CT_u16 ReadWrite Nvs 71 "Fon_Unknown_Max_Duration".
Definition Fon_Flow_K_Hand : Datapoint := mkDatapoint CT_float ReadWrite Nvs 72 "Fon_Flow_K_Hand".
Definition Fon_Flow_K_Tank : Datapoint := mkDatapoint CT_float ReadWrite Nvs 73 "Fon_Flow_K_Tank".
Definition Network_SSID : Datapoint := mkDatapoint CT_string ReadWrite Nvs 74 "Network_SSID".
Definition Network_Password : Datapoint := mkDatapoint CT_string ReadWrite Nvs 75 "Network_Password".
Definition Network_Server : Datapoint := mkDatapoint CT_string ReadWrite Nvs 76 "Network_Server".
Definition Network_Server_Port : Datapoint := mkDatapoint CT_u16 ReadWrite Nvs 77 "Network_Server_Port".
Definition Network_DHCP : Datapoint := mkDatapoint CT_bool ReadWrite Nvs 78 "Network_DHCP".
Definition Network_IP_Address : Datapoint := mkDatapoint CT_string ReadWrite Nvs 79 "Network_IP_Address".
Definition Network_Subnetmask : Datapoint := mkDatapoint CT_string ReadWrite Nvs 80 "Network_Subnetmask".
Definition Network_Gateway : Datapoint := mkDatapoint CT_string ReadWrite Nvs 81 "Network_Gateway".
Definition Net_PS_Override : Datapoint := mkDatapoint CT_u8 ReadWrite Nvs 82 "Net_PS_Override".
Definition Backup_DHCP : Datapoint := mkDatapoint CT_bool ReadOnly Nvs 83 "Backup_DHCP".
Definition Backup_IP_Address : Datapoint := mkDatapoint CT_string ReadOnly Nvs 84 "Backup_IP_Address".
Definition Backup_Subnetmask : Datapoint := mkDatapoint CT_string ReadOnly Nvs 85 "Backup_Subnetmask".
Definition Backup_Gateway : Datapoint := mkDatapoint CT_string ReadOnly Nvs 86 "Backup_Gateway".
Definition Backup_Server : Datapoint := mkDatapoint CT_string ReadOnly Nvs 87 "Backup_Server".
Definition Backup_Server_Port : Datapoint := mkDatapoint CT_u16 ReadOnly Nvs 88 "Backup_Server_Port".
Definition Backup_SSID : Datapoint := mkDatapoint CT_string ReadOnly Nvs 89 "Backup_SSID".
Definition Backup_Password : Datapoint := mkDatapoint CT_string ReadOnly Nvs 90 "Backup_Password".
Definition Log_Enabled : Datapoint := mkDatapoint CT_bool ReadWrite Nvs 91 "Log_Enabled".
Definition Log_Runtime_Level : Datapoint := mkDatapoint CT_u8 ReadWrite Nvs 92 "Log_Runtime_Level".
Definition Log_Flash_Level : Datapoint := mkDatapoint CT_u8 ReadWrite Nvs 93 "Log_Flash_Level".
Definition Network_Save : Datapoint := mkDatapoint CT_u8 ReadWrite Volatile 94 "Network_Save".
Definition Network_Trial_State : Datapoint := mkDatapoint CT_u8 ReadOnly Volatile 95 "Network_Trial_State".
Definition Log_Next_Seq : Datapoint := mkDatapoint CT_u32 ReadOnly Volatile 96 "Log_Next_Seq".
Definition Log_Dropped : Datapoint := mkDatapoint CT_u32 ReadOnly Volatile 97 "Log_Dropped".
Definition Log_Dropped_Flash : Datapoint := mkDatapoint CT_u32 ReadOnly Volatile 98 "Log_Dropped_Flash".
Definition Log_Prev_Boot_Available : Datapoint := mkDatapoint CT_bool ReadOnly Volatile 99 "Log_Prev_Boot_Available".
Definition Log_Command : Datapoint := mkDatapoint CT_u8 ReadWrite Volatile 100 "Log_Command".
Definition Pressure_Hist_Next_Seq : Datapoint := mkDatapoint CT_u32 ReadOnly Volatile 101 "Pressure_Hist_Next_Seq".
Definition Pressure_Hist_Overwritten : Datapoint := mkDatapoint CT_u32 ReadOnly Volatile 102 "Pressure_Hist_Overwritten".
Definition Pressure_Hist_Highwater : Datapoint := mkDatapoint CT_u32 ReadOnly Volatile 103 "Pressure_Hist_Highwater".
Definition System_WD_Last_Channel : Datapoint := mkDatapoint CT_u8 ReadOnly Volatile 104 "System_WD_Last_Channel".
Definition System_WD_Last_Checkpoint : Datapoint := mkDatapoint CT_u16 ReadOnly Volatile 105 "System_WD_Last_Checkpoint".
Definition System_WD_Reboot_Count : Datapoint := mkDatapoint CT_u8 ReadOnly Volatile 106 "System_WD_Reboot_Count".
End dp.

Definition typed_constants : list Datapoint := [
  dp.Device_Serial_Number; dp.Device_HW_Version; dp.Device_SW_Version; dp.Device_Build_Version;
  dp.System_Temperature; dp.System_Utilization; dp.System_Memory_Free;
  dp.System_Min_Memory_Free; dp.System_Largest_Free_Block; dp.System_Flash_Free; dp.System_RSSI;
  dp.System_Uptime; dp.System_Min_Stack_Free; dp.System_Reconnect_Count; dp.System_Reset_Reason;
  dp.System_Power_Mode; dp.System_Event_Drops; dp.Net_Link_Score; dp.Net_Link_State;
  dp.Net_Session_Drops; dp.Net_Send_Fail_Count; dp.Net_Offline_Seconds; dp.Net_Last_Offline_S;
  dp.Ambient_Temperature; dp.Ambient_Humidity; dp.Fon_Current_Pressure;
  dp.Fon_Sensor_Voltage_mV; dp.Fon_Current_State; dp.Fon_Relay_Output; dp.Fon_Run_Time;
  dp.Fon_Cycles_Total; dp.Fon_Remaining_Time; dp.Fon_Pressure_Filtered; dp.Fon_Pressure_Slope;
  dp.Fon_Demand_State; dp.Fon_Anomaly_Score; dp.Fon_Event_Duration; dp.Fon_Est_Flow_L_Min;
  dp.Fon_Est_Volume_Total; dp.Fon_Fault_Code; dp.Fon_Starts_Per_Hour; dp.Fon_Sensor_Err_Count;
  dp.Fon_Sensor_Noise_mV; dp.Fon_Fault_Ack; dp.Fon_Event_Label; dp.Fon_Pressure_Manual;
  dp.Fon_Pressure_Value; dp.Fon_Min_Pressure; dp.Fon_Max_Pressure; dp.Fon_Alert_High_Pressure;
  dp.Fon_Alert_Low_Pressure; dp.Fon_Min_On_Time; dp.Fon_Max_On_Time; dp.Fon_Dry_Run_Detect_Time;
  dp.Fon_Dry_Run_Min_Rise; dp.Fon_Check_Valve_Timeout; dp.Fon_Pressure_Drop_Rate;
  dp.Fon_Report_Interval; dp.Fon_Sensor_Offset; dp.Fon_Sensor_Scale; dp.Fon_Sensor_Range_Bar;
  dp.Fon_Min_Off_Time; dp.Fon_Filter_Alpha; dp.Fon_Stable_Slope; dp.Fon_Max_Starts_Per_Hour;
  dp.Fon_Hand_Min_Pressure; dp.Fon_Hand_Max_Pressure; dp.Fon_Tank_Min_Pressure;
  dp.Fon_Tank_Max_Pressure; dp.Fon_Hand_Max_Duration; dp.Fon_Tank_Max_Duration;
  dp.Fon_Unknown_Max_Duration; dp.Fon_Flow_K_Hand; dp.Fon_Flow_K_Tank; dp.Network_SSID;
  dp.Network_Password; dp.Network_Server; dp.Network_Server_Port; dp.Network_DHCP;
  dp.Network_IP_Address; dp.Network_Subnetmask; dp.Network_Gateway; dp.Net_PS_Override;
  dp.Backup_DHCP; dp.Backup_IP_Address; dp.Backup_Subnetmask; dp.Backup_Gateway;
  dp.Backup_Server; dp.Backup_Server_Port; dp.Backup_SSID; dp.Backup_Password; dp.Log_Enabled;
  dp.Log_Runtime_Level; dp.Log_Flash_Level; dp.Network_Save; dp.Network_Trial_State;
  dp.Log_Next_Seq; dp.Log_Dropped; dp.Log_Dropped_Flash; dp.Log_Prev_Boot_Available;
  dp.Log_Command; dp.Pressure_Hist_Next_Seq; dp.Pressure_Hist_Overwritten;
  dp.Pressure_Hist_Highwater; dp.System_WD_Last_Channel; dp.System_WD_Last_Checkpoint;
  dp.System_WD_Reboot_Count].
