(* ===== verification/Catalog.v ===== *)
(** * Catalogue access ([datapoints/catalog.hpp], [catalog.cpp])

    Lookup by wire name and by index, the name selections, and the agreement of
    the three generated data sets. *)
From S2P Require Import Prelude StdMap Errors Float Datapoint Generated.
Local Open Scope Z_scope.

Definition all : list DatapointDescriptor := kDatapointDescriptors.

(** The name index: [emplace] keeps the first entry of a name. *)
Definition find (name : string) : option DatapointDescriptor :=
  List.find (fun d => String.eqb (d_name d) name) kDatapointDescriptors.

(** [array::at]; [None]: [std::out_of_range]. *)
Definition at_index (index : Z) : option DatapointDescriptor :=
  if index <? 0 then None else kDatapointDescriptors !! Z.to_nat index.
Definition at_id (id : DatapointId) : option DatapointDescriptor := at_index (id_index id).
Definition at_dp (dp : Datapoint) : option DatapointDescriptor := at_index (dp_index dp).

Definition collect (predicate : DatapointDescriptor -> bool) : list string :=
  map d_name (List.filter predicate kDatapointDescriptors).
Definition all_names : list string := collect (fun _ => true).
Definition names_with_access (a : Access) : list string :=
  collect (fun d => bool_decide (d_access d = a)).
Definition names_with_persistence (p : Persistence) : list string :=
  collect (fun d => bool_decide (d_persistence d = p)).
Definition names_with_poll_class (p : PollClass) : list string :=
  collect (fun d => bool_decide (d_poll_class d = p)).

(** ** Checks over the whole table *)

Lemma find_In name d : find name = Some d -> d ∈ kDatapointDescriptors /\ d_name d = name.
Proof.
  unfold find. intros H. apply List.find_some in H as [Hin He].
  apply String.eqb_eq in He. by rewrite list_elem_of_In.
Qed.

(** Lifting a boolean check of the table to every lookup. *)
Lemma find_check (P : DatapointDescriptor -> bool) name d :
  forallb P kDatapointDescriptors = true -> find name = Some d -> P d = true.
Proof.
  intros HP Hf. apply find_In in Hf as [Hin _].
  rewrite forallb_forall in HP. by apply HP, list_elem_of_In.
Qed.

Lemma catalog_names_NoDup : NoDup all_names.
Proof. apply (bool_decide_unpack _). vm_compute. exact I. Qed.

Lemma find_of_In d : d ∈ kDatapointDescriptors -> find (d_name d) = Some d.
Proof.
  intros Hin. assert (forall e, e ∈ kDatapointDescriptors -> d_name e = d_name d -> e = d) as Huniq.
  { intros e He Hn. apply list_elem_of_lookup in Hin as [i Hi], He as [j Hj].
    assert (all_names !! i = Some (d_name d)) as Ni.
    { change all_names with (map d_name kDatapointDescriptors).
      by rewrite list_lookup_fmap, Hi. }
    assert (all_names !! j = Some (d_name d)) as Nj.
    { change all_names with (map d_name kDatapointDescriptors).
      by rewrite list_lookup_fmap, Hj, <- Hn. }
    assert (i = j) as -> by (eapply NoDup_lookup; eauto using catalog_names_NoDup). congruence. }
  unfold find. destruct (List.find _ _) as [e|] eqn:E.
  - apply List.find_some in E as [He Hn]. f_equal. apply Huniq; [by apply list_elem_of_In|].
    by apply String.eqb_eq.
  - eapply List.find_none in E; [|apply list_elem_of_In, Hin]. by rewrite String.eqb_refl in E.
Qed.

(** What the generator promises of one typed constant. *)
Definition constant_agrees (dp : Datapoint) : bool :=
  match at_dp dp with
  | Some d =>
      String.eqb (d_name d) (dp_name dp) && (d_index d =? dp_index dp) &&
      bool_decide (d_access d = dp_access dp) &&
      bool_decide (d_persistence d = dp_persistence dp) &&
      bool_decide (datapoint_value_type (d_type d) = dp_type dp)
  | None => false
  end.

(** A descriptor's own consistency: bounds in order, the default within them,
    an NVS slot exactly for the persistent points, bounds only where they are
    checked. *)
Definition descriptor_sane (d : DatapointDescriptor) : bool :=
  (is_nan (d_min d) || is_nan (d_max d) || fle (d_min d) (d_max d)) &&
  (is_nan (d_min d) || fle (d_min d) (d_default d)) &&
  (is_nan (d_max d) || fle (d_default d) (d_max d)) &&
  Bool.eqb (0 <? d_nvs_id d) (bool_decide (d_persistence d = Nvs)) &&
  (numeric d || (is_nan (d_min d) && is_nan (d_max d))).

Lemma constants_agree_check : forallb constant_agrees typed_constants = true.
Proof. vm_compute. reflexivity. Qed.
Lemma descriptors_sane_check : forallb descriptor_sane kDatapointDescriptors = true.
Proof. vm_compute. reflexivity. Qed.

(** The three generated data sets agree: there are 107 descriptors, the
    descriptor at a position carries that index, an id or a typed constant leads
    to the descriptor of its own name, access, persistence and value type, the
    lookup by name finds exactly the descriptor of that name, and every
    descriptor's default lies within its bounds. *)
Theorem catalog_consistent :
  Z.of_nat (length kDatapointDescriptors) = kDatapointCount /\
  (forall i d, kDatapointDescriptors !! i = Some d -> d_index d = Z.of_nat i /\
     find (d_name d) = Some d /\ descriptor_sane d = true) /\
  (forall dp, dp ∈ typed_constants -> exists d, at_dp dp = Some d /\ find (dp_name dp) = Some d /\
     d_access d = dp_access dp /\ d_persistence d = dp_persistence dp /\
     datapoint_value_type (d_type d) = dp_type dp) /\
  map id_index all_ids = map d_index kDatapointDescriptors.
Proof.
  split; [reflexivity|]. split; [|split; [|vm_compute; reflexivity]].
  - intros i d Hi. pose proof (list_elem_of_lookup_2 _ _ _ Hi) as Hin. split; [|split].
    + assert (imap (fun i d => (Z.of_nat i, d_index d)) kDatapointDescriptors =
        imap (fun i _ => (Z.of_nat i, Z.of_nat i)) kDatapointDescriptors) as E by (vm_compute; reflexivity).
      apply (f_equal (fun l => l !! i)) in E. rewrite !list_lookup_imap, Hi in E. cbn in E. congruence.
    + by apply find_of_In.
    + pose proof descriptors_sane_check as H. rewrite forallb_forall in H. by apply H, list_elem_of_In.
  - intros dp Hdp. pose proof constants_agree_check as H. rewrite forallb_forall in H.
    specialize (H dp). rewrite <- list_elem_of_In in H. specialize (H Hdp).
    unfold constant_agrees in H. destruct (at_dp dp) as [d|] eqn:E; [|done].
    rewrite !andb_true_iff, !bool_decide_eq_true, String.eqb_eq in H.
    destruct H as ((((Hn & _) & Ha) & Hp) & Ht). exists d. split; [done|]. rewrite <- Hn.
    split; [|done]. apply find_of_In. unfold at_dp, at_index in E.
    destruct (dp_index dp <? 0); [done|]. by apply list_elem_of_lookup_2 in E.
Qed.
