(* ===== verification/Codec.v ===== *)
(** * Wire codec of datapoint values ([datapoints/codec.hpp], [codec.cpp])

    Wire JSON to typed values and back, the client-side pre-check against the
    descriptor, and the display text.  [strtoull] and [%016llX] are modelled as
    the C library defines them in the C locale. *)
From S2P Require Import Prelude StdMap Errors Float Json Canonical Auth Datapoint Generated Catalog.
From Stdlib Require Import QArith Qpower Lqa.
Local Open Scope Z_scope.

Definition type_mismatch (d : DatapointDescriptor) (detail : string) : Error :=
  validation_error TypeMismatch (d_name d +:+ ": " +:+ detail) (d_name d).

(** ** 64-bit hex text *)

(** [c_str()]: up to the first NUL byte. *)
Fixpoint c_str (s : string) : string :=
  match s with
  | EmptyString => EmptyString
  | String c r => if byte_of c =? 0 then EmptyString else String c (c_str r)
  end.

Fixpoint skip_spaces (s : string) : string :=
  match s with
  | String c r => if isspace c then skip_spaces r else s
  | EmptyString => EmptyString
  end.

(** The digits from the front: their number, their value, what follows. *)
Fixpoint hex_span (s : string) (acc : Z) : Z * Z * string :=
  match s with
  | String c r =>
      match nibble_of c with
      | Some d => let '(n, v, rest) := hex_span r (acc * 16 + d) in (n + 1, v, rest)
      | None => (0, acc, s)
      end
  | EmptyString => (0, acc, EmptyString)
  end.

Definition strip_sign (s : string) : bool * string :=
  match s with
  | String c r => if byte_of c =? 45 then (true, r) else if byte_of c =? 43 then (false, r) else (false, s)
  | EmptyString => (false, s)
  end.

(** An [0x] prefix counts only in front of a digit. *)
Definition strip_0x (s : string) : string :=
  match s with
  | String z (String x (String d r)) =>
      if (byte_of z =? 48) && ((byte_of x =? 120) || (byte_of x =? 88)) &&
         match nibble_of d with Some _ => true | None => false end
      then String d r else s
  | _ => s
  end.

(** [strtoull(s, &end, 16)]: value, rest at [end], out of range; [None] when
    there is nothing to convert ([end == s]).  A minus sign negates modulo
    2^64. *)
Definition strtoull16 (s : string) : option (Z * string * bool) :=
  let '(neg, s1) := strip_sign (skip_spaces s) in
  let '(n, v, rest) := hex_span (strip_0x s1) 0 in
  if n =? 0 then None
  else if 2 ^ 64 <=? v then Some (2 ^ 64 - 1, rest, true)
  else Some (if neg then wrap_u 64 (- v) else v, rest, false).

Definition parse_u64 (d : DatapointDescriptor) (text : string) : Result Z :=
  let failure := Err (type_mismatch d ("not a 64-bit hex value: '" +:+ text +:+ "'")) in
  match strtoull16 (c_str text) with
  | None => failure
  | Some (parsed, rest, erange) =>
      if negb (str_empty rest) || erange then failure else Ok parsed
  end.

Definition hex_digit_upper (d : Z) : string :=
  str1 (ascii_of_N (Z.to_N (if d <? 10 then 48 + d else 55 + d))).
(** [n] upper-case hex digits. *)
Fixpoint hex_upper (n : nat) (z : Z) : string :=
  match n with
  | O => EmptyString
  | S n' => hex_upper n' (z / 16) +:+ hex_digit_upper (z mod 16)
  end.

(** ** From and to JSON *)

(** [narrow<T>] for an integral [T] with limits [lo] and [hi]. *)
Definition narrow (mk : Z -> DatapointValue) (lo hi : Z) (d : DatapointDescriptor)
    (number : float) : Result DatapointValue :=
  if negb (is_finite number) then Err (type_mismatch d "value is not finite") else
  let rounded := nearbyint number in
  if flt rounded (double_of_Z lo) || fgt rounded (double_of_Z hi) then
    Err (validation_error OutOfRange
           (d_name d +:+ ": " +:+ to_string_double number +:+ " does not fit into " +:+
            type_to_string (d_type d)) (d_name d))
  else Ok (mk (trunc_Z rounded)).

Definition value_index_for (t : DatapointType) : nat :=
  match t with
  | T_Bool => 0 | T_U8 => 1 | T_Enum => 1 | T_U16 => 2 | T_U32 => 3 | T_U64 => 4
  | T_I8 => 5 | T_I16 => 6 | T_I32 => 7 | T_F32 => 8 | T_Str => 9
  end.

Definition value_from_json (d : DatapointDescriptor) (j : json) : Result DatapointValue :=
  match d_type d with
  | T_Bool => match j with
              | J_bool b => Ok (V_bool b)
              | _ => Err (type_mismatch d "expected bool") end
  | T_Str => match j with
             | J_str s => Ok (V_string s)
             | _ => Err (type_mismatch d "expected string") end
  | T_U64 => match j with
             | J_str s => let? parsed := parse_u64 d s in Ok (V_u64 parsed)
             | _ => Err (type_mismatch d "expected hex string (U64)") end
  | t =>
      match get_double j with
      | Throw _ => Err (type_mismatch d "expected number")
      | Ret number =>
          match t with
          | T_U8 | T_Enum => narrow V_u8 0 (2 ^ 8 - 1) d number
          | T_U16 => narrow V_u16 0 (2 ^ 16 - 1) d number
          | T_U32 => narrow V_u32 0 (2 ^ 32 - 1) d number
          | T_I8 => narrow V_i8 (- 2 ^ 7) (2 ^ 7 - 1) d number
          | T_I16 => narrow V_i16 (- 2 ^ 15) (2 ^ 15 - 1) d number
          | T_I32 => narrow V_i32 (- 2 ^ 31) (2 ^ 31 - 1) d number
          | T_F32 => Ok (V_float (to_float32 number))
          | _ => Err (type_mismatch d "unsupported type")
          end
      end
  end.

(** One alternative as JSON: 8-bit integers as [int], the other integers in
    their signedness. *)
Definition plain_json (v : DatapointValue) : json :=
  match v with
  | V_bool b => J_bool b
  | V_u8 z | V_i8 z => J_int z
  | V_u16 z | V_u32 z | V_u64 z => J_uint z
  | V_i16 z | V_i32 z => J_int z
  | V_float f => J_float f
  | V_string s => J_str s
  end.

(** [std::get] on the wrong alternative throws. *)
Definition value_to_json (d : DatapointDescriptor) (v : DatapointValue) : outcome json :=
  if bool_decide (d_type d = T_U64) then
    match v with
    | V_u64 z => Ret (J_str (hex_upper 16 z))
    | _ => Throw (Exn_runtime "bad_variant_access")
    end
  else Ret (plain_json v).

(** ** Validation *)

(** The visitor that makes a number of every alternative. *)
Definition as_double (v : DatapointValue) : float :=
  match v with
  | V_bool b => double_of_Z (if b then 1 else 0)
  | V_u8 z | V_u16 z | V_u32 z | V_u64 z | V_i8 z | V_i16 z | V_i32 z => double_of_Z z
  | V_float f => f
  | V_string _ => F_zero false
  end.

Definition slen (s : string) : Z := Z.of_nat (String.length s).

Definition validate (d : DatapointDescriptor) (v : DatapointValue) : Status :=
  if negb (Nat.eqb (value_index v) (value_index_for (d_type d))) then
    Err (type_mismatch d ("value type does not match " +:+ type_to_string (d_type d)))
  else
  match v with
  | V_string text =>
      if kDatapointStringMax <? slen text then
        Err (validation_error ValueTooLong
               (d_name d +:+ ": " +:+ dec_Z (slen text) +:+ " bytes exceed the device limit of " +:+
                dec_Z kDatapointStringMax) (d_name d))
      else ok
  | _ =>
      if negb (numeric d) then ok else
      let number := as_double v in
      let min_bound := to_float32 (d_min d) in
      let max_bound := to_float32 (d_max d) in
      if negb (is_nan min_bound) && flt number min_bound then
        Err (validation_error OutOfRange
               (d_name d +:+ ": " +:+ to_string_double number +:+ " < min " +:+
                to_string_double (d_min d)) (d_name d))
      else if negb (is_nan max_bound) && fgt number max_bound then
        Err (validation_error OutOfRange
               (d_name d +:+ ": " +:+ to_string_double number +:+ " > max " +:+
                to_string_double (d_max d)) (d_name d))
      else ok
  end.

(** [make_value]: lifting a typed value. *)
Definition make_value (d : DatapointDescriptor) (boxed : DatapointValue) : Result DatapointValue :=
  if negb (Nat.eqb (value_index boxed) (value_index_for (d_type d))) then
    Err (validation_error TypeMismatch
           (d_name d +:+ " expects " +:+ type_to_string (d_type d)) (d_name d))
  else Ok boxed.

(** The alternative of a C++ value type; [value_cast<T>]. *)
Definition type_index (t : value_type) : nat :=
  match t with
  | CT_bool => 0 | CT_u8 => 1 | CT_u16 => 2 | CT_u32 => 3 | CT_u64 => 4
  | CT_i8 => 5 | CT_i16 => 6 | CT_i32 => 7 | CT_float => 8 | CT_string => 9
  end.
Definition value_cast (t : value_type) (v : DatapointValue) : Result DatapointValue :=
  if Nat.eqb (value_index v) (type_index t) then Ok v
  else Err (validation_error TypeMismatch "datapoint value has a different wire type" EmptyString).

(** ** Display *)

(** [snprintf] into a buffer of 32 bytes keeps 31 characters. *)
Definition snprintf32 (s : string) : string := String.substring 0 31 s.

Definition to_display_string (d : DatapointDescriptor) (v : DatapointValue) : string :=
  let out :=
    match v with
    | V_bool b => if b then "true" else "false"
    | V_string s => s
    | V_u64 z => hex_upper 16 z
    | V_float f =>
        let decimals := if 0 <=? md_decimals (d_metadata d) then md_decimals (d_metadata d) else 3 in
        snprintf32 (fixed_text (Z.to_nat decimals) f)
    | V_u8 z | V_u16 z | V_u32 z | V_i8 z | V_i16 z | V_i32 z => dec_Z z
    end in
  if str_empty (md_unit (d_metadata d)) then out
  else out +:+ " " +:+ md_unit (d_metadata d).

(** ** Hex text round trip *)

Definition is_hex (c : ascii) : bool := match nibble_of c with Some _ => true | None => false end.

Lemma is_hex_plain c : is_hex c = true ->
  isspace c = false /\ (byte_of c =? 45) = false /\ (byte_of c =? 43) = false /\
  (byte_of c =? 0) = false /\ (byte_of c =? 120) = false /\ (byte_of c =? 88) = false.
Proof. destruct c as [[] [] [] [] [] [] [] []]; vm_compute; intros H; try discriminate H; auto 10. Qed.

Lemma hex_digit_upper_spec d : 0 <= d < 16 ->
  exists c, hex_digit_upper d = String c EmptyString /\ nibble_of c = Some d.
Proof.
  intros H. unfold hex_digit_upper, str1. eexists. split; [reflexivity|].
  assert (d ∈ [0;1;2;3;4;5;6;7;8;9;10;11;12;13;14;15]) as Hd.
  { destruct (decide (d ∈ [0;1;2;3;4;5;6;7;8;9;10;11;12;13;14;15])) as [|Hn]; [done|].
    exfalso. apply Hn. rewrite !elem_of_cons. lia. }
  repeat (apply elem_of_cons in Hd as [->|Hd]; [done|]). by apply elem_of_nil in Hd.
Qed.

Lemma hex_span_upper n z r acc : 0 <= z < 16 ^ Z.of_nat n ->
  hex_span (hex_upper n z +:+ r) acc =
  let '(k, v, rest) := hex_span r (acc * 16 ^ Z.of_nat n + z) in (Z.of_nat n + k, v, rest).
Proof.
  revert z r acc. induction n as [|n IH]; intros z r acc Hz.
  - cbn [hex_upper]. change (16 ^ Z.of_nat 0) with 1 in *. replace (acc * 1 + z) with acc by lia.
    cbn [String.append]. by destruct (hex_span r acc) as [[k v] rest].
  - rewrite Nat2Z.inj_succ, Z.pow_succ_r in Hz by lia. cbn [hex_upper].
    destruct (hex_digit_upper_spec (z mod 16)) as (c & Hc & Hn); [apply Z.mod_pos_bound; lia|].
    rewrite Hc, sapp_assoc, IH.
    2: { split; [apply Z.div_pos; lia|]. apply Z.div_lt_upper_bound; lia. }
    cbn [String.append hex_span]. rewrite Hn.
    replace ((acc * 16 ^ Z.of_nat n + z / 16) * 16 + z mod 16) with (acc * 16 ^ Z.of_nat (S n) + z).
    2: { rewrite Nat2Z.inj_succ, Z.pow_succ_r by lia. pose proof (Z.div_mod z 16). lia. }
    destruct (hex_span r _) as [[k v] rest]. f_equal. f_equal. lia.
Qed.

Lemma hex_upper_sall n z : 0 <= z -> sall is_hex (hex_upper n z) = true.
Proof.
  revert z. induction n as [|n IH]; intros z Hz; [done|]. cbn [hex_upper].
  rewrite sall_app, IH by (apply Z.div_pos; lia).
  destruct (hex_digit_upper_spec (z mod 16)) as (c & -> & Hn); [apply Z.mod_pos_bound; lia|].
  simpl. unfold is_hex. by rewrite Hn.
Qed.

Lemma c_str_hex s : sall is_hex s = true -> c_str s = s.
Proof.
  induction s as [|c s IH]; [done|]. simpl. intros [Hc Hs]%andb_prop.
  apply is_hex_plain in Hc as (_ & _ & _ & -> & _). by rewrite IH.
Qed.

Lemma strtoull16_hex s : sall is_hex s = true ->
  strtoull16 s = let '(n, v, rest) := hex_span s 0 in
    if n =? 0 then None else if 2 ^ 64 <=? v then Some (2 ^ 64 - 1, rest, true) else Some (v, rest, false).
Proof.
  intros Hs. assert (skip_spaces s = s /\ strip_sign s = (false, s) /\ strip_0x s = s) as (H1 & H2 & H3).
  { destruct s as [|a [|b [|c s]]]; cbn [sall] in Hs; rewrite ?andb_true_iff in Hs.
    - done.
    - destruct Hs as [Ha _]. apply is_hex_plain in Ha as (A & B & C & _).
      simpl. by rewrite A, B, C.
    - destruct Hs as (Ha & Hb & _). apply is_hex_plain in Ha as (A & B & C & _).
      simpl. by rewrite A, B, C.
    - destruct Hs as (Ha & Hb & _). apply is_hex_plain in Ha as (A & B & C & _).
      apply is_hex_plain in Hb as (_ & _ & _ & _ & X & Y).
      simpl. rewrite A, B, C, X, Y. simpl. by rewrite andb_false_r. }
  unfold strtoull16. rewrite H1, H2, H3. by destruct (hex_span s 0) as [[n v] rest].
Qed.

Lemma parse_u64_hex d z : 0 <= z < 2 ^ 64 -> parse_u64 d (hex_upper 16 z) = Ok z.
Proof.
  intros Hz. pose proof (hex_upper_sall 16 z ltac:(lia)) as Hs.
  unfold parse_u64. rewrite c_str_hex, strtoull16_hex by done.
  rewrite <- (sapp_nil_r (hex_upper 16 z)), hex_span_upper.
  2: { change (16 ^ Z.of_nat 16) with (2 ^ 64). lia. }
  cbn [hex_span]. replace (0 * 16 ^ Z.of_nat 16 + z) with z by lia.
  change (Z.of_nat 16 + 0 =? 0) with false. cbv iota.
  replace (2 ^ 64 <=? z) with false by lia. done.
Qed.

(** ** Integers through a double *)

Lemma is_finite_double z : Z.abs z < 2 ^ 53 -> is_finite (double_of_Z z) = true.
Proof. intros H. apply Is_true_true. by apply double_of_Z_finite. Qed.

Lemma narrow_double mk lo hi d z : lo <= z <= hi -> Z.abs lo < 2 ^ 53 -> Z.abs hi < 2 ^ 53 ->
  narrow mk lo hi d (double_of_Z z) = Ok (mk z).
Proof.
  intros Hz Hlo Hhi. assert (Z.abs z < 2 ^ 53) as Habs by lia.
  unfold narrow, fgt. rewrite is_finite_double by done. cbn [negb].
  rewrite nearbyint_double_of_Z, !flt_double_of_Z, trunc_double_of_Z by done.
  replace (z <? lo) with false by lia. by replace (hi <? z) with false by lia.
Qed.

(** A binary32 number survives the conversion from [double]. *)
Definition is_float32 (v : DatapointValue) : Prop :=
  match v with V_float f => to_float32 f = f | _ => True end.

(** C36: Wire round trip: any value of the datapoint's own alternative comes back
    unchanged from its wire JSON; 64-bit values go through 16 upper-case hex
    digits, 8-bit ones through JSON integers, all others directly. *)
Theorem codec_roundtrip d v : value_index v = value_index_for (d_type d) -> value_ok v -> is_float32 v ->
  exists j, value_to_json d v = Ret j /\ value_from_json d j = Ok v.
Proof.
  intros Hi Hv Hf. unfold value_to_json, value_from_json.
  destruct (d_type d) eqn:Et, v; try discriminate Hi;
    first [rewrite bool_decide_true by done | rewrite bool_decide_false by done];
    (eexists; split; [reflexivity|]); cbn [plain_json get_double value_ok is_float32 rbind] in *;
    try done; try (apply narrow_double; lia).
  - by rewrite parse_u64_hex.
  - by rewrite Hf.
Qed.

Lemma codec_roundtrip_witness : exists d j, find "Device_Serial_Number" = Some d /\
  value_to_json d (V_u64 11111111111111) = Ret j /\ value_from_json d j = Ok (V_u64 11111111111111).
Proof.
  destruct (find "Device_Serial_Number") as [d|] eqn:E; [|vm_compute in E; discriminate].
  destruct (codec_roundtrip d (V_u64 11111111111111)) as (j & H1 & H2).
  - vm_compute in E. injection E as <-. reflexivity.
  - split; vm_compute; [discriminate|reflexivity].
  - exact I.
  - exists d, j. split; [reflexivity|]. split; [exact H1|exact H2].
Defined.

(** ** What decoding and validation promise *)

Lemma nearbyint_exact x : is_finite x = true ->
  is_finite (nearbyint x) = true /\ (toQ (nearbyint x) == inject_Z (trunc_Z (nearbyint x)))%Q.
Proof.
  destruct x as [| |n|m e]; try done. intros _. cbn [nearbyint].
  destruct (Z.leb_spec 0 e) as [He|He].
  - split; [done|]. unfold toQ, trunc_Z. cbn [parts]. replace (0 <=? e) with true by lia.
    by rewrite inject_Z_mult, Qpower2_nonneg by done.
  - destruct (Z.eqb_spec (rne_div m (2 ^ (- e))) 0); [by split|]. split; [done|].
    unfold toQ, trunc_Z. cbn. rewrite Z.mul_1_r. by rewrite Qmult_1_r.
Qed.

Lemma narrow_range mk lo hi d number v : Z.abs lo < 2 ^ 53 -> Z.abs hi < 2 ^ 53 ->
  narrow mk lo hi d number = Ok v -> exists z, v = mk z /\ lo <= z <= hi.
Proof.
  intros Hlo Hhi. unfold narrow. destruct (is_finite number) eqn:Ef; cbn [negb]; [|discriminate].
  destruct (nearbyint_exact number Ef) as [Hfin Heq].
  destruct (flt _ (double_of_Z lo)) eqn:E1; [discriminate|]. unfold fgt.
  destruct (flt (double_of_Z hi) _) eqn:E2; [discriminate|]. intros [= <-]. eexists. split; [done|].
  apply flt_toQ_false in E1; [|by rewrite Hfin|by apply double_of_Z_finite].
  apply flt_toQ_false in E2; [|by apply double_of_Z_finite|by rewrite Hfin].
  rewrite Heq, toQ_double_of_Z, <- Zle_Qle in E1, E2 by done. lia.
Qed.

Lemma hex_span_nonneg s acc n v rest : 0 <= acc -> hex_span s acc = (n, v, rest) -> 0 <= v.
Proof.
  revert acc n v rest. induction s as [|c s IH]; intros acc n v rest Ha; cbn [hex_span].
  - by intros [= _ <- _].
  - destruct (nibble_of c) as [d|] eqn:Ed; [|by intros [= _ <- _]].
    destruct (hex_span s _) as [[n1 v1] r1] eqn:E. intros [= _ <- _]. eapply IH; [|exact E].
    assert (0 <= d); [|lia]. revert Ed. unfold nibble_of.
    destruct ((48 <=? byte_of c) && (byte_of c <=? 57)) eqn:E1; [intros [= <-]; lia|].
    destruct ((97 <=? byte_of c) && (byte_of c <=? 102)) eqn:E2; [intros [= <-]; lia|].
    destruct ((65 <=? byte_of c) && (byte_of c <=? 70)) eqn:E3; [intros [= <-]; lia|done].
Qed.

Lemma parse_u64_range d s z : parse_u64 d s = Ok z -> 0 <= z < 2 ^ 64.
Proof.
  unfold parse_u64, strtoull16. destruct (strip_sign _) as [neg s1].
  destruct (hex_span (strip_0x s1) 0) as [[n v] rest] eqn:E. destruct (n =? 0); [discriminate|].
  apply hex_span_nonneg in E; [|lia].
  destruct (Z.leb_spec (2 ^ 64) v); [by destruct (negb (str_empty rest))|].
  destruct (negb (str_empty rest) || false); [discriminate|]. intros [= <-].
  destruct neg; [apply wrap_u_range; lia|lia].
Qed.

Lemma value_from_json_typed d j v : value_from_json d j = Ok v ->
  value_index v = value_index_for (d_type d) /\ value_ok v.
Proof.
  unfold value_from_json.
  destruct (d_type d) eqn:Et; try (destruct j; try discriminate; intros [= <-]; done);
    try (destruct (get_double j) as [number|]; [|discriminate]; intros H;
         first [ apply narrow_range in H as (z & -> & Hz); [|lia..]; split; [done|cbn; lia]
               | injection H as <-; done]).
  destruct j; try discriminate. unfold rbind.
  destruct (parse_u64 d s) as [z|] eqn:E; [|discriminate]. intros [= <-].
  split; [done|]. by apply parse_u64_range in E.
Qed.

(** C37: Decoding is total and type-correct: whatever JSON arrives, the result is
    an error or a value of exactly the alternative the descriptor declares, with
    every integer within its width; nothing is truncated or wrapped around. *)
Theorem decoded_value_typed d j v : value_from_json d j = Ok v ->
  value_index v = value_index_for (d_type d) /\ value_ok v.
Proof. apply value_from_json_typed. Qed.

Lemma decoded_value_typed_witness : exists d v, find "System_Utilization" = Some d /\
  value_from_json d (J_float (lit 995 1)) = Ok v /\ value_ok v.
Proof.
  evaluate (find "System_Utilization") Hd.
  match type of Hd with _ = Some ?d => evaluate (value_from_json d (J_float (lit 995 1))) H end.
  eexists _, _. split; [exact Hd|]. split; [exact H|]. exact (proj2 (decoded_value_typed _ _ _ H)).
Defined.

(** The bound a descriptor sets, at the precision of the firmware. *)
Definition above_min (d : DatapointDescriptor) (v : DatapointValue) : Prop :=
  is_nan (to_float32 (d_min d)) = false -> flt (as_double v) (to_float32 (d_min d)) = false.
Definition below_max (d : DatapointDescriptor) (v : DatapointValue) : Prop :=
  is_nan (to_float32 (d_max d)) = false -> flt (to_float32 (d_max d)) (as_double v) = false.

