(* ===== verification/WriteSet.v ===== *)
(** * Write sets and cross-field rules ([write_set.hpp/.cpp], [constraints.hpp/.cpp])

    A batch write is a map from wire names to values, filled through a checked
    [set]; the cross-field rules mirror the firmware's and are evaluated on the
    planned values with a fallback for the rest. *)
From S2P Require Import Prelude StdMap Errors Float Json Datapoint Generated Catalog Codec.
From Stdlib Require Import QArith Lqa.
Local Open Scope Z_scope.

Definition DatapointWriteSet : Type := smap DatapointValue.

(** The dynamic [set]; on an error the set is unchanged. *)
Definition ws_set (name : string) (v : DatapointValue) (values : DatapointWriteSet) :
    Status * DatapointWriteSet :=
  match find name with
  | None => (Err (validation_error UnknownDatapoint ("unknown datapoint '" +:+ name +:+ "'") name), values)
  | Some d =>
      if negb (writable d) then
        (Err (validation_error ReadOnlyDatapoint (name +:+ " is read-only") name), values)
      else if negb (Nat.eqb (value_index v) (value_index_for (d_type d))) then
        (Err (validation_error TypeMismatch (name +:+ " expects " +:+ type_to_string (d_type d)) name),
         values)
      else (ok, mset name v values)
  end.

(** The typed [set]: the concept requires a writable constant; the value has the
    constant's own type. *)
Definition ws_set_typed (dp : Datapoint) (v : DatapointValue) (values : DatapointWriteSet) :
    option DatapointWriteSet :=
  match at_dp dp with
  | Some d => match make_value d v with
              | Ok boxed => Some (mset (dp_name dp) boxed values)
              | Err _ => None            (* dereferencing an error *)
              end
  | None => None
  end.

Fixpoint ws_validate_all (values : DatapointWriteSet) : Status :=
  match values with
  | [] => ok
  | (name, v) :: r =>
      match find name with
      | None => Err (validation_error UnknownDatapoint ("unknown datapoint '" +:+ name +:+ "'") name)
      | Some d => let? _ := validate d v in ws_validate_all r
      end
  end.
Definition ws_validate (values : DatapointWriteSet) : Status :=
  match values with
  | [] => Err (validation_error EmptySelection "write set contains no datapoints" EmptyString)
  | _ => ws_validate_all values
  end.

(** ** Cross-field constraints *)

Definition violation (field rule : string) : Error := validation_error ConstraintViolation rule field.

(** One rule [a < b] on the operands that are known. *)
Definition breaks (a b : option float) : bool :=
  match a, b with Some x, Some y => negb (flt x y) | _, _ => false end.

Definition check_cross_constraints (value_of : string -> option float) : Status :=
  let alert_low := value_of "Fon_Alert_Low_Pressure" in
  let min_pressure := value_of "Fon_Min_Pressure" in
  let max_pressure := value_of "Fon_Max_Pressure" in
  let alert_high := value_of "Fon_Alert_High_Pressure" in
  if breaks min_pressure max_pressure then
    Err (violation "Fon_Max_Pressure" "Fon_Min_Pressure must be < Fon_Max_Pressure")
  else if breaks max_pressure alert_high then
    Err (violation "Fon_Alert_High_Pressure" "Fon_Max_Pressure must be < Fon_Alert_High_Pressure")
  else if breaks alert_low min_pressure then
    Err (violation "Fon_Alert_Low_Pressure" "Fon_Alert_Low_Pressure must be < Fon_Min_Pressure")
  else
  let max_on := value_of "Fon_Max_On_Time" in
  if match max_on with Some x => flt x (lit 100 1) | None => false end then
    Err (violation "Fon_Max_On_Time" "Fon_Max_On_Time must be >= 10")
  else if breaks (value_of "Fon_Min_On_Time") max_on then
    Err (violation "Fon_Min_On_Time" "Fon_Min_On_Time must be < Fon_Max_On_Time")
  else if breaks (value_of "Fon_Dry_Run_Detect_Time") max_on then
    Err (violation "Fon_Dry_Run_Detect_Time" "Fon_Dry_Run_Detect_Time must be < Fon_Max_On_Time")
  else if match value_of "Fon_Report_Interval" with
          | Some x => flt x (lit 10 1) || fgt x (lit 36000 1)
          | None => false end then
    Err (violation "Fon_Report_Interval" "Fon_Report_Interval must be within 1..3600")
  else ok.

Definition constraint_number (v : DatapointValue) : option float :=
  match v with V_string _ => None | _ => Some (as_double v) end.

Definition check_cross_constraints_ws (changes : DatapointWriteSet)
    (fallback : option (string -> option float)) : Status :=
  check_cross_constraints (fun name =>
    match mget name changes with
    | Some v => constraint_number v
    | None => match fallback with Some f => f name | None => None end
    end).

(** ** Theorems *)

(** What a write set built through [set] holds. *)
Definition ws_ok (values : DatapointWriteSet) : Prop :=
  msorted values /\ forall name v, mget name values = Some v ->
    exists d, find name = Some d /\ writable d = true /\ value_index v = value_index_for (d_type d).

Lemma ws_set_cases name v values : (exists d, find name = Some d /\ writable d = true /\
    value_index v = value_index_for (d_type d) /\ ws_set name v values = (ok, mset name v values)) \/
  (exists e, ws_set name v values = (Err e, values)).
Proof.
  unfold ws_set. destruct (find name) as [d|] eqn:Ef; [|right; eauto].
  destruct (writable d) eqn:Ew; cbn [negb]; [|right; eauto].
  destruct (Nat.eqb_spec (value_index v) (value_index_for (d_type d))); cbn [negb]; [|right; eauto].
  left. eauto 10.
Qed.

(** A write set only ever holds writable datapoints of the catalogue under
    values of their own type: [set] keeps that, it changes exactly the entry it
    names when it succeeds, and on any error it changes nothing. *)
Theorem write_set_invariant name v values status values' : ws_ok values ->
  ws_set name v values = (status, values') ->
  ws_ok values' /\
  (forall other, mget other values' =
    if decide (status = ok /\ other = name) then Some v else mget other values) /\
  (forall e, status = Err e -> values' = values).
Proof.
  intros [Hs Hv] H. destruct (ws_set_cases name v values) as [(d & Hf & Hw & Hi & E)|(e & E)];
    rewrite E in H; injection H as <- <-.
  - split; [split|split].
    + by apply msorted_mset.
    + intros n u. rewrite mget_mset. case_decide as Hn; [|by apply Hv].
      intros [= <-]. subst n. eauto.
    + intros other. rewrite mget_mset. by repeat case_decide; naive_solver.
    + intros e [=].
  - split; [done|]. split; [|done]. intros other. case_decide; naive_solver.
Qed.

Lemma write_set_invariant_witness : exists values',
  ws_set "Fon_Min_Pressure" (V_float (lit 25 1)) [] = (ok, values') /\ ws_ok values'.
Proof.
  evaluate (ws_set "Fon_Min_Pressure" (V_float (lit 25 1)) []) H. eexists. split; [exact H|].
  refine (proj1 (write_set_invariant _ _ [] _ _ _ H)). split; [apply msorted_nil|]. intros n v [=].
Defined.

(** A number that is certainly in the lookup, as a rational. *)
Definition num_of (value_of : string -> option float) (name : string) (q : Q) : Prop :=
  exists x, value_of name = Some x /\ is_finite x /\ toQ x = q.

Lemma breaks_false_lt value_of a b x y : num_of value_of a x -> num_of value_of b y ->
  breaks (value_of a) (value_of b) = false -> (x < y)%Q.
Proof.
  intros (u & -> & Hu & <-) (v & -> & Hv & <-). unfold breaks. intros H.
  apply flt_toQ; [done..|]. by destruct (flt u v).
Qed.

(** The literals of the rules. *)
Lemma lit_10 : is_finite (lit 100 1) /\ (toQ (lit 100 1) == 10)%Q.
Proof. split; vm_compute; [exact I|reflexivity]. Qed.
Lemma lit_1 : is_finite (lit 10 1) /\ (toQ (lit 10 1) == 1)%Q.
Proof. split; vm_compute; [exact I|reflexivity]. Qed.
Lemma lit_3600 : is_finite (lit 36000 1) /\ (toQ (lit 36000 1) == 3600)%Q.
Proof. split; vm_compute; [exact I|reflexivity]. Qed.

(** C39: The cross-field check means what it says: if it passes, then for the
    operands that are known as finite numbers the pressures are strictly ordered
    (alert low, minimum, maximum, alert high), the maximum on-time is at least 10
    and above the minimum on-time and the dry-run time, and the report interval
    lies in 1..3600. *)
Theorem cross_constraints_sound value_of : check_cross_constraints value_of = Ok tt ->
  (forall x y, num_of value_of "Fon_Min_Pressure" x -> num_of value_of "Fon_Max_Pressure" y -> (x < y)%Q) /\
  (forall x y, num_of value_of "Fon_Max_Pressure" x -> num_of value_of "Fon_Alert_High_Pressure" y -> (x < y)%Q) /\
  (forall x y, num_of value_of "Fon_Alert_Low_Pressure" x -> num_of value_of "Fon_Min_Pressure" y -> (x < y)%Q) /\
  (forall x, num_of value_of "Fon_Max_On_Time" x -> (10 <= x)%Q) /\
  (forall x y, num_of value_of "Fon_Min_On_Time" x -> num_of value_of "Fon_Max_On_Time" y -> (x < y)%Q) /\
  (forall x y, num_of value_of "Fon_Dry_Run_Detect_Time" x -> num_of value_of "Fon_Max_On_Time" y -> (x < y)%Q) /\
  (forall x, num_of value_of "Fon_Report_Interval" x -> (1 <= x <= 3600)%Q).
Proof.
  unfold check_cross_constraints.
  destruct (breaks (value_of "Fon_Min_Pressure") (value_of "Fon_Max_Pressure")) eqn:B1; [discriminate|].
  destruct (breaks (value_of "Fon_Max_Pressure") (value_of "Fon_Alert_High_Pressure")) eqn:B2; [discriminate|].
  destruct (breaks (value_of "Fon_Alert_Low_Pressure") (value_of "Fon_Min_Pressure")) eqn:B3; [discriminate|].
  destruct (match value_of "Fon_Max_On_Time" with Some x => flt x (lit 100 1) | None => false end) eqn:B4;
    [discriminate|].
  destruct (breaks (value_of "Fon_Min_On_Time") _) eqn:B5; [discriminate|].
  destruct (breaks (value_of "Fon_Dry_Run_Detect_Time") _) eqn:B6; [discriminate|].
  destruct (match value_of "Fon_Report_Interval" with Some x => _ | None => false end) eqn:B7; [discriminate|].
  intros _. split_and!; try (intros; by eapply breaks_false_lt).
  - intros x (u & E & Hu & <-). rewrite E in B4. destruct lit_10 as [F V].
    apply flt_toQ_false in B4; [by rewrite V in B4|exact Hu|exact F].
  - intros x (u & E & Hu & <-). rewrite E in B7. apply orb_false_elim in B7 as [L R]. unfold fgt in R.
    destruct lit_1 as [F1 V1], lit_3600 as [F2 V2].
    apply flt_toQ_false in L; [|exact Hu|exact F1]. apply flt_toQ_false in R; [|exact F2|exact Hu].
    rewrite V1 in L. rewrite V2 in R. split; [exact L|exact R].
Qed.

Lemma cross_constraints_sound_witness :
  exists value_of, check_cross_constraints value_of = Ok tt /\ (10 <= toQ (lit 300 0))%Q.
Proof.
  set (f := fun name : string => if String.eqb name "Fon_Max_On_Time" then Some (lit 300 0) else None).
  exists f. split; [vm_compute; reflexivity|].
  destruct (cross_constraints_sound f) as (_ & _ & _ & H & _); [vm_compute; reflexivity|].
  apply H. exists (lit 300 0). split; [reflexivity|]. split; [vm_compute; exact I|reflexivity].
Defined.
