(* ===== verification/Snapshot.v ===== *)
(** * Snapshots, cache entries and write results ([datapoints/snapshot.hpp])

    The value collections the datapoint services exchange, and the decoder that
    turns the [dp] object of a frame into one. *)
From S2P Require Import Prelude StdMap Errors Float Json Events Datapoint Generated Catalog Codec.
Local Open Scope Z_scope.

Inductive DatapointSource := ExplicitRead | PeriodicPoll | UnsolicitedReport | WriteReadback.
Inductive DataQuality := Q_Unknown | Q_Good | Q_Stale | Q_Invalid.

#[export] Instance DatapointSource_eq_dec : EqDecision DatapointSource.
Proof. solve_decision. Defined.
#[export] Instance DataQuality_eq_dec : EqDecision DataQuality.
Proof. solve_decision. Defined.

Definition source_to_string (s : DatapointSource) : string :=
  match s with
  | ExplicitRead => "explicit_read"
  | PeriodicPoll => "periodic_poll"
  | UnsolicitedReport => "unsolicited_report"
  | WriteReadback => "write_readback"
  end.
Definition quality_to_string (q : DataQuality) : string :=
  match q with
  | Q_Unknown => "unknown"
  | Q_Good => "good"
  | Q_Stale => "stale"
  | Q_Invalid => "invalid"
  end.

Record CachedValue := mkCached {
  cv_value : DatapointValue;
  cv_received_at : TimePoint;
  cv_source : DatapointSource;
  cv_quality : DataQuality;
  cv_report_sequence : option Z
}.
(** [CachedValue{}]: the variant holds its first alternative. *)
Definition cached_default : CachedValue := mkCached (V_bool false) 0 ExplicitRead Q_Unknown None.

(** Wire name to value, and the names that were unknown or undecodable. *)
Record DatapointSnapshot := mkSnapshot {
  sn_values : smap DatapointValue;
  sn_unknown : list string
}.
Definition snapshot_empty : DatapointSnapshot := mkSnapshot [] [].
Definition sn_set (name : string) (v : DatapointValue) (s : DatapointSnapshot) : DatapointSnapshot :=
  mkSnapshot (mset name v (sn_values s)) (sn_unknown s).
Definition sn_add_unknown (name : string) (s : DatapointSnapshot) : DatapointSnapshot :=
  mkSnapshot (sn_values s) (sn_unknown s ++ [name]).
Definition sn_contains (name : string) (s : DatapointSnapshot) : bool := mhas name (sn_values s).
Definition sn_find (name : string) (s : DatapointSnapshot) : option DatapointValue :=
  mget name (sn_values s).
Definition sn_get (dp : Datapoint) (s : DatapointSnapshot) : Result DatapointValue :=
  match sn_find (dp_name dp) s with
  | None => Err (validation_error UnknownDatapoint
                   (dp_name dp +:+ " is not part of this snapshot") (dp_name dp))
  | Some v => value_cast (dp_type dp) v
  end.

Record WriteError := mkWriteError { we_datapoint : string; we_reason : string }.
Record WriteResult := mkWriteResult {
  wr_status : string;
  wr_errors : list WriteError;
  wr_warning : option string;
  wr_network_save : option Z;
  wr_readback : DatapointSnapshot
}.
Definition applied (r : WriteResult) : bool := String.eqb (wr_status r) "applied".

(** ** Decoding *)

(** One member: known names are typed, unknown and undecodable ones collected. *)
Definition decode_entry (s : DatapointSnapshot) (kv : string * json) : DatapointSnapshot :=
  match find kv.1 with
  | None => sn_add_unknown kv.1 s
  | Some d =>
      match value_from_json d kv.2 with
      | Err _ => sn_add_unknown kv.1 s
      | Ok v => sn_set kv.1 v s
      end
  end.

Definition decode_dp_object (dp : json) : DatapointSnapshot :=
  match dp with
  | J_obj m => fold_left decode_entry m snapshot_empty
  | _ => snapshot_empty
  end.

(** ** Lemmas *)

(** What one member decodes to. *)
Definition decoded (name : string) (j : json) : option DatapointValue :=
  match find name with
  | Some d => match value_from_json d j with Ok v => Some v | Err _ => None end
  | None => None
  end.

Lemma decode_entry_values s kv :
  sn_values (decode_entry s kv) =
  match decoded kv.1 kv.2 with Some v => mset kv.1 v (sn_values s) | None => sn_values s end.
Proof. unfold decode_entry, decoded. by repeat case_match_goal. Qed.

Lemma decode_fold_values m s name : NoDup (keys m) ->
  mget name (sn_values (fold_left decode_entry m s)) =
  match mget name m with
  | Some j => match decoded name j with Some v => Some v | None => mget name (sn_values s) end
  | None => mget name (sn_values s)
  end.
Proof.
  revert s. induction m as [|[k j] m IH]; intros s Hnd; [done|]. cbn in Hnd.
  apply list.NoDup_cons in Hnd as [Hn Hnd]. cbn [fold_left mget]. rewrite IH by done.
  rewrite decode_entry_values. cbn [fst snd].
  destruct (String.eqb_spec name k) as [->|Hne].
  - apply mget_None in Hn. rewrite Hn. destruct (decoded k j); [by rewrite mget_mset_eq|done].
  - destruct (decoded k j); [by rewrite mget_mset_ne|done].
Qed.

(** The decoded snapshot, name by name. *)
Lemma decode_dp_object_values m name : NoDup (keys m) ->
  mget name (sn_values (decode_dp_object (J_obj m))) =
  match mget name m with Some j => decoded name j | None => None end.
Proof.
  intros Hnd. cbn [decode_dp_object]. rewrite decode_fold_values by done.
  by destruct (mget name m) as [j|]; [destruct (decoded name j)|].
Qed.

(** A snapshot holds only catalogue names, under well-typed values. *)
Definition typed_entry (name : string) (v : DatapointValue) : Prop :=
  exists d, find name = Some d /\ value_index v = value_index_for (d_type d) /\ value_ok v.
Definition snapshot_ok (s : DatapointSnapshot) : Prop :=
  msorted (sn_values s) /\ forall name v, mget name (sn_values s) = Some v -> typed_entry name v.

Lemma decoded_typed name j v : decoded name j = Some v -> typed_entry name v.
Proof.
  unfold decoded. destruct (find name) as [d|] eqn:Ef; [|done].
  destruct (value_from_json d j) as [u|] eqn:E; [|done]. intros [= <-].
  exists d. split; [done|]. by apply value_from_json_typed with j.
Qed.

Lemma decode_entry_ok s kv : snapshot_ok s -> snapshot_ok (decode_entry s kv).
Proof.
  unfold snapshot_ok. rewrite decode_entry_values. destruct (decoded kv.1 kv.2) as [v|] eqn:E; [|done].
  intros [Hs Hv]. split; [by apply msorted_mset|]. intros n u. rewrite mget_mset.
  case_decide; [|by apply Hv]. intros [= <-]. subst. by eapply decoded_typed.
Qed.

Lemma snapshot_ok_empty : snapshot_ok snapshot_empty.
Proof. split; [apply msorted_nil|]. by intros. Qed.

Lemma decode_dp_object_ok dp : snapshot_ok (decode_dp_object dp).
Proof.
  destruct dp; try apply snapshot_ok_empty. cbn [decode_dp_object].
  generalize snapshot_ok_empty. generalize snapshot_empty. induction m as [|kv m IH]; intros s Hs; [done|].
  cbn [fold_left]. by apply IH, decode_entry_ok.
Qed.
