(* ===== verification/Service.v ===== *)
(** * Requests of the services ([detail/sync_wait.hpp])

    Every service starts an operation on the I/O thread that either completes at
    once or submits one request and completes when the response handler runs.
    The blocking wrappers wait for that completion.  What other threads and other
    frames do to the shared state in between, and the response itself, are given
    by the environment. *)
From S2P Require Import Prelude StdMap Errors Float Json Events Datapoint Snapshot.
Local Open Scope Z_scope.

(** A cache change as subscribers see it. *)
Record AnyDatapointChange := mkChange {
  ch_descriptor : DatapointDescriptor;
  ch_value : DatapointValue;
  ch_old_value : option DatapointValue;
  ch_source : DatapointSource;
  ch_received_at : TimePoint
}.

(** What a service does visibly: hand a request to the session, call a
    subscriber (known by a number). *)
Inductive sevent :=
| Sv_submit (spec : RequestSpec)
| Sv_notify (callback : nat) (change : AnyDatapointChange).

Definition submitted (w : list sevent) : list RequestSpec :=
  omap (fun e => match e with Sv_submit spec => Some spec | _ => None end) w.

Lemma submitted_app w1 w2 : submitted (w1 ++ w2) = submitted w1 ++ submitted w2.
Proof. apply omap_app. Qed.

(** How an operation starts: the completion is called at once, or a request is
    submitted. *)
Inductive started (T : Type) :=
| Completed (r : Result T)
| Submitted (spec : RequestSpec).
Arguments Completed {T} r.
Arguments Submitted {T} spec.

(** The runner of a blocking call and its surroundings: whether the service is
    bound, what the runner answers, what happens between the submission and the
    response handler, the clock reading of the handler, and the response. *)
Record exchange (S : Type) := mkExchange {
  x_bound : bool;
  x_status : Status;
  x_between : RequestSpec -> M S sevent unit;
  x_now : TimePoint;
  x_reply : RequestSpec -> Result json
}.
Arguments mkExchange {S} _ _ _ _ _.
Arguments x_bound {S} _.
Arguments x_status {S} _.
Arguments x_between {S} _ _.
Arguments x_now {S} _.
Arguments x_reply {S} _ _.

(** [start] may itself throw. *)
Definition sync_wait {S T} (x : exchange S) (start : outcome (started T))
    (finish : Result json -> M S sevent (Result T)) : M S sevent (Result T) :=
  if negb (x_bound x) then ret (Err (internal_error "service is not bound to a client")) else
  match x_status x with
  | Err e => ret (Err e)
  | Ok _ =>
      let* begun := lift start in
      match begun with
      | Completed r => ret r
      | Submitted spec =>
          emit (Sv_submit spec) ;;;
          x_between x spec ;;;
          finish (x_reply x spec)
      end
  end.

(** The cases of a blocking call: it is refused or completes at once, with
    nothing done; or it submits its request, lets the environment act, and
    returns what the response handler hands to the completion. *)
Lemma sync_wait_cases {S T} (x : exchange S) (start : started T) finish s r s' w :
  sync_wait x (Ret start) finish s = (r, s', w) ->
  (exists e, r = Ret (Err e) /\ s' = s /\ w = []) \/
  (exists c, start = Completed c /\ r = Ret c /\ s' = s /\ w = []) \/
  (exists spec, start = Submitted spec /\
     (emit (Sv_submit spec) ;;; x_between x spec ;;; finish (x_reply x spec)) s = (r, s', w)).
Proof.
  unfold sync_wait. destruct (x_bound x); cbn [negb]; [|intros [= <- <- <-]; left; by eexists].
  destruct (x_status x) as [[]|e]; [|intros [= <- <- <-]; left; by eexists].
  rewrite run_lift. destruct start as [c|spec]; [intros [= <- <- <-]; right; left; by eexists|].
  intros H. right; right. by exists spec.
Qed.

(** A blocking call keeps a relation its environment and its handler keep. *)
Lemma respects_sync_wait {S T} (R : S -> S -> list sevent -> Prop) `{!Composable R} (x : exchange S)
    (start : outcome (started T)) finish :
  (forall spec s, R s s [Sv_submit spec]) -> (forall spec, respects R (x_between x spec)) ->
  (forall reply, respects R (finish reply)) -> respects R (sync_wait x start finish).
Proof.
  intros Hs Hb Hf. unfold sync_wait. repeat respects_step; auto.
Qed.

(** The submission and what follows it, when the environment does not throw. *)
Lemma run_submitted {S T} (x : exchange S) spec (finish : Result json -> M S sevent (Result T)) s s1 w1 r s' w2 :
  x_between x spec s = (Ret tt, s1, w1) -> finish (x_reply x spec) s1 = (r, s', w2) ->
  (emit (Sv_submit spec) ;;; x_between x spec ;;; finish (x_reply x spec)) s =
  (r, s', Sv_submit spec :: w1 ++ w2).
Proof.
  intros H1 H2. rewrite (run_bind _ _ _ tt s [Sv_submit spec] r s' (w1 ++ w2)); [done..|].
  by eapply run_bind.
Qed.
