(* ===== verification/Manager.v ===== *)
(** * The datapoint manager ([datapoints/manager.hpp], [manager.cpp])

    The cache of received values, the staged configuration changes and the
    subscriptions, with every operation that reads or changes them.  A method
    takes the lock once per step, so its steps are atomic; a blocking call is the
    submission, whatever other threads and frames do meanwhile (a list of
    operations of the manager itself, chosen by the environment), and the
    response handler. *)
From S2P Require Import Prelude StdMap Errors Float Json Events Datapoint Generated Catalog.
From S2P Require Import Codec WriteSet Snapshot Service.
Local Open Scope Z_scope.

Record Slot := mkSlot {
  sl_token : Z;
  sl_name : string;          (* empty = subscribe_all *)
  sl_callback : nat
}.

Record Manager := mkManager {
  mg_cache : smap CachedValue;
  mg_staged : smap DatapointValue;
  mg_subscriptions : list Slot;
  mg_next_token : Z
}.
Definition new_manager : Manager := mkManager [] [] [] 0.
Definition set_mg_cache (v : smap CachedValue) (m : Manager) : Manager :=
  mkManager v (mg_staged m) (mg_subscriptions m) (mg_next_token m).
Definition set_mg_staged (v : smap DatapointValue) (m : Manager) : Manager :=
  mkManager (mg_cache m) v (mg_subscriptions m) (mg_next_token m).
Definition set_mg_subscriptions (v : list Slot) (m : Manager) : Manager :=
  mkManager (mg_cache m) (mg_staged m) v (mg_next_token m).
Definition set_mg_next_token (v : Z) (m : Manager) : Manager :=
  mkManager (mg_cache m) (mg_staged m) (mg_subscriptions m) v.

(** [variant != variant]: a NaN differs from itself. *)
Definition value_ne (a b : DatapointValue) : bool :=
  match a, b with
  | V_float x, V_float y => negb (feq x y)
  | _, _ => negb (bool_decide (a = b))
  end.

(** ** The cache *)

Definition had_value (entry : CachedValue) : bool :=
  negb (bool_decide (cv_quality entry = Q_Unknown)).
(** [cache[name]] *)
Definition cache_entry (cache : smap CachedValue) (name : string) : CachedValue :=
  default cached_default (mget name cache).

Definition matches (name : string) (slot : Slot) : bool :=
  str_empty (sl_name slot) || String.eqb (sl_name slot) name.
Definition notifications (subs : list Slot) (name : string) (change : AnyDatapointChange) : list sevent :=
  map (fun slot => Sv_notify (sl_callback slot) change) (List.filter (matches name) subs).

Definition update_entry (now : TimePoint) (source : DatapointSource) (seq : option Z)
    (subs : list Slot) (acc : smap CachedValue * list sevent) (kv : string * DatapointValue) :
    smap CachedValue * list sevent :=
  let '(cache, due) := acc in
  let '(name, value) := kv in
  match find name with
  | None => acc
  | Some descriptor =>
      let entry := cache_entry cache name in
      let old := if had_value entry then Some (cv_value entry) else None in
      let changed := negb (had_value entry) || value_ne (cv_value entry) value in
      let cache' := mset name (mkCached value now source Q_Good seq) cache in
      if negb changed then (cache', due)
      else (cache', due ++ notifications subs name (mkChange descriptor value old source now))
  end.

(** Apply a snapshot and collect the callbacks that are due. *)
Definition update_cache (now : TimePoint) (snapshot : DatapointSnapshot) (source : DatapointSource)
    (seq : option Z) : M Manager sevent (list sevent) :=
  let* m := get in
  let '(cache, due) := fold_left (update_entry now source seq (mg_subscriptions m))
                         (sn_values snapshot) (mg_cache m, []) in
  modify (set_mg_cache cache) ;;;
  ret due.

Definition cached_raw (name : string) (m : Manager) : option CachedValue :=
  match mget name (mg_cache m) with
  | Some entry => if had_value entry then Some entry else None
  | None => None
  end.
(** The typed view: the alternative must be the constant's. *)
Definition cached (dp : Datapoint) (m : Manager) : option CachedValue :=
  match cached_raw (dp_name dp) m with
  | Some raw => if Nat.eqb (value_index (cv_value raw)) (type_index (dp_type dp)) then Some raw else None
  | None => None
  end.
Definition cached_snapshot (m : Manager) : DatapointSnapshot :=
  fold_left (fun s kv => if had_value kv.2 then sn_set kv.1 (cv_value kv.2) s else s)
    (mg_cache m) snapshot_empty.

Definition ingest_report (now : TimePoint) (dp : json) (source : DatapointSource) (seq : option Z) :
    M Manager sevent DatapointSnapshot :=
  let snapshot := decode_dp_object dp in
  let* notify := update_cache now snapshot source seq in
  emits notify ;;;
  ret snapshot.

Definition stale_entry (e : CachedValue) : CachedValue :=
  if bool_decide (cv_quality e = Q_Good) then
    mkCached (cv_value e) (cv_received_at e) (cv_source e) Q_Stale (cv_report_sequence e)
  else e.
Definition mark_all_stale : M Manager sevent unit :=
  modify (fun m => set_mg_cache (mmap (fun _ e => stale_entry e) (mg_cache m)) m).

(** ** Subscriptions *)

Definition subscribe_raw (name : string) (callback : nat) : M Manager sevent Z :=
  let* m := get in
  let token := wrap_u 64 (mg_next_token m + 1) in
  modify (fun m => set_mg_subscriptions (mg_subscriptions m ++ [mkSlot token name callback])
                     (set_mg_next_token token m)) ;;;
  ret token.
Definition subscribe_dp (dp : Datapoint) (callback : nat) : M Manager sevent Z := subscribe_raw (dp_name dp) callback.
Definition subscribe_all (callback : nat) : M Manager sevent Z := subscribe_raw EmptyString callback.
(** The token's release. *)
Definition unsubscribe (token : Z) : M Manager sevent unit :=
  modify (fun m => set_mg_subscriptions
    (List.filter (fun slot => negb (sl_token slot =? token)) (mg_subscriptions m)) m).

(** The callback a typed subscription installs: it passes on the changes whose
    value has the constant's alternative, and the old value if it has, too. *)
Definition subscribe_filter (dp : Datapoint) (change : AnyDatapointChange) :
    option (DatapointValue * option DatapointValue) :=
  let typed v := Nat.eqb (value_index v) (type_index (dp_type dp)) in
  if typed (ch_value change) then
    Some (ch_value change,
      match ch_old_value change with
      | Some old => if typed old then Some old else None
      | None => None
      end)
  else None.

(** ** Reading *)

Definition names_json (names : list string) : json := J_arr (map J_str names).

Definition unknown_name (name : string) : bool := match find name with None => true | Some _ => false end.

Definition async_read (names : list string) (priority : OperationPriority) (coalesce_key : string) :
    started DatapointSnapshot :=
  match names with
  | [] => Completed (Err (validation_error EmptySelection
            ("read() needs explicit names — an empty dp_read would only return " +:+
             "the volatile datapoints on the local transport") EmptyString))
  | _ =>
      match List.find unknown_name names with
      | Some name => Completed (Err (validation_error UnknownDatapoint
                       ("unknown datapoint '" +:+ name +:+ "'") name))
      | None => Submitted
          {| rs_type := "dp_read"; rs_body := J_obj [("names", names_json names)]; rs_timeout := None;
             rs_priority := priority; rs_coalesce_key := coalesce_key |}
      end
  end.

Definition add_unknown_entry (s : DatapointSnapshot) (entry : json) : DatapointSnapshot :=
  match entry with J_str name => sn_add_unknown name s | _ => s end.

(** The response handler of a read, up to the call of its completion. *)
Definition finish_read (now : TimePoint) (source : DatapointSource) (response : Result json) :
    M Manager sevent (Result DatapointSnapshot) :=
  match response with
  | Err e => ret (Err e)
  | Ok message =>
      let* dp := lift (value get_json "dp" (J_obj []) message) in
      let* unknown := lift (value get_json "unknown" (J_arr []) message) in
      let snapshot := fold_left add_unknown_entry (elements unknown) (decode_dp_object dp) in
      let* notify := update_cache now snapshot source None in
      emits notify ;;;
      ret (Ok snapshot)
  end.

Definition async_read_all : started DatapointSnapshot :=
  async_read (map d_name all) InteractiveRead "read_all".

Definition read_names (x : exchange Manager) (names : list string) :
    M Manager sevent (Result DatapointSnapshot) :=
  sync_wait x (Ret (async_read names InteractiveRead EmptyString)) (finish_read (x_now x) ExplicitRead).
Definition read_all (x : exchange Manager) : M Manager sevent (Result DatapointSnapshot) :=
  sync_wait x (Ret async_read_all) (finish_read (x_now x) ExplicitRead).
(** By wire name. *)
Definition read (x : exchange Manager) (name : string) : M Manager sevent (Result DatapointValue) :=
  let* snapshot := read_names x [name] in
  match snapshot with
  | Err e => ret (Err e)
  | Ok s => match sn_find name s with
            | None => ret (Err (validation_error UnknownDatapoint
                        ("device did not return '" +:+ name +:+ "'") name))
            | Some v => ret (Ok v)
            end
  end.
(** By typed constant. *)
Definition read_dp (x : exchange Manager) (dp : Datapoint) : M Manager sevent (Result DatapointValue) :=
  let* snapshot := read_names x [dp_name dp] in
  match snapshot with
  | Err e => ret (Err e)
  | Ok s => ret (sn_get dp s)
  end.
(** By several typed constants, in one request. *)
Definition read_dps (x : exchange Manager) (dps : list Datapoint) : M Manager sevent (Result DatapointSnapshot) :=
  read_names x (map dp_name dps).

(** ** Writing *)

Section Write.
(** [json::dump], which may throw on text that is not UTF-8. *)
Context (dump : json -> outcome string).

Fixpoint dp_object (values : smap DatapointValue) (dp : smap json) : outcome (smap json) :=
  match values with
  | [] => Ret dp
  | (name, v) :: r =>
      match find name with
      | None => Throw (Exn_ub "null descriptor")
      | Some d => let! j := value_to_json d v in dp_object r (mset name j dp)
      end
  end.

Definition async_write_json (dp : json) (priority : OperationPriority) : started WriteResult :=
  Submitted {| rs_type := "dp_write"; rs_body := J_obj [("dp", dp)]; rs_timeout := None;
               rs_priority := priority; rs_coalesce_key := EmptyString |}.

Definition async_write (changes : DatapointWriteSet) : outcome (started WriteResult) :=
  match ws_validate changes with
  | Err e => Ret (Completed (Err e))
  | Ok _ => let! dp := dp_object changes [] in Ret (async_write_json (J_obj dp) InteractiveControl)
  end.

Fixpoint write_errors (m : smap json) : outcome (list WriteError) :=
  match m with
  | [] => Ret []
  | (name, reason) :: r =>
      let! text := match reason with J_str s => Ret s | _ => dump reason end in
      let! rest := write_errors r in
      Ret (mkWriteError name text :: rest)
  end.

Definition parse_write_result (now : TimePoint) (message : json) : M Manager sevent WriteResult :=
  let* status := lift (value_string "status" message) in
  let* errors := lift (match jfind "errors" message with
                       | Some (J_obj m) => write_errors m
                       | _ => Ret [] end) in
  let errors := match jfind "error" message with
                | Some (J_str s) => errors ++ [mkWriteError EmptyString s]
                | _ => errors end in
  let warning := match jfind "warning" message with Some (J_str s) => Some s | _ => None end in
  let* network_save := lift (match jfind "network_save" message with
                             | Some j => if is_number j then
                                           let! z := get_int 32 j in Ret (Some (wrap_u 8 z))
                                         else Ret None
                             | None => Ret None end) in
  match jfind "readback" message with
  | Some (J_obj m) =>
      let readback := decode_dp_object (J_obj m) in
      let* notify := update_cache now readback WriteReadback None in
      emits notify ;;;
      ret (mkWriteResult status errors warning network_save readback)
  | _ => ret (mkWriteResult status errors warning network_save snapshot_empty)
  end.

(** The response handler of a write, up to the call of its completion. *)
Definition finish_write (now : TimePoint) (response : Result json) : M Manager sevent (Result WriteResult) :=
  match response with
  | Err e => ret (Err e)
  | Ok message => let* result := parse_write_result now message in ret (Ok result)
  end.

Definition write (x : exchange Manager) (changes : DatapointWriteSet) : M Manager sevent (Result WriteResult) :=
  sync_wait x (async_write changes) (finish_write (x_now x)).
Definition write_name (x : exchange Manager) (name : string) (v : DatapointValue) :
    M Manager sevent (Result WriteResult) :=
  match ws_set name v [] with
  | (Err e, _) => ret (Err e)
  | (Ok _, changes) => write x changes
  end.
(** By typed constant. *)
Definition write_dp (x : exchange Manager) (dp : Datapoint) (v : DatapointValue) :
    M Manager sevent (Result WriteResult) :=
  match ws_set_typed dp v [] with
  | None => throw (Exn_ub "error dereferenced")
  | Some changes => write x changes
  end.

(** ** Staging and commit *)

Definition stage (name : string) (v : DatapointValue) : M Manager sevent Status :=
  match find name with
  | None => ret (Err (validation_error UnknownDatapoint ("unknown datapoint '" +:+ name +:+ "'") name))
  | Some d =>
      if negb (writable d) then
        ret (Err (validation_error ReadOnlyDatapoint (name +:+ " is read-only") name))
      else if negb (Nat.eqb (value_index v) (value_index_for (d_type d))) then
        ret (Err (validation_error TypeMismatch (name +:+ " expects " +:+ type_to_string (d_type d)) name))
      else modify (fun m => set_mg_staged (mset name v (mg_staged m)) m) ;;; ret ok
  end.
(** By typed constant. *)
Definition stage_dp (dp : Datapoint) (v : DatapointValue) : M Manager sevent Status :=
  match at_dp dp with
  | None => throw (Exn_out_of_range "catalog index")
  | Some d => match make_value d v with
              | Err _ => throw (Exn_ub "error dereferenced")
              | Ok boxed => stage (dp_name dp) boxed
              end
  end.
Definition has_staged_changes (m : Manager) : bool := match mg_staged m with [] => false | _ => true end.

Definition numeric_of (v : DatapointValue) : option float :=
  match v with V_string _ => None | _ => Some (as_double v) end.

Fixpoint validate_values (values : smap DatapointValue) : outcome Status :=
  match values with
  | [] => Ret ok
  | (name, v) :: r =>
      match find name with
      | None => Throw (Exn_ub "null descriptor")
      | Some d => match validate d v with
                  | Err e => Ret (Err e)
                  | Ok _ => validate_values r
                  end
      end
  end.
Definition cached_number (m : Manager) (name : string) : option float :=
  match cached_raw name m with Some c => numeric_of (cv_value c) | None => None end.
Definition validate_staged (m : Manager) : outcome Status :=
  let! status := validate_values (mg_staged m) in
  match status with
  | Err e => Ret (Err e)
  | Ok _ => Ret (check_cross_constraints (fun name =>
      match mget name (mg_staged m) with
      | Some v => numeric_of v
      | None => cached_number m name
      end))
  end.
Definition validate_constraints (changes : DatapointWriteSet) (m : Manager) : Status :=
  check_cross_constraints_ws changes (Some (cached_number m)).

Fixpoint fill_write_set (values : smap DatapointValue) (changes : DatapointWriteSet) :
    Result DatapointWriteSet :=
  match values with
  | [] => Ok changes
  | (name, v) :: r =>
      match ws_set name v changes with
      | (Err e, _) => Err e
      | (Ok _, changes') => fill_write_set r changes'
      end
  end.

Definition discard_staged : M Manager sevent unit := modify (set_mg_staged []).

Definition commit (x : exchange Manager) : M Manager sevent (Result WriteResult) :=
  let* staged := gets mg_staged in
  match staged with
  | [] => ret (Err (validation_error EmptySelection "no staged changes to commit" EmptyString))
  | _ =>
      match fill_write_set staged [] with
      | Err e => ret (Err e)
      | Ok changes =>
          let* result := write x changes in
          when (match result with Ok r => applied r | Err _ => false end) discard_staged ;;;
          ret result
      end
  end.

(** ** Operations of other threads and frames *)

Inductive mop :=
| Mo_report (now : TimePoint) (dp : json) (source : DatapointSource) (seq : option Z)
| Mo_stale
| Mo_stage (name : string) (v : DatapointValue)
| Mo_discard
| Mo_subscribe (name : string) (callback : nat)
| Mo_unsubscribe (token : Z)
| Mo_read_response (now : TimePoint) (source : DatapointSource) (response : Result json)
| Mo_write_response (now : TimePoint) (response : Result json).

Definition run_mop (op : mop) : M Manager sevent unit :=
  match op with
  | Mo_report now dp source seq => ingest_report now dp source seq ;;; ret tt
  | Mo_stale => mark_all_stale
  | Mo_stage name v => stage name v ;;; ret tt
  | Mo_discard => discard_staged
  | Mo_subscribe name callback => subscribe_raw name callback ;;; ret tt
  | Mo_unsubscribe token => unsubscribe token
  | Mo_read_response now source response => finish_read now source response ;;; ret tt
  | Mo_write_response now response => finish_write now response ;;; ret tt
  end.

(** The surroundings of a blocking call. *)
Record world := mkWorld {
  w_bound : bool;
  w_status : Status;
  w_between : RequestSpec -> list mop;
  w_now : TimePoint;
  w_reply : RequestSpec -> Result json
}.
Definition surroundings (w : world) : exchange Manager :=
  mkExchange (w_bound w) (w_status w) (fun spec => forM (w_between w spec) run_mop) (w_now w) (w_reply w).

(** Everything a user of the manager can do. *)
Inductive mcall :=
| Mc_op (op : mop)
| Mc_read (w : world) (names : list string)
| Mc_read_all (w : world)
| Mc_write (w : world) (changes : DatapointWriteSet)
| Mc_commit (w : world).
Definition run_mcall (c : mcall) : M Manager sevent unit :=
  match c with
  | Mc_op op => run_mop op
  | Mc_read w names => read_names (surroundings w) names ;;; ret tt
  | Mc_read_all w => read_all (surroundings w) ;;; ret tt
  | Mc_write w changes => write (surroundings w) changes ;;; ret tt
  | Mc_commit w => commit (surroundings w) ;;; ret tt
  end.
End Write.
