(* ===== verification/ManagerFacts.v ===== *)
(** * What the datapoint manager guarantees

    The invariant of the manager over every sequence of calls, the exact effect of
    a report on cache and subscribers, and the staged commit. *)
From S2P Require Import Prelude StdMap Errors Float Json Canonical Events Datapoint Generated Catalog.
From S2P Require Import Codec WriteSet Snapshot Service Manager.
Local Open Scope Z_scope.

(** ** The cache under an update *)

(** The notifications one decoded entry causes, from the cache before it. *)
Definition entry_changes (now : TimePoint) (source : DatapointSource) (subs : list Slot)
    (cache : smap CachedValue) (kv : string * DatapointValue) : list sevent :=
  match find kv.1 with
  | None => []
  | Some d =>
      let entry := cache_entry cache kv.1 in
      if had_value entry && negb (value_ne (cv_value entry) kv.2) then []
      else notifications subs kv.1
             (mkChange d kv.2 (if had_value entry then Some (cv_value entry) else None) source now)
  end.

Definition refreshed (now : TimePoint) (source : DatapointSource) (seq : option Z) (v : DatapointValue) :
    CachedValue := mkCached v now source Q_Good seq.

Section Update.
Context (now : TimePoint) (source : DatapointSource) (seq : option Z) (subs : list Slot).

Lemma update_entry_eq cache due kv :
  update_entry now source seq subs (cache, due) kv =
  (match find kv.1 with Some _ => mset kv.1 (refreshed now source seq kv.2) cache | None => cache end,
   due ++ entry_changes now source subs cache kv).
Proof.
  destruct kv as [name v]. unfold update_entry, entry_changes. cbn [fst snd].
  destruct (find name); [|by rewrite app_nil_r].
  destruct (had_value _); cbn [negb andb orb]; [|done].
  destruct (value_ne _ v); cbn [negb]; [done|by rewrite app_nil_r].
Qed.

Lemma update_fold values cache due :
  NoDup (keys values) ->
  exists cache', fold_left (update_entry now source seq subs) values (cache, due) =
    (cache', due ++ flat_map (entry_changes now source subs cache) values) /\
  (msorted cache -> msorted cache') /\
  forall name, mget name cache' =
    match mget name values, find name with
    | Some v, Some _ => Some (refreshed now source seq v)
    | _, _ => mget name cache
    end.
Proof.
  revert cache due. induction values as [|[k v] values IH]; intros cache due Hnd.
  - exists cache. cbn. by rewrite app_nil_r.
  - cbn in Hnd. apply list.NoDup_cons in Hnd as [Hn Hnd]. cbn [fold_left]. rewrite update_entry_eq. cbn [fst snd].
    set (cache1 := match find k with Some _ => _ | None => cache end).
    assert (forall name, name <> k -> mget name cache1 = mget name cache) as Hc1.
    { intros name Hne. unfold cache1. destruct (find k); [by rewrite mget_mset_ne|done]. }
    destruct (IH cache1 (due ++ entry_changes now source subs cache (k, v)) Hnd) as (cache' & -> & Hs & Hg).
    exists cache'. split; [|split].
    + f_equal. rewrite <- app_assoc. f_equal. cbn [flat_map]. f_equal.
      rewrite !flat_map_concat_map. f_equal. apply map_ext_in. intros [k' v'] Hin.
      unfold entry_changes, cache_entry. cbn [fst snd]. rewrite Hc1; [done|]. intros ->.
      apply Hn. apply list_elem_of_In. by apply (in_map fst) in Hin.
    + intros Hm. apply Hs. unfold cache1. destruct (find k); [by apply msorted_mset|done].
    + intros name. rewrite Hg. cbn [mget]. destruct (String.eqb_spec name k) as [->|Hne]; [|by rewrite Hc1].
      apply mget_None in Hn as ->. unfold cache1. destruct (find k); [by rewrite mget_mset_eq|done].
Qed.

End Update.

Lemma update_cache_run now source seq snapshot m : NoDup (keys (sn_values snapshot)) ->
  exists cache', update_cache now snapshot source seq m =
    (Ret (flat_map (entry_changes now source (mg_subscriptions m) (mg_cache m)) (sn_values snapshot)),
     set_mg_cache cache' m, []) /\
  (msorted (mg_cache m) -> msorted cache') /\
  forall name, mget name cache' =
    match sn_find name snapshot, find name with
    | Some v, Some _ => Some (refreshed now source seq v)
    | _, _ => mget name (mg_cache m)
    end.
Proof.
  intros Hnd. destruct (update_fold now source seq (mg_subscriptions m) (sn_values snapshot) (mg_cache m) [] Hnd) as (cache' & E & Hs & Hg).
  exists cache'. split; [|done]. unfold update_cache. rewrite run_get, E. cbn [app].
  by rewrite run_modify.
Qed.

(** ** The invariant *)

(** A cache entry that counts: a typed value of a catalogue name. *)
Definition entry_ok (name : string) (e : CachedValue) : Prop :=
  typed_entry name (cv_value e) /\ (cv_quality e = Q_Good \/ cv_quality e = Q_Stale).
Definition cache_ok (cache : smap CachedValue) : Prop :=
  msorted cache /\ forall name e, mget name cache = Some e -> entry_ok name e.
Definition mgr_ok (m : Manager) : Prop := cache_ok (mg_cache m) /\ ws_ok (mg_staged m).

#[local] Hint Extern 1 (Composable _) => apply composable_inv : typeclass_instances.
Abbreviation keeps_ok := (fun (s s' : Manager) (_ : list sevent) => mgr_ok s -> mgr_ok s').

Lemma cache_ok_update now source seq m snapshot cache' :
  snapshot_ok snapshot -> cache_ok (mg_cache m) -> (msorted (mg_cache m) -> msorted cache') ->
  (forall name, mget name cache' =
    match sn_find name snapshot, find name with
    | Some v, Some _ => Some (refreshed now source seq v)
    | _, _ => mget name (mg_cache m)
    end) -> cache_ok cache'.
Proof.
  intros [_ Ht] [Hs Hc] Hs' Hg. split; [by apply Hs'|]. intros name e. rewrite Hg.
  unfold sn_find. destruct (mget name (sn_values snapshot)) as [v|] eqn:Ev; [|by apply Hc].
  destruct (Ht _ _ Ev) as (d & Hf & Hd). rewrite Hf. intros [= <-].
  split; [by exists d|by left].
Qed.

Lemma add_unknown_values l s : sn_values (fold_left add_unknown_entry l s) = sn_values s.
Proof. revert s. induction l as [|j l IH]; intros s; [done|]. cbn. rewrite IH. by destruct j. Qed.

Lemma snapshot_ok_unknown l s : snapshot_ok s -> snapshot_ok (fold_left add_unknown_entry l s).
Proof. unfold snapshot_ok. by rewrite add_unknown_values. Qed.

Lemma snapshot_NoDup s : snapshot_ok s -> NoDup (keys (sn_values s)).
Proof. intros [H _]. by apply msorted_NoDup. Qed.

Lemma ok_update now s source seq : snapshot_ok s -> respects keeps_ok (update_cache now s source seq).
Proof.
  intros Hs m r m' w H [Hc Hw].
  destruct (update_cache_run now source seq s m (snapshot_NoDup _ Hs)) as (cache' & E & Hm & Hg).
  rewrite E in H. injection H as <- <- <-. split; [|exact Hw]. cbn. by eapply cache_ok_update.
Qed.

#[local] Hint Resolve decode_dp_object_ok snapshot_ok_unknown ok_update : fnt.

Lemma ok_notify w : respects keeps_ok (emits w).
Proof. by apply respects_emits. Qed.
#[local] Hint Resolve ok_notify : fnt.

Ltac ok_tac := repeat (respects_step || (solve [eauto with fnt])).

Lemma ok_report now dp source seq : respects keeps_ok (ingest_report now dp source seq).
Proof. unfold ingest_report. ok_tac. Qed.

Lemma ok_read now source response : respects keeps_ok (finish_read now source response).
Proof. unfold finish_read. destruct response; ok_tac. Qed.

Lemma ok_write dump now response : respects keeps_ok (finish_write dump now response).
Proof. unfold finish_write, parse_write_result. destruct response; ok_tac. Qed.

Lemma ws_set_staged name v m d : find name = Some d -> writable d = true ->
  value_index v = value_index_for (d_type d) -> ws_ok (mg_staged m) -> ws_ok (mset name v (mg_staged m)).
Proof.
  intros Hf Hw Hi [Hs Hv]. split; [by apply msorted_mset|]. intros n u. rewrite mget_mset.
  case_decide; [|by apply Hv]. intros [= <-]. subst. eauto.
Qed.

Lemma ok_stage name v : respects keeps_ok (stage name v).
Proof.
  unfold stage. destruct (find name) as [d|] eqn:Ef; [|ok_tac].
  destruct (writable d) eqn:Ew; cbn [negb]; [|ok_tac].
  destruct (Nat.eqb_spec (value_index v) (value_index_for (d_type d))); cbn [negb]; ok_tac.
  intros [Hc Hs]. split; [done|]. by eapply ws_set_staged.
Qed.

Lemma ws_ok_nil : ws_ok [].
Proof. split; [apply msorted_nil|]. by intros. Qed.

Lemma ok_discard : respects keeps_ok discard_staged.
Proof. unfold discard_staged. ok_tac. intros [Hc _]. split; [done|apply ws_ok_nil]. Qed.

Lemma stale_entry_ok name e : entry_ok name e -> entry_ok name (stale_entry e).
Proof. intros [Ht Hq]. unfold stale_entry. case_bool_decide; [split; [done|by right]|by split]. Qed.

Lemma ok_stale : respects keeps_ok mark_all_stale.
Proof.
  unfold mark_all_stale. ok_tac. intros [[Hs Hc] Hw]. split; [|exact Hw]. cbn. split; [by apply msorted_mmap|].
  intros name e. rewrite mget_mmap. destruct (mget name (mg_cache s)) as [e0|] eqn:E; [|done].
  intros [= <-]. by apply stale_entry_ok, Hc.
Qed.

Lemma ok_subscribe name cb : respects keeps_ok (subscribe_raw name cb).
Proof. unfold subscribe_raw. ok_tac; done. Qed.
Lemma ok_unsubscribe token : respects keeps_ok (unsubscribe token).
Proof. unfold unsubscribe. ok_tac; done. Qed.

#[local] Hint Resolve ok_report ok_read ok_write ok_stage ok_discard ok_stale ok_subscribe ok_unsubscribe : fnt.

Lemma ok_mop dump op : respects keeps_ok (run_mop dump op).
Proof. destruct op; cbn [run_mop]; ok_tac. Qed.
#[local] Hint Resolve ok_mop : fnt.

Lemma ok_sync {T} dump w (start : outcome (started T)) finish :
  (forall reply, respects keeps_ok (finish reply)) ->
  respects keeps_ok (sync_wait (surroundings dump w) start finish).
Proof. intros Hf. apply respects_sync_wait; [apply _|done| |done]. intros spec. cbn. ok_tac. Qed.

Lemma ok_mcall dump c : respects keeps_ok (run_mcall dump c).
Proof.
  destruct c; cbn [run_mcall]; unfold read_names, read_all, write, commit;
    repeat (respects_step || (apply ok_sync; intros ?) || (solve [eauto with fnt])).
  all: unfold write; apply ok_sync; intros ?; eauto with fnt.
Qed.

(** ** What a commit sends *)

Lemma value_to_json_total d v : value_index v = value_index_for (d_type d) ->
  exists j, value_to_json d v = Ret j.
Proof. unfold value_to_json. intros H. destruct (d_type d), v; try discriminate H; cbn; eauto. Qed.

(** The wire form of a value under its name. *)
Definition wire (name : string) (v : DatapointValue) : option json :=
  match find name with
  | Some d => match value_to_json d v with Ret j => Some j | Throw _ => None end
  | None => None
  end.

Definition writable_entry (name : string) (v : DatapointValue) : Prop :=
  exists d, find name = Some d /\ writable d = true /\ value_index v = value_index_for (d_type d).

Lemma ws_ok_elem values : ws_ok values -> Forall (fun kv => writable_entry kv.1 kv.2) values.
Proof.
  intros [Hs Hv]. apply Forall_elem. intros [n v] Hin. apply Hv, mget_elem_iff; [by apply msorted_NoDup|done].
Qed.

Lemma ws_set_writable name v values : writable_entry name v -> ws_set name v values = (ok, mset name v values).
Proof.
  intros (d & Hf & Hw & Hi). unfold ws_set. rewrite Hf, Hw. cbn [negb].
  by rewrite (proj2 (Nat.eqb_eq _ _) Hi).
Qed.

Lemma fill_write_set_spec values acc : Forall (fun kv => writable_entry kv.1 kv.2) values -> NoDup (keys values) ->
  exists out, fill_write_set values acc = Ok out /\ (msorted acc -> msorted out) /\
  forall name, mget name out = match mget name values with Some v => Some v | None => mget name acc end.
Proof.
  revert acc. induction values as [|[k v] values IH]; intros acc; [by exists acc|].
  intros [Hk Hv]%Forall_cons_iff Hnd. cbn in Hnd. apply list.NoDup_cons in Hnd as [Hn Hnd].
  cbn [fill_write_set fst snd] in *. rewrite ws_set_writable by done. unfold ok.
  destruct (IH (mset k v acc) Hv Hnd) as (out & -> & Hs & Hg). exists out. split; [done|].
  split; [auto using msorted_mset|]. intros name. rewrite Hg, mget_mset. cbn [mget].
  destruct (String.eqb_spec name k) as [->|Hne].
  - apply mget_None in Hn as ->. by rewrite decide_True.
  - by rewrite decide_False.
Qed.

Lemma fill_staged values : ws_ok values -> fill_write_set values [] = Ok values.
Proof.
  intros Hok. pose proof Hok as [Hs _].
  destruct (fill_write_set_spec values [] (ws_ok_elem _ Hok)) as (out & -> & Ho & Hg); [by apply msorted_NoDup|].
  f_equal. apply msorted_ext; [apply Ho, msorted_nil|done|]. intros name. rewrite Hg.
  by destruct (mget name values).
Qed.

Lemma dp_object_spec values acc : Forall (fun kv => writable_entry kv.1 kv.2) values -> NoDup (keys values) ->
  exists dp, dp_object values acc = Ret dp /\ (msorted acc -> msorted dp) /\
  forall name, mget name dp = match mget name values with Some v => wire name v | None => mget name acc end.
Proof.
  revert acc. induction values as [|[k v] values IH]; intros acc; [by exists acc|].
  intros [(d & Hf & _ & Hi) Hv]%Forall_cons_iff Hnd. cbn in Hnd. apply list.NoDup_cons in Hnd as [Hn Hnd].
  cbn [dp_object fst snd] in *. destruct (value_to_json_total d v Hi) as [j Hj]. rewrite Hf, Hj. cbn [outcome_bind].
  destruct (IH (mset k j acc) Hv Hnd) as (dp & -> & Hs & Hg). exists dp. split; [done|].
  split; [auto using msorted_mset|]. intros name. rewrite Hg, mget_mset. cbn [mget].
  destruct (String.eqb_spec name k) as [->|Hne].
  - apply mget_None in Hn as ->. rewrite decide_True by done. unfold wire. by rewrite Hf, Hj.
  - by rewrite decide_False.
Qed.

(** The request of a write set. *)
Definition write_request (dp : smap json) : RequestSpec :=
  {| rs_type := "dp_write"; rs_body := J_obj [("dp", J_obj dp)]; rs_timeout := None;
     rs_priority := InteractiveControl; rs_coalesce_key := EmptyString |}.

(** The object a write of these values sends. *)
Definition encodes (values : smap DatapointValue) (dp : smap json) : Prop :=
  msorted dp /\ forall name, mget name dp = match mget name values with Some v => wire name v | None => None end.

Lemma ws_validate_all_spec values : ws_validate_all values = Ok tt ->
  Forall (fun kv => exists d, find kv.1 = Some d /\ validate d kv.2 = Ok tt) values.
Proof.
  induction values as [|[k v] values IH]; [constructor|]. cbn [ws_validate_all].
  destruct (find k) as [d|] eqn:Ef; [|discriminate]. unfold rbind.
  destruct (validate d v) as [[]|e] eqn:Ev; [|discriminate]. intros H. constructor; [by exists d|auto].
Qed.

Lemma async_write_cases values : ws_ok values ->
  (exists e, async_write values = Ret (Completed (Err e))) \/
  (exists dp, async_write values = Ret (Submitted (write_request dp)) /\ encodes values dp /\
     Forall (fun kv => exists d, find kv.1 = Some d /\ validate d kv.2 = Ok tt) values).
Proof.
  intros Hok. pose proof Hok as [Hs _]. unfold async_write.
  destruct (ws_validate values) as [[]|e] eqn:E; [|left; by exists e]. right.
  destruct (dp_object_spec values [] (ws_ok_elem _ Hok)) as (dp & -> & Hd & Hg); [by apply msorted_NoDup|].
  exists dp. split; [done|]. split; [split; [apply Hd, msorted_nil|done]|].
  apply ws_validate_all_spec. revert E. unfold ws_validate. by destruct values.
Qed.

(** ** The steps of a commit *)

Abbreviation no_submit := (fun (_ _ : Manager) (w : list sevent) =>
  Forall (fun e => match e with Sv_submit _ => False | _ => True end) w).
Abbreviation same_staging := (fun (s s' : Manager) (_ : list sevent) => mg_staged s' = mg_staged s).

#[local] Instance composable_staging : Composable same_staging.
Proof. split; [done|]. intros. by etransitivity. Qed.

Lemma submitted_none w : Forall (fun e => match e with Sv_submit _ => False | _ => True end) w -> submitted w = [].
Proof. induction 1 as [|e w He _ IH]; [done|]. by destruct e. Qed.

Lemma flat_map_changes now source subs cache values :
  Forall (fun e => match e with Sv_submit _ => False | _ => True end)
    (flat_map (entry_changes now source subs cache) values).
Proof.
  apply Forall_elem. intros e He. apply list_elem_of_In, in_flat_map in He as (kv & _ & He).
  unfold entry_changes in He. destruct (find kv.1); [|done]. destruct (_ && _); [done|].
  unfold notifications in He. apply in_map_iff in He as (slot & <- & _). exact I.
Qed.

(** An update emits nothing and leaves the staging alone; what it returns is
    notifications. *)
Lemma update_facts now s source seq : snapshot_ok s ->
  results (fun due => Forall (fun e => match e with Sv_submit _ => False | _ => True end) due)
    (update_cache now s source seq) /\
  respects same_staging (update_cache now s source seq) /\ respects no_submit (update_cache now s source seq).
Proof.
  intros Hs. split_and!; intros m r m' w H;
    destruct (update_cache_run now source seq s m (snapshot_NoDup _ Hs)) as (cache' & E & _); rewrite E in H;
    injection H as <- <- <-; [apply flat_map_changes|done|constructor].
Qed.

(** Handling a snapshot and notifying, under any relation both keep. *)
Lemma respects_notify {A} (R : Manager -> Manager -> list sevent -> Prop) `{!Composable R} now s source seq
    (k : M Manager sevent A) : snapshot_ok s ->
  respects R (update_cache now s source seq) ->
  (forall due m, Forall (fun e => match e with Sv_submit _ => False | _ => True end) due -> R m m due) ->
  respects R k -> respects R (let* notify := update_cache now s source seq in emits notify ;;; k).
Proof.
  intros Hs Hu He Hk. eapply respects_bind_results; [apply _|done|exact (proj1 (update_facts now s source seq Hs))|].
  intros due Hdue. apply respects_bind; [done| |done]. apply respects_emits. intros m. by apply He.
Qed.

Section Quiet.
Context (R : Manager -> Manager -> list sevent -> Prop) `{!Composable R}.
Hypothesis R_update : forall now s source seq, snapshot_ok s -> respects R (update_cache now s source seq).
Hypothesis R_notify : forall due m, Forall (fun e => match e with Sv_submit _ => False | _ => True end) due -> R m m due.

#[local] Hint Resolve decode_dp_object_ok snapshot_ok_unknown : fnt.
Ltac notify_tac := repeat (
  lazymatch goal with
  | |- respects _ (bind (update_cache _ _ _ _) _) =>
      apply respects_notify; [done|by auto with fnt|apply R_update; by auto with fnt|done|]
  | _ => respects_step
  end).

Lemma quiet_report now dp source seq : respects R (ingest_report now dp source seq).
Proof using All. unfold ingest_report. notify_tac. Qed.
Lemma quiet_read now source response : respects R (finish_read now source response).
Proof using All. unfold finish_read. destruct response; notify_tac. Qed.
Lemma quiet_write dump now response : respects R (finish_write dump now response).
Proof using All. unfold finish_write, parse_write_result. destruct response; notify_tac. Qed.
End Quiet.

Lemma no_submit_update now s source seq : snapshot_ok s -> respects no_submit (update_cache now s source seq).
Proof. intros Hs. apply update_facts, Hs. Qed.
Lemma same_staging_update now s source seq : snapshot_ok s -> respects same_staging (update_cache now s source seq).
Proof. intros Hs. apply update_facts, Hs. Qed.

Lemma no_submit_mop dump op : respects no_submit (run_mop dump op).
Proof.
  pose proof no_submit_update. assert (forall due (m : Manager), Forall (fun e => match e with Sv_submit _ => False | _ => True end) due ->
    no_submit m m due) as Hn by done.
  destruct op; cbn [run_mop]; unfold mark_all_stale, stage, discard_staged, subscribe_raw, unsubscribe;
    repeat (respects_step || constructor || (apply quiet_report; [apply _|done|done]) ||
            (apply quiet_read; [apply _|done|done]) || (apply quiet_write; [apply _|done|done])).
Qed.

Lemma staging_write dump now response : respects same_staging (finish_write dump now response).
Proof. apply quiet_write; [apply _|apply same_staging_update|done]. Qed.
Lemma no_submit_write dump now response : respects no_submit (finish_write dump now response).
Proof. apply quiet_write; [apply _|apply no_submit_update|done]. Qed.

(** What becomes of the staging after a write result. *)
Definition settled (r : outcome (Result WriteResult)) (before after : smap DatapointValue) : Prop :=
  match r with
  | Ret (Ok result) => after = if applied result then [] else before
  | _ => after = before
  end.

Lemma write_steps dump w values m r m' ev : ws_ok values ->
  write dump (surroundings dump w) values m = (r, m', ev) ->
  (exists e, r = Ret (Err e) /\ m' = m /\ ev = []) \/
  exists dp m1, encodes values dp /\
    Forall (fun kv => exists d, find kv.1 = Some d /\ validate d kv.2 = Ok tt) values /\
    submitted ev = [write_request dp] /\ mg_staged m' = mg_staged m1 /\
    exists rb w1, forM (w_between w (write_request dp)) (run_mop dump) m = (rb, m1, w1).
Proof.
  intros Hok. unfold write. destruct (async_write_cases values Hok) as [[e He]|(dp & He & Henc & Hv)]; rewrite He;
    intros H; apply sync_wait_cases in H as [(e' & -> & -> & ->)|[(c & Hc & -> & -> & ->)|(spec & Hs & H)]];
    try discriminate; try (left; by eauto).
  - left. injection Hc as <-. eauto.
  - injection Hs as <-. right. exists dp. unfold bind at 1, emit at 1 in H. cbn [x_between surroundings] in H.
    unfold bind at 1 in H.
    destruct (forM (w_between w (write_request dp)) (run_mop dump) m) as [[[[]|e] m1] w1] eqn:Eb.
    2: { injection H as <- <- <-. exists m1. split_and!; eauto. cbn [submitted omap list_omap]. f_equal.
         eapply submitted_none, (respects_forM no_submit (w_between w (write_request dp)) (run_mop dump)); [intros op; apply no_submit_mop|exact Eb]. }
    destruct (finish_write dump _ _ m1) as [[r2 m2] w2] eqn:Ef. injection H as <- <- <-.
    exists m1. split_and!; eauto.
    + cbn [submitted omap list_omap app]. f_equal. fold (submitted (w1 ++ w2)). rewrite submitted_app.
      rewrite (submitted_none w1), (submitted_none w2); [done|by eapply no_submit_write|].
      eapply (respects_forM no_submit _ (run_mop dump)); [intros op; apply no_submit_mop|exact Eb].
    + by eapply staging_write.
Qed.

Lemma commit_steps dump w m r m' ev : mgr_ok m -> commit dump (surroundings dump w) m = (r, m', ev) ->
  (exists e, r = Ret (Err e) /\ m' = m /\ ev = []) \/
  exists dp m1, mg_staged m <> [] /\ encodes (mg_staged m) dp /\
    Forall (fun kv => exists d, find kv.1 = Some d /\ validate d kv.2 = Ok tt) (mg_staged m) /\
    submitted ev = [write_request dp] /\ settled r (mg_staged m1) (mg_staged m') /\
    exists rb w1, forM (w_between w (write_request dp)) (run_mop dump) m = (rb, m1, w1).
Proof.
  intros [_ Hst]. unfold commit. rewrite run_gets.
  destruct (mg_staged m) as [|kv rest] eqn:Es; [intros [= <- <- <-]; left; by eauto|]. rewrite <- Es in *.
  rewrite fill_staged by done. unfold bind at 1.
  destruct (write dump (surroundings dump w) (mg_staged m) m) as [[r1 m1] w1] eqn:Ew.
  apply write_steps in Ew as [(e & -> & -> & ->)|(dp & mb & Henc & Hv & Hsub & Hstg & rb & wb & Eb)]; [..|done].
  - cbn. intros [= <- <- <-]. left. by eauto.
  - intros H. right. exists dp, mb. split; [by rewrite Es|]. split; [done|]. split; [done|].
    destruct r1 as [result|e]; [|injection H as <- <- <-; by eauto 10].
    destruct result as [res|e]; cbn in H; [|injection H as <- <- <-; rewrite app_nil_r; by eauto 10].
    destruct (applied res) eqn:Ea; cbn in H; injection H as <- <- <-; rewrite app_nil_r; (split; [done|]);
      (split; [cbn; by rewrite Ea|by eauto]).
Qed.

(** Who is told of one entry, and what. *)
Lemma entry_changes_spec now source m name v d cb change : find name = Some d ->
  Sv_notify cb change ∈ entry_changes now source (mg_subscriptions m) (mg_cache m) (name, v) <->
  exists slot, slot ∈ mg_subscriptions m /\ (sl_name slot = EmptyString \/ sl_name slot = name) /\
    sl_callback slot = cb /\ (forall old, cached_raw name m = Some old -> value_ne (cv_value old) v = true) /\
    change = mkChange d v (cv_value <$> cached_raw name m) source now.
Proof.
  intros Hf. unfold entry_changes, cached_raw, cache_entry, notifications. cbn [fst snd]. rewrite Hf.
  assert (forall slot, matches name slot = true <-> sl_name slot = EmptyString \/ sl_name slot = name) as Hm.
  { intros slot. unfold matches. rewrite orb_true_iff, String.eqb_eq. destruct (sl_name slot); cbn; naive_solver. }
  assert (forall c, Sv_notify cb change ∈
      map (fun slot => Sv_notify (sl_callback slot) c) (List.filter (matches name) (mg_subscriptions m)) <->
    exists slot, slot ∈ mg_subscriptions m /\ (sl_name slot = EmptyString \/ sl_name slot = name) /\
      sl_callback slot = cb /\ change = c) as Hn.
  { intros c. rewrite list_elem_of_In, in_map_iff. setoid_rewrite filter_In. setoid_rewrite Hm.
    setoid_rewrite <- list_elem_of_In. naive_solver. }
  destruct (mget name (mg_cache m)) as [e|]; [change (default cached_default (Some e)) with e|change (had_value (default cached_default None)) with false]; cbn [andb]; cbv iota.
  2: rewrite Hn; naive_solver.
  destruct (had_value e); cbn [andb]; cbv iota; [|rewrite Hn; naive_solver].
  destruct (value_ne (cv_value e) v) eqn:En; cbn [negb]; cbv iota; [rewrite Hn; naive_solver|].
  split; [by intros ?%elem_of_nil|]. intros (slot & _ & _ & _ & Hne & _). by rewrite (Hne e) in En.
Qed.

Lemma validate_values_total values : Forall (fun kv => writable_entry kv.1 kv.2) values ->
  exists st, validate_values values = Ret st.
Proof.
  induction 1 as [|[n v] l (d & Hf & _) _ IH]; [by eexists|]. cbn [validate_values fst snd] in *. rewrite Hf.
  destruct (validate d v); [exact IH|by eexists].
Qed.

(** ** Theorems *)

(** C28: Over any sequence of calls by the application and any interleaving with
    reports, responses and other threads, even when a response handler is left by
    an exception, the manager keeps its invariant: the cache holds only catalogue
    names under values of their own type with every integer in its width, and the
    staging holds only writable datapoints under values of their own type.  So
    checking the staged values dereferences no unknown name, and a commit's
    write set takes all of them. *)
Theorem manager_invariant dump calls r m w : forM calls (run_mcall dump) new_manager = (r, m, w) ->
  (forall name e, cached_raw name m = Some e -> entry_ok name e) /\
  ws_ok (mg_staged m) /\
  (exists status, validate_staged m = Ret status) /\
  fill_write_set (mg_staged m) [] = Ok (mg_staged m).
Proof.
  intros H. assert (mgr_ok m) as [[Hs Hc] Hw].
  { eapply (respects_forM keeps_ok calls (run_mcall dump)); [intros c; apply ok_mcall|exact H|].
    split; [split; [apply msorted_nil|by intros]|apply ws_ok_nil]. }
  split; [|split; [done|split; [|by apply fill_staged]]].
  - intros name e. unfold cached_raw. destruct (mget name (mg_cache m)) eqn:E; [|done].
    destruct (had_value _); [|done]. intros [= <-]. by apply Hc.
  - unfold validate_staged. destruct (validate_values_total (mg_staged m)) as [st ->]; [by apply ws_ok_elem|].
    cbn [outcome_bind]. destruct st; by eexists.
Qed.

(** C27: A report is applied exactly: every decodable catalogue value of the
    frame becomes the cached value, fresh and with the frame's source, sequence
    and time, everything else in the cache stays, and a subscriber is called
    precisely for the values that are new or differ from the cached one, if it
    subscribed to that name or to all, with the previous value. *)
Theorem report_applied now dp source seq m r m' w : ingest_report now dp source seq m = (r, m', w) ->
  r = Ret (decode_dp_object dp) /\ submitted w = [] /\
  (forall name, mget name (mg_cache m') =
     match sn_find name (decode_dp_object dp) with
     | Some v => Some (mkCached v now source Q_Good seq)
     | None => mget name (mg_cache m)
     end) /\
  (forall cb change, Sv_notify cb change ∈ w <->
     exists name d v slot, find name = Some d /\ sn_find name (decode_dp_object dp) = Some v /\
       slot ∈ mg_subscriptions m /\ (sl_name slot = EmptyString \/ sl_name slot = name) /\ sl_callback slot = cb /\
       (forall old, cached_raw name m = Some old -> value_ne (cv_value old) v = true) /\
       change = mkChange d v (cv_value <$> cached_raw name m) source now).
Proof.
  pose proof (decode_dp_object_ok dp) as Hok. unfold ingest_report.
  destruct (update_cache_run now source seq (decode_dp_object dp) m (snapshot_NoDup _ Hok)) as (cache' & Eu & _ & Hg).
  rewrite (run_bind_quiet _ _ _ _ _ Eu). unfold bind, emits, ret. cbv beta iota. rewrite app_nil_r.
  intros [= <- <- <-]. split; [done|].
  split; [apply submitted_none, flat_map_changes|]. split.
  - intros name. cbn [set_mg_cache mg_cache]. rewrite Hg. unfold sn_find. destruct (mget name _) as [v|] eqn:E; [|done].
    destruct Hok as [_ Ht]. destruct (Ht _ _ E) as (d & -> & _). done.
  - intros cb change. rewrite list_elem_of_In, in_flat_map. split.
    + intros ([name v] & Hin & He). destruct Hok as [Hs Ht].
      assert (sn_find name (decode_dp_object dp) = Some v) as Hv.
      { apply mget_elem_iff; [by apply msorted_NoDup|by apply list_elem_of_In]. }
      destruct (Ht _ _ Hv) as (d & Hf & _). apply list_elem_of_In in He. rewrite (entry_changes_spec _ _ _ _ _ d) in He by done. destruct He as (slot & He).
      exists name, d, v, slot. naive_solver.
    + intros (name & d & v & slot & Hf & Hv & He). exists (name, v).
      split; [by apply list_elem_of_In, mget_elem|]. apply list_elem_of_In. rewrite (entry_changes_spec _ _ _ _ _ d) by done.
      exists slot. naive_solver.
Qed.


(** An edit staged by another thread while a commit waits for the device is
    lost: the commit sends the values staged before, and when the device applies
    them the whole staging is discarded, the new edit with it. *)
Theorem commit_drops_concurrent_edit dump w m r m' ev name v result :
  mgr_ok m -> w_between w = (fun _ => [Mo_stage name v]) ->
  writable_entry name v -> mget name (mg_staged m) = None ->
  commit dump (surroundings dump w) m = (r, m', ev) -> r = Ret (Ok result) -> applied result = true ->
  mg_staged m' = [] /\ exists dp, submitted ev = [write_request dp] /\ mget name dp = None.
Proof.
  intros Hm Hq _ Hnone H -> Ha.
  apply commit_steps in H as [(e & [=] & _)|(dp & mb & Hne & [_ Henc] & _ & Hsub & Hset & _)]; [|done].
  cbn in Hset. rewrite Ha in Hset. split; [done|]. exists dp. split; [done|]. by rewrite Henc, Hnone.
Qed.

(** ** Witnesses *)

Definition pressure_report : json := J_obj [("Fon_Current_Pressure", J_float (lit 25 1)); ("NotADatapoint", J_bool true)].
Definition staged_pressure : Manager := set_mg_staged [("Fon_Min_Pressure", V_float (lit 25 1))] new_manager.
Definition no_dump (_ : json) : outcome string := Throw Exn_dump.
Definition quiet_world (ops : list mop) : world :=
  mkWorld true ok (fun _ => ops) 0 (fun _ => Ok (J_obj [("status", J_str "applied")])).

Lemma manager_invariant_witness : exists m w,
  forM [Mc_op (Mo_report 5 pressure_report UnsolicitedReport (Some 1)); Mc_op (Mo_stage "Fon_Min_Pressure" (V_float (lit 25 1)))]
    (run_mcall no_dump) new_manager = (Ret tt, m, w) /\ ws_ok (mg_staged m).
Proof.
  evaluate (forM [Mc_op (Mo_report 5 pressure_report UnsolicitedReport (Some 1));
                  Mc_op (Mo_stage "Fon_Min_Pressure" (V_float (lit 25 1)))] (run_mcall no_dump) new_manager) H.
  eexists _, _. split; [exact H|]. exact (proj1 (proj2 (manager_invariant _ _ _ _ _ H))).
Defined.

Lemma report_applied_witness : exists m' w,
  ingest_report 5 pressure_report UnsolicitedReport (Some 1) new_manager =
    (Ret (decode_dp_object pressure_report), m', w) /\
  mget "Fon_Current_Pressure" (mg_cache m') = Some (mkCached (V_float (to_float32 (lit 25 1))) 5 UnsolicitedReport Q_Good (Some 1)).
Proof.
  evaluate (ingest_report 5 pressure_report UnsolicitedReport (Some 1) new_manager) H.
  eexists _, _. split; [exact H|].
  refine (eq_trans (proj1 (proj2 (proj2 (report_applied _ _ _ _ _ _ _ _ H))) _) _). vm_compute. reflexivity.
Defined.

Lemma staged_pressure_ok : mgr_ok staged_pressure.
Proof.
  split; [split; [apply msorted_nil|by intros]|].
  evaluate (find "Fon_Min_Pressure") Hd.
  exact (ws_set_staged _ (V_float (lit 25 1)) new_manager _ Hd eq_refl eq_refl ws_ok_nil).
Qed.


Lemma commit_drops_concurrent_edit_witness : exists m' ev result,
  commit no_dump (surroundings no_dump (quiet_world [Mo_stage "Fon_Max_Pressure" (V_float (lit 5 0))])) staged_pressure =
    (Ret (Ok result), m', ev) /\ mg_staged m' = [].
Proof.
  evaluate (commit no_dump (surroundings no_dump (quiet_world [Mo_stage "Fon_Max_Pressure" (V_float (lit 5 0))]))
    staged_pressure) H.
  eexists _, _, _. split; [exact H|].
  refine (proj1 (commit_drops_concurrent_edit no_dump
    (quiet_world [Mo_stage "Fon_Max_Pressure" (V_float (lit 5 0))]) staged_pressure _ _ _ "Fon_Max_Pressure" (V_float (lit 5 0)) _ staged_pressure_ok eq_refl _ eq_refl H eq_refl eq_refl)).
  eexists. split; [vm_compute; reflexivity|]. split; reflexivity.
Defined.
