(* ===== verification/Poller.v ===== *)
(** * The datapoint poller ([datapoints/poller.hpp], [poller.cpp])

    Cyclic reads on a time grid.  Times are nanoseconds, intervals milliseconds
    and the keepalive seconds, as in the code.  A tick is the body the client's
    timer runs; a read it starts goes through the manager's [async_read], and its
    completion is the handler recorded with the request. *)
From S2P Require Import Prelude StdMap Errors Float Json Events Datapoint Generated Catalog.
From S2P Require Import Codec Snapshot Service Manager.
Local Open Scope Z_scope.

Definition kMaxNamesPerRequest : nat := 100.

Record PollStats := mkStats {
  ps_cycles : Z;
  ps_requests : Z;
  ps_coalesced_points : Z;
  ps_skipped_inflight : Z;
  ps_missed_deadlines : Z;
  ps_keepalives : Z;
  ps_failures : Z
}.
Definition stats_zero : PollStats := mkStats 0 0 0 0 0 0 0.
(** 64-bit counters. *)
Definition bump (z by' : Z) : Z := wrap_u 64 (z + by').
Definition add_cycles (n : Z) (s : PollStats) : PollStats :=
  mkStats (bump (ps_cycles s) n) (ps_requests s) (ps_coalesced_points s) (ps_skipped_inflight s)
    (ps_missed_deadlines s) (ps_keepalives s) (ps_failures s).
Definition add_requests (n : Z) (s : PollStats) : PollStats :=
  mkStats (ps_cycles s) (bump (ps_requests s) n) (ps_coalesced_points s) (ps_skipped_inflight s)
    (ps_missed_deadlines s) (ps_keepalives s) (ps_failures s).
Definition add_coalesced (n : Z) (s : PollStats) : PollStats :=
  mkStats (ps_cycles s) (ps_requests s) (bump (ps_coalesced_points s) n) (ps_skipped_inflight s)
    (ps_missed_deadlines s) (ps_keepalives s) (ps_failures s).
Definition add_skipped_missed (n m : Z) (s : PollStats) : PollStats :=
  mkStats (ps_cycles s) (ps_requests s) (ps_coalesced_points s) (bump (ps_skipped_inflight s) n)
    (bump (ps_missed_deadlines s) m) (ps_keepalives s) (ps_failures s).
Definition add_keepalives (n : Z) (s : PollStats) : PollStats :=
  mkStats (ps_cycles s) (ps_requests s) (ps_coalesced_points s) (ps_skipped_inflight s)
    (ps_missed_deadlines s) (bump (ps_keepalives s) n) (ps_failures s).
Definition add_failures (n : Z) (s : PollStats) : PollStats :=
  mkStats (ps_cycles s) (ps_requests s) (ps_coalesced_points s) (ps_skipped_inflight s)
    (ps_missed_deadlines s) (ps_keepalives s) (bump (ps_failures s) n).

Record Entry := mkEntry {
  en_interval : Z;           (* milliseconds *)
  en_next_due : TimePoint;
  en_in_flight : bool;
  en_once : bool;
  en_once_done : bool
}.
(** [Entry{}] *)
Definition entry_default : Entry := mkEntry 0 0 false false false.
Definition set_en_interval (v : Z) (e : Entry) : Entry :=
  mkEntry v (en_next_due e) (en_in_flight e) (en_once e) (en_once_done e).
Definition set_en_next_due (v : TimePoint) (e : Entry) : Entry :=
  mkEntry (en_interval e) v (en_in_flight e) (en_once e) (en_once_done e).
Definition set_en_in_flight (v : bool) (e : Entry) : Entry :=
  mkEntry (en_interval e) (en_next_due e) v (en_once e) (en_once_done e).
Definition set_en_once (v : bool) (e : Entry) : Entry :=
  mkEntry (en_interval e) (en_next_due e) (en_in_flight e) v (en_once_done e).
Definition set_en_once_done (v : bool) (e : Entry) : Entry :=
  mkEntry (en_interval e) (en_next_due e) (en_in_flight e) (en_once e) v.

Record Poller := mkPoller {
  po_entries : smap Entry;
  po_class_intervals : PollClass -> Z;     (* 0 for a class without an entry *)
  po_keepalive : Z;                        (* seconds *)
  po_running : bool;
  po_paused : bool;
  po_raster_dirty : bool;
  po_stats : PollStats
}.
Definition new_poller : Poller :=
  mkPoller [] (fun c => match c with
                        | PC_Realtime => 1000 | PC_Status => 5000 | PC_Config => 60000
                        | PC_OnConnect | PC_Disabled => 0 end)
    240 false false true stats_zero.
Definition set_po_entries (v : smap Entry) (p : Poller) : Poller :=
  mkPoller v (po_class_intervals p) (po_keepalive p) (po_running p) (po_paused p) (po_raster_dirty p) (po_stats p).
Definition set_po_class_intervals (v : PollClass -> Z) (p : Poller) : Poller :=
  mkPoller (po_entries p) v (po_keepalive p) (po_running p) (po_paused p) (po_raster_dirty p) (po_stats p).
Definition set_po_keepalive (v : Z) (p : Poller) : Poller :=
  mkPoller (po_entries p) (po_class_intervals p) v (po_running p) (po_paused p) (po_raster_dirty p) (po_stats p).
Definition set_po_running (v : bool) (p : Poller) : Poller :=
  mkPoller (po_entries p) (po_class_intervals p) (po_keepalive p) v (po_paused p) (po_raster_dirty p) (po_stats p).
Definition set_po_paused (v : bool) (p : Poller) : Poller :=
  mkPoller (po_entries p) (po_class_intervals p) (po_keepalive p) (po_running p) v (po_raster_dirty p) (po_stats p).
Definition set_po_raster_dirty (v : bool) (p : Poller) : Poller :=
  mkPoller (po_entries p) (po_class_intervals p) (po_keepalive p) (po_running p) (po_paused p) v (po_stats p).
Definition on_po_stats (f : PollStats -> PollStats) (p : Poller) : Poller :=
  mkPoller (po_entries p) (po_class_intervals p) (po_keepalive p) (po_running p) (po_paused p) (po_raster_dirty p)
    (f (po_stats p)).

(** The completions a tick passes to [async_read], and the reads it starts. *)
Inductive poll_handler :=
| H_chunk (names : list string)
| H_keepalive.
Inductive pevent :=
| Pe_read (spec : RequestSpec) (h : poll_handler).

(** ** Configuration *)

(** [entries[name]] *)
Definition poll_entry (name : string) (p : Poller) : Entry := default entry_default (mget name (po_entries p)).
Definition put_entry (name : string) (f : Entry -> Entry) (p : Poller) : Poller :=
  set_po_entries (mset name (f (poll_entry name p)) (po_entries p)) p.

Definition add (name : string) (interval : Z) : M Poller pevent unit :=
  modify (fun p => set_po_raster_dirty true
    (put_entry name (fun e => set_en_once false (set_en_interval interval e)) p)).
Definition add_once (name : string) : M Poller pevent unit :=
  modify (fun p => set_po_raster_dirty true
    (put_entry name (fun e => set_en_once_done false (set_en_once true e)) p)).
Definition remove (name : string) : M Poller pevent unit :=
  modify (fun p => set_po_entries (mdel name (po_entries p)) p).

Fixpoint every (interval : Z) (names : list string) : M Poller pevent Status :=
  match names with
  | [] => ret ok
  | name :: r =>
      match find name with
      | None => ret (Err (validation_error UnknownDatapoint ("unknown datapoint '" +:+ name +:+ "'") name))
      | Some d =>
          if negb (readable d) then
            ret (Err (validation_error ReadOnlyDatapoint (name +:+ " is not readable") name))
          else add name interval ;;; every interval r
      end
  end.
(** The typed forms: the concepts require readable constants. *)
Definition every_dp (interval : Z) (dps : list Datapoint) : M Poller pevent unit :=
  forM dps (fun dp => add (dp_name dp) interval).
Definition once_dp (dps : list Datapoint) : M Poller pevent unit := forM dps (fun dp => add_once (dp_name dp)).
Definition disable_dp (dps : list Datapoint) : M Poller pevent unit := forM dps (fun dp => remove (dp_name dp)).

Definition set_class_interval (c : PollClass) (interval : Z) : M Poller pevent unit :=
  modify (fun p => set_po_class_intervals
    (fun c' => if decide (c' = c) then interval else po_class_intervals p c') p).
Definition set_keepalive (interval : Z) : M Poller pevent unit := modify (set_po_keepalive interval).

(** ** Lifecycle *)

Definition start : M Poller pevent unit :=
  modify (fun p => set_po_raster_dirty true (set_po_paused false (set_po_running true p))).
Definition pause : M Poller pevent unit := modify (set_po_paused true).
Definition resume : M Poller pevent unit := modify (fun p => set_po_raster_dirty true (set_po_paused false p)).
Definition stop : M Poller pevent unit := modify (set_po_running false).
Definition on_reconnected : M Poller pevent unit := modify (set_po_raster_dirty true).
Definition running (p : Poller) : bool := po_running p && negb (po_paused p).

Definition add_default (p : Poller) (d : DatapointDescriptor) : Poller :=
  match d_poll_class d with
  | PC_Disabled => p
  | PC_OnConnect => put_entry (d_name d) (fun e => set_en_once_done false (set_en_once true e)) p
  | c => put_entry (d_name d) (fun e => set_en_once false (set_en_interval (po_class_intervals p c) e)) p
  end.
Definition start_defaults : M Poller pevent unit :=
  modify (fun p => set_po_raster_dirty true (fold_left add_default all p)) ;;;
  start.

(** ** The tick *)

Definition reset_entry (now : TimePoint) (e : Entry) : Entry :=
  let e := set_en_in_flight false (set_en_next_due now e) in
  if en_once e then set_en_once_done false e else e.
Definition reset_raster (now : TimePoint) (p : Poller) : Poller :=
  set_po_raster_dirty false (set_po_entries (mmap (fun _ => reset_entry now) (po_entries p)) p).

(** The next point on the grid and how many cycles were missed; the division is
    undefined behaviour for the interval 0. *)
Definition advance (now : TimePoint) (e : Entry) : outcome (TimePoint * Z) :=
  let next := en_next_due e + ms (en_interval e) in
  if next <=? now then
    let behind := now - en_next_due e in
    if en_interval e =? 0 then Throw (Exn_ub "division by zero") else
    let skipped := Z.quot behind (ms (en_interval e)) in
    Ret (en_next_due e + (skipped + 1) * ms (en_interval e), wrap_u 64 skipped)
  else Ret (next, 0).

(** One entry of the loop: its new state, whether it is due, the two counters. *)
Definition visit (now : TimePoint) (e : Entry) : outcome (Entry * bool * Z * Z) :=
  if en_once e then
    if negb (en_once_done e) && negb (en_in_flight e)
    then Ret (set_en_once_done true (set_en_in_flight true e), true, 0, 0)
    else Ret (e, false, 0, 0)
  else if now <? en_next_due e then Ret (e, false, 0, 0)
  else
    let! (next, missed) := advance now e in
    if en_in_flight e then Ret (set_en_next_due next e, false, 1, missed)
    else Ret (set_en_next_due next (set_en_in_flight true e), true, 0, missed).

Fixpoint visit_all (now : TimePoint) (entries : smap Entry) : outcome (smap Entry * list string * Z * Z) :=
  match entries with
  | [] => Ret ([], [], 0, 0)
  | (name, e) :: r =>
      let! (e', due, skipped, missed) := visit now e in
      let! (r', names, skipped', missed') := visit_all now r in
      Ret ((name, e') :: r', if due then name :: names else names, skipped + skipped', missed + missed')
  end.

(** The slices of the due list; the fuel is its length. *)
Fixpoint chunks (fuel : nat) (l : list string) : list (list string) :=
  match fuel, l with
  | S fuel', _ :: _ => take kMaxNamesPerRequest l :: chunks fuel' (drop kMaxNamesPerRequest l)
  | _, _ => []
  end.

Definition poll_completion (h : poll_handler) (result : Result DatapointSnapshot) : M Poller pevent unit :=
  match h with
  | H_keepalive => ret tt
  | H_chunk names =>
      forM names (fun name => modify (fun p =>
        match mget name (po_entries p) with
        | Some e => set_po_entries (mset name (set_en_in_flight false e) (po_entries p)) p
        | None => p
        end)) ;;;
      match result with
      | Err _ => modify (on_po_stats (add_failures 1))
      | Ok _ => ret tt
      end
  end.

(** [manager.async_read] with a completion of the poller. *)
Definition start_read (names : list string) (priority : OperationPriority) (key : string)
    (h : poll_handler) : M Poller pevent unit :=
  match async_read names priority key with
  | Completed r => poll_completion h r
  | Submitted spec => emit (Pe_read spec h)
  end.

Definition tick (now last_tx : TimePoint) : M Poller pevent unit :=
  let* p := get in
  if negb (po_running p) || po_paused p then ret tt else
  when (po_raster_dirty p) (modify (reset_raster now)) ;;;
  let* p := get in
  let* (entries, due, skipped, missed) := lift (visit_all now (po_entries p)) in
  modify (fun p => on_po_stats (add_skipped_missed skipped missed) (set_po_entries entries p)) ;;;
  match due with
  | [] =>
      when ((0 <? po_keepalive p) && (sec (po_keepalive p) <=? now - last_tx))
        (modify (on_po_stats (add_keepalives 1)) ;;;
         start_read ["System_Uptime"] Background "keepalive" H_keepalive)
  | _ =>
      modify (on_po_stats (add_cycles 1)) ;;;
      when (1 <? Z.of_nat (length due)) (modify (on_po_stats (add_coalesced (Z.of_nat (length due))))) ;;;
      forM (chunks (length due) due) (fun chunk =>
        modify (on_po_stats (add_requests 1)) ;;;
        start_read chunk Polling EmptyString (H_chunk chunk))
  end.

(** [None]: [TimePoint::max()]. *)
Definition earlier (a b : option TimePoint) : option TimePoint :=
  match a, b with
  | Some x, Some y => Some (if y <? x then y else x)
  | Some x, None => Some x
  | None, b => b
  end.
Definition next_deadline (now : TimePoint) (p : Poller) : option TimePoint :=
  if negb (po_running p) || po_paused p then None else
  fold_left (fun next kv =>
    if en_once kv.2 && en_once_done kv.2 then next
    else earlier next (Some (if po_raster_dirty p then now else en_next_due kv.2)))
    (po_entries p) None.
