(* ===== verification/PollerFacts.v ===== *)
(** * What the poller guarantees

    Every periodic datapoint stays on its time grid, a tick never asks for a
    datapoint whose read is still open, and what it asks for is split into
    admissible requests.  The calls that rebuild the grid forget the open reads;
    the last section shows it, and what an interval of zero does. *)
From stdpp Require Import relations.
From S2P Require Import Prelude StdMap Errors Float Json Canonical Events Datapoint Generated Catalog.
From S2P Require Import Codec Snapshot Service Manager Poller.
Local Open Scope Z_scope.

(** ** One entry *)

Lemma ms_pos n : 0 < n -> 0 < ms n.
Proof. unfold ms. lia. Qed.

Lemma advance_spec now e next missed : 0 < en_interval e -> en_next_due e <= now ->
  advance now e = Ret (next, missed) ->
  exists k, 0 < k /\ next = en_next_due e + k * ms (en_interval e) /\
    now < next /\ next - ms (en_interval e) <= now.
Proof.
  intros Hi Hdue. unfold advance. pose proof (ms_pos _ Hi) as Hms.
  destruct (Z.leb_spec (en_next_due e + ms (en_interval e)) now) as [Hle|Hgt].
  - destruct (Z.eqb_spec (en_interval e) 0); [lia|]. intros [= <- _].
    rewrite Z.quot_div_nonneg by lia.
    set (q := (now - en_next_due e) / ms (en_interval e)).
    assert (now - en_next_due e = ms (en_interval e) * q + (now - en_next_due e) mod ms (en_interval e)) as Hq
      by (apply Z.div_mod; lia).
    pose proof (Z.mod_pos_bound (now - en_next_due e) _ Hms) as Hr.
    assert (0 <= q) by (apply Z.div_pos; lia).
    exists (q + 1). split; [lia|]. split; [done|]. nia.
  - intros [= <- _]. exists 1. lia.
Qed.

(** What a visit does to an entry. *)
Record visited (now : TimePoint) (e e' : Entry) (due : bool) : Prop := {
  vi_interval : en_interval e' = en_interval e;
  vi_once : en_once e' = en_once e;
  vi_flight : en_in_flight e' = en_in_flight e || due;
  vi_due : due = true -> en_in_flight e = false;
  vi_grid : en_once e = false -> 0 < en_interval e ->
    exists k, 0 <= k /\ en_next_due e' = en_next_due e + k * ms (en_interval e) /\
      now < en_next_due e' /\ (0 < k -> en_next_due e' - ms (en_interval e) <= now)
}.

Lemma visit_spec now e e' due skipped missed : visit now e = Ret (e', due, skipped, missed) ->
  visited now e e' due.
Proof.
  unfold visit. destruct (en_once e) eqn:Eo.
  - destruct (en_once_done e) eqn:Ed; cbn [negb andb]; [|destruct (en_in_flight e) eqn:Ef; cbn [negb]];
      intros [= <- <- <- <-]; split; cbn; rewrite ?Ef, ?Eo, ?orb_false_r; done.
  - destruct (Z.ltb_spec now (en_next_due e)).
    + intros [= <- <- <- <-]. split; rewrite ?orb_false_r; try done. intros _ _. exists 0. lia.
    + destruct (advance now e) as [[next m]|] eqn:Ea; [|discriminate]. cbn [outcome_bind].
      assert (0 < en_interval e -> exists k, 0 <= k /\ next = en_next_due e + k * ms (en_interval e) /\
        now < next /\ (0 < k -> next - ms (en_interval e) <= now)) as Hg.
      { intros Hi. destruct (advance_spec _ _ _ _ Hi H Ea) as (k & ?). exists k. naive_solver lia. }
      destruct (en_in_flight e) eqn:Ef; intros [= <- <- <- <-]; split; cbn; rewrite ?Ef; naive_solver.
Qed.

(** ** All entries *)

Lemma visit_all_spec now m m' due skipped missed : visit_all now m = Ret (m', due, skipped, missed) ->
  keys m' = keys m /\ due `sublist_of` keys m /\
  (NoDup (keys m) -> forall name e, mget name m = Some e ->
    exists e', mget name m' = Some e' /\ visited now e e' (bool_decide (name ∈ due))).
Proof.
  revert m' due skipped missed. induction m as [|[k e0] m IH]; intros m' due skipped missed; cbn [visit_all].
  - by intros [= <- <- <- <-].
  - destruct (visit now e0) as [[[[e0' d0] s0] mi0]|] eqn:Ev; [|discriminate]. cbn [outcome_bind].
    destruct (visit_all now m) as [[[[m1 due1] s1] mi1]|] eqn:Ea; [|discriminate]. cbn [outcome_bind].
    intros [= <- <- _ _]. destruct (IH _ _ _ _ eq_refl) as (Hk & Hsub & Hall). split; [|split].
    + unfold keys in *. cbn. by rewrite Hk.
    + cbn [keys map fst]. destruct d0; [by apply sublist_skip|by apply sublist_cons].
    + cbn [keys map fst]. rewrite list.NoDup_cons. intros [Hn Hnd] name e. cbn [mget].
      assert (k ∉ due1) as Hkd by (intros Hin; by apply Hn, (elem_of_sublist _ _ _ Hin Hsub)).
      destruct (String.eqb_spec name k) as [->|Hne].
      * intros [= <-]. exists e0'. split; [done|]. apply visit_spec in Ev.
        destruct d0; [by rewrite bool_decide_true by set_solver|by rewrite bool_decide_false].
      * intros He. destruct (Hall Hnd name e He) as (e' & He' & Hv). exists e'. split; [done|].
        replace (bool_decide (name ∈ _)) with (bool_decide (name ∈ due1)); [done|].
        apply bool_decide_ext. destruct d0; set_solver.
Qed.

(** ** The slices *)

Lemma chunks_concat fuel l : (length l <= fuel)%nat -> concat (chunks fuel l) = l.
Proof.
  revert l. induction fuel as [|fuel IH]; intros [|x l] Hl; try done; [cbn in Hl; lia|].
  cbn [chunks concat]. rewrite IH; [by rewrite take_drop|].
  rewrite length_drop. cbn [length] in *. unfold kMaxNamesPerRequest. lia.
Qed.

Lemma chunks_sizes fuel l : Forall (fun c => c <> [] /\ (length c <= kMaxNamesPerRequest)%nat) (chunks fuel l).
Proof.
  revert l. induction fuel as [|fuel IH]; intros [|x l]; try constructor; [|apply IH].
  split; [done|]. rewrite length_take. lia.
Qed.

(** ** The tick *)

Definition known (name : string) : Prop := is_Some (find name).

Lemma async_read_known names priority key : names <> [] -> Forall known names ->
  async_read names priority key = Submitted
    {| rs_type := "dp_read"; rs_body := J_obj [("names", names_json names)]; rs_timeout := None;
       rs_priority := priority; rs_coalesce_key := key |}.
Proof.
  intros Hne Hk. unfold async_read. destruct names as [|n names]; [done|].
  destruct (List.find unknown_name (n :: names)) as [u|] eqn:E; [|done].
  apply List.find_some in E as [Hin Hu]. rewrite Forall_elem in Hk.
  apply list_elem_of_In, Hk in Hin as [d Hd]. unfold unknown_name in Hu. by rewrite Hd in Hu.
Qed.

(** The names of the chunk reads in a list of events. *)
Definition chunks_of (w : list pevent) : list (list string) :=
  omap (fun e => match e with Pe_read _ (H_chunk names) => Some names | _ => None end) w.
Lemma chunks_of_app w1 w2 : chunks_of (w1 ++ w2) = chunks_of w1 ++ chunks_of w2.
Proof. apply omap_app. Qed.

(** The reads go out as they are sliced. *)
Lemma start_chunks l p : Forall (fun c => c <> [] /\ Forall known c) l -> exists p' w,
  forM l (fun chunk => modify (on_po_stats (add_requests 1)) ;;; start_read chunk Polling EmptyString (H_chunk chunk)) p =
    (Ret tt, p', w) /\ po_entries p' = po_entries p /\ po_raster_dirty p' = po_raster_dirty p /\ chunks_of w = l.
Proof.
  revert p. induction l as [|c l IH]; intros p; [intros _; by exists p, []|].
  intros [[Hne Hk] Hl]%Forall_cons_iff. cbn [forM].
  destruct (IH (on_po_stats (add_requests 1) p) Hl) as (p' & w & E & He & Hd & Hc).
  eexists p', (_ :: w). split; [|split; [exact He|split; [exact Hd|]]].
  - rewrite run_assoc, run_modify. unfold start_read. rewrite async_read_known by done.
    by erewrite (run_bind _ _ _ tt _ [_] _ _ w); [|reflexivity|exact E].
  - unfold chunks_of in *. cbn. by rewrite Hc.
Qed.

(** The grid a tick starts from. *)
Definition on_raster (now : TimePoint) (p : Poller) : Poller := if po_raster_dirty p then reset_raster now p else p.

Lemma running_split p : running p = true -> negb (po_running p) || po_paused p = false.
Proof. unfold running. by destruct (po_running p), (po_paused p). Qed.

Lemma tick_facts now last_tx p r p' w : Forall known (keys (po_entries p)) -> running p = true ->
  tick now last_tx p = (r, p', w) ->
  (exists e, r = Throw e /\ w = []) \/
  exists entries due skipped missed, r = Ret tt /\
    visit_all now (po_entries (on_raster now p)) = Ret (entries, due, skipped, missed) /\
    po_entries p' = entries /\ po_raster_dirty p' = false /\ chunks_of w = chunks (length due) due.
Proof.
  intros Hk Hrun. unfold tick. rewrite run_get, (running_split _ Hrun).
  assert (keys (po_entries (on_raster now p)) = keys (po_entries p)) as Hkeys.
  { unfold on_raster. destruct (po_raster_dirty p); [apply keys_mmap|done]. }
  assert (po_raster_dirty (on_raster now p) = false) as Hd.
  { unfold on_raster. by destruct (po_raster_dirty p) eqn:E. }
  rewrite (run_bind_quiet _ _ _ tt (on_raster now p)) by (unfold when, on_raster; by destruct (po_raster_dirty p)).
  rewrite run_get, run_lift. destruct (visit_all now _) as [[[[entries due] skipped] missed]|e] eqn:Ev.
  2: { intros [= <- <- <-]. left. by exists e. }
  intros H. right. exists entries, due, skipped, missed. rewrite run_modify in H.
  apply visit_all_spec in Ev as (_ & Hsub & _). rewrite Hkeys in Hsub.
  destruct due as [|n due].
  - unfold when in H. destruct (_ && _).
    + rewrite run_modify in H. unfold start_read in H. rewrite async_read_known in H;
        [injection H as <- <- <-; by split_and!|done|].
      constructor; [|constructor]. by evaluate (find "System_Uptime") Hs; eexists.
    + injection H as <- <- <-. by split_and!.
  - set (names := n :: due) in *. rewrite run_modify in H.
    assert (Forall (fun c => c <> [] /\ Forall known c) (chunks (length names) names)) as Hc.
    { apply Forall_elem. intros c Hin. split.
      - pose proof (chunks_sizes (length names) names) as Hz. rewrite Forall_elem in Hz. by apply Hz.
      - apply Forall_elem. intros x Hx. rewrite Forall_elem in Hk. apply Hk, (elem_of_sublist names); [|done].
        rewrite <- (chunks_concat (length names) names) by done. apply elem_concat. by exists c. }
    unfold bind at 1, when in H.
    destruct (1 <? Z.of_nat (length names)); cbn [modify ret] in H;
      (edestruct start_chunks as (p1 & w1 & E & He & Hdirty & Hcs); [exact Hc|]; rewrite E in H;
       injection H as <- <- <-; split_and!; [done|done|exact He|rewrite Hdirty; exact Hd|exact Hcs]).
Qed.

(** ** The poller and its open reads *)

(** The calls of the application that change what is polled or how. *)
Inductive poll_config :=
| Pc_every (interval : Z) (names : list string)
| Pc_every_dp (interval : Z) (dps : list Datapoint)
| Pc_once (dps : list Datapoint)
| Pc_start_defaults
| Pc_start
| Pc_resume
| Pc_reconnected.
Definition run_config (c : poll_config) : M Poller pevent unit :=
  match c with
  | Pc_every interval names => every interval names ;;; ret tt
  | Pc_every_dp interval dps => every_dp interval dps
  | Pc_once dps => once_dp dps
  | Pc_start_defaults => start_defaults
  | Pc_start => start
  | Pc_resume => resume
  | Pc_reconnected => on_reconnected
  end.
Definition config_known (c : poll_config) : Prop :=
  match c with
  | Pc_every_dp _ dps | Pc_once dps => Forall (fun dp => known (dp_name dp)) dps
  | _ => True
  end.

(** The calls that are harmless to open reads. *)
Inductive poll_quiet :=
| Pq_pause
| Pq_stop
| Pq_disable (dps : list Datapoint)
| Pq_class (c : PollClass) (interval : Z)
| Pq_keepalive (interval : Z).
Definition run_quiet (c : poll_quiet) : M Poller pevent unit :=
  match c with
  | Pq_pause => pause
  | Pq_stop => stop
  | Pq_disable dps => disable_dp dps
  | Pq_class c interval => set_class_interval c interval
  | Pq_keepalive interval => set_keepalive interval
  end.

(** A life of the poller with its open chunk reads: the grid is only rebuilt
    while none is open, ticks open reads, answers close them in any order. *)
Inductive poll_step : Poller * list (list string) -> Poller * list (list string) -> Prop :=
| step_config c p p' w : config_known c -> run_config c p = (Ret tt, p', w) -> poll_step (p, []) (p', [])
| step_quiet c p p' w o : run_quiet c p = (Ret tt, p', w) -> poll_step (p, o) (p', o)
| step_tick now last_tx p p' w o : tick now last_tx p = (Ret tt, p', w) -> poll_step (p, o) (p', o ++ chunks_of w)
| step_answer names result p p' w o1 o2 : poll_completion (H_chunk names) result p = (Ret tt, p', w) ->
    poll_step (p, o1 ++ names :: o2) (p', o1 ++ o2).

Record poll_inv (p : Poller) (o : list (list string)) : Prop := {
  pi_known : Forall known (keys (po_entries p));
  pi_sorted : msorted (po_entries p);
  pi_nodup : NoDup (concat o);
  pi_dirty : po_raster_dirty p = true -> o = [];
  pi_flight : po_raster_dirty p = false -> forall name e, mget name (po_entries p) = Some e ->
    (en_in_flight e = true <-> name ∈ concat o)
}.

(** *** Configuration *)

Definition table_ok (p : Poller) : Prop := Forall known (keys (po_entries p)) /\ msorted (po_entries p).
Abbreviation keeps_table := (fun (p p' : Poller) (_ : list pevent) => table_ok p -> table_ok p').

Lemma put_entry_ok name f p : known name -> table_ok p -> table_ok (put_entry name f p).
Proof.
  intros Hn [Hk Hs]. split; cbn; [|by apply msorted_mset].
  apply Forall_elem. intros n Hin. apply keys_mset in Hin as [->|Hin]; [done|]. rewrite Forall_elem in Hk. auto.
Qed.

Lemma table_every interval names : respects keeps_table (every interval names).
Proof.
  induction names as [|n names IH]; cbn [every]; [respects_tac|]. destruct (find n) as [d|] eqn:Ef; [|respects_tac].
  destruct (readable d); cbn [negb]; [|respects_tac]. apply respects_bind; [apply _| |done].
  apply respects_modify. intros p. apply (put_entry_ok n). by exists d.
Qed.

Lemma table_defaults p l : Forall (fun d => known (d_name d)) l -> table_ok p -> table_ok (fold_left add_default l p).
Proof.
  revert p. induction l as [|d l IH]; intros p; [done|]. intros [Hd Hl]%Forall_cons_iff Hp. cbn [fold_left].
  apply IH; [done|]. unfold add_default. destruct (d_poll_class d); try done; by apply put_entry_ok.
Qed.

Lemma catalogue_known : Forall (fun d => known (d_name d)) all.
Proof. apply Forall_elem. intros d Hd. exists d. by apply find_of_In. Qed.

Lemma table_forM {A} (P : A -> Prop) (f : A -> M Poller pevent unit) l :
  Forall P l -> (forall a, P a -> respects keeps_table (f a)) -> respects keeps_table (forM l f).
Proof.
  intros Hl Hf. induction Hl as [|a l Ha _ IH]; cbn [forM]; [respects_tac|].
  apply respects_bind; [apply _|by apply Hf|done].
Qed.

Lemma table_config c : config_known c -> respects keeps_table (run_config c).
Proof.
  destruct c; cbn [run_config config_known]; intros Hc; try (respects_tac; done).
  - apply respects_bind; [apply _|apply table_every|intros ?; respects_tac].
  - eapply table_forM; [exact Hc|]. intros dp Hdp. apply respects_modify. intros p. by apply put_entry_ok.
  - eapply table_forM; [exact Hc|]. intros dp Hdp. apply respects_modify. intros p. by apply put_entry_ok.
  - unfold start_defaults, start. pose proof catalogue_known as Hall. revert Hall. generalize all. intros l Hl.
    repeat respects_step; [|done]. intros Hp. exact (table_defaults _ _ Hl Hp).
Qed.

(** A configuration call leaves the grid as it is or marks it for rebuilding. *)
Abbreviation keeps_flight := (fun (p p' : Poller) (_ : list pevent) =>
  po_raster_dirty p' = true \/ (po_entries p' = po_entries p /\ po_raster_dirty p' = po_raster_dirty p)).
#[local] Instance composable_flight : Composable keeps_flight.
Proof. split; [by right|]. intros p1 p2 p3 _ _. naive_solver congruence. Qed.

Lemma flight_config c : respects keeps_flight (run_config c).
Proof.
  destruct c; cbn [run_config]; unfold every_dp, once_dp, start_defaults, start, resume, on_reconnected, add, add_once;
    try (repeat respects_step; by left).
  apply respects_bind; [apply _| |intros ?; apply respects_ret; apply _].
  induction names as [|n names IH]; cbn [every]; [apply respects_ret; apply _|].
  destruct (find n) as [d|]; [|apply respects_ret; apply _].
  destruct (negb (readable d)); [apply respects_ret; apply _|].
  apply respects_bind; [apply _|unfold add; apply respects_modify; by left|done].
Qed.

(** *** Quiet calls and answers *)

Lemma disable_entries dps p : exists p' w, disable_dp dps p = (Ret tt, p', w) /\
  po_raster_dirty p' = po_raster_dirty p /\ (msorted (po_entries p) -> msorted (po_entries p')) /\
  (msorted (po_entries p) -> forall name e, mget name (po_entries p') = Some e -> mget name (po_entries p) = Some e).
Proof.
  revert p. induction dps as [|dp dps IH]; intros p; [by exists p, []|]. unfold disable_dp in *. cbn [forM].
  destruct (IH (set_po_entries (mdel (dp_name dp) (po_entries p)) p)) as (p' & w & E & Hd & Hs & Hg).
  exists p', w. unfold remove at 1. rewrite run_modify, E. split; [done|]. split; [done|]. cbn in Hs, Hg.
  split; [intros Hp; by apply Hs, msorted_mdel|]. intros Hp name e He.
  apply Hg in He; [|by apply msorted_mdel]. rewrite mget_mdel in He by done. by case_decide.
Qed.

(** An answer releases exactly the names of its read. *)
Lemma release_entries names p : exists p', forM names (fun name => modify (fun p =>
      match mget name (po_entries p) with
      | Some e => set_po_entries (mset name (set_en_in_flight false e) (po_entries p)) p
      | None => p
      end)) p = (Ret tt, p', @nil pevent) /\
  po_raster_dirty p' = po_raster_dirty p /\ (msorted (po_entries p) -> msorted (po_entries p')) /\
  forall name, mget name (po_entries p') =
    (if decide (name ∈ names) then set_en_in_flight false else id) <$> mget name (po_entries p).
Proof.
  revert p. induction names as [|n names IH]; intros p.
  - exists p. split_and!; [done..|]. intros name. rewrite decide_False by set_solver. by destruct (mget name _).
  - cbn [forM]. set (p1 := match mget n (po_entries p) with
      | Some e => set_po_entries (mset n (set_en_in_flight false e) (po_entries p)) p
      | None => p end).
    destruct (IH p1) as (p' & E & Hd & Hs & Hg). exists p'. rewrite run_modify. fold p1. rewrite E.
    assert (forall name, mget name (po_entries p1) =
      (if decide (name = n) then set_en_in_flight false else id) <$> mget name (po_entries p)) as H1.
    { intros name. unfold p1. destruct (mget n (po_entries p)) as [e|] eqn:En; cbn.
      - rewrite mget_mset. case_decide; [by subst; rewrite En|by destruct (mget name _)].
      - case_decide; [by subst; rewrite En|by destruct (mget name _)]. }
    split; [done|]. split; [|split].
    + rewrite Hd. unfold p1. by destruct (mget n _).
    + intros Hp. apply Hs. unfold p1. destruct (mget n _); [by apply msorted_mset|done].
    + intros name. rewrite Hg, H1. destruct (decide (name = n)) as [->|Hne].
      * rewrite (decide_True (P := n ∈ n :: names)) by set_solver. destruct (mget n _); cbn; [|done]. by case_decide.
      * rewrite (decide_ext (name ∈ n :: names) (name ∈ names)) by set_solver. by destruct (mget name _).
Qed.

(** *** The invariant *)

Lemma known_sub (m m' : smap Entry) : Forall known (keys m) ->
  (forall name e, mget name m' = Some e -> exists e0, mget name m = Some e0) -> Forall known (keys m').
Proof.
  intros Hk Hsub. apply Forall_elem. intros n Hn. apply mget_is_Some in Hn as [e He].
  destruct (Hsub _ _ He) as [e0 He0]. rewrite Forall_elem in Hk. apply Hk, mget_is_Some. by exists e0.
Qed.

Lemma inv_config c p p' w : config_known c -> run_config c p = (Ret tt, p', w) -> poll_inv p [] -> poll_inv p' [].
Proof.
  intros Hc H [Hk Hs _ _ Hf]. destruct (table_config c Hc _ _ _ _ H) as [Hk' Hs']; [by split|].
  split; [done|done|constructor|done|]. intros Hd'. destruct (flight_config c _ _ _ _ H) as [Hd|[He Hd]]; [congruence|].
  rewrite He. apply Hf. congruence.
Qed.

Lemma inv_quiet c p p' w o : run_quiet c p = (Ret tt, p', w) -> poll_inv p o -> poll_inv p' o.
Proof.
  intros H [Hk Hs Hn Hd Hf]. destruct c; cbn [run_quiet] in H; try (injection H as <- <-; by split).
  destruct (disable_entries dps p) as (p1 & w1 & E & Hd1 & Hs1 & Hg1). rewrite E in H. injection H as <- <-.
  split; [eapply known_sub; [exact Hk|]; intros name e He; eexists; by apply Hg1|by apply Hs1|done|by rewrite Hd1|].
  rewrite Hd1. intros Hdirty name e He. apply Hf; [done|by apply Hg1].
Qed.

Lemma inv_answer names result p p' w o1 o2 : poll_completion (H_chunk names) result p = (Ret tt, p', w) ->
  poll_inv p (o1 ++ names :: o2) -> poll_inv p' (o1 ++ o2).
Proof.
  intros H [Hk Hs Hn Hd Hf]. destruct (release_entries names p) as (p1 & E & Hd1 & Hs1 & Hg1).
  cbn [poll_completion] in H. rewrite (run_bind_quiet _ _ _ tt p1) in H by exact E.
  assert (po_entries p' = po_entries p1 /\ po_raster_dirty p' = po_raster_dirty p1) as [He' Hd'].
  { destruct result; injection H as <- <-; done. }
  rewrite concat_app in *. cbn [concat] in *. rewrite (Permutation_app_comm names), app_assoc in Hn.
  apply list.NoDup_app in Hn as (Hn & Hdisj & _).
  split; rewrite ?He', ?Hd', ?Hd1, ?concat_app.
  - eapply known_sub; [exact Hk|]. intros name e. rewrite Hg1. destruct (mget name (po_entries p)); [by eexists|done].
  - by apply Hs1.
  - done.
  - intros Hdirty. by destruct o1; specialize (Hd Hdirty).
  - intros Hdirty name e. rewrite Hg1. destruct (mget name (po_entries p)) as [e0|] eqn:E0; [|done].
    cbn. intros [= <-]. specialize (Hf Hdirty _ _ E0).
    specialize (Hdisj name). rewrite !elem_of_app in *. case_decide; cbn; naive_solver.
Qed.

Lemma inv_tick now last_tx p p' w o : tick now last_tx p = (Ret tt, p', w) -> poll_inv p o ->
  poll_inv p' (o ++ chunks_of w).
Proof.
  intros H [Hk Hs Hn Hd Hf]. destruct (running p) eqn:Hrun.
  2: { unfold tick in H. rewrite run_get in H. unfold running in Hrun.
       assert (negb (po_running p) || po_paused p = true) as Hr by (by destruct (po_running p), (po_paused p)).
       rewrite Hr in H. injection H as <- <-. cbn. rewrite app_nil_r. by split. }
  destruct (tick_facts _ _ _ _ _ _ Hk Hrun H) as [(e & [=] & _)|(entries & due & sk & mi & _ & Ev & <- & Hd' & ->)].
  assert (msorted (po_entries (on_raster now p))) as Hs1.
  { unfold on_raster. destruct (po_raster_dirty p); [by apply msorted_mmap|done]. }
  assert (forall name e, mget name (po_entries (on_raster now p)) = Some e ->
    (en_in_flight e = true <-> name ∈ concat o)) as Hf1.
  { unfold on_raster. destruct (po_raster_dirty p) eqn:Hdirty; [|by apply Hf].
    intros name e. cbn. rewrite mget_mmap, (Hd eq_refl). destruct (mget name _) as [e0|]; [|done]. cbn.
    intros [= <-]. unfold reset_entry. rewrite elem_of_nil. by destruct (en_once _). }
  pose proof (visit_all_spec _ _ _ _ _ _ Ev) as (Hkeys & Hsub & Hall).
  specialize (Hall (msorted_NoDup _ Hs1)).
  assert (forall name, name ∈ due -> name ∉ concat o) as Hnew.
  { intros name Hin. pose proof (elem_of_sublist _ _ _ Hin Hsub) as Hkey. apply mget_is_Some in Hkey as [e He].
    destruct (Hall _ _ He) as (e' & _ & Hv). rewrite <- (Hf1 _ _ He).
    rewrite (vi_due _ _ _ _ Hv) by (by apply bool_decide_true). done. }
  split.
  - rewrite Hkeys. unfold on_raster. destruct (po_raster_dirty p); [change (Forall known (keys (mmap (fun _ => reset_entry now) (po_entries p)))); by rewrite keys_mmap|done].
  - unfold msorted in *. by rewrite Hkeys.
  - rewrite concat_app, chunks_concat by done. apply list.NoDup_app. split; [done|]. split; [naive_solver|].
    exact (sublist_NoDup _ _ (msorted_NoDup _ Hs1) Hsub).
  - congruence.
  - intros _ name e' He'. rewrite concat_app, chunks_concat, elem_of_app by done.
    assert (is_Some (mget name (po_entries (on_raster now p)))) as [e He].
    { apply mget_is_Some. rewrite <- Hkeys. apply mget_is_Some. by exists e'. }
    destruct (Hall _ _ He) as (e'' & He'' & Hv). rewrite He' in He''. injection He'' as <-.
    rewrite (vi_flight _ _ _ _ Hv), orb_true_iff, bool_decide_eq_true. by rewrite (Hf1 _ _ He).
Qed.

Lemma poll_inv_step s s' : poll_step s s' -> poll_inv s.1 s.2 -> poll_inv s'.1 s'.2.
Proof.
  destruct 1; cbn [fst snd]; eauto using inv_config, inv_quiet, inv_tick, inv_answer.
Qed.

Lemma poll_inv_new : poll_inv new_poller [].
Proof. split; cbn; try done; constructor. Qed.

Lemma poll_inv_reach s : rtc poll_step (new_poller, []) s -> poll_inv s.1 s.2.
Proof.
  intros H. assert (forall s0, poll_inv s0.1 s0.2 -> rtc poll_step s0 s -> poll_inv s.1 s.2) as Hr.
  { intros s0 H0 Hsteps. induction Hsteps as [|x y z Hxy _ IH]; [done|]. by apply IH, (poll_inv_step x). }
  exact (Hr (new_poller, []) poll_inv_new H).
Qed.

(** ** Theorems *)


(** The time grid: a tick moves a periodic datapoint to the first point of
    its grid after the present, a whole number of intervals further; missed
    cycles are skipped, not caught up, and the phase never drifts. *)
Theorem poll_grid p o now last_tx p' w name e : rtc poll_step (new_poller, []) (p, o) -> running p = true ->
  tick now last_tx p = (Ret tt, p', w) ->
  mget name (po_entries p) = Some e -> en_once e = false -> 0 < en_interval e ->
  let from := if po_raster_dirty p then now else en_next_due e in
  exists e' k, mget name (po_entries p') = Some e' /\ en_interval e' = en_interval e /\
    0 <= k /\ en_next_due e' = from + k * ms (en_interval e) /\
    now < en_next_due e' /\ (0 < k -> en_next_due e' - ms (en_interval e) <= now).
Proof.
  intros Hreach Hrun H He Ho Hi from. apply poll_inv_reach in Hreach as [Hk Hs _ _ _]. cbn [fst snd] in *.
  destruct (tick_facts _ _ _ _ _ _ Hk Hrun H) as [(x & [=] & _)|(entries & due & sk & mi & _ & Ev & <- & _ & _)].
  apply visit_all_spec in Ev as (_ & _ & Hall).
  set (e0 := if po_raster_dirty p then reset_entry now e else e).
  assert (en_interval e0 = en_interval e /\ en_once e0 = false /\ en_next_due e0 = from) as (Ei & Eo & En).
  { unfold e0, from, reset_entry. destruct (po_raster_dirty p); [|done]. cbn. by rewrite Ho. }
  destruct (Hall) with (name := name) (e := e0) as (e' & He' & [Hint _ _ _ Hg]).
  - apply msorted_NoDup. unfold on_raster. destruct (po_raster_dirty p); [by apply msorted_mmap|done].
  - unfold on_raster, e0. destruct (po_raster_dirty p); [|done]. cbn. by rewrite mget_mmap, He.
  - rewrite Ei, Eo, En in *. destruct (Hg eq_refl Hi) as (k & H0 & H1 & H2 & H3). exists e', k. by split_and!.
Qed.

(** An interval of zero, which [every] accepts, traps: the first tick that
    finds the datapoint due divides by the interval. *)
Theorem zero_interval_traps name now last_tx p p1 w1 : known name ->
  every 0 [name] p = (Ret ok, p1, w1) -> running p = true -> po_entries p = [] ->
  exists p2, tick now last_tx p1 = (Throw (Exn_ub "division by zero"), p2, []).
Proof.
  intros [d Hd] H Hrun Hempty. cbn [every] in H. rewrite Hd in H. destruct (readable d); cbn [negb] in H; [|done].
  unfold add in H. rewrite run_modify in H. injection H as <- _. unfold tick. rewrite run_get.
  assert (negb (po_running p) || po_paused p = false) as Hr by by apply running_split.
  cbn [po_running po_paused put_entry set_po_raster_dirty set_po_entries]. rewrite Hr.
  unfold put_entry, poll_entry. rewrite Hempty. cbn [mget mset].
  cbn [when po_raster_dirty set_po_raster_dirty]. rewrite run_modify, run_get, run_lift.
  cbn. rewrite Z.ltb_irrefl. cbn. unfold advance. cbn. rewrite Z.add_0_r, Z.leb_refl. cbn. by eexists.
Qed.

(** ** Witnesses and a limit *)

Definition after_run {A} (m : M Poller pevent A) (p : Poller) : Poller := (m p).1.2.
Definition polling : Poller := after_run start (after_run (every_dp 1000 [dp.Fon_Current_Pressure]) new_poller).

Lemma polling_reach : rtc poll_step (new_poller, []) (polling, []).
Proof.
  eapply rtc_l; [|eapply rtc_l; [|apply rtc_refl]].
  - apply (step_config (Pc_every_dp 1000 [dp.Fon_Current_Pressure]) _ (after_run (every_dp 1000 [dp.Fon_Current_Pressure]) new_poller) []);
      [|reflexivity].
    constructor; [|constructor]. evaluate (find (dp_name dp.Fon_Current_Pressure)) Hf. by eexists.
  - by apply (step_config Pc_start _ polling []).
Qed.


Lemma poll_grid_witness : exists p' w, tick 5 0 polling = (Ret tt, p', w) /\
  exists e', mget "Fon_Current_Pressure" (po_entries p') = Some e' /\ 5 < en_next_due e'.
Proof.
  evaluate (tick 5 0 polling) H. evaluate (mget "Fon_Current_Pressure" (po_entries polling)) He.
  eexists _, _. split; [exact H|].
  destruct (poll_grid polling [] 5 0 _ _ _ _ polling_reach eq_refl H He eq_refl eq_refl) as (e' & k & H1 & _ & _ & _ & H2 & _).
  exists e'. split; [exact H1|exact H2].
Defined.

Lemma zero_interval_traps_witness : exists p1 w1 p2,
  every 0 ["Fon_Current_Pressure"] (after_run start new_poller) = (Ret ok, p1, w1) /\
  tick 5 0 p1 = (Throw (Exn_ub "division by zero"), p2, []).
Proof.
  evaluate (every 0 ["Fon_Current_Pressure"] (after_run start new_poller)) H.
  evaluate (find "Fon_Current_Pressure") Hf.
  destruct (zero_interval_traps "Fon_Current_Pressure" 5 0 _ _ _ (ex_intro _ _ Hf) H eq_refl eq_refl) as [p2 H2].
  eexists _, _, p2. split; [exact H|exact H2].
Defined.

(** Rebuilding the grid while a read is open asks for the same datapoint again:
    [resume] forgets the open read. *)
Example resume_piles_up :
  let p1 := after_run (tick 5 0) polling in
  chunks_of (tick 5 0 polling).2 = [["Fon_Current_Pressure"]] /\
  chunks_of (tick 6 0 (after_run resume p1)).2 = [["Fon_Current_Pressure"]].
Proof. vm_compute. done. Qed.
