(* ===== verification/Commands.v ===== *)
(** * Commands, diagnostics and maintenance ([commands.hpp/.cpp],
      [maintenance.hpp/.cpp])

    The pump commands, the test commands behind their switch, and the network
    save point.  [S] is the state the surroundings of a blocking call work on;
    the services keep none of their own. *)
From S2P Require Import Prelude StdMap Errors Float Json Canonical Events Datapoint Generated Catalog.
From S2P Require Import Codec WriteSet Snapshot Service Manager.
Local Open Scope Z_scope.

Inductive FountainState := FS_On | FS_Off | FS_Auto | FS_Manual.
Definition fountain_state_to_string (s : FountainState) : string :=
  match s with FS_On => "On" | FS_Off => "Off" | FS_Auto => "Auto" | FS_Manual => "Manual" end.

Inductive CommandStatus := CS_Applied | CS_Rejected.
Record CommandResult := mkCommandResult {
  cr_command : string;
  cr_status : CommandStatus;
  cr_error : option string
}.
Definition command_applied (r : CommandResult) : bool :=
  match cr_status r with CS_Applied => true | CS_Rejected => false end.

(** Seconds of one turn-on step. *)
Definition kTurnOnStep : Z := 30.

(** ** Commands *)

Definition opt_member (key : string) (v : option json) (j : json) : json :=
  match v with Some x => jset key x j | None => j end.

Definition async_raw (command : string) (target_state : option string) (duration_steps : option Z)
    (priority : OperationPriority) : started CommandResult :=
  if str_empty command then
    Completed (Err (validation_error ConstraintViolation "command must not be empty" EmptyString))
  else
    let body := J_obj [("command", J_str command)] in
    let body := opt_member "target_state" (J_str <$> target_state) body in
    let body := opt_member "duration_steps" (J_uint <$> duration_steps) body in
    Submitted {| rs_type := "command"; rs_body := body; rs_timeout := None;
                 rs_priority := priority; rs_coalesce_key := EmptyString |}.

(** The response handler up to its completion. *)
Definition finish_command {S} (command : string) (response : Result json) :
    M S sevent (Result CommandResult) :=
  match response with
  | Err e => ret (Err e)
  | Ok message =>
      let* status := lift (value_string "status" message) in
      let error := match jfind "error" message with Some (J_str s) => Some s | _ => None end in
      ret (Ok (mkCommandResult command
                 (if String.eqb status "applied" then CS_Applied else CS_Rejected) error))
  end.

(** An [Off] must not queue behind anything. *)
Definition state_priority (s : FountainState) : OperationPriority :=
  match s with FS_Off => SafetyControl | _ => InteractiveControl end.
Definition async_set_state (s : FountainState) : started CommandResult :=
  async_raw "set_state" (Some (fountain_state_to_string s)) None (state_priority s).

(** Whole steps of 30 s, as the 32-bit cast leaves them. *)
Definition turn_on_steps (duration : Z) : Z :=
  wrap_u 32 (Z.quot (duration + kTurnOnStep - 1) kTurnOnStep).
Definition async_turn_on_for (duration : Z) : started CommandResult :=
  if duration <=? 0 then
    Completed (Err (validation_error OutOfRange "turn_on duration must be positive" EmptyString))
  else async_raw "turn_on_duration" None (Some (turn_on_steps duration)) InteractiveControl.

Definition async_restart_pump : started CommandResult := async_raw "restart" None None InteractiveControl.
Definition async_reboot : started CommandResult := async_raw "reboot" None None InteractiveControl.

Section Blocking.
Context {S : Type}.
Definition raw (x : exchange S) (command : string) (target_state : option string) (duration_steps : option Z)
    (priority : OperationPriority) : M S sevent (Result CommandResult) :=
  sync_wait x (Ret (async_raw command target_state duration_steps priority)) (finish_command command).
Definition set_state (x : exchange S) (s : FountainState) : M S sevent (Result CommandResult) :=
  sync_wait x (Ret (async_set_state s)) (finish_command "set_state").
Definition turn_on_for (x : exchange S) (duration : Z) : M S sevent (Result CommandResult) :=
  sync_wait x (Ret (async_turn_on_for duration)) (finish_command "turn_on_duration").
Definition restart_pump (x : exchange S) : M S sevent (Result CommandResult) :=
  sync_wait x (Ret async_restart_pump) (finish_command "restart").
Definition reboot (x : exchange S) : M S sevent (Result CommandResult) :=
  sync_wait x (Ret async_reboot) (finish_command "reboot").

(** ** Diagnostics *)

(** [bound]: the service has its commands; [enabled]: the switch, [None] when no
    function is set. *)
Definition guarded (bound : bool) (enabled : option bool) (x : exchange S) (command : string) (duration : Z) :
    M S sevent (Result CommandResult) :=
  if negb bound then ret (Err (internal_error "DiagnosticsService is not bound to a client"))
  else if negb (default false enabled) then
    ret (Err (make_error Dom_Configuration InvalidState
      (command +:+ " is a device test command — enable it explicitly via " +:+
       "ClientOptions::enable_test_commands")))
  else if duration <=? 0 then
    ret (Err (validation_error OutOfRange "duration must be positive" EmptyString))
  else raw x command None (Some (wrap_u 32 duration)) InteractiveControl.
Definition inject_watchdog_fault (bound : bool) (enabled : option bool) (x : exchange S) (duration : Z) :
    M S sevent (Result CommandResult) := guarded bound enabled x "wd_fault" duration.
Definition force_poor_link (bound : bool) (enabled : option bool) (x : exchange S) (duration : Z) :
    M S sevent (Result CommandResult) := guarded bound enabled x "link_fault" duration.
End Blocking.

(** ** Maintenance *)

Inductive NetworkSaveAction := NS_Persist | NS_Reboot | NS_RestoreBackup | NS_TrialReboot.
Definition network_save_code (a : NetworkSaveAction) : Z :=
  match a with NS_Persist => 1 | NS_Reboot => 2 | NS_RestoreBackup => 3 | NS_TrialReboot => 4 end.

Section Maintenance.
Context (dump : json -> outcome string).
Definition network_save_dangerous (bound : bool) (x : exchange Manager) (a : NetworkSaveAction) :
    M Manager sevent (Result WriteResult) :=
  if negb bound then ret (Err (internal_error "MaintenanceService is not bound to a client"))
  else write_dp dump x dp.Network_Save (V_u8 (network_save_code a)).
Definition persist_network_config (bound : bool) (x : exchange Manager) : M Manager sevent (Result WriteResult) :=
  if negb bound then ret (Err (internal_error "MaintenanceService is not bound to a client"))
  else write_dp dump x dp.Network_Save (V_u8 (network_save_code NS_Persist)).
End Maintenance.

(** ** Theorems *)

Lemma turn_on_steps_bounds d : 0 < d <= 30 * (2 ^ 32 - 1) ->
  kTurnOnStep * (turn_on_steps d - 1) < d <= kTurnOnStep * turn_on_steps d /\ 0 < turn_on_steps d < 2 ^ 32.
Proof.
  intros H. unfold turn_on_steps, kTurnOnStep. rewrite Z.quot_div_nonneg by lia.
  pose proof (Z.div_mod (d + 30 - 1) 30 ltac:(lia)) as Hd.
  pose proof (Z.mod_pos_bound (d + 30 - 1) 30 ltac:(lia)) as Hm.
  rewrite wrap_u_id by lia. lia.
Qed.

(** The pump runs at least as long as asked and less than one step longer: a
    positive duration of at most 2^32 - 1 steps is sent as the least number of
    30-second steps that covers it, unchanged by the 32-bit field; and a duration
    of zero or less is refused with nothing sent. *)
Theorem turn_on_rounds_up {S} (x : exchange S) duration s r s' w : duration <= 30 * (2 ^ 32 - 1) ->
  turn_on_for x duration s = (r, s', w) ->
  (duration <= 0 -> w = [] /\ s' = s /\ exists e, r = Ret (Err e)) /\
  (0 < duration -> forall spec, head (submitted w) = Some spec ->
     exists n, jfind "duration_steps" (rs_body spec) = Some (J_uint n) /\ 0 < n < 2 ^ 32 /\
       30 * (n - 1) < duration <= 30 * n).
Proof.
  intros Hmax H. apply sync_wait_cases in H as [(e & -> & -> & ->)|[(c & Hc & -> & -> & ->)|(spec0 & Hs & H)]].
  - split; [by eauto|]. intros _ spec [=].
  - unfold async_turn_on_for in Hc. destruct (Z.leb_spec duration 0); [|done]. injection Hc as <-.
    split; [by eauto|]. lia.
  - unfold async_turn_on_for in Hs. destruct (Z.leb_spec duration 0); [done|]. injection Hs as <-.
    split; [lia|]. intros _ spec Hspec.
    assert (head (submitted w) = Some {| rs_type := "command"; rs_body := J_obj
      [("command", J_str "turn_on_duration"); ("duration_steps", J_uint (turn_on_steps duration))];
      rs_timeout := None; rs_priority := InteractiveControl; rs_coalesce_key := EmptyString |}) as Hw.
    { revert H. unfold bind at 1, emit. cbv beta iota. destruct (bind _ _ s) as [[r1 s1] w1]. by intros [= _ _ <-]. }
    rewrite Hw in Hspec. injection Hspec as <-. exists (turn_on_steps duration). split; [done|].
    pose proof (turn_on_steps_bounds duration). unfold kTurnOnStep in *. lia.
Qed.

Lemma turn_on_rounds_up_witness : exists r w,
  turn_on_for (S := unit) (mkExchange true ok (fun _ => ret tt) 0 (fun _ => Ok (J_obj []))) 45 tt = (r, tt, w) /\
  exists n, 30 * (n - 1) < 45 <= 30 * n.
Proof.
  evaluate (turn_on_for (S := unit) (mkExchange true ok (fun _ => ret tt) 0 (fun _ => Ok (J_obj []))) 45 tt) H.
  eexists _, _. split; [exact H|].
  destruct (proj2 (turn_on_rounds_up _ 45 _ _ _ _ ltac:(lia) H) ltac:(lia) _ eq_refl) as (n & _ & _ & Hn).
  exists n. exact Hn.
Defined.
