(* ===== verification/Logs.v ===== *)
(** * The device log ([logs.hpp], [logs.cpp])

    Log batches, their requests, and the paginated full retrieval; [read_all]
    loops until the device has nothing more, so its model takes fuel, and the
    theorem says how much is enough. *)
From S2P Require Import Prelude StdMap Errors Float Json Canonical Events Datapoint Generated Catalog.
From S2P Require Import Codec WriteSet Snapshot Service Manager.
Local Open Scope Z_scope.

Inductive LogLevel := LL_None | LL_Error | LL_Warning | LL_Info | LL_Debug | LL_Trace.
#[export] Instance LogLevel_eq_dec : EqDecision LogLevel.
Proof. solve_decision. Defined.
Definition log_level_code (l : LogLevel) : Z :=
  match l with LL_None => 0 | LL_Error => 1 | LL_Warning => 2 | LL_Info => 3 | LL_Debug => 4 | LL_Trace => 5 end.

Record LogRecord := mkLogRecord {
  lr_sequence : Z;
  lr_uptime_ms : Z;
  lr_event_id : Z;
  lr_module_id : Z;
  lr_level : Z;
  lr_args : list Z;
  lr_text : string
}.
Record LogBatch := mkLogBatch {
  lb_boot_id : Z;
  lb_first_seq_available : Z;
  lb_next_seq : Z;
  lb_dropped_count : Z;
  lb_overflow : bool;
  lb_previous_boot_available : bool;
  lb_records : list LogRecord
}.
Definition last_sequence (b : LogBatch) : option Z := option_map lr_sequence (list.last (lb_records b)).
Record LogReadOptions := mkLogReadOptions {
  lo_since_sequence : Z;
  lo_minimum_level : LogLevel;
  lo_max_records : Z
}.
Definition default_log_options : LogReadOptions := mkLogReadOptions 0 LL_None 64.

(** ** Parsing *)

Fixpoint parse_args (l : list json) : outcome (list Z) :=
  match l with
  | [] => Ret []
  | j :: r =>
      if is_number j then
        let! z := get_int64 j in let! rest := parse_args r in Ret (z :: rest)
      else parse_args r
  end.

Definition parse_record (raw : json) : outcome LogRecord :=
  let! sequence := value (get_uint 32) "s" 0 raw in
  let! uptime_ms := value (get_uint 32) "u" 0 raw in
  let! event_id := value (get_uint 16) "ev" 0 raw in
  let! module_id := value (get_int 32) "mod" 0 raw in
  let! level := value (get_int 32) "lvl" 0 raw in
  let! a := value get_json "a" (J_arr []) raw in
  let! args := parse_args (elements a) in
  let! text := value_string "t" raw in
  Ret (mkLogRecord sequence uptime_ms event_id (wrap_u 8 module_id) (wrap_u 8 level) args text).

Fixpoint parse_records (l : list json) : outcome (list LogRecord) :=
  match l with
  | [] => Ret []
  | raw :: r =>
      if negb (is_object raw) then parse_records r
      else let! record := parse_record raw in let! rest := parse_records r in Ret (record :: rest)
  end.

Definition parse_batch (message : json) : outcome LogBatch :=
  let! boot_id := value (get_uint 32) "boot_id" 0 message in
  let! first := value (get_uint 32) "first_seq_available" 0 message in
  let! next := value (get_uint 32) "next_seq" 0 message in
  let! dropped := value (get_uint 32) "dropped_count" 0 message in
  let! overflow := value get_bool "overflow" false message in
  let! available := value get_bool "available" false message in
  let! raw := value get_json "records" (J_arr []) message in
  let! records := parse_records (elements raw) in
  Ret (mkLogBatch boot_id first next dropped overflow available records).

(** ** Requests *)

Definition log_body (o : LogReadOptions) : json :=
  let body := J_obj [] in
  let body := if 0 <? lo_since_sequence o then jset "since_seq" (J_uint (lo_since_sequence o)) body else body in
  let body := if decide (lo_minimum_level o = LL_None) then body
              else jset "min_level" (J_int (log_level_code (lo_minimum_level o))) body in
  jset "max_records" (J_uint (Z.min (lo_max_records o) 128)) body.

Definition async_read_impl (type : string) (o : LogReadOptions) : RequestSpec :=
  {| rs_type := type; rs_body := log_body o; rs_timeout := Some (ms 20000);
     rs_priority := LogTransfer; rs_coalesce_key := EmptyString |}.
Definition async_read_log (o : LogReadOptions) : started LogBatch := Submitted (async_read_impl "log_read" o).
Definition async_read_previous (o : LogReadOptions) : started LogBatch := Submitted (async_read_impl "log_read_prev" o).
Definition async_ack_previous (boot_id : Z) : started bool :=
  Submitted {| rs_type := "log_ack_prev"; rs_body := J_obj [("boot_id", J_uint boot_id)]; rs_timeout := None;
               rs_priority := LogTransfer; rs_coalesce_key := EmptyString |}.

Section Blocking.
Context {S : Type}.

Definition finish_batch (response : Result json) : M S sevent (Result LogBatch) :=
  match response with
  | Err e => ret (Err e)
  | Ok message => let* batch := lift (parse_batch message) in ret (Ok batch)
  end.
Definition finish_ack (response : Result json) : M S sevent (Result bool) :=
  match response with
  | Err e => ret (Err e)
  | Ok message => let* done := lift (value get_bool "ok" false message) in ret (Ok done)
  end.

Definition read_log (x : exchange S) (o : LogReadOptions) : M S sevent (Result LogBatch) :=
  sync_wait x (Ret (async_read_log o)) finish_batch.
Definition read_previous (x : exchange S) (o : LogReadOptions) : M S sevent (Result LogBatch) :=
  sync_wait x (Ret (async_read_previous o)) finish_batch.
Definition ack_previous (x : exchange S) (boot_id : Z) : M S sevent (Result bool) :=
  sync_wait x (Ret (async_ack_previous boot_id)) finish_ack.

(** One page, with exactly one retry after a timeout; the two attempts meet the
    surroundings [x1] and [x2]. *)
Definition read_page (x1 x2 : exchange S) (page : LogReadOptions) : M S sevent (Result LogBatch) :=
  let* batch := read_log x1 page in
  match batch with
  | Err e => if decide (err_code e = RequestTimeout) then read_log x2 page else ret batch
  | Ok _ => ret batch
  end.

(** The loop of [read_all]; [None]: out of fuel.  Attempt [n] of the whole
    retrieval meets the surroundings [xs n]. *)
Fixpoint read_pages (fuel : nat) (xs : nat -> exchange S) (n : nat) (page : LogReadOptions)
    (all : list LogRecord) : M S sevent (option (Result (list LogRecord))) :=
  match fuel with
  | O => ret None
  | Datatypes.S fuel' =>
      let* batch := read_page (xs n) (xs (n + 1)%nat) page in
      match batch with
      | Err e => ret (Some (Err e))
      | Ok b =>
          let all := all ++ lb_records b in
          match last_sequence b with
          | None => ret (Some (Ok all))
          | Some last =>
              if lb_next_seq b <=? wrap_u 32 (last + 1) then ret (Some (Ok all))
              else read_pages fuel' xs (n + 2)%nat
                     (mkLogReadOptions last (lo_minimum_level page) (lo_max_records page)) all
          end
      end
  end.
Definition read_all_log (fuel : nat) (xs : nat -> exchange S) (o : LogReadOptions) :
    M S sevent (option (Result (list LogRecord))) :=
  read_pages fuel xs 0 (mkLogReadOptions (lo_since_sequence o) (lo_minimum_level o) 64) [].
End Blocking.

(** ** [Log_Command] *)

Section Command.
Context (dump : json -> outcome string).
Definition set_remote_detail (detail : string) (e : Error) : Error :=
  mkError (err_domain e) (err_code e) (err_message e) (err_retryable e) (err_operation e) (err_datapoint e)
    (Some detail).
Definition write_log_command (bound : bool) (x : exchange Manager) (v : Z) : M Manager sevent Status :=
  if negb bound then ret (Err (internal_error "LogService is not bound to a client"))
  else
    let* result := write_dp dump x dp.Log_Command (V_u8 v) in
    match result with
    | Err e => ret (Err e)
    | Ok r =>
        if negb (applied r) then
          let error := make_error Dom_Remote RemoteRejected "device rejected Log_Command" in
          ret (Err (match wr_errors r with
                    | we :: _ => set_remote_detail (we_reason we) error
                    | [] => error end))
        else ret ok
    end.
Definition clear_runtime (bound : bool) (x : exchange Manager) : M Manager sevent Status :=
  write_log_command bound x 1.
Definition flush (bound : bool) (x : exchange Manager) : M Manager sevent Status :=
  write_log_command bound x 3.
End Command.

(** ** The full retrieval *)

(** The records of a log after a sequence number. *)
Definition after_seq (since : Z) (ring : list LogRecord) : list LogRecord :=
  List.filter (fun r => since <? lr_sequence r) ring.

Lemma after_seq_elem since ring r : r ∈ after_seq since ring <-> r ∈ ring /\ since < lr_sequence r.
Proof. unfold after_seq. by rewrite !list_elem_of_In, filter_In, Z.ltb_lt. Qed.

Abbreviation ascending := (StronglySorted (fun a b => lr_sequence a < lr_sequence b)).

Lemma filter_all {A} (P : A -> bool) l : Forall (fun x => P x = true) l -> List.filter P l = l.
Proof. induction 1 as [|x l Hx _ IH]; [done|]. cbn. by rewrite Hx, IH. Qed.
Lemma filter_none {A} (P : A -> bool) l : Forall (fun x => P x = false) l -> List.filter P l = [].
Proof. induction 1 as [|x l Hx _ IH]; [done|]. cbn. by rewrite Hx. Qed.

Lemma ascending_filter P l : ascending l -> ascending (List.filter P l).
Proof.
  induction 1 as [|x l Hl IH Hx]; [constructor|]. cbn. destruct (P x); [|done]. constructor; [done|].
  rewrite Forall_elem in *. intros y Hy. apply Hx. apply list_elem_of_In in Hy. apply list_elem_of_In. by apply filter_In in Hy as [Hy _].
Qed.

(** Continuing from the last record received leaves exactly what was not. *)
Lemma after_seq_split since ring pre r suf : ascending ring -> after_seq since ring = pre ++ r :: suf ->
  after_seq (lr_sequence r) ring = suf.
Proof.
  intros Hs He. assert (since < lr_sequence r) as Hr.
  { apply (after_seq_elem since ring r). rewrite He. set_solver. }
  assert (after_seq (lr_sequence r) ring = after_seq (lr_sequence r) (after_seq since ring)) as ->.
  { unfold after_seq. clear He Hs. induction ring as [|x ring IH]; [done|]. cbn.
    destruct (Z.ltb_spec since (lr_sequence x)); cbn; [by rewrite IH|].
    by replace (lr_sequence r <? lr_sequence x) with false by lia. }
  pose proof (ascending_filter (fun r => since <? lr_sequence r) ring Hs) as Hf.
  fold (after_seq since ring) in Hf. rewrite He in *. clear He Hs.
  unfold after_seq. rewrite List.filter_app. cbn [List.filter]. rewrite Z.ltb_irrefl.
  induction pre as [|y pre IH]; cbn [app] in Hf; apply StronglySorted_inv in Hf as [Hf Hall].
  - cbn. apply filter_all. eapply Forall_impl; [|exact Hall]. intros z Hz. cbn in *. lia.
  - cbn. rewrite Forall_elem in Hall. specialize (Hall r ltac:(set_solver)). cbn in Hall.
    replace (lr_sequence r <? lr_sequence y) with false by lia. by apply IH.
Qed.

Section Retrieval.
Context {S : Type}.

(** Surroundings that leave the state alone. *)
Record calm_exchange (x : exchange S) : Prop := {
  cx_bound : x_bound x = true;
  cx_status : x_status x = ok;
  cx_between : forall spec s, x_between x spec s = (Ret tt, s, [])
}.

(** A device that serves its log: the answer to a page request is a batch with a
    prefix of the records after the requested sequence number, not empty if there
    are any (how many is the device's choice), and the end of the log. *)
Definition serves (ring : list LogRecord) (next : Z) (level : LogLevel) (x : exchange S) : Prop :=
  calm_exchange x /\ forall since, 0 <= since -> exists msg batch,
    x_reply x (async_read_impl "log_read" (mkLogReadOptions since level 64)) = Ok msg /\
    parse_batch msg = Ret batch /\ lb_next_seq batch = next /\
    lb_records batch `prefix_of` after_seq since ring /\
    (lb_records batch = [] -> after_seq since ring = []).
(** An attempt the device does not answer in time. *)
Definition times_out (x : exchange S) : Prop :=
  calm_exchange x /\ forall spec, exists e, x_reply x spec = Err e /\ err_code e = RequestTimeout.

Lemma calm_read (x : exchange S) o s : calm_exchange x -> exists w,
  read_log x o s = let '(r, s', w') := finish_batch (x_reply x (async_read_impl "log_read" o)) s in (r, s', w ++ w').
Proof.
  intros [Hb Hst Hbe]. exists [Sv_submit (async_read_impl "log_read" o)].
  unfold read_log, sync_wait. rewrite Hb, Hst. cbn [negb ok]. rewrite run_lift. unfold async_read_log.
  unfold bind at 1, emit. cbv beta iota. rewrite (run_bind_quiet _ _ _ tt s) by apply Hbe. done.
Qed.

Lemma serves_read ring next level x since s : 0 <= since -> serves ring next level x -> exists b w,
  read_log x (mkLogReadOptions since level 64) s = (Ret (Ok b), s, w) /\ lb_next_seq b = next /\
  lb_records b `prefix_of` after_seq since ring /\ (lb_records b = [] -> after_seq since ring = []).
Proof.
  intros H0 [Hc Hs]. destruct (Hs since H0) as (msg & b & Hr & Hp & Hn & Hpre & He).
  destruct (calm_read x (mkLogReadOptions since level 64) s Hc) as [w Hw].
  exists b, w. rewrite Hw, Hr. unfold finish_batch. rewrite Hp. cbn. by rewrite app_nil_r.
Qed.

Lemma serves_page ring next level x1 x2 since s : 0 <= since -> serves ring next level x1 \/ times_out x1 ->
  serves ring next level x2 -> exists b w,
  read_page x1 x2 (mkLogReadOptions since level 64) s = (Ret (Ok b), s, w) /\ lb_next_seq b = next /\
  lb_records b `prefix_of` after_seq since ring /\ (lb_records b = [] -> after_seq since ring = []).
Proof.
  intros H0 H1 H2. unfold read_page. destruct H1 as [H1|[Hc Ht]].
  - destruct (serves_read _ _ _ _ since s H0 H1) as (b & w & Hr & Hb). exists b, w. split; [|done].
    rewrite (run_bind _ _ _ (Ok b) s w (Ret (Ok b)) s []); [by rewrite app_nil_r|done|done].
  - destruct (serves_read _ _ _ _ since s H0 H2) as (b & w & Hr & Hb).
    destruct (calm_read x1 (mkLogReadOptions since level 64) s Hc) as [w1 Hw1].
    destruct (Ht (async_read_impl "log_read" (mkLogReadOptions since level 64))) as (e & He & Hcode).
    exists b, (w1 ++ w). split; [|done]. eapply run_bind; [rewrite Hw1, He; cbn; by rewrite app_nil_r|].
    cbn. by rewrite decide_True.
Qed.

Lemma prefix_nonempty (l rest : list LogRecord) : l <> [] -> l `prefix_of` rest ->
  exists pre r suf, l = pre ++ [r] /\ rest = pre ++ r :: suf.
Proof.
  intros Hne [suf ->]. destruct (exists_last Hne) as (pre & r & ->). exists pre, r, suf. by rewrite <- app_assoc.
Qed.

Lemma read_pages_serves fuel xs ring next level n since all s :
  (forall k, serves ring next level (xs (2 * k)%nat) \/ times_out (xs (2 * k)%nat)) ->
  (forall k, serves ring next level (xs (2 * k + 1)%nat)) ->
  ascending ring -> Forall (fun r => 0 < lr_sequence r < next) ring -> next < 2 ^ 32 -> 0 <= since ->
  (length (after_seq since ring) < fuel)%nat ->
  exists w, read_pages fuel xs (2 * n) (mkLogReadOptions since level 64) all s =
    (Ret (Some (Ok (all ++ after_seq since ring))), s, w).
Proof.
  intros Heven Hodd Hs Hr Hnext. revert n since all. induction fuel as [|fuel IH]; intros n since all H0 Hfuel; [lia|].
  cbn [read_pages].
  destruct (serves_page ring next level (xs (2 * n)%nat) (xs (2 * n + 1)%nat) since s H0 (Heven n) (Hodd n))
    as (b & w & Hb & Hnx & Hpre & Hnil).
  destruct (decide (lb_records b = [])) as [He|Hne].
  - exists w. rewrite (run_bind _ _ _ _ _ _ (Ret (Some (Ok (all ++ lb_records b)))) s [] Hb).
    + by rewrite app_nil_r, He, (Hnil He).
    + unfold last_sequence. by rewrite He.
  - destruct (prefix_nonempty _ _ Hne Hpre) as (pre & r & suf & Hrec & Hrest).
    assert (last_sequence b = Some (lr_sequence r)) as Hlast.
    { unfold last_sequence. rewrite Hrec. by rewrite last_snoc. }
    assert (r ∈ ring) as Hin by (apply (after_seq_elem since); rewrite Hrest; set_solver).
    rewrite Forall_elem in Hr. pose proof (Hr _ Hin) as Hseq.
    pose proof (after_seq_split _ _ _ _ _ Hs Hrest) as Hsuf.
    assert (wrap_u 32 (lr_sequence r + 1) = lr_sequence r + 1) as Hwrap by (apply wrap_u_id; lia).
    destruct (Z.leb_spec next (lr_sequence r + 1)) as [Hdone|Hmore].
    + assert (suf = []) as ->.
      { destruct suf as [|y suf]; [done|]. assert (y ∈ after_seq (lr_sequence r) ring) as Hy by (rewrite Hsuf; set_solver).
        apply after_seq_elem in Hy as [Hy Hlt]. specialize (Hr _ Hy). lia. }
      exists w. rewrite (run_bind _ _ _ _ _ _ (Ret (Some (Ok (all ++ lb_records b)))) s [] Hb).
      * by rewrite app_nil_r, Hrec, Hrest.
      * cbv beta iota zeta. rewrite Hlast, Hnx, Hwrap. by replace (next <=? lr_sequence r + 1) with true by lia.
    + destruct (IH (n + 1)%nat (lr_sequence r) (all ++ lb_records b)) as [w2 H2]; [lia|..].
      { rewrite Hsuf. rewrite Hrest, length_app in Hfuel. cbn in Hfuel. lia. }
      exists (w ++ w2). eapply run_bind; [exact Hb|]. cbv beta iota zeta. rewrite Hlast, Hnx, Hwrap.
      replace (next <=? lr_sequence r + 1) with false by lia. cbn [lo_minimum_level lo_max_records].
      replace (2 * n + 2)%nat with (2 * (n + 1))%nat by lia. rewrite H2, Hsuf, Hrec, Hrest.
      by rewrite <- !app_assoc.
Qed.

(** C19: The paginated retrieval is complete and terminates: against a device that
    serves its log in pages of any size, with at most one timeout per page, it
    returns every record after the starting point exactly once and in order, in at
    most one page per record. *)
Theorem read_all_complete fuel xs ring next o s :
  (forall k, serves ring next (lo_minimum_level o) (xs (2 * k)%nat) \/ times_out (xs (2 * k)%nat)) ->
  (forall k, serves ring next (lo_minimum_level o) (xs (2 * k + 1)%nat)) ->
  ascending ring -> Forall (fun r => 0 < lr_sequence r < next) ring -> next < 2 ^ 32 ->
  0 <= lo_since_sequence o -> (length ring < fuel)%nat ->
  exists w, read_all_log fuel xs o s = (Ret (Some (Ok (after_seq (lo_since_sequence o) ring))), s, w).
Proof.
  intros H1 H2 H3 H4 H5 H6 H7. unfold read_all_log. change 0%nat with (2 * 0)%nat.
  apply (read_pages_serves fuel xs ring next (lo_minimum_level o) 0 (lo_since_sequence o) [] s); [done..|].
  eapply Nat.le_lt_trans; [apply List.filter_length_le|done].
Qed.
End Retrieval.

(** A device with a log of three records that answers two at a time, and every
    other attempt only after the timeout. *)
Definition toy_record (n : Z) : LogRecord := mkLogRecord n 0 0 0 3 [] EmptyString.
Definition toy_ring : list LogRecord := [toy_record 1; toy_record 2; toy_record 3].
Definition toy_since (spec : RequestSpec) : Z :=
  match jfind "since_seq" (rs_body spec) with Some (J_uint n) => n | _ => 0 end.
Definition encode_record (r : LogRecord) : json := J_obj [("lvl", J_int 3); ("s", J_uint (lr_sequence r))].
Definition toy_answer (spec : RequestSpec) : Result json :=
  Ok (J_obj [("next_seq", J_uint 4);
             ("records", J_arr (map encode_record (take 2 (after_seq (toy_since spec) toy_ring))))]).
Definition toy_exchange (late : bool) : exchange unit :=
  mkExchange true ok (fun _ => ret tt) 0
    (fun spec => if late then Err (timeout_error "log_read") else toy_answer spec).

Lemma parse_encoded l : Forall (fun r => parse_record (encode_record r) = Ret r) l ->
  parse_records (map encode_record l) = Ret l.
Proof. induction 1 as [|r l Hr _ IH]; [done|]. cbn [map parse_records is_object encode_record negb]. fold (encode_record r). by rewrite Hr, IH. Qed.

Lemma toy_serves : serves toy_ring 4 LL_None (toy_exchange false).
Proof.
  split; [by split|]. intros since H0. set (l := take 2 (after_seq since toy_ring)).
  assert (toy_since (async_read_impl "log_read" (mkLogReadOptions since LL_None 64)) = since) as Hs.
  { unfold toy_since, async_read_impl, log_body. cbn [rs_body lo_since_sequence lo_minimum_level lo_max_records].
    rewrite decide_True by done. destruct (Z.ltb_spec 0 since); cbn; [done|lia]. }
  exists (J_obj [("next_seq", J_uint 4); ("records", J_arr (map encode_record l))]), (mkLogBatch 0 0 4 0 false false l).
  split; [unfold toy_exchange, x_reply, toy_answer; by rewrite Hs|]. split; [|split; [done|split]].
  - assert (parse_records (map encode_record l) = Ret l) as Hp; [apply parse_encoded|revert Hp; generalize l].
    2: { intros l' Hp. unfold parse_batch. cbn -[map parse_records]. by rewrite Hp. }
    apply Forall_take. apply Forall_elem. intros r Hr. apply after_seq_elem in Hr as [Hr _].
    unfold toy_ring in Hr. rewrite !elem_of_cons in Hr. destruct Hr as [->|[->|[->|Hr]]]; [done..|]. by apply elem_of_nil in Hr.
  - apply prefix_take.
  - cbn [lb_records]. unfold l. by destruct (after_seq since toy_ring).
Qed.

Lemma read_all_complete_witness : exists w,
  read_all_log 4 (fun n => toy_exchange (Nat.even n)) default_log_options tt = (Ret (Some (Ok toy_ring)), tt, w).
Proof.
  refine (read_all_complete 4 (fun n => toy_exchange (Nat.even n)) toy_ring 4 default_log_options tt _ _ _ _ _ _ _).
  - intros k. right. rewrite Nat.even_mul. cbn [Nat.even orb]. split; [by split|]. intros spec. by eexists.
  - intros k. rewrite Nat.even_add, Nat.even_mul. exact toy_serves.
  - unfold toy_ring. repeat (constructor; [|repeat constructor; cbn; lia]). constructor.
  - unfold toy_ring. repeat constructor; cbn; lia.
  - lia.
  - cbn. lia.
  - cbn. lia.
Defined.

(** A device whose answers do not advance keeps [read_all] reading: nothing in
    the loop compares the last record with the previous one. *)
Definition stuck_exchange : exchange unit :=
  mkExchange true ok (fun _ => ret tt) 0
    (fun _ => Ok (J_obj [("next_seq", J_uint 9); ("records", J_arr [encode_record (toy_record 1)])])).
Lemma read_all_stuck fuel n since all s :
  exists w, read_pages fuel (fun _ => stuck_exchange) n (mkLogReadOptions since LL_None 64) all s = (Ret None, s, w).
Proof.
  revert n since all. induction fuel as [|fuel IH]; intros n since all; [by eexists|]. cbn [read_pages].
  assert (exists w, read_page stuck_exchange stuck_exchange (mkLogReadOptions since LL_None 64) s =
    (Ret (Ok (mkLogBatch 0 0 9 0 false false [toy_record 1])), s, w)) as [w Hw].
  { destruct s. by eexists. }
  destruct (IH (n + 2)%nat 1 (all ++ [toy_record 1])) as [w2 H2].
  exists (w ++ w2). eapply run_bind; [exact Hw|]. exact H2.
Qed.
