(* ===== verification/Security.v ===== *)
(** * Credentials and the security configuration ([security.hpp], [security.cpp])

    Key decoding, the fixed credential provider, and the configuration the client
    locks while it is connected.  Whether a file can be opened, and its content,
    are parameters; wiping the key's memory on destruction is not modelled. *)
From S2P Require Import Prelude StdMap Errors Float Json Canonical Auth.
Local Open Scope Z_scope.

Inductive EndpointIdentityPolicy := VerifyDnsName | VerifyCertificateChainOnly.

Record TlsCredentials := mkTls {
  tls_ca_file : string;
  tls_certificate_file : string;
  tls_key_file : string;
  tls_policy : EndpointIdentityPolicy;
  tls_disable_peer_verification : bool
}.
Definition tls_default : TlsCredentials := mkTls EmptyString EmptyString EmptyString VerifyDnsName false.
Definition mutual_tls (ca certificate key : string) (policy : EndpointIdentityPolicy) : TlsCredentials :=
  mkTls ca certificate key policy false.
Definition server_only (ca : string) (policy : EndpointIdentityPolicy) : TlsCredentials :=
  mkTls ca EmptyString EmptyString policy false.
Definition uses_mutual_tls (t : TlsCredentials) : bool := negb (str_empty (tls_certificate_file t)).
Definition set_unsafe_options (disable : bool) (t : TlsCredentials) : TlsCredentials :=
  mkTls (tls_ca_file t) (tls_certificate_file t) (tls_key_file t) (tls_policy t) disable.

(** ** Keys *)

(** The decoder's loop: the bytes so far and the high nibble waiting. *)
Fixpoint hex_key_loop (hex : string) (bytes : list Z) (high : option Z) : Result (list Z * option Z) :=
  match hex with
  | EmptyString => Ok (bytes, high)
  | String c r =>
      if isspace c then hex_key_loop r bytes high
      else match nibble_of c with
           | None => Err (config_error MissingCredentials "hmac key contains a non-hex character")
           | Some nibble =>
               match high with
               | None => hex_key_loop r bytes (Some nibble)
               | Some h => hex_key_loop r (bytes ++ [Z.lor (Z.shiftl h 4) nibble]) None
               end
           end
  end.

Definition decode_hex_key (hex : string) : Result (list Z) :=
  match hex_key_loop hex [] None with
  | Err e => Err e
  | Ok (bytes, high) =>
      if match high with Some _ => true | None => false end || negb (Nat.eqb (length bytes) 32) then
        Err (config_error MissingCredentials
               ("hmac key must be exactly 64 hex characters (32 bytes), got " +:+
                dec_Z (Z.of_nat (length bytes)) +:+ " bytes"))
      else Ok bytes
  end.

Record HmacCredentials := mkHmac { hc_kid : string; hc_key : list Z }.

Definition from_hex (kid hex : string) : Result HmacCredentials :=
  if str_empty kid then Err (config_error MissingCredentials "hmac kid must not be empty")
  else match decode_hex_key hex with
       | Err e => Err e
       | Ok bytes => Ok (mkHmac kid bytes)
       end.

Definition append_message (text : string) (e : Error) : Error :=
  mkError (err_domain e) (err_code e) (err_message e +:+ text) (err_retryable e) (err_operation e)
    (err_datapoint e) (err_remote_detail e).
(** [content]: what the file holds, [None] when it cannot be opened. *)
Definition from_file (kid path : string) (content : option string) : Result HmacCredentials :=
  match content with
  | None => Err (config_error FileNotReadable ("hmac key file is not readable: " +:+ path))
  | Some text =>
      match from_hex kid text with
      | Err e => Err (append_message (" (" +:+ path +:+ ")") e)
      | Ok c => Ok c
      end
  end.

(** ** Providers *)

(** [resolve(device_id, kid)] *)
Definition CredentialProvider : Type := string -> string -> Result (list Z).

Definition fixed_provider (kid : string) (key : list Z) (expected_device_id : string) : CredentialProvider :=
  fun device_id offered =>
    if negb (str_empty expected_device_id) && negb (String.eqb device_id expected_device_id) then
      Err (make_error Dom_Authentication AuthRejected
        ("unexpected device_id '" +:+ device_id +:+ "' (configured: " +:+ expected_device_id +:+ ")"))
    else if negb (String.eqb offered kid) then
      Err (make_error Dom_Authentication UnknownKeyId
        ("device offers kid '" +:+ offered +:+ "', configured is '" +:+ kid +:+ "'"))
    else Ok key.

(** ** The configuration *)

Record SecurityConfiguration := mkSecurity {
  sc_tls : TlsCredentials;
  sc_has_tls : bool;
  sc_provider : option CredentialProvider;
  sc_kid : string;
  sc_expected_device_id : string;
  sc_locked : bool
}.
Definition new_security : SecurityConfiguration := mkSecurity tls_default false None EmptyString EmptyString false.

Section Files.
(** Whether a file can be opened for reading. *)
Context (readable_file : string -> bool).

Definition require_readable (path what : string) : Status :=
  if str_empty path then Err (config_error MissingCredentials (what +:+ " is not configured"))
  else if negb (readable_file path) then
    Err (config_error FileNotReadable (what +:+ " is not readable: " +:+ path))
  else ok.

Definition tls_validate (t : TlsCredentials) : Status :=
  let? _ := if tls_disable_peer_verification t then ok else require_readable (tls_ca_file t) "tls ca_file" in
  if uses_mutual_tls t then
    let? _ := require_readable (tls_certificate_file t) "tls client_certificate_file" in
    require_readable (tls_key_file t) "tls client_key_file"
  else ok.

Definition locked_error (what : string) : Status :=
  Err (make_error Dom_Configuration InvalidState (what +:+ " cannot be changed while connected")).

(** The setters return their status and the configuration after them. *)
Definition set_tls (t : TlsCredentials) (c : SecurityConfiguration) : Status * SecurityConfiguration :=
  if sc_locked c then (locked_error "TLS", c)
  else match tls_validate t with
       | Err e => (Err e, c)
       | Ok _ => (ok, mkSecurity t true (sc_provider c) (sc_kid c) (sc_expected_device_id c) (sc_locked c))
       end.
Definition set_hmac (h : HmacCredentials) (c : SecurityConfiguration) : Status * SecurityConfiguration :=
  if sc_locked c then (locked_error "HMAC credentials", c)
  else (ok, mkSecurity (sc_tls c) (sc_has_tls c) (Some (fixed_provider (hc_kid h) (hc_key h) EmptyString))
              (hc_kid h) (sc_expected_device_id c) (sc_locked c)).
Definition set_credential_provider (p : option CredentialProvider) (c : SecurityConfiguration) :
    Status * SecurityConfiguration :=
  if sc_locked c then (locked_error "credential provider", c)
  else match p with
       | None => (Err (config_error MissingCredentials "credential provider must not be null"), c)
       | Some _ => (ok, mkSecurity (sc_tls c) (sc_has_tls c) p (sc_kid c) (sc_expected_device_id c) (sc_locked c))
       end.
Definition set_expected_device_id (id : string) (c : SecurityConfiguration) : SecurityConfiguration :=
  mkSecurity (sc_tls c) (sc_has_tls c) (sc_provider c) (sc_kid c) id (sc_locked c).
Definition lock (c : SecurityConfiguration) : SecurityConfiguration :=
  mkSecurity (sc_tls c) (sc_has_tls c) (sc_provider c) (sc_kid c) (sc_expected_device_id c) true.
Definition unlock (c : SecurityConfiguration) : SecurityConfiguration :=
  mkSecurity (sc_tls c) (sc_has_tls c) (sc_provider c) (sc_kid c) (sc_expected_device_id c) false.

Definition security_validate (c : SecurityConfiguration) : Status :=
  if negb (sc_has_tls c) then
    Err (config_error MissingCredentials
      "no TLS credentials configured — the local device server requires mutual TLS")
  else
    let? _ := tls_validate (sc_tls c) in
    match sc_provider c with
    | None => Err (config_error MissingCredentials
        "no HMAC credentials configured — the Fountain handshake cannot complete")
    | Some _ => ok
    end.

(** The calls of the application. *)
Inductive security_call :=
| Sc_set_tls (t : TlsCredentials)
| Sc_set_hmac (h : HmacCredentials)
| Sc_set_provider (p : option CredentialProvider)
| Sc_set_expected (id : string).
Definition run_security (c : SecurityConfiguration) (call : security_call) : SecurityConfiguration :=
  match call with
  | Sc_set_tls t => (set_tls t c).2
  | Sc_set_hmac h => (set_hmac h c).2
  | Sc_set_provider p => (set_credential_provider p c).2
  | Sc_set_expected id => set_expected_device_id id c
  end.
Definition expected_ids (calls : list security_call) : list string :=
  omap (fun call => match call with Sc_set_expected id => Some id | _ => None end) calls.
End Files.

(** ** The two key decoders *)

Lemma loop_strip hex bytes high : hex_key_loop (strip_space hex) bytes high = hex_key_loop hex bytes high.
Proof.
  revert bytes high. induction hex as [|c hex IH]; intros bytes high; [done|]. cbn [strip_space hex_key_loop].
  destruct (isspace c) eqn:Ec; [apply IH|]. cbn [hex_key_loop]. rewrite Ec.
  destruct (nibble_of c); [|done]. destruct high; apply IH.
Qed.

Fixpoint no_space (s : string) : Prop :=
  match s with EmptyString => True | String c r => isspace c = false /\ no_space r end.
Lemma strip_no_space hex : no_space (strip_space hex).
Proof. induction hex as [|c hex IH]; [done|]. cbn. by destruct (isspace c) eqn:E. Qed.

Lemma loop_pairs n s key bytes : no_space s -> String.length s = (2 * n)%nat -> hex_pairs n s = Some key ->
  hex_key_loop s bytes None = Ok (bytes ++ key, None) /\ length key = n.
Proof.
  revert s key bytes. induction n as [|n IH]; intros s key bytes Hs Hl; cbn [hex_pairs].
  - destruct s; [|done]. intros [= <-]. by rewrite app_nil_r.
  - destruct s as [|a [|b s]]; [done|cbn in Hl; lia|]. destruct Hs as (Ha & Hb & Hs). cbn [hex_key_loop]. rewrite Ha, Hb.
    destruct (nibble_of a) as [h|]; [|done]. destruct (nibble_of b) as [l|]; [|done].
    destruct (hex_pairs n s) as [t|] eqn:E; [|done]. intros [= <-].
    destruct (IH s t (bytes ++ [Z.lor (Z.shiftl h 4) l]) Hs) as [-> <-]; [cbn in Hl; lia|done|].
    by rewrite <- app_assoc.
Qed.

Lemma pairs_loop n s bytes out : (String.length s <= n)%nat -> no_space s ->
  hex_key_loop s bytes None = Ok (out, None) ->
  exists key, out = bytes ++ key /\ String.length s = (2 * length key)%nat /\ hex_pairs (length key) s = Some key.
Proof.
  revert s bytes. induction n as [|n IH]; intros s bytes Hn Hs.
  - destruct s; [|cbn in Hn; lia]. intros [= <-]. exists []. by rewrite app_nil_r.
  - destruct s as [|a [|b s]].
    + intros [= <-]. exists []. by rewrite app_nil_r.
    + destruct Hs as (Ha & _). cbn [hex_key_loop]. rewrite Ha. by destruct (nibble_of a).
    + destruct Hs as (Ha & Hb & Hs). cbn [hex_key_loop]. rewrite Ha, Hb.
      destruct (nibble_of a) as [h|] eqn:Ea; [|done]. destruct (nibble_of b) as [l|] eqn:Eb; [|done]. intros H.
      destruct (IH s _ ltac:(cbn in Hn; lia) Hs H) as (key & -> & Hl & Hp).
      exists (Z.lor (Z.shiftl h 4) l :: key). rewrite <- app_assoc. split; [done|]. split; [cbn; lia|].
      cbn [length hex_pairs]. by rewrite Ea, Eb, Hp.
Qed.

(** The two decoders of HMAC keys agree: for every text the credential loader
    accepts exactly the texts the protocol layer's file loader accepts, 64 hex
    digits with white space anywhere, and gives the same 32 bytes. *)
Theorem key_decoders_agree path text key :
  decode_hex_key text = Ok key <-> load_hmac_key_file path (Some text) = Ret key.
Proof.
  unfold decode_hex_key, load_hmac_key_file. rewrite <- (loop_strip text).
  pose proof (strip_no_space text) as Hs. set (s := strip_space text) in *. split.
  - destruct (hex_key_loop s [] None) as [[bytes high]|e] eqn:E; [|done].
    destruct high; [done|]. cbn [orb]. destruct (Nat.eqb_spec (length bytes) 32) as [Hl|]; [|done].
    intros [= ->]. apply (pairs_loop (String.length s)) in E as (k & -> & Hlen & Hp); [|done|done].
    cbn [app] in *. rewrite Hlen, Hl, <- Hl, Hp, Hl. done.
  - destruct (Nat.eqb_spec (String.length s) 64) as [Hl|]; [|done]. cbn [negb].
    destruct (hex_pairs 32 s) as [k|] eqn:Ek; [|done]. intros [= ->].
    destruct (loop_pairs 32 s key [] Hs Hl Ek) as [-> Hk]. cbn [app orb]. by rewrite Hk.
Qed.

(** ** The lock *)

(** While the configuration is locked no sequence of calls changes the TLS
    credentials, the provider or the key id, and it stays locked; the expected
    device identity alone is not protected: it ends up as the last one set. *)
Theorem locked_configuration readable_file calls c : sc_locked c = true ->
  let c' := fold_left (run_security readable_file) calls c in
  sc_tls c' = sc_tls c /\ sc_has_tls c' = sc_has_tls c /\ sc_provider c' = sc_provider c /\
  sc_kid c' = sc_kid c /\ sc_locked c' = true /\
  sc_expected_device_id c' = default (sc_expected_device_id c) (list.last (expected_ids calls)).
Proof.
  revert c. induction calls as [|call calls IH]; intros c Hl; [done|]. cbn [fold_left].
  assert (sc_locked (run_security readable_file c call) = true) as Hl'.
  { destruct call; cbn; unfold set_tls, set_hmac, set_credential_provider; by rewrite ?Hl. }
  destruct (IH _ Hl') as (H1 & H2 & H3 & H4 & H5 & H6). cbn zeta.
  rewrite H1, H2, H3, H4, H5, H6.
  destruct call; cbn; unfold set_tls, set_hmac, set_credential_provider; rewrite ?Hl; split_and!; try done.
  fold (expected_ids calls). change (default id (list.last (expected_ids calls)) =
    default (sc_expected_device_id c) (list.last (id :: expected_ids calls))).
  rewrite last_cons. by destruct (list.last (expected_ids calls)).
Qed.

Lemma locked_configuration_witness :
  sc_kid (fold_left (run_security (fun _ => true)) [Sc_set_hmac (mkHmac "2" []); Sc_set_expected "dev"] (lock new_security))
    = EmptyString.
Proof.
  refine (proj1 (proj2 (proj2 (proj2 (locked_configuration (fun _ => true) [Sc_set_hmac (mkHmac "2" []); Sc_set_expected "dev"]
    (lock new_security) _))))). reflexivity.
Defined.
