(* ===== verification/RestoreGuard.v ===== *)
(** * The restore guard ([datapoints/restore_guard.hpp], [restore_guard.cpp])

    A baseline of read-write datapoints that is written back when the guard goes
    out of scope. *)
From S2P Require Import Prelude StdMap Errors Float Json Events Datapoint Generated Catalog.
From S2P Require Import Codec WriteSet Snapshot Service Manager ManagerFacts.
Local Open Scope Z_scope.

Record Guard := mkGuard { gd_baseline : DatapointSnapshot; gd_armed : bool }.

Section Guard.
Context (dump : json -> outcome string).

(** The names a baseline may have. *)
Fixpoint check_restorable (names : list string) : Status :=
  match names with
  | [] => ok
  | name :: r =>
      match find name with
      | None => Err (validation_error UnknownDatapoint ("unknown datapoint '" +:+ name +:+ "'") name)
      | Some d =>
          if decide (d_access d = ReadWrite) then check_restorable r
          else Err (validation_error ReadOnlyDatapoint
                      (name +:+ " is not read-write — baseline cannot be restored") name)
      end
  end.

Definition capture (x : exchange Manager) (names : list string) : M Manager sevent (Result Guard) :=
  match names with
  | [] => ret (Err (validation_error EmptySelection "restore guard needs at least one datapoint" EmptyString))
  | _ =>
      match check_restorable names with
      | Err e => ret (Err e)
      | Ok _ =>
          let* baseline := read_names x names in
          match baseline with
          | Err e => ret (Err e)
          | Ok s => ret (Ok (mkGuard s true))
          end
      end
  end.

Definition writable_names (exclude : list string) : list string :=
  map d_name (List.filter (fun d => bool_decide (d_access d = ReadWrite) && negb (bool_decide (d_name d ∈ exclude))) all).
Definition capture_all_writable (x : exchange Manager) (exclude : list string) : M Manager sevent (Result Guard) :=
  capture x (writable_names exclude).

(** [restore] on a guard: the result and the guard after it. *)
Definition restore (x : exchange Manager) (g : Guard) : M Manager sevent (Result WriteResult * Guard) :=
  let g' := mkGuard (gd_baseline g) false in
  match fill_write_set (sn_values (gd_baseline g)) [] with
  | Err e => ret (Err e, g')
  | Ok changes => let* result := write dump x changes in ret (result, g')
  end.
Definition dismiss (g : Guard) : Guard := mkGuard (gd_baseline g) false.

(** The destructor; the result is only logged. *)
Definition destroy (x : exchange Manager) (g : Guard) : M Manager sevent unit :=
  if gd_armed g then restore x g ;;; ret tt else ret tt.
(** Move construction: the new guard and what is left of the old one. *)
Definition move_construct (other : Guard) : Guard * Guard :=
  (other, mkGuard snapshot_empty false).
(** Move assignment to a different object: an armed target restores first. *)
Definition move_assign (x : exchange Manager) (target other : Guard) : M Manager sevent (Guard * Guard) :=
  (if gd_armed target then restore x target ;;; ret tt else ret tt) ;;;
  ret (move_construct other).

(** ** Theorems *)

Lemma check_restorable_spec names : check_restorable names = Ok tt ->
  Forall (fun n => exists d, find n = Some d /\ d_access d = ReadWrite) names.
Proof.
  induction names as [|n names IH]; [constructor|]. cbn [check_restorable].
  destruct (find n) as [d|] eqn:Ef; [|done]. destruct (decide (d_access d = ReadWrite)); [|done].
  intros H. constructor; [by exists d|auto].
Qed.

(** The cases of a successful capture. *)
Lemma capture_cases x names m g m' w : capture x names m = (Ret (Ok g), m', w) ->
  Forall (fun n => exists d, find n = Some d /\ d_access d = ReadWrite) names /\ gd_armed g = true /\
  read_names x names m = (Ret (Ok (gd_baseline g)), m', w).
Proof.
  unfold capture. destruct names as [|n names]; [done|]. set (l := n :: names).
  destruct (check_restorable l) as [[]|e] eqn:E; [|done]. intros H.
  apply bind_ret_inv in H as (r & m1 & w1 & w2 & Hr & H & ->). destruct r as [s|e]; [|done].
  injection H as <- <- <-. rewrite app_nil_r. split; [by apply check_restorable_spec|done].
Qed.

Lemma read_names_snapshot x names m s m' w : read_names x names m = (Ret (Ok s), m', w) -> snapshot_ok s.
Proof.
  unfold read_names. intros H. apply sync_wait_cases in H as [(e & [=] & _)|[(c & Hc & [= <-] & _)|(spec & _ & H)]].
  - unfold async_read in Hc. destruct names; [done|]. by destruct (List.find _ _).
  - apply bind_ret_inv in H as (? & ? & ? & ? & _ & H & _). apply bind_ret_inv in H as (? & ? & ? & ? & _ & H & _).
    unfold finish_read in H. destruct (x_reply x spec) as [message|e]; [|done].
    repeat (apply bind_ret_inv in H as (? & ? & ? & ? & ? & H & _)). injection H as <- _ _.
    apply snapshot_ok_unknown, decode_dp_object_ok.
Qed.

End Guard.

Definition guard_world (reply : json) : world := mkWorld true ok (fun _ => []) 0 (fun _ => Ok reply).


(** A device that returns none of the names still gives an armed guard, with
    nothing in it. *)
Example capture_accepts_missing_values : exists g m1 w1,
  capture (surroundings no_dump (guard_world (J_obj []))) ["Fon_Min_Pressure"] new_manager = (Ret (Ok g), m1, w1) /\
  gd_armed g = true /\ sn_values (gd_baseline g) = [].
Proof.
  evaluate (capture (surroundings no_dump (guard_world (J_obj []))) ["Fon_Min_Pressure"] new_manager) Hc.
  eexists _, _, _. split; [exact Hc|]. done.
Qed.
