(* ===== verification/Replies.v ===== *)
(** * The services' requests and their response handlers

    What a call of a service starts ([DatapointManager::async_read],
    [CommandService::async_raw], [LogService::async_read_impl] and the rest) and what
    the handler it passes to [submit] does with the response.  A handler works on the
    manager and the poller, calls the subscribers and the completion it was given, and
    returns: the services post their requests, so no handler reaches back into the
    session that calls it. *)
From S2P Require Import Prelude StdMap Errors Float Json Canonical Events Datapoint Generated Catalog.
From S2P Require Import Codec WriteSet Snapshot Service Manager Poller Commands Logs.
Local Open Scope Z_scope.

(** The response handlers; [k] is the caller's completion. *)
Inductive reply_handler :=
| Rh_read (k : nat)
| Rh_poll (h : poll_handler)
| Rh_write (k : nat)
| Rh_command (command : string) (k : nat)
| Rh_log (k : nat)
| Rh_log_ack (k : nat)
| Rh_raw (k : nat).

(** What a completion is called with. *)
Inductive answer :=
| A_snapshot (r : Result DatapointSnapshot)
| A_write (r : Result WriteResult)
| A_command (r : Result CommandResult)
| A_batch (r : Result LogBatch)
| A_ack (r : Result bool)
| A_raw (r : Result json).

Inductive revent :=
| Re_service (e : sevent)
| Re_poll (e : pevent)
| Re_answer (k : nat) (a : answer).

(** The services whose state a handler works on. *)
Abbreviation services := (Manager * Poller)%type.
Abbreviation ReplyM := (M services revent).
Definition on_manager {A} (m : M Manager sevent A) : ReplyM A := fun s =>
  let '(r, d, w) := m s.1 in (r, (d, s.2), map Re_service w).
Definition on_polls {A} (m : M Poller pevent A) : ReplyM A := fun s =>
  let '(r, p, w) := m s.2 in (r, (s.1, p), map Re_poll w).

Section Respond.
(** [json::dump], and the clock the manager reads. *)
Context (dump : json -> outcome string) (now : TimePoint).

Definition read_handler (k : nat) (response : Result json) : ReplyM unit :=
  let* result := on_manager (finish_read now ExplicitRead response) in
  emit (Re_answer k (A_snapshot result)).
Definition poll_reply (completion : poll_handler) (response : Result json) : ReplyM unit :=
  let* result := on_manager (finish_read now PeriodicPoll response) in
  on_polls (poll_completion completion result).
Definition write_handler (k : nat) (response : Result json) : ReplyM unit :=
  let* result := on_manager (finish_write dump now response) in
  emit (Re_answer k (A_write result)).
Definition command_handler (command : string) (k : nat) (response : Result json) : ReplyM unit :=
  let* result := on_manager (finish_command command response) in
  emit (Re_answer k (A_command result)).
Definition batch_handler (k : nat) (response : Result json) : ReplyM unit :=
  let* result := on_manager (finish_batch response) in
  emit (Re_answer k (A_batch result)).
Definition ack_handler (k : nat) (response : Result json) : ReplyM unit :=
  let* result := on_manager (finish_ack response) in
  emit (Re_answer k (A_ack result)).

(** A response handler runs. *)
Definition respond (h : reply_handler) (response : Result json) : ReplyM unit :=
  match h with
  | Rh_read k => read_handler k response
  | Rh_poll completion => poll_reply completion response
  | Rh_write k => write_handler k response
  | Rh_command command k => command_handler command k response
  | Rh_log k => batch_handler k response
  | Rh_log_ack k => ack_handler k response
  | Rh_raw k => emit (Re_answer k (A_raw response))
  end.
End Respond.

(** ** Calls *)

Inductive service_call :=
| Sc_read (names : list string)
| Sc_read_all
| Sc_write (changes : DatapointWriteSet)
| Sc_command (command : string) (target_state : option string) (duration_steps : option Z)
    (priority : OperationPriority)
| Sc_set_state (s : FountainState)
| Sc_turn_on_for (duration : Z)
| Sc_restart_pump
| Sc_reboot
| Sc_log_read (o : LogReadOptions)
| Sc_log_read_previous (o : LogReadOptions)
| Sc_log_ack_previous (boot_id : Z)
| Sc_request (spec : RequestSpec).

(** A call answers its completion at once, or hands a request and a handler to
    [submit]. *)
Inductive begun :=
| Answered (a : answer)
| Submits (spec : RequestSpec) (h : reply_handler).
Definition begun_of {T} (answered : Result T -> answer) (h : reply_handler) (s : started T) : begun :=
  match s with Completed r => Answered (answered r) | Submitted spec => Submits spec h end.

Definition command_call (k : nat) (command : string) (s : started CommandResult) : begun :=
  begun_of A_command (Rh_command command k) s.
Definition start_call (call : service_call) (k : nat) : outcome begun :=
  match call with
  | Sc_read names => Ret (begun_of A_snapshot (Rh_read k) (async_read names InteractiveRead EmptyString))
  | Sc_read_all => Ret (begun_of A_snapshot (Rh_read k) async_read_all)
  | Sc_write changes => let! s := async_write changes in Ret (begun_of A_write (Rh_write k) s)
  | Sc_command command target steps priority =>
      Ret (command_call k command (async_raw command target steps priority))
  | Sc_set_state s => Ret (command_call k "set_state" (async_set_state s))
  | Sc_turn_on_for d => Ret (command_call k "turn_on_duration" (async_turn_on_for d))
  | Sc_restart_pump => Ret (command_call k "restart" async_restart_pump)
  | Sc_reboot => Ret (command_call k "reboot" async_reboot)
  | Sc_log_read o => Ret (begun_of A_batch (Rh_log k) (async_read_log o))
  | Sc_log_read_previous o => Ret (begun_of A_batch (Rh_log k) (async_read_previous o))
  | Sc_log_ack_previous b => Ret (begun_of A_ack (Rh_log_ack k) (async_ack_previous b))
  | Sc_request spec => Ret (Submits spec (Rh_raw k))
  end.

(** The completion a handler owes an answer to. *)
Definition owed (h : reply_handler) : option nat :=
  match h with
  | Rh_read k | Rh_write k | Rh_command _ k | Rh_log k | Rh_log_ack k | Rh_raw k => Some k
  | Rh_poll _ => None
  end.
(** The completions called. *)
Definition answers_of (w : list revent) : list nat :=
  omap (fun e => match e with Re_answer k _ => Some k | _ => None end) w.
Lemma answers_of_app w1 w2 : answers_of (w1 ++ w2) = answers_of w1 ++ answers_of w2.
Proof. apply omap_app. Qed.

(** A handler that returns calls its completion, exactly once and no other. *)
Lemma respond_answers dump now h response s s' w : respond dump now h response s = (Ret tt, s', w) ->
  answers_of w = option_list (owed h).
Proof.
  assert (forall w0, answers_of (map Re_service w0) = []) as Hs by (by induction w0).
  assert (forall w0, answers_of (map Re_poll w0) = []) as Hp by (by induction w0).
  destruct h; cbn [respond owed];
    unfold read_handler, poll_reply, write_handler, command_handler, batch_handler, ack_handler; try (by intros [= _ <-]);
    intros H; apply bind_ret_inv in H as (r & s1 & w1 & w2 & H1 & H & ->); rewrite answers_of_app;
    unfold on_manager in H1; repeat case_match; simplify_eq; rewrite Hs; try (by injection H as _ <-).
  unfold on_polls in H. repeat case_match. simplify_eq. by rewrite Hp.
Qed.
