(* ===== verification/Transport.v ===== *)
(** * The web socket transport ([transport/wss_transport.hpp], [wss_transport.cpp],
      [text_transport.hpp], [endpoint.hpp])

    One connection attempt and the connection it opens: the chain of asynchronous
    steps up to the open web socket, the send queue with its single write, the
    closing handshake, and [finish], which ends either.  Boost.Asio, Beast and
    OpenSSL are outside: an operation the class starts is an event, its completion
    handler an operation of the model that takes the error code.  Completions and
    handlers are known by numbers; the code a send completion runs and the code a
    receive handler runs are parameters, so that they may call back. *)
From S2P Require Import Prelude StdMap Errors Float Json Events Security.
Local Open Scope Z_scope.

Definition kMaxTxFrameSize : Z := 4096.
Definition kMaxRxFrameSize : Z := 64 * 1024.
Definition kMaxTxQueue : Z := 100.
Definition kCloseNormal : Z := 1000.

Record Endpoint := mkEndpoint {
  ep_host : string;
  ep_port : Z;
  ep_path : string;
  ep_subprotocol : string
}.
Definition default_endpoint (host : string) : Endpoint := mkEndpoint host 4443 "/ws" "fountain".
Definition endpoint_to_string (e : Endpoint) : string :=
  "wss://" +:+ ep_host e +:+ ":" +:+ dec_Z (ep_port e) +:+ ep_path e.

Record WssOptions := mkWssOptions {
  wo_connect_timeout : Z;
  wo_idle_timeout : Z;
  wo_user_agent : string
}.

(** [boost::system::error_code], as far as the code looks at it. *)
Record error_code := mkEc {
  ec_message : string;
  ec_ssl_category : bool;
  ec_operation_aborted : bool;
  ec_handshake_failed : bool;
  ec_closed : bool
}.

Definition tls_error (ec : error_code) : Error :=
  if ec_ssl_category ec then
    make_error Dom_Tls CertificateRejected ("TLS handshake failed: " +:+ ec_message ec)
  else set_retryable true
    (make_error Dom_Tls TlsHandshakeFailed ("TLS handshake failed: " +:+ ec_message ec)).
Definition ws_error (ec : error_code) : Error :=
  if ec_handshake_failed ec then
    make_error Dom_WebSocket WebSocketHandshakeFailed ("WebSocket handshake rejected: " +:+ ec_message ec)
  else set_retryable true
    (make_error Dom_WebSocket WebSocketHandshakeFailed ("WebSocket handshake failed: " +:+ ec_message ec)).

(** ** The TLS context *)

(** What OpenSSL says of the files: [Some what] is an exception with its text. *)
Record ssl_library := mkSslLibrary {
  sl_load_verify_file : string -> option string;
  sl_use_certificate_chain : string -> option string;
  sl_use_private_key : string -> option string;
  sl_keys_match : string -> string -> bool
}.
Record ssl_context := mkSslContext {
  ss_verify_peer : bool;
  ss_ca_file : option string;
  ss_identity : option (string * string)
}.

Definition ssl_try (r : option string) : Status :=
  match r with
  | None => ok
  | Some what => Err (config_error FileNotReadable ("TLS setup failed: " +:+ what))
  end.

Definition make_ssl_context (readable_file : string -> bool) (lib : ssl_library) (credentials : TlsCredentials) :
    Result ssl_context :=
  let? _ := tls_validate readable_file credentials in
  let? ca := (if tls_disable_peer_verification credentials then Ok None
              else let? _ := ssl_try (sl_load_verify_file lib (tls_ca_file credentials)) in
                   Ok (Some (tls_ca_file credentials))) in
  let? identity :=
    (if uses_mutual_tls credentials then
       let? _ := ssl_try (sl_use_certificate_chain lib (tls_certificate_file credentials)) in
       let? _ := ssl_try (sl_use_private_key lib (tls_key_file credentials)) in
       if sl_keys_match lib (tls_certificate_file credentials) (tls_key_file credentials)
       then Ok (Some (tls_certificate_file credentials, tls_key_file credentials))
       else Err (config_error MissingCredentials "client key does not match the client certificate")
     else Ok None) in
  Ok (mkSslContext (negb (tls_disable_peer_verification credentials)) ca identity).

(** ** The transport *)

Inductive Phase :=
| Ph_Idle | Ph_Resolving | Ph_Connecting | Ph_TlsHandshake | Ph_WsHandshake
| Ph_Open | Ph_Closing | Ph_Closed.
#[export] Instance Phase_eq_dec : EqDecision Phase.
Proof. solve_decision. Defined.

Record Outgoing := mkOutgoing { og_frame : string; og_completion : option nat }.

Record Transport := mkTransport {
  tr_phase : Phase;
  tr_user_close : bool;
  tr_tx_queue : list Outgoing;
  tr_write_active : bool;
  tr_open_completion : option nat;
  tr_receive_handler : bool;
  tr_close_handler : option nat
}.
Definition new_transport : Transport := mkTransport Ph_Idle false [] false None false None.
Definition set_tr_phase (v : Phase) (t : Transport) : Transport :=
  mkTransport v (tr_user_close t) (tr_tx_queue t) (tr_write_active t) (tr_open_completion t)
    (tr_receive_handler t) (tr_close_handler t).
Definition set_tr_user_close (v : bool) (t : Transport) : Transport :=
  mkTransport (tr_phase t) v (tr_tx_queue t) (tr_write_active t) (tr_open_completion t)
    (tr_receive_handler t) (tr_close_handler t).
Definition set_tr_tx_queue (v : list Outgoing) (t : Transport) : Transport :=
  mkTransport (tr_phase t) (tr_user_close t) v (tr_write_active t) (tr_open_completion t)
    (tr_receive_handler t) (tr_close_handler t).
Definition set_tr_write_active (v : bool) (t : Transport) : Transport :=
  mkTransport (tr_phase t) (tr_user_close t) (tr_tx_queue t) v (tr_open_completion t)
    (tr_receive_handler t) (tr_close_handler t).
Definition set_tr_open_completion (v : option nat) (t : Transport) : Transport :=
  mkTransport (tr_phase t) (tr_user_close t) (tr_tx_queue t) (tr_write_active t) v
    (tr_receive_handler t) (tr_close_handler t).
Definition set_tr_receive_handler (v : bool) (t : Transport) : Transport :=
  mkTransport (tr_phase t) (tr_user_close t) (tr_tx_queue t) (tr_write_active t)
    (tr_open_completion t) v (tr_close_handler t).
Definition set_tr_close_handler (v : option nat) (t : Transport) : Transport :=
  mkTransport (tr_phase t) (tr_user_close t) (tr_tx_queue t) (tr_write_active t)
    (tr_open_completion t) (tr_receive_handler t) v.

(** The operations the class starts below it, and the calls it makes above. *)
Inductive tevent :=
| Te_resolve (host port : string) (timeout : Z)
| Te_cancel_resolve_timer
| Te_cancel_resolver
| Te_connect (timeout : Z)
| Te_tls_handshake (sni verified_host : option string) (timeout : Z)
| Te_ws_handshake (authority path subprotocol agent : string) (handshake_timeout : Z)
    (idle : option Z) (read_max : Z)
| Te_read
| Te_queued (frame : string)                    (* pushed to [tx_queue_] *)
| Te_write (frame : string)
| Te_close (code : Z) (reason : string)
| Te_shutdown_socket
| Te_sent (completion : nat) (r : Status)
| Te_opened (completion : nat) (r : Status)
| Te_receive (frame : string)
| Te_closed (h : nat) (e : Error).

Definition is_open (t : Transport) : bool := bool_decide (tr_phase t = Ph_Open).

(** A message arrived, and the next read is started if the connection is still
    open after the receive handler.  The handler runs in the state [S] of its
    owner, in which [here] finds the transport. *)
Definition read_frame {S E} (here : S -> Transport) (event : tevent -> E) (receive : string -> M S E unit)
    (text : bool) (frame : string) : M S E unit :=
  let* t := gets here in
  when (text && tr_receive_handler t) (emit (event (Te_receive frame)) ;;; receive frame) ;;;
  let* t := gets here in
  when (is_open t) (emit (event Te_read)).

Section Transport.
Context (ip_literal : string -> bool).          (* asio's [make_address] accepts the host *)
Context (endpoint : Endpoint) (identity_policy : EndpointIdentityPolicy) (options : WssOptions).
(** The code of a send completion and of the receive handler. *)
Context (on_sent : nat -> Status -> M Transport tevent unit).
Context (on_receive : string -> M Transport tevent unit).
Abbreviation TM := (M Transport tevent).

Definition notify (completion : option nat) (r : Status) : TM unit :=
  match completion with
  | Some i => emit (Te_sent i r) ;;; on_sent i r
  | None => ret tt
  end.

Definition was_open (t : Transport) : bool :=
  bool_decide (tr_phase t = Ph_Open) || bool_decide (tr_phase t = Ph_Closing).

(** Before it was open, the error is the result of [async_open]; after that it is
    the end of the connection. *)
Definition report_end (open : bool) (error : Error) : TM unit :=
  let* t := get in
  match tr_open_completion t with
  | Some i =>
      modify (set_tr_open_completion None) ;;;
      emit (Te_opened i (Err error))
  | None =>
      if open then
        match tr_close_handler t with
        | Some h => modify (set_tr_close_handler None) ;;; emit (Te_closed h error)
        | None => ret tt
        end
      else ret tt
  end.

Definition finish (error : Error) : TM unit :=
  let* t := get in
  let open := was_open t in
  if bool_decide (tr_phase t = Ph_Closed) then ret tt else
  modify (set_tr_phase Ph_Closed) ;;;
  emit Te_shutdown_socket ;;;
  modify (set_tr_tx_queue []) ;;;
  forM (tr_tx_queue t) (fun item => notify (og_completion item) (Err error)) ;;;
  report_end open error.

Definition async_open (completion : option nat) : TM unit :=
  let* t := get in
  if negb (bool_decide (tr_phase t = Ph_Idle)) then
    match completion with
    | Some i => emit (Te_opened i (Err (internal_error
                  "transport already used — create a fresh instance per attempt")))
    | None => ret tt
    end
  else
  modify (set_tr_open_completion completion) ;;;
  modify (set_tr_phase Ph_Resolving) ;;;
  emit (Te_resolve (ep_host endpoint) (dec_Z (ep_port endpoint)) (wo_connect_timeout options)).

(** The resolver's timer. *)
Definition on_resolve_timer (ec : option error_code) : TM unit :=
  match ec with None => emit Te_cancel_resolver | Some _ => ret tt end.

Definition cancel : TM unit :=
  let* t := get in
  if bool_decide (tr_phase t = Ph_Closed) || bool_decide (tr_phase t = Ph_Closing) then ret tt else
  modify (set_tr_user_close true) ;;;
  emit Te_cancel_resolve_timer ;;;
  emit Te_cancel_resolver ;;;
  finish (cancelled_error "connect").

Definition on_resolve (ec : option error_code) : TM unit :=
  emit Te_cancel_resolve_timer ;;;
  match ec with
  | Some e =>
      finish (set_retryable true (make_error Dom_Dns ResolveFailed
        ((if ec_operation_aborted e then "DNS resolve timed out: " else "DNS resolve failed: ") +:+
         ec_message e)))
  | None =>
      modify (set_tr_phase Ph_Connecting) ;;;
      emit (Te_connect (wo_connect_timeout options))
  end.

Definition on_connect (ec : option error_code) : TM unit :=
  match ec with
  | Some e =>
      finish (set_retryable true (make_error Dom_Tcp ConnectFailed ("TCP connect failed: " +:+ ec_message e)))
  | None =>
      modify (set_tr_phase Ph_TlsHandshake) ;;;
      emit (Te_tls_handshake
        (if ip_literal (ep_host endpoint) then None else Some (ep_host endpoint))
        (match identity_policy with VerifyDnsName => Some (ep_host endpoint)
                                  | VerifyCertificateChainOnly => None end)
        (wo_connect_timeout options))
  end.

Definition on_tls_handshake (ec : option error_code) : TM unit :=
  match ec with
  | Some e => finish (tls_error e)
  | None =>
      modify (set_tr_phase Ph_WsHandshake) ;;;
      emit (Te_ws_handshake (ep_host endpoint +:+ ":" +:+ dec_Z (ep_port endpoint)) (ep_path endpoint)
        (ep_subprotocol endpoint) (wo_user_agent options) (wo_connect_timeout options)
        (if 0 <? wo_idle_timeout options then Some (wo_idle_timeout options) else None) kMaxRxFrameSize)
  end.

Definition do_read : TM unit := emit Te_read.

Definition on_ws_handshake (ec : option error_code) : TM unit :=
  match ec with
  | Some e => finish (ws_error e)
  | None =>
      modify (set_tr_phase Ph_Open) ;;;
      let* t := get in
      match tr_open_completion t with
      | Some i => modify (set_tr_open_completion None) ;;; emit (Te_opened i ok)
      | None => ret tt
      end ;;;
      do_read
  end.

(** [text]: the message is text. *)
Definition on_read (ec : option error_code) (text : bool) (frame : string) : TM unit :=
  match ec with
  | Some e =>
      if ec_closed e then
        finish (make_error Dom_Disconnected TransportClosed "peer closed the connection")
      else
        let* t := get in
        if tr_user_close t then ret tt else
        finish (set_retryable true
          (make_error Dom_Disconnected TransportClosed ("read failed: " +:+ ec_message e)))
  | None => read_frame id id on_receive text frame
  end.

Definition begin_write : TM unit :=
  modify (set_tr_write_active true) ;;;
  let* t := get in
  match tr_tx_queue t with
  | item :: _ => emit (Te_write (og_frame item))
  | [] => throw (Exn_ub "front of an empty queue")
  end.

Definition frame_size (frame : string) : Z := Z.of_nat (String.length frame).
Definition queue_size (t : Transport) : Z := Z.of_nat (length (tr_tx_queue t)).

Definition async_send (frame : string) (completion : option nat) : TM unit :=
  let* t := get in
  if negb (is_open t) then
    notify completion (Err (make_error Dom_Disconnected NotConnected "transport is not open"))
  else if kMaxTxFrameSize <? frame_size frame then
    notify completion (Err (make_error Dom_Protocol FrameTooLarge
      ("frame of " +:+ dec_Z (frame_size frame) +:+ " bytes exceeds the device limit of " +:+
       dec_Z kMaxTxFrameSize)))
  else if kMaxTxQueue <=? queue_size t then
    notify completion (Err (make_error Dom_RateLimit SendQueueFull "transport send queue is full"))
  else
  modify (fun t => set_tr_tx_queue (tr_tx_queue t ++ [mkOutgoing frame completion]) t) ;;;
  emit (Te_queued frame) ;;;
  let* t := get in
  when (negb (tr_write_active t)) begin_write.

Definition on_write (ec : option error_code) : TM unit :=
  modify (set_tr_write_active false) ;;;
  match ec with
  | Some e =>
      let* t := get in
      match tr_tx_queue t with
      | pending :: rest =>
          modify (set_tr_tx_queue rest) ;;;
          notify (og_completion pending)
            (Err (make_error Dom_Disconnected TransportClosed ("write failed: " +:+ ec_message e)))
      | [] => ret tt
      end ;;;
      let* t := get in
      if tr_user_close t then ret tt else
      finish (set_retryable true
        (make_error Dom_Disconnected TransportClosed ("write failed: " +:+ ec_message e)))
  | None =>
      let* t := get in
      match tr_tx_queue t with
      | [] => throw (Exn_ub "front of an empty queue")
      | sent :: rest =>
          modify (set_tr_tx_queue rest) ;;;
          notify (og_completion sent) ok ;;;
          let* t := get in
          when (negb (Nat.eqb (length (tr_tx_queue t)) 0) && is_open t) begin_write
      end
  end.

Definition close (code : Z) (reason : string) : TM unit :=
  let* t := get in
  if bool_decide (tr_phase t = Ph_Closed) || bool_decide (tr_phase t = Ph_Closing) then ret tt else
  modify (set_tr_user_close true) ;;;
  if negb (is_open t) then
    emit Te_cancel_resolve_timer ;;;
    emit Te_cancel_resolver ;;;
    finish (make_error Dom_Disconnected TransportClosed ("closed during connect: " +:+ reason))
  else
  modify (set_tr_phase Ph_Closing) ;;;
  emit (Te_close code reason).

(** The closing handshake is over, whatever its error code. *)
Definition on_close : TM unit :=
  finish (make_error Dom_Disconnected TransportClosed "connection closed").

(** ** Lives of a transport *)

Inductive tcall :=
| Tc_open (completion : option nat)
| Tc_cancel
| Tc_send (frame : string) (completion : option nat)
| Tc_close (code : Z) (reason : string)
| Tc_set_receive (present : bool)
| Tc_set_close (h : option nat)
| Tc_on_resolve_timer (ec : option error_code)
| Tc_on_resolve (ec : option error_code)
| Tc_on_connect (ec : option error_code)
| Tc_on_tls_handshake (ec : option error_code)
| Tc_on_ws_handshake (ec : option error_code)
| Tc_on_read (ec : option error_code) (text : bool) (frame : string)
| Tc_on_write (ec : option error_code)
| Tc_on_close.

Definition run_tcall (c : tcall) : TM unit :=
  match c with
  | Tc_open completion => async_open completion
  | Tc_cancel => cancel
  | Tc_send frame completion => async_send frame completion
  | Tc_close code reason => close code reason
  | Tc_set_receive present => modify (set_tr_receive_handler present)
  | Tc_set_close h => modify (set_tr_close_handler h)
  | Tc_on_resolve_timer ec => on_resolve_timer ec
  | Tc_on_resolve ec => on_resolve ec
  | Tc_on_connect ec => on_connect ec
  | Tc_on_tls_handshake ec => on_tls_handshake ec
  | Tc_on_ws_handshake ec => on_ws_handshake ec
  | Tc_on_read ec text frame => on_read ec text frame
  | Tc_on_write ec => on_write ec
  | Tc_on_close => on_close
  end.
End Transport.
