(* ===== verification/TransportFacts.v ===== *)
(** * What the transport guarantees

    Every completion is answered once; the owner hears of an attempt in one of a
    few orders; frames leave in the order they were accepted, one write at a time;
    and the two ways in which a completion that was already on its way when
    [finish] ran breaks the class. *)
From S2P Require Import Prelude StdMap Errors Float Json Events Security Transport.
Local Open Scope Z_scope.

(** ** Completions *)

Definition answered (w : list tevent) : list nat :=
  omap (fun e => match e with Te_sent i _ => Some i | _ => None end) w.
Definition opened (w : list tevent) : list nat :=
  omap (fun e => match e with Te_opened i _ => Some i | _ => None end) w.
Definition held (t : Transport) : list nat := omap og_completion (tr_tx_queue t).
Definition open_held (t : Transport) : list nat := option_list (tr_open_completion t).

Lemma answered_app w1 w2 : answered (w1 ++ w2) = answered w1 ++ answered w2.
Proof. apply omap_app. Qed.
Lemma opened_app w1 w2 : opened (w1 ++ w2) = opened w1 ++ opened w2.
Proof. apply omap_app. Qed.

(** The attempt's completion is held only while connecting; frames wait only on
    an open or closing connection. *)
Definition connecting (ph : Phase) : Prop :=
  ph = Ph_Resolving \/ ph = Ph_Connecting \/ ph = Ph_TlsHandshake \/ ph = Ph_WsHandshake.
Definition tr_wf (t : Transport) : Prop :=
  (tr_open_completion t <> None -> connecting (tr_phase t)) /\
  (tr_tx_queue t <> [] -> tr_phase t = Ph_Open \/ tr_phase t = Ph_Closing).

Lemma tr_wf_open t : tr_wf t -> tr_phase t ∉ [Ph_Resolving; Ph_Connecting; Ph_TlsHandshake; Ph_WsHandshake] ->
  tr_open_completion t = None.
Proof.
  intros [H _] Hp. destruct (tr_open_completion t); [|done]. exfalso. apply Hp.
  assert (connecting (tr_phase t)) as [->|[->|[->| ->]]] by (by apply H); set_solver.
Qed.

(** A step that takes the completions [given] and [attempts] from its caller. *)
Definition accounts (given attempts : list nat) (t t' : Transport) (w : list tevent) : Prop :=
  tr_wf t -> tr_wf t' /\ answered w ++ held t' ≡ₚ given ++ held t /\
             opened w ++ open_held t' ≡ₚ attempts ++ open_held t.
Abbreviation fair := (accounts [] []).


Lemma accounts_trans g1 a1 g2 a2 s1 s2 s3 w1 w2 :
  accounts g1 a1 s1 s2 w1 -> accounts g2 a2 s2 s3 w2 -> accounts (g1 ++ g2) (a1 ++ a2) s1 s3 (w1 ++ w2).
Proof.
  intros H1 H2 Hwf. destruct (H1 Hwf) as (Hwf2&A1&O1). destruct (H2 Hwf2) as (Hwf3&A2&O2).
  split; [done|]. rewrite answered_app, opened_app, <- !app_assoc, A2, O2.
  rewrite (app_assoc (answered w1)), (app_assoc (opened w1)), (comm (++) (answered w1)), (comm (++) (opened w1)).
  rewrite <- !app_assoc, A1, O1, !app_assoc, (comm (++) g2), (comm (++) a2). by rewrite <- !app_assoc.
Qed.
#[export] Instance composable_fair : Composable fair.
Proof.
  split; [by intros s H|]. intros s1 s2 s3 w1 w2 H1 H2. by apply (accounts_trans [] [] [] [] _ s2).
Qed.
Lemma yields_accounts_bind {A B} g1 a1 g2 a2 (m : M Transport tevent A) (k : A -> M Transport tevent B) :
  yields (accounts g1 a1) m -> (forall x, yields (accounts g2 a2) (k x)) ->
  yields (accounts (g1 ++ g2) (a1 ++ a2)) (bind m k).
Proof.
  intros Hm Hk s b s' w H. apply bind_ret_inv in H as (x&s1&w1&w2&H1&H2&->).
  eapply accounts_trans; [by eapply Hm|by eapply Hk].
Qed.
Lemma yields_perm g1 a1 g2 a2 {A} (m : M Transport tevent A) :
  yields (accounts g1 a1) m -> g1 ≡ₚ g2 -> a1 ≡ₚ a2 -> yields (accounts g2 a2) m.
Proof. intros H Hg Ha s r s' w E Hwf. destruct (H _ _ _ _ E Hwf) as (?&?&?). by rewrite <- Hg, <- Ha. Qed.

(** Steps that only start an operation or set a flag. *)
Definition silent (e : tevent) : bool := match e with Te_sent _ _ | Te_opened _ _ => false | _ => true end.
Lemma yields_emit_silent e : silent e = true -> yields fair (emit e).
Proof. intros He s r s' w [= <- <- <-] Hwf. by destruct e. Qed.
Lemma yields_modify g a f : (forall t, tr_wf t -> tr_wf (f t) /\ held (f t) ≡ₚ g ++ held t /\ open_held (f t) ≡ₚ a ++ open_held t) ->
  yields (accounts g a) (modify f).
Proof. intros H s r s' w [= <- <- <-] Hwf. by apply H. Qed.

(** ** Which completions can arrive

    A completion handler runs once for each operation started, with success only
    if the operation succeeded.  An operation that had succeeded when the attempt
    was ended still delivers its success: [may_arrive] allows that, [timely]
    excludes it. *)
Definition setup_stage (c : tcall) : option Phase :=
  match c with
  | Tc_on_resolve None => Some Ph_Resolving
  | Tc_on_connect None => Some Ph_Connecting
  | Tc_on_tls_handshake None => Some Ph_TlsHandshake
  | Tc_on_ws_handshake None => Some Ph_WsHandshake
  | _ => None
  end.
Definition may_arrive (t : Transport) (c : tcall) : Prop :=
  match setup_stage c with
  | Some ph => tr_phase t = ph \/ tr_phase t = Ph_Closed
  | None => match c with Tc_on_write _ => tr_write_active t = true | _ => True end
  end.
Definition timely (t : Transport) (c : tcall) : Prop :=
  match setup_stage c with
  | Some ph => tr_phase t = ph
  | None => match c with
            | Tc_on_write _ => tr_write_active t = true
            | Tc_open completion => tr_phase t = Ph_Idle /\ completion <> None
            | _ => True
            end
  end.

(** The completions a call takes. *)
Definition given (c : tcall) : list nat :=
  match c with Tc_send _ completion => option_list completion | _ => [] end.
Definition attempts (c : tcall) : list nat :=
  match c with Tc_open completion => option_list completion | _ => [] end.

Section Facts.
Context (ip_literal : string -> bool) (endpoint : Endpoint) (policy : EndpointIdentityPolicy)
  (options : WssOptions).
Context (on_sent : nat -> Status -> M Transport tevent unit).
Context (on_receive : string -> M Transport tevent unit).
(** The owner's code may call back, sending without completions of its own. *)
Context (sent_fair : forall i r, yields fair (on_sent i r)).
Context (receive_fair : forall f, yields fair (on_receive f)).
Abbreviation finish := (finish on_sent).
Abbreviation run_tcall := (run_tcall ip_literal endpoint policy options on_sent on_receive).

Lemma notify_accounts c r : yields (accounts (option_list c) []) (notify on_sent c r).
Proof.
  destruct c as [i|]; simpl; [|apply yields_ret, _].
  apply (yields_accounts_bind [i] [] [] []); [|intros; apply sent_fair].
  intros s r0 s' w [= <- <- <-] Hwf. by split.
Qed.

Lemma notify_all_accounts l error :
  yields (accounts (omap og_completion l) []) (forM l (fun item => notify on_sent (og_completion item) (Err error))).
Proof.
  induction l as [|[f c] l IH]; [apply yields_ret, _|]. cbn [forM].
  replace (omap og_completion (mkOutgoing f c :: l)) with (option_list c ++ omap og_completion l) by by destruct c.
  by apply (yields_accounts_bind _ [] _ []); [apply notify_accounts|].
Qed.

Lemma report_end_fair open error : yields fair (report_end open error).
Proof.
  intros s r s' w. unfold report_end. rewrite run_get.
  destruct (tr_open_completion s) as [i|] eqn:Eo.
  - intros [= <- <- <-] [Hc Hq]. split; [by split|]. unfold open_held. by rewrite Eo.
  - destruct open; [|by intros [= <- <- <-]]. destruct (tr_close_handler s); by intros [= <- <- <-].
Qed.

Lemma finish_fair error : yields fair (finish error).
Proof.
  intros s r s' w. unfold finish, Transport.finish. rewrite run_get.
  case_bool_decide; [by intros [= <- <- <-]|]. rewrite run_modify.
  intros H' Hwf. pose proof Hwf as [Hc Hq]. revert H'. unfold bind at 1. cbn [emit]. rewrite run_modify.
  set (s1 := set_tr_tx_queue [] (set_tr_phase Ph_Closed s)).
  destruct (tr_open_completion s) as [i|] eqn:Eo.
  - assert (tr_tx_queue s = []) as Eq.
    { destruct (tr_tx_queue s); [done|]. destruct Hc as [?|[?|[?|?]]]; [done|..];
      destruct Hq as [?|?]; congruence. }
    rewrite Eq. cbn [forM]. rewrite run_ret. unfold report_end, s1. rewrite run_get. cbn. rewrite Eo.
    intros [= <- <- <-]. unfold accounts, tr_wf, held, open_held. cbn. rewrite Eo, Eq. done.
  - destruct (bind _ _ s1) as [[r1 s2] w2] eqn:E. intros [= -> -> <-].
    apply bind_ret_inv in E as (x&s3&w3&w4&E1&E2&->).
    assert (tr_wf s1) as Hwf1 by (split; cbn; congruence).
    destruct (notify_all_accounts _ _ _ _ _ _ E1 Hwf1) as (Hwf3&A1&O1).
    destruct (report_end_fair _ _ _ _ _ _ E2 Hwf3) as (Hwf4&A2&O2). split; [done|]. cbn [app].
    simpl. rewrite answered_app, opened_app, <- !app_assoc, A2, O2. simpl. rewrite A1, O1.
    split; [by rewrite app_nil_r|]. unfold open_held. cbn. by rewrite Eo.
Qed.

Ltac fair_tac :=
  repeat first
    [ apply finish_fair
    | apply (yields_accounts_bind [] [] [] []); [|intros ?]
    | apply yields_ret, _ | apply yields_throw
    | (apply yields_respects; (apply respects_get || apply respects_gets); apply _)
    | apply yields_emit_silent; reflexivity
    | match goal with |- yields _ (match ?x with _ => _ end) => destruct x end ].

(** An operation that behaves by the state it starts from. *)
Lemma yields_at {B} g a (k : Transport -> M Transport tevent B) :
  (forall t r t' w, k t t = (Ret r, t', w) -> accounts g a t t' w) ->
  yields (accounts g a) (bind get k).
Proof. intros H s r s' w E. rewrite run_get in E. by eapply H. Qed.

Lemma async_open_accounts completion : yields (accounts [] (option_list completion)) (async_open endpoint options completion).
Proof.
  apply yields_at. intros t r t' w. case_bool_decide as Hi; cbn [negb].
  - rewrite !run_modify. intros [= <- <- <-] [H1 H2].
    assert (tr_open_completion t = None) as Eo.
    { apply tr_wf_open; [by split|]. rewrite Hi. set_solver. }
    unfold accounts, tr_wf, held, open_held. cbn. rewrite Eo, app_nil_r. split; [|done]. split; [by left|].
    intros H. destruct (H2 H); congruence.
  - destruct completion; intros [= <- <- <-] Hwf; by repeat split; try apply Hwf.
Qed.

Lemma pop_fair item rest r t x t' w : tr_tx_queue t = item :: rest ->
  (modify (set_tr_tx_queue rest) ;;; notify on_sent (og_completion item) r) t = (Ret x, t', w) -> fair t t' w.
Proof.
  intros Hq. rewrite run_modify. intros E Hwf. pose proof Hwf as [H1 H2].
  assert (tr_wf (set_tr_tx_queue rest t)) as Hwf1 by (split; [exact H1|intros _; apply H2; by rewrite Hq]).
  destruct (notify_accounts _ _ _ _ _ _ E Hwf1) as (?&A&O). split; [done|]. split; [|done].
  rewrite A. unfold held. rewrite Hq. cbn. destruct (og_completion item); reflexivity.
Qed.

Lemma begin_write_fair : yields fair begin_write.
Proof. unfold begin_write. fair_tac. apply yields_modify. by intros. Qed.

Lemma async_send_accounts frame completion :
  yields (accounts (option_list completion) []) (async_send on_sent frame completion).
Proof.
  apply yields_at. intros t r t' w. destruct (is_open t) eqn:Eo; cbn [negb]; [|apply notify_accounts].
  case_match; [apply notify_accounts|]. case_match; [apply notify_accounts|].
  rewrite run_modify. set (t1 := set_tr_tx_queue _ t). intros E Hwf.
  apply bool_decide_eq_true in Eo.
  assert (tr_wf t1) as Hwf1 by (split; [apply Hwf|by left]).
  assert (yields fair (emit (Te_queued frame) ;;; (let* t := get in when (negb (tr_write_active t)) begin_write))) as Hf.
  { fair_tac. destruct (negb _); [apply begin_write_fair|apply yields_ret, _]. }
  destruct (Hf _ _ _ _ E Hwf1) as (?&A&O). split; [done|]. rewrite A, O. split; [|done].
  unfold held, t1. cbn. rewrite omap_app. cbn. rewrite (comm (++)). destruct completion; reflexivity.
Qed.

Lemma on_write_fair ec : yields fair (on_write on_sent ec).
Proof.
  unfold on_write. apply (yields_accounts_bind [] [] [] []); [apply yields_modify; by intros|intros _].
  destruct ec as [e|]; apply yields_at; intros t r t' w E.
  - apply bind_ret_inv in E as (x&t1&w1&w2&E1&E2&->). apply (accounts_trans [] [] [] [] _ t1).
    + destruct (tr_tx_queue t) eqn:Eq; [by injection E1 as <- <- <-|]. by eapply pop_fair.
    + revert E2. apply yields_at. intros ? ? ? ?. destruct (tr_user_close _); [by intros [= <- <- <-]|apply finish_fair].
  - destruct (tr_tx_queue t) as [|sent rest] eqn:Eq; [done|].
    rewrite <- run_assoc in E.
    apply bind_ret_inv in E as (x&t1&w1&w2&E1&E2&->). apply (accounts_trans [] [] [] [] _ t1); [by eapply pop_fair|].
    revert E2. apply yields_at. intros ? ? ? ?. unfold when. case_match; [apply begin_write_fair|by intros [= <- <- <-]].
Qed.

Lemma on_ws_open_fair t r t' w : tr_phase t = Ph_WsHandshake \/ tr_phase t = Ph_Closed ->
  on_ws_handshake on_sent None t = (Ret r, t', w) -> fair t t' w.
Proof.
  intros Hp. unfold on_ws_handshake. rewrite run_modify, run_get. cbn.
  destruct (tr_open_completion t) as [i|] eqn:Eo; intros [= <- <- <-] [H1 H2];
    (unfold accounts, tr_wf, held, open_held; cbn; rewrite ?Eo; repeat split; try done; intros; auto).
Qed.

Lemma run_tcall_accounts c t t' w : may_arrive t c -> run_tcall c t = (Ret tt, t', w) ->
  accounts (given c) (attempts c) t t' w.
Proof.
  intros Hm. destruct c as [co| |f co|code reason|b|h|ec|ec|ec|ec|ec|ec b f|ec|]; cbn [Transport.run_tcall given attempts].
  - apply async_open_accounts.
  - unfold cancel. apply yields_at. intros ? ? ? ?. case_match; [by intros [= <- <- <-]|].
    enough (yields fair (modify (set_tr_user_close true) ;;; emit Te_cancel_resolve_timer ;;;
      emit Te_cancel_resolver ;;; finish (cancelled_error "connect"))) as Hf by apply Hf.
    fair_tac. apply yields_modify. by intros.
  - apply async_send_accounts.
  - unfold close. apply yields_at. intros t0 ? ? ?. case_match; [by intros [= <- <- <-]|]. rewrite run_modify.
    destruct (is_open t0) eqn:Eo; cbn [negb].
    + apply bool_decide_eq_true in Eo. intros [= <- <- <-] [H1 H2]. split; [|done]. split; cbn; [|by right].
      intros []. apply tr_wf_open; [by split|]. rewrite Eo. set_solver.
    + intros E Hwf.
      enough (yields fair (emit Te_cancel_resolve_timer ;;; emit Te_cancel_resolver ;;; finish
         (make_error Dom_Disconnected TransportClosed ("closed during connect: " +:+ reason)))) as Hf
        by exact (Hf _ _ _ _ E Hwf). fair_tac.
  - by intros [= <- <-].
  - by intros [= <- <-].
  - destruct ec; by intros [= <- <-].
  - destruct ec; [|destruct Hm as [Hm|Hm]; intros [= <- <-] [H1 H2]; (split; [|done]);
      (split; cbn; [unfold connecting; tauto|]); intros H; destruct (H2 H); congruence].
    unfold on_resolve. intros E. refine ((_ : yields fair _) _ _ _ _ E). fair_tac.
  - destruct ec; [apply finish_fair|]. destruct Hm as [Hm|Hm]; intros [= <- <-] [H1 H2]; (split; [|done]);
      (split; cbn; [unfold connecting; tauto|]); intros H; destruct (H2 H); congruence.
  - destruct ec; [apply finish_fair|]. destruct Hm as [Hm|Hm]; intros [= <- <-] [H1 H2]; (split; [|done]);
      (split; cbn; [unfold connecting; tauto|]); intros H; destruct (H2 H); congruence.
  - destruct ec; [apply finish_fair|]. by apply on_ws_open_fair.
  - unfold on_read, read_frame. destruct ec.
    + case_match; [apply finish_fair|]. apply yields_at. intros ? ? ? ?.
      case_match; [by intros [= <- <- <-]|apply finish_fair].
    + intros E. refine ((_ : yields fair _) _ _ _ _ E). fair_tac; [|unfold when, do_read; case_match; fair_tac].
      unfold when. case_match; fair_tac. apply receive_fair.
  - apply on_write_fair.
  - apply finish_fair.
Qed.

(** A life of a transport: the calls it received, each allowed by [P], all of
    which returned, and what it did. *)
Inductive tlife (P : Transport -> tcall -> Prop) : list tcall -> Transport -> list tevent -> Prop :=
| tl_new : tlife P [] new_transport []
| tl_call cs t w c t' w' : tlife P cs t w -> P t c -> run_tcall c t = (Ret tt, t', w') ->
    tlife P (cs ++ [c]) t' (w ++ w').

(** C8: every completion handed to the transport — of a send or of an attempt — is
    called exactly once or still held, whatever arrives in whatever order; and
    once the transport is closed none is held any more. *)
Theorem completions_answered_once cs t w : tlife may_arrive cs t w ->
  answered w ++ held t ≡ₚ concat (map given cs) /\
  opened w ++ open_held t ≡ₚ concat (map attempts cs) /\
  (tr_phase t = Ph_Closed -> held t = [] /\ open_held t = []).
Proof.
  intros H. enough (tr_wf t /\ answered w ++ held t ≡ₚ concat (map given cs) /\
    opened w ++ open_held t ≡ₚ concat (map attempts cs)) as ([H1 H2]&HA&HO).
  { split; [done|split; [done|]]. intros Hc. unfold held, open_held. split.
    - destruct (tr_tx_queue t); [done|]. destruct H2; congruence.
    - rewrite (tr_wf_open t); [done|by split|]. rewrite Hc. set_solver. }
  induction H as [|cs t w c t' w' _ (Hwf&HA&HO) Hm E]; [by split; [split|split]|].
  destruct (run_tcall_accounts _ _ _ _ Hm E Hwf) as (?&A&O). split; [done|].
  rewrite answered_app, opened_app, <- !app_assoc, A, O, !map_app, !concat_app. cbn. rewrite !app_nil_r.
  rewrite (app_assoc _ (given c)), (app_assoc _ (attempts c)), (comm (++) (answered w)), (comm (++) (opened w)).
  rewrite <- !app_assoc, HA, HO. split; apply comm, _.
Qed.
End Facts.

(** ** Order, bounds and the owner's view *)

Definition written (w : list tevent) : list string :=
  omap (fun e => match e with Te_write f => Some f | _ => None end) w.
Definition queued (w : list tevent) : list string :=
  omap (fun e => match e with Te_queued f => Some f | _ => None end) w.
Definition outcomes (w : list tevent) : list tevent :=
  List.filter (fun e => match e with Te_opened _ _ | Te_closed _ _ => true | _ => false end) w.
(** Accepted frames that no write has been started for. *)
Definition unwritten (t : Transport) : list string :=
  map og_frame (if tr_write_active t then tail (tr_tx_queue t) else tr_tx_queue t).
Definition small (f : string) : Prop := frame_size f <= kMaxTxFrameSize.

(** The owner has heard of an attempt: nothing, its success, its failure, or its
    success and then the end of the connection. *)
Inductive story : list tevent -> Prop :=
| story_none : story []
| story_refused i e : story [Te_opened i (Err e)]
| story_opened i : story [Te_opened i ok]
| story_closed i h e : story [Te_opened i ok; Te_closed h e].

Record sound (t : Transport) (os : list tevent) (wr acc : list string) : Prop := {
  so_sizes : Forall (fun item => small (og_frame item)) (tr_tx_queue t);
  so_small : Forall small wr;
  so_room : queue_size t <= kMaxTxQueue;
  so_phase :
    match tr_phase t with
    | Ph_Idle => os = [] /\ wr = [] /\ acc = [] /\ tr_tx_queue t = [] /\ tr_write_active t = false /\
                 tr_user_close t = false /\ tr_open_completion t = None
    | Ph_Resolving | Ph_Connecting | Ph_TlsHandshake | Ph_WsHandshake =>
        os = [] /\ wr = [] /\ acc = [] /\ tr_tx_queue t = [] /\ tr_write_active t = false /\
        tr_user_close t = false /\ tr_open_completion t <> None
    | Ph_Open => (exists i, os = [Te_opened i ok]) /\ tr_open_completion t = None /\ tr_user_close t = false /\
                 acc = wr ++ unwritten t /\ (tr_write_active t = true <-> tr_tx_queue t <> [])
    | Ph_Closing => (exists i, os = [Te_opened i ok]) /\ tr_open_completion t = None /\
                    wr `prefix_of` acc /\ (tr_write_active t = true -> tr_tx_queue t <> [])
    | Ph_Closed => story os /\ tr_open_completion t = None /\ wr `prefix_of` acc
    end
}.

(** A step during which [n] writes completed. *)
Definition keeps (n : nat) (t t' : Transport) (w : list tevent) : Prop :=
  (length (written w) + Nat.b2n (tr_write_active t) = Nat.b2n (tr_write_active t') + n)%nat /\
  forall os wr acc, sound t os wr acc -> sound t' (os ++ outcomes w) (wr ++ written w) (acc ++ queued w).

Lemma outcomes_app w1 w2 : outcomes (w1 ++ w2) = outcomes w1 ++ outcomes w2.
Proof. apply List.filter_app. Qed.
Lemma written_app w1 w2 : written (w1 ++ w2) = written w1 ++ written w2.
Proof. apply omap_app. Qed.
Lemma queued_app w1 w2 : queued (w1 ++ w2) = queued w1 ++ queued w2.
Proof. apply omap_app. Qed.

Lemma keeps_trans n m s1 s2 s3 w1 w2 : keeps n s1 s2 w1 -> keeps m s2 s3 w2 -> keeps (n + m) s1 s3 (w1 ++ w2).
Proof.
  intros [A1 H1] [A2 H2]. split; [rewrite written_app, length_app; lia|].
  intros os wr acc Hs. rewrite outcomes_app, written_app, queued_app, !app_assoc. by apply H2, H1.
Qed.
#[export] Instance composable_keeps : Composable (keeps 0).
Proof.
  split; [|intros *; by apply (keeps_trans 0 0)].
  intros s. split; [cbn; lia|]. intros os wr acc Hs. by rewrite !app_nil_r.
Qed.
Lemma keeps_same t t' w : tr_write_active t' = tr_write_active t -> tr_phase t' = tr_phase t ->
  tr_tx_queue t' = tr_tx_queue t -> tr_open_completion t' = tr_open_completion t ->
  tr_user_close t' = tr_user_close t ->
  outcomes w = [] -> written w = [] -> queued w = [] -> keeps 0 t t' w.
Proof.
  intros Ha Hp Hq Ho Hu Hw1 Hw2 Hw3. unfold keeps. rewrite Hw1, Hw2, Hw3, Ha. split; [cbn; lia|].
  intros os wr acc [H1 H2 H3 H4]. rewrite !app_nil_r. unfold unwritten in *.
  split; unfold queue_size, unwritten; by rewrite ?Hp, ?Hq, ?Ho, ?Ha, ?Hu.
Qed.

Definition quiet (_ : nat) (_ : Status) : M Transport tevent unit := ret tt.

(** What [finish] does when the completions do not call back. *)
Definition sent_errors (q : list Outgoing) (r : Status) : list tevent :=
  omap (fun item => (fun i => Te_sent i r) <$> og_completion item) q.
Definition end_events (t : Transport) (e : Error) : list tevent :=
  match tr_open_completion t with
  | Some i => [Te_opened i (Err e)]
  | None => if was_open t then match tr_close_handler t with Some h => [Te_closed h e] | None => [] end else []
  end.
Definition ended (t : Transport) : Transport :=
  mkTransport Ph_Closed (tr_user_close t) [] (tr_write_active t) None (tr_receive_handler t)
    (match tr_open_completion t with
     | Some _ => tr_close_handler t
     | None => if was_open t then None else tr_close_handler t
     end).

Lemma notify_quiet c r t : notify quiet c r t = (Ret tt, t, option_list ((fun i => Te_sent i r) <$> c)).
Proof. by destruct c. Qed.
Lemma notify_all_quiet q r t :
  forM q (fun item => notify quiet (og_completion item) r) t = (Ret tt, t, sent_errors q r).
Proof.
  induction q as [|[f c] q IH]; [done|]. cbn [forM].
  rewrite (run_bind _ _ _ tt t _ _ _ _ (notify_quiet _ _ _) IH). by destruct c.
Qed.
Lemma finish_quiet e t : finish quiet e t =
  if bool_decide (tr_phase t = Ph_Closed) then (Ret tt, t, [])
  else (Ret tt, ended t, Te_shutdown_socket :: sent_errors (tr_tx_queue t) (Err e) ++ end_events t e).
Proof.
  unfold finish. rewrite run_get. case_bool_decide; [done|]. rewrite run_modify.
  unfold bind at 1. cbn [emit]. rewrite run_modify.
  erewrite run_bind; [|apply notify_all_quiet|].
  2: { unfold report_end. rewrite run_get. cbn. instantiate (1 := end_events t e).
       instantiate (1 := ended t). unfold end_events, ended.
       destruct t as [ph uc q wa oc rh ch]; cbn. destruct oc; [done|].
       destruct (was_open _); [|done]. by destruct ch. }
  done.
Qed.
Lemma sent_errors_silent q r : written (sent_errors q r) = [] /\ queued (sent_errors q r) = [] /\
  outcomes (sent_errors q r) = [].
Proof. induction q as [|[f [i|]] q IH]; [done|exact IH..]. Qed.

Lemma end_story t e os wr acc : sound t os wr acc -> tr_phase t <> Ph_Closed ->
  story (os ++ end_events t e) /\ wr `prefix_of` acc.
Proof.
  intros [_ _ _ Hp] Hc. unfold end_events, was_open in *.
  destruct (tr_phase t) eqn:Ep; try congruence; repeat case_bool_decide; try congruence; cbn [orb].
  - destruct Hp as (->&->&->&_&_&_&->). split; [constructor|done].
  - destruct Hp as (->&->&->&_&_&_&Ho). destruct (tr_open_completion t); [|done]. split; [constructor|done].
  - destruct Hp as (->&->&->&_&_&_&Ho). destruct (tr_open_completion t); [|done]. split; [constructor|done].
  - destruct Hp as (->&->&->&_&_&_&Ho). destruct (tr_open_completion t); [|done]. split; [constructor|done].
  - destruct Hp as (->&->&->&_&_&_&Ho). destruct (tr_open_completion t); [|done]. split; [constructor|done].
  - destruct Hp as ([i ->]&->&_&->&_). split; [destruct (tr_close_handler t); constructor|by apply prefix_app_r].
  - destruct Hp as ([i ->]&->&?&_). split; [destruct (tr_close_handler t); constructor|done].
Qed.

(** The end of a transport that differs from [t] in flags and queue only. *)
Lemma ended_keeps n t t1 q e : tr_phase t <> Ph_Closed -> end_events t1 e = end_events t e ->
  Nat.b2n (tr_write_active t) = (Nat.b2n (tr_write_active t1) + n)%nat ->
  keeps n t (ended t1) (Te_shutdown_socket :: sent_errors q (Err e) ++ end_events t1 e).
Proof.
  intros Hc He Ha. rewrite He.
  destruct (sent_errors_silent q (Err e)) as (Hw&Hq&Ho).
  assert (Hs : written (Te_shutdown_socket :: sent_errors q (Err e) ++ end_events t e) = [] /\
    queued (Te_shutdown_socket :: sent_errors q (Err e) ++ end_events t e) = [] /\
    outcomes (Te_shutdown_socket :: sent_errors q (Err e) ++ end_events t e) = end_events t e).
  { change (Te_shutdown_socket :: ?x) with ([Te_shutdown_socket] ++ x).
    rewrite !written_app, !queued_app, !outcomes_app, Hw, Hq, Ho. unfold end_events.
    destruct (tr_open_completion t); [done|]. destruct (was_open t); [|done]. by destruct (tr_close_handler t). }
  destruct Hs as (Hs1&Hs2&Hs3). unfold keeps. rewrite Hs1, Hs2, Hs3. split; [exact Ha|].
  intros os wr acc Hso. rewrite !app_nil_r. destruct (end_story _ e _ _ _ Hso Hc).
  split; cbn; [constructor|apply Hso|unfold queue_size; cbn; unfold kMaxTxQueue; lia|]. by split.
Qed.

Lemma finish_keeps e : respects (keeps 0) (finish quiet e).
Proof.
  intros t r t' w. rewrite finish_quiet. case_bool_decide as Hc; intros [= <- <- <-]; [apply composable_keeps|].
  by apply ended_keeps.
Qed.

(** Marking the owner's close and then ending the attempt. *)
Lemma keeps_silent n t t' w0 w : outcomes w0 = [] -> written w0 = [] -> queued w0 = [] ->
  keeps n t t' w -> keeps n t t' (w0 ++ w).
Proof. intros H1 H2 H3. unfold keeps. by rewrite outcomes_app, written_app, queued_app, H1, H2, H3. Qed.
Lemma user_finish_keeps e t r t' w : tr_phase t <> Ph_Closed ->
  (emit Te_cancel_resolve_timer ;;; emit Te_cancel_resolver ;;; finish quiet e) (set_tr_user_close true t) =
  (r, t', w) -> keeps 0 t t' w.
Proof.
  intros Hc. unfold bind. cbn [emit]. rewrite finish_quiet. cbn [tr_phase set_tr_user_close].
  rewrite bool_decide_false by done. intros [= <- <- <-].
  apply (keeps_silent _ _ _ [Te_cancel_resolve_timer; Te_cancel_resolver]); [done..|].
  by apply ended_keeps.
Qed.

Section Order.
Context (ip_literal : string -> bool) (endpoint : Endpoint) (policy : EndpointIdentityPolicy)
  (options : WssOptions).
Context (on_receive : string -> M Transport tevent unit).
(** The receive handler may send and close. *)
Context (receive_keeps : forall f, respects (keeps 0) (on_receive f)).
Abbreviation run_tcall := (run_tcall ip_literal endpoint policy options quiet on_receive).

Ltac silent_step := intros [= <- <- <-]; by apply keeps_same.

Lemma cancel_keeps : respects (keeps 0) (cancel quiet).
Proof.
  unfold cancel. intros t r t' w. rewrite run_get. case_match; [silent_step|].
  rewrite run_modify. apply user_finish_keeps. intros Hc. by rewrite Hc in *.
Qed.

Lemma close_keeps code reason : respects (keeps 0) (close quiet code reason).
Proof.
  unfold close. intros t r t' w. rewrite run_get. case_match; [silent_step|]. rewrite run_modify.
  destruct (is_open t) eqn:Eo; cbn [negb].
  - apply bool_decide_eq_true in Eo. intros [= <- <- <-]. split; [cbn; lia|].
    intros os wr acc [H1 H2 H3 H4]. rewrite !app_nil_r. split; [done..|]. cbn. rewrite Eo in H4.
    destruct H4 as (?&?&_&->&Ha). split; [done|]. split; [done|]. split; [by apply prefix_app_r|apply Ha].
  - apply user_finish_keeps. intros Hc. by rewrite Hc in *.
Qed.

Lemma sent_keeps c r : respects (keeps 0) (notify quiet c r).
Proof. intros t x t' w. rewrite notify_quiet. intros [= <- <- <-]. by apply keeps_same; destruct c. Qed.

Lemma async_send_keeps frame completion : respects (keeps 0) (async_send quiet frame completion).
Proof.
  unfold async_send. intros t r t' w. rewrite run_get.
  destruct (is_open t) eqn:Eo; cbn [negb]; [|apply sent_keeps]. apply bool_decide_eq_true in Eo.
  destruct (Z.ltb_spec kMaxTxFrameSize (frame_size frame)) as [|Hs]; [apply sent_keeps|].
  destruct (Z.leb_spec kMaxTxQueue (queue_size t)) as [|Hr]; [apply sent_keeps|].
  rewrite run_modify. unfold bind at 1. cbn [emit]. rewrite run_get. cbn.
  set (item := mkOutgoing frame completion).
  assert (Hq : Forall (fun i => small (og_frame i)) (tr_tx_queue t) ->
    Forall (fun i => small (og_frame i)) (tr_tx_queue t ++ [item])).
  { intros H. apply Forall_app. by repeat constructor. }
  assert (Hl : queue_size (set_tr_tx_queue (tr_tx_queue t ++ [item]) t) <= kMaxTxQueue).
  { unfold queue_size in *. cbn. rewrite length_app. cbn. lia. }
  destruct (tr_write_active t) eqn:Ea; cbn [negb when].
  - intros [= <- <- <-]. split; [cbn; rewrite Ea; cbn; lia|].
    intros os wr acc [H1 H2 H3 H4]. rewrite Eo in H4. destruct H4 as (?&?&?&->&Hi). cbn. rewrite !app_nil_r.
    split; cbn; [by apply Hq|done|done|]. rewrite Eo. split; [done|]. split; [done|]. split; [done|]. split.
    + rewrite <- app_assoc. f_equal. unfold unwritten. cbn. rewrite Ea.
      destruct (tr_tx_queue t); [by destruct (proj1 Hi Ea)|]. cbn. by rewrite map_app.
    + rewrite Ea. split; [by destruct (tr_tx_queue t)|done].
  - unfold begin_write. rewrite run_modify, run_get. cbn. destruct (tr_tx_queue t) as [|i0 q] eqn:Et; cycle 1.
    { intros [= <- <- <-]. split; [cbn; rewrite Ea; cbn; lia|]. intros os wr acc [H1 H2 H3 H4].
      rewrite Eo in H4. destruct H4 as (_&_&_&_&Hi). rewrite Et, Ea in Hi. assert (false = true) by (by apply Hi). done. }
    intros [= <- <- <-]. split; [cbn; rewrite Ea; cbn; lia|].
    intros os wr acc [H1 H2 H3 H4]. rewrite Eo in H4. destruct H4 as (?&?&?&->&Hi). cbn. rewrite !app_nil_r.
    split; cbn; [by repeat constructor|apply Forall_app; by repeat constructor|unfold queue_size, kMaxTxQueue; cbn; lia|].
    rewrite Eo. split; [done|]. split; [done|]. split; [done|]. split; [|done].
    unfold unwritten. cbn. by rewrite Ea, Et, !app_nil_r.
Qed.

(** The failed write's frame is dropped; the rest of the queue stays. *)
Definition after_failure (t : Transport) : Transport :=
  set_tr_tx_queue (tail (tr_tx_queue t)) (set_tr_write_active false t).
Lemma on_write_failed e t : exists w0, outcomes w0 = [] /\ written w0 = [] /\ queued w0 = [] /\
  on_write quiet (Some e) t =
  (emits w0 ;;; if tr_user_close t then ret tt else
   finish quiet (set_retryable true
     (make_error Dom_Disconnected TransportClosed ("write failed: " +:+ ec_message e)))) (after_failure t).
Proof.
  set (r := (Err (make_error Dom_Disconnected TransportClosed ("write failed: " +:+ ec_message e)) : Status)).
  exists (match tr_tx_queue t with item :: _ => sent_errors [item] r | [] => [] end).
  split; [by destruct (tr_tx_queue t) as [|[? []] ?]|]. split; [by destruct (tr_tx_queue t) as [|[? []] ?]|].
  split; [by destruct (tr_tx_queue t) as [|[? []] ?]|].
  destruct t as [ph [] [|[f [c|]] q] wa oc rh ch]; try done;
    unfold on_write, bind, after_failure, set_tr_tx_queue, set_tr_write_active, modify, get, when; cbn -[finish];
    match goal with |- context [finish quiet ?e ?t] => destruct (finish quiet e t) as [[? ?] ?] end; done.
Qed.

Lemma on_write_failed_keeps e t r t' w : tr_write_active t = true ->
  on_write quiet (Some e) t = (r, t', w) -> keeps 1 t t' w.
Proof.
  intros Ha. destruct (on_write_failed e t) as (w0&Ho&Hw&Hq& ->).
  destruct (tr_user_close t) eqn:Eu.
  - intros [= <- <- <-]. apply keeps_silent; [done..|]. split; [cbn; by rewrite Ha|].
    intros os wr acc [H1 H2 H3 H4]. rewrite !app_nil_r. split; cbn; [by destruct H1|done| |].
    + unfold queue_size in *. cbn. destruct (tr_tx_queue t); cbn in *; lia.
    + rewrite Eu in H4. destruct (tr_phase t); destruct_and? H4; try done.
  - unfold bind, emits. rewrite finish_quiet. case_bool_decide as Hc; intros [= <- <- <-].
    + apply keeps_silent; [done..|]. split; [cbn; by rewrite Ha|]. cbn in Hc.
      intros os wr acc [H1 H2 H3 H4]. rewrite !app_nil_r. split; cbn; [by destruct H1|done| |].
      * unfold queue_size in *. cbn. destruct (tr_tx_queue t); cbn in *; lia.
      * by rewrite Hc in *.
    + apply keeps_silent; [done..|]. apply ended_keeps; [done|done|]. cbn. by rewrite Ha.
Qed.

Lemma on_write_done_keeps t t' w : tr_write_active t = true ->
  on_write quiet None t = (Ret tt, t', w) -> keeps 1 t t' w.
Proof.
  intros Ha. unfold on_write. rewrite run_modify, run_get. cbn [tr_tx_queue set_tr_write_active].
  destruct (tr_tx_queue t) as [|[f c] q] eqn:Eq; [done|]. rewrite run_modify.
  cbn [og_completion]. unfold bind at 1. rewrite notify_quiet, run_get.
  assert (Hs : forall x : option tevent, outcomes (option_list ((fun i => Te_sent i ok) <$> c)) = [] /\
    written (option_list ((fun i => Te_sent i ok) <$> c)) = [] /\
    queued (option_list ((fun i => Te_sent i ok) <$> c)) = []) by by destruct c.
  destruct (Hs None) as (Ho&Hw&Hq). set (w0 := option_list _) in *. cbn.
  destruct (negb (length q =? 0)%nat && is_open _) eqn:E; cbn [when].
  - apply andb_true_iff in E as [E1 E2]. apply bool_decide_eq_true in E2. cbn in E2.
    destruct q as [|[f2 c2] q]; [done|]. intros [= <- <-]. apply keeps_silent; [done..|].
    split; [cbn; by rewrite Ha|]. intros os wr acc [H1 H2 H3 H4]. rewrite E2 in H4.
    destruct H4 as (?&?&?&->&Hi). rewrite Eq in *. apply list.Forall_cons in H1 as [? H1].
    split; cbn; [done|apply Forall_app; split; [done|] | |].
    + apply list.Forall_cons in H1 as [? _]. by repeat constructor.
    + unfold queue_size in *. cbn. rewrite Eq in H3. cbn in *. lia.
    + rewrite E2. rewrite !app_nil_r. split; [done|]. split; [done|]. split; [done|]. split; [|done].
      unfold unwritten. cbn. rewrite Ha, Eq. cbn. by rewrite <- app_assoc.
  - intros [= <- <-]. apply (keeps_silent _ _ _ _ []); [done..|].
    split; [cbn; by rewrite Ha|]. intros os wr acc [H1 H2 H3 H4]. rewrite !app_nil_r. rewrite Eq in H1.
    apply list.Forall_cons in H1 as [? H1]. split; cbn; [done|done| |].
    + unfold queue_size in *. cbn. rewrite Eq in H3. cbn in *. lia.
    + rewrite Ha, Eq in *. destruct (tr_phase t) eqn:Ep; try (exfalso; by destruct H4 as (_&_&_&?&_)); [|..|done];
        [|by destruct H4 as (?&?&?&_)].
      destruct H4 as (?&?&?&->&Hi). split; [done|]. split; [done|]. split; [done|].
      unfold is_open in E. cbn in E. rewrite Ep in E. rewrite bool_decide_true, andb_true_r in E by done.
      destruct q; [|done]. split; [|done]. unfold unwritten. cbn. by rewrite Ha, Eq.
Qed.

(** A successful stage of the connection setup, on time. *)
Lemma stage_keeps f t t' w next : (tr_phase t = Ph_Resolving /\ next = Ph_Connecting \/
    tr_phase t = Ph_Connecting /\ next = Ph_TlsHandshake \/ tr_phase t = Ph_TlsHandshake /\ next = Ph_WsHandshake) ->
  outcomes f = [] -> written f = [] -> queued f = [] ->
  t' = set_tr_phase next t -> w = f -> keeps 0 t t' w.
Proof.
  intros Hn Ho Hw Hq -> ->. unfold keeps. rewrite Ho, Hw, Hq. split; [cbn; lia|].
  intros os wr acc [H1 H2 H3 H4]. rewrite !app_nil_r.
  split; [done..|]. cbn. destruct Hn as [[Hp ->]|[[Hp ->]|[Hp ->]]]; by rewrite Hp in H4.
Qed.

Lemma opened_keeps t t' w : tr_phase t = Ph_WsHandshake ->
  on_ws_handshake quiet None t = (Ret tt, t', w) -> keeps 0 t t' w.
Proof.
  intros Hp. unfold on_ws_handshake. rewrite run_modify, run_get. cbn.
  destruct (tr_open_completion t) as [i|] eqn:Eo; intros [= <- <-].
  - split; [cbn; lia|]. intros os wr acc [H1 H2 H3 H4]. rewrite Hp in H4.
    destruct H4 as (->&->&->&Hq&Ha&Hu&_). split; [done..|]. cbn. split; [by exists i|]. split; [done|].
    split; [done|]. unfold unwritten. cbn. rewrite Hq, Ha. by split.
  - split; [cbn; lia|]. intros os wr acc [H1 H2 H3 H4]. rewrite Hp in H4.
    by destruct H4 as (_&_&_&_&_&_&[]).
Qed.

Definition write_done (c : tcall) : bool := match c with Tc_on_write _ => true | _ => false end.

Lemma run_tcall_keeps c t t' w : timely t c -> run_tcall c t = (Ret tt, t', w) ->
  keeps (Nat.b2n (write_done c)) t t' w.
Proof.
  intros Hm. destruct c as [co| |f co|code reason|b|h|ec|ec|ec|ec|ec|ec b f|ec|]; cbn [Transport.run_tcall write_done Nat.b2n].
  - destruct Hm as [Hi Hc]. unfold async_open. rewrite run_get, bool_decide_true by done.
    intros [= <- <-]. split; [cbn; lia|]. intros os wr acc [H1 H2 H3 H4]. rewrite Hi in H4.
    destruct H4 as (->&->&->&?&?&?&_). by split.
  - apply cancel_keeps.
  - apply async_send_keeps.
  - apply close_keeps.
  - intros [= <- <-]. by apply keeps_same.
  - intros [= <- <-]. by apply keeps_same.
  - destruct ec; intros [= <- <-]; by apply keeps_same.
  - destruct ec as [e|].
    + intros E. refine ((_ : respects (keeps 0) _) _ _ _ _ E). unfold on_resolve.
      respects_step; [|apply finish_keeps]. apply respects_emit. intros. by apply keeps_same.
    + intros [= <- <-]. by eapply (stage_keeps _ _ _ _ Ph_Connecting); [by left|..|reflexivity|reflexivity].
  - destruct ec as [e|]; [apply finish_keeps|].
    intros [= <- <-]. by eapply (stage_keeps _ _ _ _ Ph_TlsHandshake); [by right; left|..|reflexivity|reflexivity].
  - destruct ec as [e|]; [apply finish_keeps|].
    intros [= <- <-]. by eapply (stage_keeps _ _ _ _ Ph_WsHandshake); [by right; right|..|reflexivity|reflexivity].
  - destruct ec as [e|]; [apply finish_keeps|]. by apply opened_keeps.
  - intros E. refine ((_ : respects (keeps 0) _) _ _ _ _ E). unfold on_read, read_frame. destruct ec as [e|].
    + destruct (ec_closed e); [apply finish_keeps|]. repeat respects_step. apply finish_keeps.
    + repeat respects_step; auto; by apply keeps_same.
  - destruct ec as [e|]; [by apply on_write_failed_keeps|by apply on_write_done_keeps].
  - apply finish_keeps.
Qed.

Lemma life_sound cs t w : tlife ip_literal endpoint policy options quiet on_receive timely cs t w ->
  sound t (outcomes w) (written w) (queued w) /\
  length (written w) = (length (List.filter write_done cs) + Nat.b2n (tr_write_active t))%nat.
Proof.
  induction 1 as [|cs t w c t' w' _ [Hs Hn] Hm E]; [split; [by split|done]|].
  destruct (run_tcall_keeps _ _ _ _ Hm E) as [Hk Hi].
  rewrite outcomes_app, written_app, queued_app. split; [by apply Hi|].
  rewrite List.filter_app, !length_app. cbn [List.filter]. destruct (write_done c); cbn in *; lia.
Qed.


(** C20: when every completion arrives on time, the owner of an attempt hears nothing,
    or its failure, or its success and then at most the end of the connection —
    never an end without a success, never a second outcome; and [finish] on an
    open or closing connection calls the close handler that is set. *)
Theorem one_outcome cs t w : tlife ip_literal endpoint policy options quiet on_receive timely cs t w ->
  story (outcomes w) /\
  (forall h e, was_open t = true -> tr_close_handler t = Some h ->
   exists t' w', finish quiet e t = (Ret tt, t', w') /\ tr_phase t' = Ph_Closed /\
                 outcomes (w ++ w') = outcomes w ++ [Te_closed h e]).
Proof.
  intros [[_ _ _ H4] _]%life_sound. split.
  - destruct (tr_phase t); destruct_and? H4; try (match goal with H : outcomes _ = [] |- _ => rewrite H end;
      constructor); try done; destruct_and?; by match goal with H : exists _, _ |- _ => destruct H as [? ->]; constructor end.
  - intros h e Hw Hh. rewrite finish_quiet. rewrite bool_decide_false.
    2: { intros Hc. unfold was_open in Hw. by rewrite Hc in Hw. }
    do 2 eexists. split; [done|]. split; [done|].
    assert (tr_open_completion t = None) as Ho.
    { unfold was_open in Hw. destruct (tr_phase t); try done; tauto. }
    unfold end_events. rewrite Ho, Hw, Hh.
    change (Te_shutdown_socket :: ?x) with ([Te_shutdown_socket] ++ x).
    rewrite !outcomes_app. by destruct (sent_errors_silent (tr_tx_queue t) (Err e)) as (_&_& ->).
Qed.
End Order.

(** ** Completions that were already on their way *)

Section Races.
Context (ip_literal : string -> bool) (endpoint : Endpoint) (policy : EndpointIdentityPolicy)
  (options : WssOptions) (on_receive : string -> M Transport tevent unit).

(** cancelling an attempt does not end it when the name was already resolved:
    the owner is told of the cancellation, but the completion that was on its way
    continues the setup and leaves a connection that is open, being read, and
    known to no one. *)
Theorem cancelled_attempt_reopens t i : tr_phase t = Ph_Resolving -> tr_open_completion t = Some i ->
  exists t' w,
    forM [Tc_cancel; Tc_on_resolve None; Tc_on_connect None; Tc_on_tls_handshake None; Tc_on_ws_handshake None]
      (run_tcall ip_literal endpoint policy options quiet on_receive) t = (Ret tt, t', w) /\
    outcomes w = [Te_opened i (Err (cancelled_error "connect"))] /\ is_open t' = true /\ Te_read ∈ w.
Proof.
  destruct t as [ph uc q wa oc rh ch]. cbn [tr_phase tr_open_completion]. intros -> ->.
  set (t := mkTransport _ _ _ _ _ _ _). set (t1 := set_tr_user_close true t).
  assert (Hc : cancel quiet t = (Ret tt, ended t1, [Te_cancel_resolve_timer; Te_cancel_resolver;
    Te_shutdown_socket] ++ sent_errors q (Err (cancelled_error "connect")) ++
    [Te_opened i (Err (cancelled_error "connect"))])).
  { transitivity ((emit Te_cancel_resolve_timer ;;; emit Te_cancel_resolver ;;;
      finish quiet (cancelled_error "connect")) t1);
      [unfold cancel; rewrite run_get, !bool_decide_false by done; cbn [orb]; by rewrite run_modify|].
    unfold bind. cbn [emit]. by rewrite finish_quiet. }
  do 2 eexists. split; [|split; [|split]].
  - cbn [forM Transport.run_tcall]. eapply run_bind; [exact Hc|]. reflexivity.
  - rewrite !outcomes_app. destruct (sent_errors_silent q (Err (cancelled_error "connect"))) as (_&_& ->).
    reflexivity.
  - reflexivity.
  - set_solver.
Qed.

(** when the connection ends while a frame is being written, the completion of
    that write, if it had succeeded, reads the front of the emptied queue. *)
Theorem late_write_traps t e : tr_write_active t = true -> tr_phase t <> Ph_Closed ->
  exists t' w, finish quiet e t = (Ret tt, t', w) /\ may_arrive t' (Tc_on_write None) /\
    (on_write quiet None t').1.1 = Throw (Exn_ub "front of an empty queue").
Proof.
  intros Ha Hc. rewrite finish_quiet, bool_decide_false by done.
  do 2 eexists. split; [done|]. split; [|done]. unfold may_arrive. cbn. exact Ha.
Qed.

(** A completion that sends the next frame when its own has left. *)
Definition resend (next : string) (_ : nat) (r : Status) : M Transport tevent unit :=
  match r with Ok _ => async_send quiet next None | Err _ => ret tt end.

(** a send completion that itself sends starts the next write, and [on_write]
    starts it again: the same frame is written twice, by overlapping writes. *)
Theorem resend_writes_twice t f i next : tr_phase t = Ph_Open -> tr_write_active t = true ->
  tr_tx_queue t = [mkOutgoing f (Some i)] -> small next ->
  exists t' w, on_write (resend next) None t = (Ret tt, t', w) /\ written w = [next; next].
Proof.
  destruct t as [ph uc q wa oc rh ch]. cbn. intros -> -> -> Hs. unfold on_write.
  unfold small in Hs. do 2 eexists. split.
  - unfold resend, async_send, bind. cbn -[Z.ltb].
    rewrite (proj2 (Z.ltb_ge _ _) Hs). reflexivity.
  - reflexivity.
Qed.
End Races.

(** ** Witnesses *)

Definition example_endpoint : Endpoint := default_endpoint "192.168.1.51".
Definition example_options : WssOptions := mkWssOptions (sec 10) (sec 60) "fountainer/0.2".
Definition deaf (_ : string) : M Transport tevent unit := ret tt.
Abbreviation example_run := (run_tcall (fun _ => true) example_endpoint VerifyCertificateChainOnly example_options quiet deaf).
Abbreviation example_life := (tlife (fun _ => true) example_endpoint VerifyCertificateChainOnly example_options quiet deaf).
Definition reset_by_peer : error_code := mkEc "connection reset" false false false false.

Fixpoint admissible (P : Transport -> tcall -> Prop) (cs : list tcall) (t : Transport) : Prop :=
  match cs with
  | [] => True
  | c :: r => P t c /\ match example_run c t with (Ret _, t', _) => admissible P r t' | _ => False end
  end.
Lemma admissible_life P cs : admissible P cs new_transport ->
  exists t w, forM cs example_run new_transport = (Ret tt, t, w) /\ example_life P cs t w.
Proof.
  enough (forall cs0 t0 w0, example_life P cs0 t0 w0 -> admissible P cs t0 ->
    exists t w, forM cs example_run t0 = (Ret tt, t, w) /\ example_life P (cs0 ++ cs) t (w0 ++ w)) as H.
  { intros Ha. by apply (H [] new_transport []); [constructor|]. }
  induction cs as [|c cs IH]; intros cs0 t0 w0 Hl; cbn [admissible forM].
  - intros _. exists t0, []. by rewrite !app_nil_r.
  - intros [Hp H]. destruct (example_run c t0) as [[[[]|e] t1] w1] eqn:E; [|done].
    destruct (IH (cs0 ++ [c]) t1 (w0 ++ w1)) as (t&w&Hr&Hl'); [by eapply tl_call|done|].
    exists t, (w1 ++ w). split; [by eapply run_bind|]. by rewrite <- !app_assoc in Hl'.
Qed.

(** A connection that sends two frames and is then reset. *)
Definition example_calls : list tcall :=
  [Tc_open (Some 7%nat); Tc_on_resolve None; Tc_on_connect None; Tc_on_tls_handshake None;
   Tc_on_ws_handshake None; Tc_set_receive true; Tc_set_close (Some 1%nat);
   Tc_send "one" (Some 3%nat); Tc_send "two" (Some 4%nat); Tc_on_write None; Tc_on_read None true "frame";
   Tc_on_read (Some reset_by_peer) false EmptyString].

Lemma completions_answered_once_witness :
  let w := (forM example_calls example_run new_transport).2 in
  tlife (fun _ => true) example_endpoint VerifyCertificateChainOnly example_options quiet deaf may_arrive
    example_calls (forM example_calls example_run new_transport).1.2 w /\ answered w ≡ₚ [3; 4]%nat.
Proof.
  destruct (admissible_life may_arrive example_calls) as (t&w&Hr&Hl); [vm_compute; intuition congruence|].
  cbv zeta. rewrite Hr. split; [exact Hl|].
  destruct (completions_answered_once (fun _ => true) example_endpoint VerifyCertificateChainOnly example_options
    quiet deaf (fun _ _ => yields_ret fair tt) (fun _ => yields_ret fair tt) example_calls t w Hl) as (HA&_&_).
  enough (held t = []) as Hh by by rewrite <- HA, Hh, app_nil_r.
  revert Hr. vm_compute. by intros [= <- <-].
Defined.


Lemma one_outcome_witness :
  let w := (forM example_calls example_run new_transport).2 in
  tlife (fun _ => true) example_endpoint VerifyCertificateChainOnly example_options quiet deaf timely
    example_calls (forM example_calls example_run new_transport).1.2 w /\
  story (outcomes w) /\ length (outcomes w) = 2%nat.
Proof.
  destruct (admissible_life timely example_calls) as (t&w&Hr&Hl); [vm_compute; intuition congruence|].
  cbv zeta. rewrite Hr. split; [exact Hl|]. split.
  - exact (proj1 (one_outcome (fun _ => true) example_endpoint VerifyCertificateChainOnly example_options
      deaf (fun _ => respects_ret (keeps 0) tt) example_calls t w Hl)).
  - revert Hr. vm_compute. by intros [= <- <-].
Defined.

Definition resolving : Transport := mkTransport Ph_Resolving false [] false (Some 7%nat) false None.
Lemma cancelled_attempt_reopens_witness :
  tr_phase resolving = Ph_Resolving /\
  exists t' w,
    forM [Tc_cancel; Tc_on_resolve None; Tc_on_connect None; Tc_on_tls_handshake None; Tc_on_ws_handshake None]
      example_run resolving = (Ret tt, t', w) /\
    outcomes w = [Te_opened 7 (Err (cancelled_error "connect"))] /\ is_open t' = true /\ Te_read ∈ w.
Proof.
  split; [reflexivity|].
  exact (cancelled_attempt_reopens (fun _ => true) example_endpoint VerifyCertificateChainOnly example_options
    deaf resolving 7 eq_refl eq_refl).
Defined.

Definition writing : Transport :=
  mkTransport Ph_Open false [mkOutgoing "one" (Some 3%nat)] true None true (Some 1%nat).
Lemma late_write_traps_witness :
  tr_write_active writing = true /\
  exists t' w, finish quiet (internal_error "reset") writing = (Ret tt, t', w) /\
    may_arrive t' (Tc_on_write None) /\
    (on_write quiet None t').1.1 = Throw (Exn_ub "front of an empty queue").
Proof.
  split; [reflexivity|]. apply (late_write_traps writing (internal_error "reset")); [reflexivity|discriminate].
Defined.

Lemma resend_writes_twice_witness :
  tr_tx_queue writing = [mkOutgoing "one" (Some 3%nat)] /\
  exists t' w, on_write (resend "two") None writing = (Ret tt, t', w) /\ written w = ["two"; "two"].
Proof.
  split; [reflexivity|].
  apply (resend_writes_twice writing "one" 3 "two"); [reflexivity..|vm_compute; discriminate].
Defined.
