(* ===== verification/EventBus.v ===== *)
(** * The event bus ([events.hpp], [events.cpp])

    Seven lists of handlers, the tokens that unsubscribe them, and delivery over a
    copy of the list.  Handlers are numbers; what a handler does when it is called
    is a parameter, so that it may subscribe, unsubscribe and publish in turn.  The
    tokens live in variables of the application, which it can move from, assign to
    and destroy.  The mutex is not modelled: an operation is atomic. *)
From S2P Require Import Prelude StdMap Errors Float Json Events.
Local Open Scope Z_scope.

Record ConnectionStateChange := mkStateChange {
  sc_previous : ClientState;
  sc_current : ClientState;
  sc_info : option ConnectionInfo;
  sc_cause : option Error
}.

Definition client_state_to_string (s : ClientState) : string :=
  match s with
  | CS_Disconnected => "disconnected"
  | CS_Resolving => "resolving"
  | CS_TcpConnecting => "tcp_connecting"
  | CS_TlsHandshaking => "tls_handshaking"
  | CS_WebSocketHandshaking => "websocket_handshaking"
  | CS_FountainHandshaking => "fountain_handshaking"
  | CS_Ready => "ready"
  | CS_Reconnecting => "reconnecting"
  | CS_Closing => "closing"
  end.

Inductive channel :=
| Ch_connection_state | Ch_heartbeat | Ch_device_alert | Ch_ota_status | Ch_error_report
| Ch_protocol_warning | Ch_unknown.
#[export] Instance channel_eq_dec : EqDecision channel.
Proof. solve_decision. Defined.

Inductive bus_event :=
| B_state (c : ConnectionStateChange)
| B_heartbeat (hb : Heartbeat)
| B_device_alert (a : DeviceAlert)
| B_ota_status (s : OtaStatus)
| B_error_report (r : ErrorReport)
| B_warning (w : ProtocolWarning)
| B_unknown (type : string) (message : json).
Definition channel_of (e : bus_event) : channel :=
  match e with
  | B_state _ => Ch_connection_state
  | B_heartbeat _ => Ch_heartbeat
  | B_device_alert _ => Ch_device_alert
  | B_ota_status _ => Ch_ota_status
  | B_error_report _ => Ch_error_report
  | B_warning _ => Ch_protocol_warning
  | B_unknown _ _ => Ch_unknown
  end.

(** ** Slot lists *)

(** [std::map<uint64_t, Handler>]: ascending tokens. *)
Record SlotList := mkSlots { sl_slots : list (Z * nat); sl_next_token : Z }.
Definition empty_slots : SlotList := mkSlots [] 0.

Fixpoint emplace (token : Z) (h : nat) (slots : list (Z * nat)) : list (Z * nat) :=
  match slots with
  | [] => [(token, h)]
  | (k, x) :: r =>
      if token <? k then (token, h) :: slots
      else if token =? k then slots
      else (k, x) :: emplace token h r
  end.
Definition slots_add (h : nat) (l : SlotList) : Z * SlotList :=
  let token := wrap_u 64 (sl_next_token l + 1) in
  (token, mkSlots (emplace token h (sl_slots l)) token).
Definition slots_remove (token : Z) (l : SlotList) : SlotList :=
  mkSlots (List.filter (fun s => negb (s.1 =? token)) (sl_slots l)) (sl_next_token l).

(** ** The bus and the application's tokens *)

Definition unsubscription : Type := channel * Z.
Record Bus := mkBus {
  bus_alive : bool;                        (* the shared [Impl] exists *)
  bus_slots : channel -> SlotList;
  bus_subs : list (option unsubscription)  (* [Subscription] variables; [None]: inactive *)
}.
Definition new_bus : Bus := mkBus true (fun _ => empty_slots) [].
Definition put_slots (ch : channel) (l : SlotList) (b : Bus) : Bus :=
  mkBus (bus_alive b) (fun c => if decide (c = ch) then l else bus_slots b c) (bus_subs b).
Definition set_bus_subs (v : list (option unsubscription)) (b : Bus) : Bus :=
  mkBus (bus_alive b) (bus_slots b) v.

Inductive bevent :=
| Be_attached (ch : channel) (h : nat)
| Be_call (h : nat) (e : bus_event).

Section Bus.
(** The code of the handlers. *)
Context (code : nat -> bus_event -> M Bus bevent unit).
Abbreviation BM := (M Bus bevent).

(** [attach], the result of the seven [on_...] functions: a new variable. *)
Definition attach (ch : channel) (h : nat) : BM nat :=
  let* b := get in
  if negb (bus_alive b) then throw (Exn_ub "use of a destroyed event bus") else
  let (token, slots) := slots_add h (bus_slots b ch) in
  modify (put_slots ch slots) ;;;
  emit (Be_attached ch h) ;;;
  modify (set_bus_subs (bus_subs b ++ [Some (ch, token)])) ;;;
  ret (length (bus_subs b)).

Definition bus_emit (ch : channel) (e : bus_event) : BM unit :=
  let* b := get in
  let snapshot := map snd (sl_slots (bus_slots b ch)) in
  forM snapshot (fun h => emit (Be_call h e) ;;; code h e).

Definition publish (e : bus_event) : BM unit :=
  let* b := get in
  if negb (bus_alive b) then throw (Exn_ub "use of a destroyed event bus") else
  bus_emit (channel_of e) e.

(** The function a token runs: a no-op once the bus is gone. *)
Definition unsubscribe_bus (u : unsubscription) : BM unit :=
  let* b := get in
  when (bus_alive b) (modify (put_slots u.1 (slots_remove u.2 (bus_slots b u.1)))).

Definition sub_var (i : nat) (b : Bus) : option unsubscription := default None (bus_subs b !! i).
Definition put_var (i : nat) (v : option unsubscription) (b : Bus) : Bus :=
  set_bus_subs (<[i := v]> (bus_subs b)) b.

Definition sub_reset (i : nat) : BM unit :=
  let* b := get in
  modify (put_var i None) ;;;
  match sub_var i b with
  | Some u => unsubscribe_bus u
  | None => ret tt
  end.
Definition sub_active (i : nat) (b : Bus) : bool := match sub_var i b with Some _ => true | None => false end.
(** [Subscription(Subscription&&)]: a new variable takes the token. *)
Definition sub_move (i : nat) : BM nat :=
  let* b := get in
  modify (put_var i None) ;;;
  modify (fun b' => set_bus_subs (bus_subs b' ++ [sub_var i b]) b') ;;;
  ret (length (bus_subs b)).
(** [operator=(Subscription&&)]: variable [i] takes the token of [j]. *)
Definition sub_assign (i j : nat) : BM unit :=
  if Nat.eqb i j then ret tt else
  let* b := get in
  if negb (Nat.ltb i (length (bus_subs b))) then throw (Exn_ub "no such variable") else
  sub_reset i ;;;
  let* b := get in
  modify (put_var j None) ;;;
  modify (put_var i (sub_var j b)).
(** The destructor of a variable, and of the bus. *)
Definition sub_destroy (i : nat) : BM unit := sub_reset i.
Definition bus_destroy : BM unit :=
  modify (fun b => mkBus false (fun _ => empty_slots) (bus_subs b)).

Inductive bcall :=
| Bc_subscribe (ch : channel) (h : nat)
| Bc_publish (e : bus_event)
| Bc_reset (i : nat)
| Bc_move (i : nat)
| Bc_assign (i j : nat)
| Bc_destroy (i : nat)
| Bc_destroy_bus.
Definition run_bcall (c : bcall) : BM unit :=
  match c with
  | Bc_subscribe ch h => attach ch h ;;; ret tt
  | Bc_publish e => publish e
  | Bc_reset i => sub_reset i
  | Bc_move i => sub_move i ;;; ret tt
  | Bc_assign i j => sub_assign i j
  | Bc_destroy i => sub_destroy i
  | Bc_destroy_bus => bus_destroy
  end.

(** ** Tokens own their handlers *)

Definition attaches (w : list bevent) : nat :=
  length (List.filter (fun e => match e with Be_attached _ _ => true | _ => false end) w).
Definition held_tokens (b : Bus) : list unsubscription := omap id (bus_subs b).
Definition live_tokens (b : Bus) (ch : channel) : list Z := map fst (sl_slots (bus_slots b ch)).

(** After at most [n] subscriptions: the tokens in a slot list ascend, and they are
    exactly those that one variable each holds. *)
Record owned (n : nat) (b : Bus) : Prop := {
  ow_sorted : forall ch, StronglySorted Z.lt (live_tokens b ch);
  ow_bound : forall ch, Forall (fun t => 0 < t <= sl_next_token (bus_slots b ch)) (live_tokens b ch);
  ow_next : forall ch, 0 <= sl_next_token (bus_slots b ch) <= Z.of_nat n;
  ow_once : NoDup (held_tokens b);
  ow_issued : forall ch t, (ch, t) ∈ held_tokens b -> t <= sl_next_token (bus_slots b ch);
  ow_live : forall ch t, t ∈ live_tokens b ch <-> (ch, t) ∈ held_tokens b
}.
(** Once the bus is gone nothing is registered; until then the tokens own it. *)
Definition bus_step (b b' : Bus) (w : list bevent) : Prop :=
  (bus_alive b = false -> bus_alive b' = false) /\
  forall n, Z.of_nat (n + attaches w) < 2 ^ 64 -> (bus_alive b = true -> owned n b) ->
            bus_alive b' = true -> owned (n + attaches w) b'.

Lemma attaches_app w1 w2 : attaches (w1 ++ w2) = (attaches w1 + attaches w2)%nat.
Proof. unfold attaches. by rewrite List.filter_app, length_app. Qed.

#[local] Instance composable_bus : Composable bus_step.
Proof.
  split.
  - intros b. split; [done|]. intros n _ H Ha. rewrite Nat.add_0_r. by apply H.
  - intros b1 b2 b3 w1 w2 [D1 H1] [D2 H2]. split; [auto|]. rewrite attaches_app. intros n Hn Ho Ha.
    destruct (bus_alive b2) eqn:E2; [|by rewrite D2 in Ha]. rewrite Nat.add_assoc in *.
    apply H2; [done| |done]. intros _. apply H1; [lia|done|done].
Qed.
End Bus.

(** Storing a value in a variable that exists. *)
Lemma held_insert (l : list (option unsubscription)) i v x : l !! i = Some x ->
  option_list x ++ omap id (<[i := v]> l) ≡ₚ option_list v ++ omap id l.
Proof.
  revert i. induction l as [|y l IH]; intros [|i]; cbn; try done.
  - intros [= ->]. destruct x, v; cbn; try done. by constructor.
  - intros H. specialize (IH _ H). destruct y; cbn; [|done].
    rewrite <- !Permutation_middle. by rewrite IH.
Qed.
Lemma emplace_last token h slots : Forall (fun t => t < token) (map fst slots) ->
  emplace token h slots = slots ++ [(token, h)].
Proof.
  induction slots as [|[k x] r IH]; [done|]. cbn. intros [Hk Hr]%list.Forall_cons.
  destruct (Z.ltb_spec token k); [lia|]. destruct (Z.eqb_spec token k); [lia|]. by rewrite IH.
Qed.
Lemma sorted_snoc l t : StronglySorted Z.lt l -> Forall (fun x => x < t) l -> StronglySorted Z.lt (l ++ [t]).
Proof.
  induction 1 as [|a l Hs IH Ha]; cbn; [by repeat constructor|]. intros [? ?]%list.Forall_cons.
  constructor; [by apply IH|]. apply Forall_app. by repeat constructor.
Qed.
Lemma filter_keys token slots :
  map fst (List.filter (fun s : Z * nat => negb (s.1 =? token)) slots) =
  List.filter (fun t => negb (t =? token)) (map fst slots).
Proof. induction slots as [|[k x] r IH]; cbn; [done|]. by destruct (k =? token); cbn; rewrite IH. Qed.
Lemma sorted_filter (f : Z -> bool) l : StronglySorted Z.lt l -> StronglySorted Z.lt (List.filter f l).
Proof.
  induction 1 as [|a l Hs IH Ha]; cbn; [constructor|]. destruct (f a); [|done]. constructor; [done|].
  apply Forall_elem. intros x [Hx _]%list_elem_of_In%filter_In. rewrite Forall_elem in Ha. apply Ha. by apply list_elem_of_In.
Qed.

Lemma owned_attach n b ch h : Z.of_nat (n + 1) < 2 ^ 64 -> bus_alive b = true -> owned n b ->
  let token := wrap_u 64 (sl_next_token (bus_slots b ch) + 1) in
  owned (n + 1) (set_bus_subs (bus_subs b ++ [Some (ch, token)]) (put_slots ch (slots_add h (bus_slots b ch)).2 b)).
Proof.
  intros Hn Ha [Hs Hb Hx Ho Hi Hl]. cbv zeta. set (t := wrap_u 64 _).
  assert (t = sl_next_token (bus_slots b ch) + 1) as Et by (apply wrap_u_id; specialize (Hx ch); lia).
  assert (Hlt : Forall (fun x => x < t) (live_tokens b ch)).
  { eapply list.Forall_impl; [apply Hb|]. cbn. intros; lia. }
  assert (Hlive : forall c, live_tokens (set_bus_subs (bus_subs b ++ [Some (ch, t)])
      (put_slots ch (slots_add h (bus_slots b ch)).2 b)) c =
      live_tokens b c ++ (if decide (c = ch) then [t] else [])).
  { intros c. unfold live_tokens. cbn. destruct (decide (c = ch)) as [->|]; cbn; [|by rewrite app_nil_r].
    rewrite emplace_last by done. by rewrite map_app. }
  assert (Hheld : held_tokens (set_bus_subs (bus_subs b ++ [Some (ch, t)])
      (put_slots ch (slots_add h (bus_slots b ch)).2 b)) = held_tokens b ++ [(ch, t)]).
  { unfold held_tokens. cbn. by rewrite omap_app. }
  split.
  - intros c. rewrite Hlive. destruct (decide (c = ch)) as [->|]; [by apply sorted_snoc|by rewrite app_nil_r].
  - intros c. rewrite Hlive. cbn. destruct (decide (c = ch)) as [->|]; cbn; [|by rewrite app_nil_r].
    apply Forall_app. split; [|constructor; [specialize (Hx ch); lia|constructor]].
    eapply list.Forall_impl; [apply Hb|]. cbn. intros; lia.
  - intros c. cbn. destruct (decide (c = ch)) as [->|]; cbn; [specialize (Hx ch)|specialize (Hx c)]; lia.
  - rewrite Hheld. apply list.NoDup_app. split; [done|]. split; [|apply NoDup_singleton].
    intros [c x] Hx1 Hx2%list_elem_of_singleton. injection Hx2 as -> ->. apply Hi in Hx1. lia.
  - intros c x. rewrite Hheld, elem_of_app, list_elem_of_singleton. cbn.
    intros [H%Hi|[= -> ->]]; case_decide; subst; cbn; try done; lia.
  - intros c x. rewrite Hlive, Hheld, !elem_of_app, Hl, list_elem_of_singleton.
    case_decide; subst; [rewrite list_elem_of_singleton|rewrite elem_of_nil]; naive_solver.
Qed.

(** A variable gives up its token and the handler is removed. *)
Lemma owned_drop n b i ch t : owned n b -> bus_subs b !! i = Some (Some (ch, t)) ->
  owned n (put_slots ch (slots_remove t (bus_slots b ch)) (put_var i None b)).
Proof.
  intros [Hs Hb Hx Ho Hi Hl] Hv. pose proof (held_insert _ _ None _ Hv) as Hp. cbn in Hp.
  set (b' := put_slots _ _ _).
  assert (Hheld : held_tokens b ≡ₚ (ch, t) :: held_tokens b') by (symmetry; exact Hp).
  assert (Hlive : forall c, live_tokens b' c = if decide (c = ch)
     then List.filter (fun x => negb (x =? t)) (live_tokens b ch) else live_tokens b c).
  { intros c. unfold live_tokens, b'. cbn. destruct (decide (c = ch)); [apply filter_keys|done]. }
  assert (Hnext : forall c, sl_next_token (bus_slots b' c) = sl_next_token (bus_slots b c)).
  { intros c. cbn. by destruct (decide (c = ch)) as [->|]. }
  rewrite Hheld in Ho. apply list.NoDup_cons in Ho as [Hn Ho].
  split; try done.
  - intros c. rewrite Hlive. case_decide; [by apply sorted_filter|done].
  - intros c. rewrite Hlive, Hnext. case_decide; [subst c|done]. apply Forall_elem.
    intros x [Hf _]%list_elem_of_In%filter_In. pose proof (Hb ch) as Hf'. rewrite Forall_elem in Hf'.
    apply Hf'. by apply list_elem_of_In.
  - intros c. by rewrite Hnext.
  - intros c x Hc. rewrite Hnext. apply Hi. rewrite Hheld. by right.
  - intros c x. rewrite Hlive. assert (Hlx : x ∈ live_tokens b c <-> (c, x) = (ch, t) \/ (c, x) ∈ held_tokens b').
    { rewrite Hl, Hheld. apply elem_of_cons. }
    case_decide; [subst c|].
    + rewrite list_elem_of_In, filter_In, <- list_elem_of_In, Hlx, negb_true_iff, Z.eqb_neq.
      split; [intros [[[= ->]|?] ?]; done|]. intros H. split; [by right|]. by intros ->.
    + rewrite Hlx. naive_solver.
Qed.

(** Moving a token between variables changes nothing. *)
Lemma owned_held n b l : held_tokens b ≡ₚ omap id l -> owned n b -> owned n (set_bus_subs l b).
Proof.
  intros Hp [Hs Hb Hx Ho Hi Hl].
  assert (Hh : held_tokens (set_bus_subs l b) = omap id l) by done.
  split; try done.
  - by rewrite Hh, <- Hp.
  - intros c x. rewrite Hh, <- Hp. apply Hi.
  - intros c x. rewrite Hh, <- Hp. apply Hl.
Qed.

Section Facts.
Context (code : nat -> bus_event -> M Bus bevent unit).
(** The handlers may do with the bus and the tokens what an application may do. *)
Context (code_steps : forall h e, respects bus_step (code h e)).
#[local] Existing Instance composable_bus.

Lemma attach_step ch h : respects bus_step (attach ch h).
Proof.
  intros b r b' w. unfold attach. rewrite run_get. destruct (bus_alive b) eqn:Ea; cbn [negb].
  2: { intros [= <- <- <-]. apply composable_bus. }
  cbn. intros [= <- <- <-]. split; [cbn; congruence|]. cbn. intros n Hn Ho _. by apply owned_attach; auto.
Qed.

Lemma reset_step i : respects bus_step (sub_reset i).
Proof.
  intros b r b' w. unfold sub_reset. rewrite run_get, run_modify. unfold sub_var.
  destruct (bus_subs b !! i) as [[[ch t]|]|] eqn:Ev; cbn.
  - unfold unsubscribe_bus, bind, get. cbn. destruct (bus_alive b) eqn:Ea; cbn.
    + intros [= <- <- <-]. split; [cbn; congruence|]. cbn. intros n _ Ho _. rewrite Nat.add_0_r.
      apply owned_drop; auto.
    + intros [= <- <- <-]. split; [done|]. cbn. congruence.
  - intros [= <- <- <-]. split; [done|]. cbn. intros n _ Ho Ha. rewrite Nat.add_0_r.
    apply owned_held; [|by apply Ho]. symmetry. apply (held_insert _ _ None _ Ev).
  - intros [= <- <- <-]. split; [done|]. cbn. intros n _ Ho Ha. rewrite Nat.add_0_r.
    apply owned_held; [|by apply Ho]. rewrite list_insert_ge; [done|]. by apply lookup_ge_None.
Qed.

Lemma call_step h e : respects bus_step (emit (Be_call h e)).
Proof.
  intros b r b' w [= <- <- <-]. split; [done|]. cbn. intros n Hn Ho Ha. rewrite Nat.add_0_r. auto.
Qed.

Lemma publish_step e : respects bus_step (publish code e).
Proof.
  unfold publish, bus_emit. repeat respects_step; [exact (call_step _ _ _ _ _ _ eq_refl)|apply code_steps].
Qed.

Lemma subs_step b l : held_tokens b ≡ₚ omap id l -> bus_step b (set_bus_subs l b) [].
Proof.
  intros Hp. split; [done|]. cbn. intros n _ Ho Ha. rewrite Nat.add_0_r. by apply owned_held; auto.
Qed.

Lemma move_step i : respects bus_step (sub_move i).
Proof.
  intros b r b' w. unfold sub_move. rewrite run_get, !run_modify. intros [= <- <- <-].
  change (set_bus_subs _ (put_var i None b)) with (set_bus_subs (<[i:=None]> (bus_subs b) ++ [sub_var i b]) b).
  apply subs_step. rewrite omap_app. unfold sub_var. destruct (bus_subs b !! i) as [x|] eqn:Ev; cbn.
  - pose proof (held_insert _ _ None _ Ev) as Hp. cbn in Hp. rewrite <- Hp, (comm (++)). by destruct x.
  - rewrite list_insert_ge by by apply lookup_ge_None. by rewrite app_nil_r.
Qed.

Lemma reset_subs i b : exists b', sub_reset i b = (Ret tt, b', []) /\ bus_subs b' = <[i := None]> (bus_subs b).
Proof.
  unfold sub_reset. rewrite run_get, run_modify. destruct (sub_var i b) as [u|]; [|by eexists].
  unfold unsubscribe_bus, bind, get. cbn. destruct (bus_alive b); by eexists.
Qed.

Lemma assign_step i j : respects bus_step (sub_assign i j).
Proof.
  intros b r b' w. unfold sub_assign. destruct (Nat.eqb_spec i j) as [|Hij]; [intros [= <- <- <-]; apply composable_bus|].
  rewrite run_get. destruct (Nat.ltb_spec i (length (bus_subs b))) as [Hi|]; cbn [negb];
    [|intros [= <- <- <-]; apply composable_bus].
  destruct (reset_subs i b) as (b1&Er&Es). rewrite (run_bind_quiet _ _ _ _ _ Er), run_get, run_modify.
  intros [= <- <- <-]. apply (comp_trans _ b1 _ [] []); [by eapply reset_step|].
  change (put_var i _ (put_var j None b1)) with (set_bus_subs (<[i:=sub_var j b1]> (<[j:=None]> (bus_subs b1))) b1).
  apply subs_step. unfold held_tokens. unfold sub_var. rewrite Es.
  assert (Hn : <[i:=None]> (bus_subs b) !! i = Some None) by by apply list_lookup_insert_eq.
  destruct (<[i:=None]> (bus_subs b) !! j) as [x|] eqn:Ej; cbn.
  - pose proof (held_insert _ _ None _ Ej) as H1. cbn in H1.
    assert (H2 : <[j:=None]> (<[i:=None]> (bus_subs b)) !! i = Some (@None unsubscription)).
    { by rewrite list_lookup_insert_ne by done. }
    pose proof (held_insert _ _ x _ H2) as H3. cbn in H3. rewrite <- H1. by rewrite H3.
  - rewrite (list_insert_ge _ j) by by apply lookup_ge_None.
    pose proof (held_insert _ _ None _ Hn) as H3. by rewrite H3.
Qed.

Lemma run_bcall_step c : respects bus_step (run_bcall code c).
Proof.
  destruct c; cbn [run_bcall].
  - respects_step; [apply attach_step|by respects_step].
  - apply publish_step.
  - apply reset_step.
  - respects_step; [apply move_step|by respects_step].
  - apply assign_step.
  - apply reset_step.
  - intros b r b' w [= <- <- <-]. split; [done|]. cbn. congruence.
Qed.

(** C26: over any life of the bus and its tokens — subscriptions, moves, assignments,
    destructions, publications whose handlers do any of these — a handler is
    registered exactly while one token, held by exactly one variable, names it;
    tokens ascend in the order of subscription. *)
Theorem tokens_own_handlers calls r b w : forM calls (run_bcall code) new_bus = (r, b, w) ->
  Z.of_nat (attaches w) < 2 ^ 64 -> bus_alive b = true ->
  NoDup (held_tokens b) /\
  forall ch, StronglySorted Z.lt (live_tokens b ch) /\
             forall t, t ∈ live_tokens b ch <-> (ch, t) ∈ held_tokens b.
Proof.
  intros E Hn Ha.
  assert (bus_step new_bus b w) as [_ H].
  { revert E. apply respects_forM; [apply _|]. apply run_bcall_step. }
  destruct (H 0%nat) as [Hs _ _ Ho _ Hl]; [done| |done|by repeat split; try apply Hl].
  intros _. split; cbn; try done; intros; try constructor.
  - by apply not_elem_of_nil in H0.
  - intros H1. by apply not_elem_of_nil in H1.
  - intros H1. by apply not_elem_of_nil in H1.
Qed.

(** a publication calls exactly the handlers registered when it starts, in the
    order of their tokens, whatever they subscribe or unsubscribe meanwhile. *)
Theorem publish_delivers e b b' w : bus_alive b = true -> publish code e b = (Ret tt, b', w) ->
  exists ws, length ws = length (sl_slots (bus_slots b (channel_of e))) /\
    w = concat (zip_with (fun h w' => Be_call h e :: w') (map snd (sl_slots (bus_slots b (channel_of e)))) ws).
Proof.
  unfold publish, bus_emit. rewrite run_get. intros ->. cbn [negb]. rewrite run_get.
  generalize (sl_slots (bus_slots b (channel_of e))) as l. intros l. revert b w.
  induction l as [|[t h] l IH]; intros b w; cbn [map forM].
  - intros [= <- <-]. by exists [].
  - intros E. apply bind_ret_inv in E as (x&b1&w1&w2&E1&E2&->).
    apply bind_ret_inv in E1 as (y&b2&w3&w4&[= <- <- <-]&E1&->).
    destruct (IH _ _ E2) as (ws&Hl& ->). exists (w4 :: ws). cbn. by rewrite Hl.
Qed.
End Facts.

(** ** Witnesses *)

(** Handler 5 unsubscribes the second variable, handler 6 does nothing. *)
Definition example_code (h : nat) (_ : bus_event) : M Bus bevent unit :=
  if Nat.eqb h 5 then sub_reset 1 else ret tt.
Lemma example_code_steps h e : respects bus_step (example_code h e).
Proof. unfold example_code. destruct (Nat.eqb h 5); [apply reset_step|apply respects_ret, composable_bus]. Qed.

Definition example_warning : bus_event := B_warning (Build_ProtocolWarning "unknown_type" "x" None).
Definition example_subscriptions : list bcall :=
  [Bc_subscribe Ch_protocol_warning 5; Bc_subscribe Ch_protocol_warning 6; Bc_move 0; Bc_publish example_warning].

Lemma tokens_own_handlers_witness :
  let b := (forM example_subscriptions (run_bcall example_code) new_bus).1.2 in
  live_tokens b Ch_protocol_warning = [1] /\ NoDup (held_tokens b) /\
  forall ch, StronglySorted Z.lt (live_tokens b ch) /\
             forall t, t ∈ live_tokens b ch <-> (ch, t) ∈ held_tokens b.
Proof.
  split; [vm_compute; reflexivity|].
  destruct (forM example_subscriptions (run_bcall example_code) new_bus) as [[r b] w] eqn:E.
  apply (tokens_own_handlers example_code example_code_steps example_subscriptions r b w E).
  - assert (w = (forM example_subscriptions (run_bcall example_code) new_bus).2) as -> by by rewrite E.
    vm_compute. reflexivity.
  - assert (b = (forM example_subscriptions (run_bcall example_code) new_bus).1.2) as -> by by rewrite E.
    vm_compute. reflexivity.
Defined.

Definition two_handlers : Bus := (forM (take 2 example_subscriptions) (run_bcall example_code) new_bus).1.2.
Lemma publish_delivers_witness :
  bus_alive two_handlers = true /\
  exists ws, length ws = 2%nat /\
    (publish example_code example_warning two_handlers).2 =
    concat (zip_with (fun h w' => Be_call h example_warning :: w') [5; 6]%nat ws).
Proof.
  split; [vm_compute; reflexivity|].
  destruct (publish example_code example_warning two_handlers) as [[r b] w] eqn:E.
  assert (r = Ret tt) as ->.
  { change r with (r, b, w).1.1. rewrite <- E. vm_compute. reflexivity. }
  exact (publish_delivers example_code example_warning two_handlers b w eq_refl E).
Defined.
