(* ===== verification/Client.v ===== *)
(** * The client ([client.hpp], [client.cpp], [client_options.hpp])

    The connection life cycle on the I/O thread: one session, at most one attempt
    (the dialer) and at most one open transport, the connect and disconnect
    completions, the reconnect timer with its backoff, the tick, and the wiring of
    the services to the session.  Every handler that Asio runs and every call the
    public interface posts is one operation; the state of the components it drives
    is part of the client's state.

    The session's owner callbacks and the transport's handlers are run on the events
    those components emit, in their order.  A session hands its frames to the
    transport and asks it to close in the same way; no session operation sends
    after it has asked for the close, so whether the transport is open is read once
    per operation.  Both calls leave an open transport open or closing and run none
    of its handlers ([ClientFacts.linked_send], [ClientFacts.linked_close]). *)
From S2P Require Import Prelude StdMap Errors Float Json Canonical Messages Auth Events Dispatcher.
From S2P Require Import Session.
From S2P Require Import Datapoint Generated Catalog Codec WriteSet Snapshot Service Manager Poller.
From S2P Require Import Replies Security Transport EventBus.
Local Open Scope Z_scope.

(** What the client reaches outside the repository, as one operation finds it. *)
Record surrounding := mkSurrounding {
  su_crypto : crypto;
  su_parse : string -> json;
  su_dump : json -> option string;
  su_now : nat -> TimePoint;
  su_now_ms : nat -> Z;
  su_random : nat -> option (list Z);
  su_ip_literal : string -> bool;
  su_readable : string -> bool;
  su_ssl : ssl_library;
  su_jitter : Z -> Z;             (* a draw from 0 .. the argument *)
  su_clock : TimePoint;           (* the steady clock the client and the manager read *)
  su_respond : nat -> Result json -> ReplyM unit   (* the response handlers the client was given *)
}.

(** ** State

    [cl_dial_config] is what the latest attempt's transport was created with;
    [cl_tick_waits] and [cl_reconnect_waits] count the handlers waiting on the two
    timers, each of which runs once. *)
Record Client := mkClient {
  cl_state : ClientState;
  cl_info : option ConnectionInfo;
  cl_transport : option Transport;
  cl_dialer : option Transport;
  cl_dial_config : EndpointIdentityPolicy * WssOptions;
  cl_session : option (SessionConfig * (Dispatcher * Core));
  cl_connects : list nat;
  cl_disconnects : list nat;
  cl_backoff : Z;
  cl_user_disconnect : bool;
  cl_was_ready : bool;
  cl_failure : option Error;
  cl_security : SecurityConfiguration;
  cl_options : ClientOptions;
  cl_ota : option (ConnectionInfo -> OtaCheck -> OtaDecision);
  cl_datapoints : Manager;
  cl_poller : Poller;
  cl_tick_waits : nat;
  cl_reconnect_waits : nat
}.
Definition set_cl_state (v : ClientState) (c : Client) : Client :=
  mkClient v (cl_info c) (cl_transport c) (cl_dialer c) (cl_dial_config c) (cl_session c) (cl_connects c)
    (cl_disconnects c) (cl_backoff c) (cl_user_disconnect c) (cl_was_ready c) (cl_failure c) (cl_security c)
    (cl_options c) (cl_ota c) (cl_datapoints c) (cl_poller c) (cl_tick_waits c) (cl_reconnect_waits c).
Definition set_cl_info (v : option ConnectionInfo) (c : Client) : Client :=
  mkClient (cl_state c) v (cl_transport c) (cl_dialer c) (cl_dial_config c) (cl_session c) (cl_connects c)
    (cl_disconnects c) (cl_backoff c) (cl_user_disconnect c) (cl_was_ready c) (cl_failure c) (cl_security c)
    (cl_options c) (cl_ota c) (cl_datapoints c) (cl_poller c) (cl_tick_waits c) (cl_reconnect_waits c).
Definition set_cl_transport (v : option Transport) (c : Client) : Client :=
  mkClient (cl_state c) (cl_info c) v (cl_dialer c) (cl_dial_config c) (cl_session c) (cl_connects c)
    (cl_disconnects c) (cl_backoff c) (cl_user_disconnect c) (cl_was_ready c) (cl_failure c) (cl_security c)
    (cl_options c) (cl_ota c) (cl_datapoints c) (cl_poller c) (cl_tick_waits c) (cl_reconnect_waits c).
Definition set_cl_dialer (v : option Transport) (c : Client) : Client :=
  mkClient (cl_state c) (cl_info c) (cl_transport c) v (cl_dial_config c) (cl_session c) (cl_connects c)
    (cl_disconnects c) (cl_backoff c) (cl_user_disconnect c) (cl_was_ready c) (cl_failure c) (cl_security c)
    (cl_options c) (cl_ota c) (cl_datapoints c) (cl_poller c) (cl_tick_waits c) (cl_reconnect_waits c).
Definition set_cl_dial_config (v : EndpointIdentityPolicy * WssOptions) (c : Client) : Client :=
  mkClient (cl_state c) (cl_info c) (cl_transport c) (cl_dialer c) v (cl_session c) (cl_connects c)
    (cl_disconnects c) (cl_backoff c) (cl_user_disconnect c) (cl_was_ready c) (cl_failure c) (cl_security c)
    (cl_options c) (cl_ota c) (cl_datapoints c) (cl_poller c) (cl_tick_waits c) (cl_reconnect_waits c).
Definition set_cl_session (v : option (SessionConfig * (Dispatcher * Core))) (c : Client) : Client :=
  mkClient (cl_state c) (cl_info c) (cl_transport c) (cl_dialer c) (cl_dial_config c) v (cl_connects c)
    (cl_disconnects c) (cl_backoff c) (cl_user_disconnect c) (cl_was_ready c) (cl_failure c) (cl_security c)
    (cl_options c) (cl_ota c) (cl_datapoints c) (cl_poller c) (cl_tick_waits c) (cl_reconnect_waits c).
Definition set_cl_connects (v : list nat) (c : Client) : Client :=
  mkClient (cl_state c) (cl_info c) (cl_transport c) (cl_dialer c) (cl_dial_config c) (cl_session c) v
    (cl_disconnects c) (cl_backoff c) (cl_user_disconnect c) (cl_was_ready c) (cl_failure c) (cl_security c)
    (cl_options c) (cl_ota c) (cl_datapoints c) (cl_poller c) (cl_tick_waits c) (cl_reconnect_waits c).
Definition set_cl_disconnects (v : list nat) (c : Client) : Client :=
  mkClient (cl_state c) (cl_info c) (cl_transport c) (cl_dialer c) (cl_dial_config c) (cl_session c)
    (cl_connects c) v (cl_backoff c) (cl_user_disconnect c) (cl_was_ready c) (cl_failure c) (cl_security c)
    (cl_options c) (cl_ota c) (cl_datapoints c) (cl_poller c) (cl_tick_waits c) (cl_reconnect_waits c).
Definition set_cl_backoff (v : Z) (c : Client) : Client :=
  mkClient (cl_state c) (cl_info c) (cl_transport c) (cl_dialer c) (cl_dial_config c) (cl_session c)
    (cl_connects c) (cl_disconnects c) v (cl_user_disconnect c) (cl_was_ready c) (cl_failure c)
    (cl_security c) (cl_options c) (cl_ota c) (cl_datapoints c) (cl_poller c) (cl_tick_waits c)
    (cl_reconnect_waits c).
Definition set_cl_user_disconnect (v : bool) (c : Client) : Client :=
  mkClient (cl_state c) (cl_info c) (cl_transport c) (cl_dialer c) (cl_dial_config c) (cl_session c)
    (cl_connects c) (cl_disconnects c) (cl_backoff c) v (cl_was_ready c) (cl_failure c) (cl_security c)
    (cl_options c) (cl_ota c) (cl_datapoints c) (cl_poller c) (cl_tick_waits c) (cl_reconnect_waits c).
Definition set_cl_was_ready (v : bool) (c : Client) : Client :=
  mkClient (cl_state c) (cl_info c) (cl_transport c) (cl_dialer c) (cl_dial_config c) (cl_session c)
    (cl_connects c) (cl_disconnects c) (cl_backoff c) (cl_user_disconnect c) v (cl_failure c)
    (cl_security c) (cl_options c) (cl_ota c) (cl_datapoints c) (cl_poller c) (cl_tick_waits c)
    (cl_reconnect_waits c).
Definition set_cl_failure (v : option Error) (c : Client) : Client :=
  mkClient (cl_state c) (cl_info c) (cl_transport c) (cl_dialer c) (cl_dial_config c) (cl_session c)
    (cl_connects c) (cl_disconnects c) (cl_backoff c) (cl_user_disconnect c) (cl_was_ready c) v
    (cl_security c) (cl_options c) (cl_ota c) (cl_datapoints c) (cl_poller c) (cl_tick_waits c)
    (cl_reconnect_waits c).
Definition set_cl_security (v : SecurityConfiguration) (c : Client) : Client :=
  mkClient (cl_state c) (cl_info c) (cl_transport c) (cl_dialer c) (cl_dial_config c) (cl_session c)
    (cl_connects c) (cl_disconnects c) (cl_backoff c) (cl_user_disconnect c) (cl_was_ready c) (cl_failure c)
    v (cl_options c) (cl_ota c) (cl_datapoints c) (cl_poller c) (cl_tick_waits c) (cl_reconnect_waits c).
Definition set_cl_options (v : ClientOptions) (c : Client) : Client :=
  mkClient (cl_state c) (cl_info c) (cl_transport c) (cl_dialer c) (cl_dial_config c) (cl_session c)
    (cl_connects c) (cl_disconnects c) (cl_backoff c) (cl_user_disconnect c) (cl_was_ready c) (cl_failure c)
    (cl_security c) v (cl_ota c) (cl_datapoints c) (cl_poller c) (cl_tick_waits c) (cl_reconnect_waits c).
Definition set_cl_ota (v : option (ConnectionInfo -> OtaCheck -> OtaDecision)) (c : Client) : Client :=
  mkClient (cl_state c) (cl_info c) (cl_transport c) (cl_dialer c) (cl_dial_config c) (cl_session c)
    (cl_connects c) (cl_disconnects c) (cl_backoff c) (cl_user_disconnect c) (cl_was_ready c) (cl_failure c)
    (cl_security c) (cl_options c) v (cl_datapoints c) (cl_poller c) (cl_tick_waits c)
    (cl_reconnect_waits c).
Definition set_cl_datapoints (v : Manager) (c : Client) : Client :=
  mkClient (cl_state c) (cl_info c) (cl_transport c) (cl_dialer c) (cl_dial_config c) (cl_session c)
    (cl_connects c) (cl_disconnects c) (cl_backoff c) (cl_user_disconnect c) (cl_was_ready c) (cl_failure c)
    (cl_security c) (cl_options c) (cl_ota c) v (cl_poller c) (cl_tick_waits c) (cl_reconnect_waits c).
Definition set_cl_poller (v : Poller) (c : Client) : Client :=
  mkClient (cl_state c) (cl_info c) (cl_transport c) (cl_dialer c) (cl_dial_config c) (cl_session c)
    (cl_connects c) (cl_disconnects c) (cl_backoff c) (cl_user_disconnect c) (cl_was_ready c) (cl_failure c)
    (cl_security c) (cl_options c) (cl_ota c) (cl_datapoints c) v (cl_tick_waits c) (cl_reconnect_waits c).
Definition set_cl_tick_waits (v : nat) (c : Client) : Client :=
  mkClient (cl_state c) (cl_info c) (cl_transport c) (cl_dialer c) (cl_dial_config c) (cl_session c)
    (cl_connects c) (cl_disconnects c) (cl_backoff c) (cl_user_disconnect c) (cl_was_ready c) (cl_failure c)
    (cl_security c) (cl_options c) (cl_ota c) (cl_datapoints c) (cl_poller c) v (cl_reconnect_waits c).
Definition set_cl_reconnect_waits (v : nat) (c : Client) : Client :=
  mkClient (cl_state c) (cl_info c) (cl_transport c) (cl_dialer c) (cl_dial_config c) (cl_session c)
    (cl_connects c) (cl_disconnects c) (cl_backoff c) (cl_user_disconnect c) (cl_was_ready c) (cl_failure c)
    (cl_security c) (cl_options c) (cl_ota c) (cl_datapoints c) (cl_poller c) (cl_tick_waits c) v.

Definition new_client : Client :=
  mkClient CS_Disconnected None None None (VerifyDnsName, mkWssOptions 0 0 EmptyString) None [] [] 0 false false None new_security default_options None
    new_manager new_poller 0 0.

Inductive cevent :=
| Ce_bus (e : bus_event)
| Ce_connected (h : nat) (r : Result ConnectionInfo)   (* a connect completion *)
| Ce_disconnected (h : nat)                            (* a disconnect completion *)
| Ce_response (h : nat) (r : Result json)              (* a response handler *)
| Ce_transport (e : tevent)
| Ce_datapoint (e : sevent)
| Ce_poll (e : pevent)
| Ce_reply (e : revent)                                (* within a response handler *)
| Ce_arm_tick | Ce_cancel_tick
| Ce_arm_reconnect (seconds : Z) | Ce_cancel_reconnect.

Abbreviation CliM := (M Client cevent).

(** Run an operation of a component on its part of the client's state. *)
Definition on_part {S E A} (here : Client -> S) (put : S -> Client -> Client) (event : E -> cevent)
    (m : M S E A) : CliM A := fun c =>
  let '(r, s, w) := m (here c) in (r, put s c, map event w).

Definition on_datapoints {A} (m : M Manager sevent A) : CliM A :=
  on_part cl_datapoints set_cl_datapoints Ce_datapoint m.
Definition on_poller {A} (m : M Poller pevent A) : CliM A := on_part cl_poller set_cl_poller Ce_poll m.
Definition on_services {A} (m : ReplyM A) : CliM A :=
  on_part (fun c => (cl_datapoints c, cl_poller c)) (fun s c => set_cl_poller s.2 (set_cl_datapoints s.1 c)) Ce_reply m.

(** ** Events, completions *)

Definition enter_state (next : ClientState) (ready_info : option ConnectionInfo) (cause : option Error) : CliM unit :=
  let* previous := gets cl_state in
  modify (set_cl_state next) ;;;
  if decide (previous = next) then ret tt else
  emit (Ce_bus (B_state (mkStateChange previous next ready_info cause))).

Definition complete_connect (result : Result ConnectionInfo) : CliM unit :=
  let* completions := gets cl_connects in
  modify (set_cl_connects []) ;;;
  forM completions (fun completion => emit (Ce_connected completion result)).

Definition complete_disconnect : CliM unit :=
  let* waiters := gets cl_disconnects in
  modify (set_cl_disconnects []) ;;;
  forM waiters (fun waiter => emit (Ce_disconnected waiter)).

(** ** Timers *)

Definition cancel_tick : CliM unit := emit Ce_cancel_tick.
Definition cancel_reconnect : CliM unit := emit Ce_cancel_reconnect.
Definition arm_tick : CliM unit :=
  modify (fun c => set_cl_tick_waits (S (cl_tick_waits c)) c) ;;;
  emit Ce_arm_tick.

(** The next backoff in seconds. *)
Definition next_backoff (p : ReconnectPolicy) (current : Z) : Z :=
  if current =? 0 then rp_initial_delay p else Z.min (rp_max_delay p) (current * 2).

(** ** The transport in use *)

Definition is_transport_open (c : Client) : bool :=
  match cl_transport c with Some t => is_open t | None => false end.

(** A call on the open transport by the session. *)
Definition use_transport (m : M Transport tevent unit) : CliM unit :=
  let* transport := gets cl_transport in
  match transport with
  | None => ret tt
  | Some t => on_part (fun _ => t) (fun t' => set_cl_transport (Some t')) Ce_transport m
  end.

Section Client.
Context (endpoint : Endpoint).
Context (su : surrounding).

(** ** The session *)

Definition session_env (config : SessionConfig) (open : bool) : senv :=
  {| e_config := config; e_crypto := su_crypto su; e_parse := su_parse su; e_dump := su_dump su;
     e_now := su_now su; e_now_ms := su_now_ms su; e_random := su_random su;
     e_send := Some (fun _ _ => open); e_close := true |}.

Definition all_callbacks : Callbacks :=
  {| cb_ready := true; cb_failed := true; cb_dp_report := true; cb_heartbeat := true;
     cb_device_alert := true; cb_ota_status := true; cb_error_report := true;
     cb_warning := true; cb_unknown := true |}.

Definition session_config (c : Client) : SessionConfig := {|
  cfg_credentials := sc_provider (cl_security c);
  cfg_kid := if str_empty (sc_kid (cl_security c)) then "1" else sc_kid (cl_security c);
  cfg_expected_device_id := sc_expected_device_id (cl_security c);
  cfg_ota_policy := cl_ota c;
  cfg_handshake_timeout := co_handshake_timeout (cl_options c);
  cfg_default_request_timeout := co_default_request_timeout (cl_options c);
  cfg_budget := co_rate_budget (cl_options c)
|}.

Definition on_ready (ready : ConnectionInfo) : CliM unit :=
  modify (set_cl_info (Some ready)) ;;;
  modify (set_cl_was_ready true) ;;;
  modify (set_cl_backoff 0) ;;;
  enter_state CS_Ready (Some ready) None ;;;
  on_poller on_reconnected ;;;
  complete_connect (Ok ready).

(** A response handler runs. *)
Definition call_handler (h : nat) (response : Result json) : CliM unit :=
  emit (Ce_response h response) ;;;
  on_services (su_respond su h response).

(** The functions the session was given: its send and close functions (the
    completion it sends with only logs), its callbacks, and the response handlers of
    its requests. *)
Definition deliver (e : event) : CliM unit :=
  match e with
  | Ev_call h r => call_handler h r
  | Ev_send _ frame => use_transport (async_send (fun _ _ => ret tt) frame None)
  | Ev_close code reason => use_transport (close (fun _ _ => ret tt) code reason)
  | Ev_ready ready => on_ready ready
  | Ev_failed error => modify (set_cl_failure (Some error))
  | Ev_dp_report dp seq => on_datapoints (ingest_report (su_clock su) dp UnsolicitedReport seq) ;;; ret tt
  | Ev_heartbeat hb => emit (Ce_bus (B_heartbeat hb))
  | Ev_device_alert alert => emit (Ce_bus (B_device_alert alert))
  | Ev_ota_status status => emit (Ce_bus (B_ota_status status))
  | Ev_error_report report => emit (Ce_bus (B_error_report report))
  | Ev_warning warning => emit (Ce_bus (B_warning warning))
  | Ev_unknown type message => emit (Ce_bus (B_unknown type message))
  end.

(** An operation of the session, with the functions it calls. *)
Definition run_session {A} (m : senv -> M (Dispatcher * Core) event A) : CliM A := fun c =>
  match cl_session c with
  | None => throw (Exn_ub "null session") c
  | Some (config, st) =>
      let '(r, st', w) := m (session_env config (is_transport_open c)) st in
      (forM w deliver ;;; lift r) (set_cl_session (Some (config, st')) c)
  end.

Definition ensure_session : CliM unit :=
  let* c := get in
  match cl_session c with
  | Some _ => ret tt
  | None =>
      let config := session_config c in
      modify (set_cl_session (Some (config, new_session (session_env config false)))) ;;;
      run_session (fun _ => set_callbacks all_callbacks)
  end.

(** ** Connection setup *)

Definition wss_options (c : Client) : WssOptions :=
  mkWssOptions (co_connect_timeout (cl_options c)) (co_transport_idle_timeout (cl_options c)) "fountainer/0.2".

Definition begin_connect (completion : option nat) : CliM unit :=
  let* current := gets cl_state in
  if decide (current = CS_Ready) then
    match completion with
    | None => ret tt
    | Some h =>
        let* current_info := gets cl_info in
        match current_info with
        | Some info => emit (Ce_connected h (Ok info))
        | None => throw (Exn_ub "dereference of an empty optional")
        end
    end
  else if decide (current = CS_Closing) then
    match completion with
    | None => ret tt
    | Some h => emit (Ce_connected h (Err (make_error Dom_Internal InvalidState "client is closing")))
    end
  else
  modify (fun c => set_cl_connects (cl_connects c ++ option_list completion) c) ;;;
  if negb (bool_decide (current = CS_Disconnected)) && negb (bool_decide (current = CS_Reconnecting)) then ret tt else
  cancel_reconnect ;;;
  let* security := gets cl_security in
  match security_validate (su_readable su) security with
  | Err e => complete_connect (Err e)
  | Ok _ =>
      modify (fun c => set_cl_security (lock (cl_security c)) c) ;;;
      modify (set_cl_user_disconnect false) ;;;
      modify (set_cl_failure None) ;;;
      modify (set_cl_session None) ;;;
      match make_ssl_context (su_readable su) (su_ssl su) (sc_tls security) with
      | Err e => complete_connect (Err e)
      | Ok _ =>
          ensure_session ;;;
          enter_state CS_Resolving None None ;;;
          let* c := get in
          modify (set_cl_dialer (Some new_transport)) ;;;
          modify (set_cl_dial_config (tls_policy (sc_tls (cl_security c)), wss_options c)) ;;;
          on_part (fun c => default new_transport (cl_dialer c)) (fun t => set_cl_dialer (Some t)) Ce_transport
            (async_open endpoint (wss_options c) (Some 0%nat))
      end
  end.

(** ** Connection loss and reconnect *)

Definition handle_connection_lost (cause : Error) : CliM unit :=
  let* c := get in
  if cl_user_disconnect c then
    modify (fun c => set_cl_security (unlock (cl_security c)) c) ;;;
    enter_state CS_Disconnected None None ;;;
    complete_connect (Err (cancelled_error "connect")) ;;;
    complete_disconnect
  else
  complete_connect (Err cause) ;;;
  let policy := co_reconnect (cl_options c) in
  if negb (cl_was_ready c) || negb (rp_enabled policy) then
    modify (fun c => set_cl_security (unlock (cl_security c)) c) ;;;
    enter_state CS_Disconnected None (Some cause)
  else
  let* delay :=
    (if decide (err_domain cause = Dom_Authentication) then ret (rp_authentication_delay policy)
     else
       let backoff := next_backoff policy (cl_backoff c) in
       modify (set_cl_backoff backoff) ;;;
       ret (if rp_jitter policy && (1 <? backoff) then backoff + su_jitter su (backoff / 4) else backoff)) in
  enter_state CS_Reconnecting None (Some cause) ;;;
  modify (fun c => set_cl_reconnect_waits (S (cl_reconnect_waits c)) c) ;;;
  emit (Ce_arm_reconnect delay).

Definition handle_transport_closed (error : Error) : CliM unit :=
  cancel_tick ;;;
  modify (set_cl_transport None) ;;;
  let* c := get in
  let cause := default error (cl_failure c) in
  match cl_session c with
  | Some _ => run_session (fun _ => on_transport_closed cause)
  | None => ret tt
  end ;;;
  on_datapoints mark_all_stale ;;;
  handle_connection_lost cause.

(** The completion of [async_open]: [opened] is the dialer's own object. *)
Definition on_dial (opened : Result Transport) : CliM unit :=
  modify (set_cl_dialer None) ;;;
  match opened with
  | Err e => handle_connection_lost e
  | Ok attempt =>
      modify (set_cl_transport (Some (set_tr_close_handler (Some 0%nat) (set_tr_receive_handler true attempt)))) ;;;
      enter_state CS_FountainHandshaking None None ;;;
      run_session (fun env => on_transport_open env) ;;;
      arm_tick
  end.

(** The handlers of the client on a transport's events, [t] the transport. *)
Definition handle_tevent (t : Transport) (e : tevent) : CliM unit :=
  match e with
  | Te_opened _ (Ok _) => on_dial (Ok t)
  | Te_opened _ (Err error) => on_dial (Err error)
  | Te_closed _ error => handle_transport_closed error
  | _ => emit (Ce_transport e)
  end.

(** An Asio handler of the attempt, or of the open transport, with the client's
    handlers that it runs. *)
Definition dialer_callback (m : M Transport tevent unit) : CliM unit :=
  let* dialer := gets cl_dialer in
  match dialer with
  | None => ret tt
  | Some t =>
      let '(r, t', w) := m t in
      modify (set_cl_dialer (Some t')) ;;;
      forM w (handle_tevent t') ;;;
      lift r
  end.
Definition transport_callback (m : M Transport tevent unit) : CliM unit :=
  let* transport := gets cl_transport in
  match transport with
  | None => ret tt
  | Some t =>
      let '(r, t', w) := m t in
      modify (set_cl_transport (Some t')) ;;;
      forM w (handle_tevent t') ;;;
      lift r
  end.

(** [on_read] of the transport with the receive handler the client set. *)
Definition on_frame (ec : option error_code) (text : bool) (frame : string) : CliM unit :=
  match ec with
  | Some _ => transport_callback (on_read (fun _ _ => ret tt) (fun _ => ret tt) ec text frame)
  | None =>
      read_frame (fun c => default new_transport (cl_transport c)) Ce_transport
        (fun frame => run_session (fun env => on_text env frame)) text frame
  end.

(** ** Timer handlers *)

Definition on_tick (ec : bool) : CliM unit :=
  modify (fun c => set_cl_tick_waits (pred (cl_tick_waits c)) c) ;;;
  let* c := get in
  if ec || negb (is_transport_open c) then ret tt else
  let now := su_clock su in
  run_session (fun env => session_tick env now) ;;;
  let* c := get in
  when (bool_decide (cl_state c = CS_Ready))
    (match cl_session c with
     | Some (_, st) => on_poller (Poller.tick now (last_tx st.2))
     | None => throw (Exn_ub "null session")
     end) ;;;
  arm_tick.

Definition on_reconnect_timer (ec : bool) : CliM unit :=
  modify (fun c => set_cl_reconnect_waits (pred (cl_reconnect_waits c)) c) ;;;
  let* c := get in
  if ec || cl_user_disconnect c then ret tt else
  begin_connect None.

(** ** Shutdown *)

Definition request_disconnect (done : option nat) : CliM unit :=
  modify (set_cl_user_disconnect true) ;;;
  on_poller Poller.stop ;;;
  cancel_reconnect ;;;
  cancel_tick ;;;
  let* c := get in
  match cl_transport c, cl_dialer c with
  | Some _, _ =>
      modify (fun c => set_cl_disconnects (cl_disconnects c ++ option_list done) c) ;;;
      transport_callback (close (fun _ _ => ret tt) kCloseNormal "client shutdown")
  | None, Some _ =>
      modify (fun c => set_cl_disconnects (cl_disconnects c ++ option_list done) c) ;;;
      dialer_callback (cancel (fun _ _ => ret tt))
  | None, None =>
      modify (fun c => set_cl_security (unlock (cl_security c)) c) ;;;
      enter_state CS_Disconnected None None ;;;
      match done with
      | Some h => emit (Ce_disconnected h)
      | None => ret tt
      end
  end.

(** ** The services' functions *)

Definition submit_request (spec : RequestSpec) (h : handler) : CliM unit :=
  let* c := get in
  match cl_session c with
  | None =>
      match h with
      | Some h => call_handler h (Err (make_error Dom_Disconnected NotConnected "client is not connected"))
      | None => throw (Exn_runtime "bad_function_call")
      end
  | Some _ => run_session (fun env => request env spec h)
  end.

Definition send_raw (type : string) (body : json) : CliM unit :=
  let* c := get in
  match cl_session c with
  | Some _ => run_session (fun env => on_snd (send_message env type body EmptyString)) ;;; ret tt
  | None => ret tt
  end.

End Client.

(** [RawProtocol::request]: the response itself is the result. *)
Definition raw_request {S} (x : exchange S) (spec : RequestSpec) : M S sevent (Result json) :=
  sync_wait x (Ret (Submitted spec)) (fun response => ret response).

(** The blocking runner and the blocking calls refuse the I/O thread. *)
Definition runner (on_io_thread : bool) : Status :=
  if on_io_thread then
    Err (make_error Dom_Internal InvalidState
      "blocking API called from the client IO thread — use the async_* variants inside callbacks")
  else ok.
Definition connect_refused (on_io_thread : bool) : Status :=
  if on_io_thread then
    Err (make_error Dom_Internal InvalidState "connect() must not be called from the IO thread")
  else ok.
Definition disconnect_refused (on_io_thread : bool) : Status :=
  if on_io_thread then
    Err (make_error Dom_Internal InvalidState "disconnect() must not be called from the IO thread")
  else ok.

Definition client_ready (c : Client) : bool := bool_decide (cl_state c = CS_Ready).
Definition client_metrics (c : Client) : DispatcherMetrics :=
  match cl_session c with Some (_, (d, _)) => Dispatcher.metrics d | None => metrics_zero end.

(** ** The builder *)

Record Builder := mkBuilder {
  bd_endpoint : Endpoint;
  bd_tls : option TlsCredentials;
  bd_hmac : option HmacCredentials;
  bd_provider : option CredentialProvider;
  bd_expected_device : string;
  bd_options : option ClientOptions;
  bd_ota : option (ConnectionInfo -> OtaCheck -> OtaDecision)
}.
Definition builder (endpoint : Endpoint) : Builder := mkBuilder endpoint None None None EmptyString None None.
Definition with_tls (t : TlsCredentials) (b : Builder) : Builder :=
  mkBuilder (bd_endpoint b) (Some t) (bd_hmac b) (bd_provider b) (bd_expected_device b) (bd_options b) (bd_ota b).
Definition with_hmac (h : HmacCredentials) (b : Builder) : Builder :=
  mkBuilder (bd_endpoint b) (bd_tls b) (Some h) (bd_provider b) (bd_expected_device b) (bd_options b) (bd_ota b).
Definition with_credential_provider (p : option CredentialProvider) (b : Builder) : Builder :=
  mkBuilder (bd_endpoint b) (bd_tls b) (bd_hmac b) p (bd_expected_device b) (bd_options b) (bd_ota b).
Definition with_expected_device (id : string) (b : Builder) : Builder :=
  mkBuilder (bd_endpoint b) (bd_tls b) (bd_hmac b) (bd_provider b) id (bd_options b) (bd_ota b).
Definition with_options (o : ClientOptions) (b : Builder) : Builder :=
  mkBuilder (bd_endpoint b) (bd_tls b) (bd_hmac b) (bd_provider b) (bd_expected_device b) (Some o) (bd_ota b).
Definition set_co_reconnect (p : ReconnectPolicy) (o : ClientOptions) : ClientOptions :=
  {| co_connect_timeout := co_connect_timeout o; co_transport_idle_timeout := co_transport_idle_timeout o;
     co_handshake_timeout := co_handshake_timeout o; co_default_request_timeout := co_default_request_timeout o;
     co_reconnect := p; co_rate_budget := co_rate_budget o; co_enable_test_commands := co_enable_test_commands o |}.
Definition with_reconnect (p : ReconnectPolicy) (b : Builder) : Builder :=
  with_options (set_co_reconnect p (default default_options (bd_options b))) b.
Definition with_ota_policy (p : option (ConnectionInfo -> OtaCheck -> OtaDecision)) (b : Builder) : Builder :=
  mkBuilder (bd_endpoint b) (bd_tls b) (bd_hmac b) (bd_provider b) (bd_expected_device b) (bd_options b) p.

(** One optional setting: the setter's status, then the rest. *)
Definition apply_setting {A} (v : option A) (set : A -> SecurityConfiguration -> Status * SecurityConfiguration)
    (c : SecurityConfiguration) : Result SecurityConfiguration :=
  match v with
  | None => Ok c
  | Some a => match set a c with (Ok _, c') => Ok c' | (Err e, _) => Err e end
  end.

Definition builder_build (readable_file : string -> bool) (b : Builder) : Result Client :=
  let client := new_client in
  let client := match bd_options b with Some o => set_cl_options o client | None => client end in
  let security := set_expected_device_id (bd_expected_device b) (cl_security client) in
  let client := match bd_ota b with Some p => set_cl_ota (Some p) client | None => client end in
  let? security := apply_setting (bd_tls b) (set_tls readable_file) security in
  let? security := apply_setting (bd_hmac b) set_hmac security in
  let? security := apply_setting (bd_provider b) (fun p => set_credential_provider (Some p)) security in
  let? _ := security_validate readable_file security in
  Ok (set_cl_security security client).

(** ** Lives of a client *)

Inductive ccall :=
| Cc_connect (completion : option nat)
| Cc_disconnect (done : option nat)
| Cc_submit (spec : RequestSpec) (h : handler)
| Cc_send (type : string) (body : json)
| Cc_dial (c : tcall)                       (* an Asio handler of the attempt *)
| Cc_frame (ec : option error_code) (text : bool) (frame : string)
| Cc_written (ec : option error_code)
| Cc_closed
| Cc_tick (ec : bool)
| Cc_reconnect (ec : bool)
| Cc_security (call : security_call)
| Cc_options (o : ClientOptions)
| Cc_ota (p : option (ConnectionInfo -> OtaCheck -> OtaDecision))
| Cc_datapoints (m : M Manager sevent unit)
| Cc_polling (m : M Poller pevent unit).

Definition run_ccall (endpoint : Endpoint) (su : surrounding) (call : ccall) : CliM unit :=
  match call with
  | Cc_connect completion => begin_connect endpoint su completion
  | Cc_disconnect done => request_disconnect su done
  | Cc_submit spec h => submit_request su spec h
  | Cc_send type body => send_raw su type body
  | Cc_dial c =>
      let* config := gets cl_dial_config in
      dialer_callback su (run_tcall (su_ip_literal su) endpoint config.1 config.2
        (fun _ _ => ret tt) (fun _ => ret tt) c)
  | Cc_frame ec text frame => on_frame su ec text frame
  | Cc_written ec => transport_callback su (on_write (fun _ _ => ret tt) ec)
  | Cc_closed => transport_callback su (on_close (fun _ _ => ret tt))
  | Cc_tick ec => on_tick su ec
  | Cc_reconnect ec => on_reconnect_timer endpoint su ec
  | Cc_security call => modify (fun c => set_cl_security (run_security (su_readable su) (cl_security c) call) c)
  | Cc_options o => modify (set_cl_options o)
  | Cc_ota p => modify (set_cl_ota p)
  | Cc_datapoints m => on_datapoints m
  | Cc_polling m => on_poller m
  end.

(** What Asio can run: a handler of the attempt on time, a timer's handler once per
    wait. *)
Definition dial_handler (c : tcall) : bool :=
  match c with
  | Tc_on_resolve_timer _ | Tc_on_resolve _ | Tc_on_connect _ | Tc_on_tls_handshake _ | Tc_on_ws_handshake _ => true
  | _ => false
  end.
Definition can_run (c : Client) (call : ccall) : Prop :=
  match call with
  | Cc_dial d => dial_handler d = true /\
      match cl_dialer c with
      | Some t => match d with
                  | Tc_on_resolve None => tr_phase t = Ph_Resolving
                  | Tc_on_connect None => tr_phase t = Ph_Connecting
                  | Tc_on_tls_handshake None => tr_phase t = Ph_TlsHandshake
                  | Tc_on_ws_handshake None => tr_phase t = Ph_WsHandshake
                  | _ => True
                  end
      | None => True
      end
  | Cc_tick _ => (0 < cl_tick_waits c)%nat
  | Cc_reconnect _ => (0 < cl_reconnect_waits c)%nat
  | _ => True
  end.

Inductive clife (endpoint : Endpoint) : list ccall -> Client -> list cevent -> Prop :=
| clife_new security : sc_locked security = false ->
    clife endpoint [] (set_cl_security security new_client) []
| clife_call calls c w su call c' w' : clife endpoint calls c w -> can_run c call ->
    run_ccall endpoint su call c = (Ret tt, c', w') -> clife endpoint (calls ++ [call]) c' (w ++ w').
