(* ===== verification/ClientFacts.v ===== *)
(** * What the client guarantees

    Every connect and disconnect completion is answered once, and nobody waits once
    the attempt is over; the client's state agrees with the connection it holds; the
    backoff of the reconnect timer; and four departures of the code from its intent. *)
From S2P Require Import Prelude StdMap Errors Float Json Canonical Messages Auth Events Dispatcher.
From S2P Require Import DispatcherFacts Session SessionFacts.
From S2P Require Import Datapoint Generated Catalog Codec WriteSet Snapshot Service Manager Poller.
From S2P Require Import Security Transport TransportFacts EventBus Client.
Local Open Scope Z_scope.

(** ** The small steps, as equations *)

Lemma enter_state_run next i ca c : enter_state next i ca c =
  (Ret tt, set_cl_state next c,
   if decide (cl_state c = next) then [] else [Ce_bus (B_state (mkStateChange (cl_state c) next i ca))]).
Proof. unfold enter_state. rewrite run_gets, run_modify. by destruct (decide _). Qed.

Lemma emit_all_run {A} (f : A -> cevent) l (c : Client) : forM l (fun x => emit (f x)) c = (Ret tt, c, map f l).
Proof. induction l as [|x l IH]; [done|]. cbn [forM]. unfold bind. cbn [emit]. by rewrite IH. Qed.

Lemma complete_connect_run r c : complete_connect r c =
  (Ret tt, set_cl_connects [] c, map (fun h => Ce_connected h r) (cl_connects c)).
Proof. unfold complete_connect. rewrite run_gets, run_modify. apply emit_all_run. Qed.
Lemma complete_disconnect_run c : complete_disconnect c =
  (Ret tt, set_cl_disconnects [] c, map Ce_disconnected (cl_disconnects c)).
Proof. unfold complete_disconnect. rewrite run_gets, run_modify. apply emit_all_run. Qed.

(** ** Completions *)

Definition connected (w : list cevent) : list nat :=
  omap (fun e => match e with Ce_connected h _ => Some h | _ => None end) w.
Definition disconnected (w : list cevent) : list nat :=
  omap (fun e => match e with Ce_disconnected h => Some h | _ => None end) w.
Lemma connected_app w1 w2 : connected (w1 ++ w2) = connected w1 ++ connected w2.
Proof. apply omap_app. Qed.
Lemma disconnected_app w1 w2 : disconnected (w1 ++ w2) = disconnected w1 ++ disconnected w2.
Proof. apply omap_app. Qed.

(** A step that takes connect completions [g] and disconnect completions [d]. *)
Definition balance (g d : list nat) (c c' : Client) (w : list cevent) : Prop :=
  connected w ++ cl_connects c' ≡ₚ g ++ cl_connects c /\
  disconnected w ++ cl_disconnects c' ≡ₚ d ++ cl_disconnects c.
Abbreviation even := (balance [] []).

Lemma owed_trans g1 d1 g2 d2 c1 c2 c3 w1 w2 :
  balance g1 d1 c1 c2 w1 -> balance g2 d2 c2 c3 w2 -> balance (g1 ++ g2) (d1 ++ d2) c1 c3 (w1 ++ w2).
Proof.
  intros [A1 B1] [A2 B2]. unfold balance. rewrite connected_app, disconnected_app, <- !app_assoc, A2, B2.
  rewrite (app_assoc (connected w1)), (app_assoc (disconnected w1)), (comm (++) (connected w1)),
    (comm (++) (disconnected w1)), <- !app_assoc, A1, B1, !app_assoc, (comm (++) g2), (comm (++) d2).
  by rewrite <- !app_assoc.
Qed.
#[export] Instance composable_even : Composable even.
Proof. split; [by split|]. intros *. apply (owed_trans [] [] [] []). Qed.

Lemma yields_balance_bind {A B} g1 d1 g2 d2 (m : M Client cevent A) (k : A -> M Client cevent B) :
  yields (balance g1 d1) m -> (forall x, yields (balance g2 d2) (k x)) ->
  yields (balance (g1 ++ g2) (d1 ++ d2)) (bind m k).
Proof.
  intros Hm Hk c b c' w H. apply bind_ret_inv in H as (x&c1&w1&w2&H1&H2&->).
  eapply owed_trans; [by eapply Hm|by eapply Hk].
Qed.

(** Steps that do not touch the completions. *)
Definition uninvolved (e : cevent) : Prop := match e with Ce_connected _ _ | Ce_disconnected _ => False | _ => True end.
Lemma uninvolved_events w : Forall uninvolved w -> connected w = [] /\ disconnected w = [].
Proof. induction 1 as [|e w He _ [IH1 IH2]]; [done|]. by destruct e. Qed.
Lemma even_same c c' w : Forall uninvolved w -> cl_connects c' = cl_connects c ->
  cl_disconnects c' = cl_disconnects c -> even c c' w.
Proof. intros [Hw1 Hw2]%uninvolved_events H1 H2. unfold balance. by rewrite Hw1, Hw2, H1, H2. Qed.

Lemma even_complete_connect r : yields even (complete_connect r).
Proof.
  intros c x c' w. rewrite complete_connect_run. intros [= <- <- <-]. split; cbn; [|].
  - rewrite app_nil_r. induction (cl_connects c); cbn; [done|by constructor].
  - by induction (cl_connects c).
Qed.
Lemma even_complete_disconnect : yields even complete_disconnect.
Proof.
  intros c x c' w. rewrite complete_disconnect_run. intros [= <- <- <-]. split; cbn.
  - by induction (cl_disconnects c).
  - rewrite app_nil_r. induction (cl_disconnects c); cbn; [done|by constructor].
Qed.
Lemma even_enter_state next i ca : yields even (enter_state next i ca).
Proof.
  intros c x c' w. rewrite enter_state_run. intros [= <- <- <-]. apply even_same; [|done..].
  destruct (decide _); by repeat constructor.
Qed.
Lemma even_on_part {S E A} here put event (m : M S E A) :
  (forall e, uninvolved (event e)) -> (forall s c, cl_connects (put s c) = cl_connects c) ->
  (forall s c, cl_disconnects (put s c) = cl_disconnects c) -> yields even (on_part here put event m).
Proof.
  intros He H1 H2 c x c' w. unfold on_part. destruct (m (here c)) as [[r s] w1]. intros [= -> <- <-].
  apply even_same; [|done..]. apply Forall_elem. intros e [e' [-> _]]%list_elem_of_fmap. apply He.
Qed.
#[local] Hint Resolve even_complete_connect even_complete_disconnect even_enter_state : fnt.

Ltac even_tac :=
  repeat first
    [ solve [eauto with fnt]
    | apply (yields_balance_bind [] [] [] []); [|intros ?]
    | apply yields_ret, _ | apply yields_throw
    | apply even_on_part; [done|done|done]
    | (apply yields_respects; (apply respects_get || apply respects_gets || apply respects_lift); apply _)
    | (intros ? ? ? ? [= <- <- <-]; apply even_same; [by repeat constructor|done|done])
    | match goal with
      | |- yields _ (match ?x with _ => _ end) => destruct x
      | |- yields _ (let _ := _ in _) => cbv zeta
      | |- yields _ (when ?b _) => unfold when; destruct b
      end ].

Section Accounts.
Context (endpoint : Endpoint) (su : surrounding).

Lemma even_use_transport m : yields even (use_transport m).
Proof. unfold use_transport. even_tac. Qed.
#[local] Hint Resolve even_use_transport : fnt.
Lemma even_deliver e : yields even (deliver su e).
Proof. destruct e; cbn [deliver]; unfold on_ready, on_datapoints, on_poller; even_tac. Qed.
Lemma even_forM {A} (l : list A) f : (forall x, yields even (f x)) -> yields even (forM l f).
Proof.
  intros Hf. induction l as [|x l IH]; cbn [forM]; [apply yields_ret, _|].
  by apply (yields_balance_bind [] [] [] []).
Qed.
Lemma even_run_session {A} (m : senv -> M (Dispatcher * Core) event A) : yields even (run_session su m).
Proof.
  intros c x c' w. unfold run_session. destruct (cl_session c) as [[config st]|]; [|done].
  destruct (m _ st) as [[r st'] w0]. intros E.
  apply (owed_trans [] [] [] [] c (set_cl_session (Some (config, st')) c) c' []); [by apply even_same|].
  revert E. apply (yields_balance_bind [] [] [] []); [apply even_forM, even_deliver|].
  intros _. apply yields_respects, respects_lift, _.
Qed.
#[local] Hint Resolve even_run_session even_forM : fnt.
Lemma even_connection_lost e : yields even (handle_connection_lost su e).
Proof. unfold handle_connection_lost. even_tac. Qed.
#[local] Hint Resolve even_connection_lost : fnt.
Lemma even_transport_closed e : yields even (handle_transport_closed su e).
Proof. unfold handle_transport_closed, on_datapoints, cancel_tick. even_tac. Qed.
#[local] Hint Resolve even_transport_closed : fnt.
Lemma even_on_dial r : yields even (on_dial su r).
Proof. unfold on_dial, arm_tick. even_tac. Qed.
#[local] Hint Resolve even_on_dial : fnt.
Lemma even_tevent t e : yields even (handle_tevent su t e).
Proof. destruct e; cbn [handle_tevent]; even_tac. Qed.
#[local] Hint Resolve even_tevent : fnt.
Lemma even_dialer_callback m : yields even (dialer_callback su m).
Proof.
  intros c. revert c. apply (yields_balance_bind [] [] [] []); [apply yields_respects, respects_gets, _|].
  intros [t|]; [|apply yields_ret, _]. destruct (m t) as [[r t'] w]. even_tac.
Qed.
Lemma even_transport_callback m : yields even (transport_callback su m).
Proof.
  intros c. revert c. apply (yields_balance_bind [] [] [] []); [apply yields_respects, respects_gets, _|].
  intros [t|]; [|apply yields_ret, _]. destruct (m t) as [[r t'] w]. even_tac.
Qed.
#[local] Hint Resolve even_dialer_callback even_transport_callback : fnt.

Lemma yields_balance_then {A B} g d (m : M Client cevent A) (k : A -> M Client cevent B) :
  yields (balance g d) m -> (forall x, yields even (k x)) -> yields (balance g d) (bind m k).
Proof. intros Hm Hk. rewrite <- (app_nil_r g), <- (app_nil_r d). by apply yields_balance_bind. Qed.
Lemma yields_balance_after {A B} g d (m : M Client cevent A) (k : A -> M Client cevent B) :
  yields even m -> (forall x, yields (balance g d) (k x)) -> yields (balance g d) (bind m k).
Proof. apply (yields_balance_bind [] []). Qed.
Lemma balance_push_connect h : yields (balance (option_list h) [])
  (modify (fun c => set_cl_connects (cl_connects c ++ option_list h) c) : M Client cevent unit).
Proof. intros c x c' w [= <- <- <-]. split; cbn; [apply comm, _|done]. Qed.
Lemma balance_push_disconnect h : yields (balance [] (option_list h))
  (modify (fun c => set_cl_disconnects (cl_disconnects c ++ option_list h) c) : M Client cevent unit).
Proof. intros c x c' w [= <- <- <-]. split; cbn; [done|apply comm, _]. Qed.
Lemma balance_connected h r : yields (balance [h] []) (emit (Ce_connected h r)).
Proof. intros c x c' w [= <- <- <-]. by split. Qed.
Lemma balance_disconnected h : yields (balance [] [h]) (emit (Ce_disconnected h)).
Proof. intros c x c' w [= <- <- <-]. by split. Qed.

Lemma even_get {A} (f : Client -> A) : yields even (gets f).
Proof. apply yields_respects, respects_gets, _. Qed.
Lemma even_state : yields even get.
Proof. apply yields_respects, respects_get, _. Qed.
#[local] Hint Resolve even_get even_state : fnt.

Lemma even_ensure_session : yields even (ensure_session su).
Proof. unfold ensure_session. even_tac. Qed.
#[local] Hint Resolve even_ensure_session : fnt.

Lemma begin_connect_balance h : yields (balance (option_list h) []) (begin_connect endpoint su h).
Proof.
  unfold begin_connect. apply yields_balance_after; [auto with fnt|]. intros current.
  destruct (decide (current = CS_Ready)).
  { destruct h as [h|]; [|apply yields_ret, _]. apply yields_balance_after; [auto with fnt|].
    intros [i|]; [apply balance_connected|apply yields_throw]. }
  destruct (decide (current = CS_Closing)).
  { destruct h as [h|]; [apply balance_connected|apply yields_ret, _]. }
  apply yields_balance_then; [apply balance_push_connect|]. intros _.
  unfold cancel_reconnect. even_tac.
Qed.

Lemma request_disconnect_balance h : yields (balance [] (option_list h)) (request_disconnect su h).
Proof.
  unfold request_disconnect, on_poller, cancel_reconnect, cancel_tick.
  do 5 (apply yields_balance_after; [even_tac|intros ?]).
  destruct (cl_transport _); [|destruct (cl_dialer _)].
  - apply yields_balance_then; [apply balance_push_disconnect|]. auto with fnt.
  - apply yields_balance_then; [apply balance_push_disconnect|]. auto with fnt.
  - do 2 (apply yields_balance_after; [even_tac|intros ?]).
    destruct h; [apply balance_disconnected|apply yields_ret, _].
Qed.

Definition asked_connect (call : ccall) : list nat :=
  match call with Cc_connect h => option_list h | _ => [] end.
Definition asked_disconnect (call : ccall) : list nat :=
  match call with Cc_disconnect h => option_list h | _ => [] end.

Lemma run_ccall_balance call :
  yields (balance (asked_connect call) (asked_disconnect call)) (run_ccall endpoint su call).
Proof.
  pose proof (begin_connect_balance None : yields even _).
  destruct call; cbn [run_ccall asked_connect asked_disconnect];
    [apply begin_connect_balance|apply request_disconnect_balance|..];
    unfold submit_request, send_raw, on_frame, read_frame, on_tick, on_reconnect_timer, arm_tick,
      on_datapoints, on_poller; even_tac.
Qed.
End Accounts.

(** ** The client and its connection *)

(** An attempt, and an open connection, as the client holds them. *)
Definition dialing (t : Transport) : Prop := connecting (tr_phase t) /\ tr_open_completion t = Some 0%nat.
Definition linked (t : Transport) : Prop :=
  (tr_phase t = Ph_Open \/ tr_phase t = Ph_Closing) /\ tr_open_completion t = None /\
  tr_close_handler t = Some 0%nat /\ tr_receive_handler t = true.

Record coherent (c : Client) : Prop := {
  ch_state : cl_state c ∈ [CS_Disconnected; CS_Resolving; CS_FountainHandshaking; CS_Ready; CS_Reconnecting];
  ch_dialer : match cl_dialer c with
              | Some t => cl_state c = CS_Resolving /\ dialing t
              | None => cl_state c <> CS_Resolving
              end;
  ch_transport : match cl_transport c with
                 | Some t => (cl_state c = CS_FountainHandshaking \/ cl_state c = CS_Ready) /\ linked t
                 | None => cl_state c <> CS_FountainHandshaking /\ cl_state c <> CS_Ready
                 end;
  ch_session : cl_state c <> CS_Disconnected -> cl_state c <> CS_Reconnecting -> cl_session c <> None;
  ch_ready : cl_state c = CS_Ready -> cl_info c <> None /\ cl_was_ready c = true;
  ch_connects : cl_connects c <> [] -> cl_state c = CS_Resolving \/ cl_state c = CS_FountainHandshaking;
  ch_disconnects : cl_disconnects c <> [] -> cl_user_disconnect c = true /\ cl_transport c <> None;
  ch_locked : cl_state c <> CS_Disconnected -> sc_locked (cl_security c) = true;
  ch_reconnect : cl_was_ready c = false -> cl_reconnect_waits c = 0%nat /\ cl_state c <> CS_Reconnecting
}.

(** A step that leaves the life cycle alone. *)
Record mild (c c' : Client) : Prop := {
  mi_state : cl_state c' = cl_state c;
  mi_info : cl_info c' = cl_info c;
  mi_dialer : cl_dialer c' = cl_dialer c;
  mi_transport : match cl_transport c, cl_transport c' with
                 | Some t, Some t' => linked t -> linked t'
                 | None, None => True
                 | _, _ => False
                 end;
  mi_session : cl_session c' = None <-> cl_session c = None;
  mi_connects : cl_connects c' = cl_connects c;
  mi_disconnects : cl_disconnects c' = cl_disconnects c;
  mi_user : cl_user_disconnect c' = cl_user_disconnect c;
  mi_was_ready : cl_was_ready c' = cl_was_ready c;
  mi_backoff : cl_backoff c' = cl_backoff c;
  mi_locked : sc_locked (cl_security c') = sc_locked (cl_security c);
  mi_waits : cl_reconnect_waits c' = cl_reconnect_waits c
}.
#[export] Instance mild_preorder : PreOrder mild.
Proof.
  split.
  - intros c. split; try done. by destruct (cl_transport c).
  - intros c1 c2 c3 [] []. split; try congruence; [|tauto].
    destruct (cl_transport c1), (cl_transport c2), (cl_transport c3); try done; auto.
Qed.
Abbreviation mildR := (fun (c c' : Client) (_ : list cevent) => mild c c').

Lemma mild_coherent c c' : mild c c' -> coherent c -> coherent c'.
Proof.
  intros [] []. split; try congruence.
  - by rewrite mi_state0, mi_dialer0.
  - rewrite mi_state0. destruct (cl_transport c), (cl_transport c'); try done. destruct ch_transport0. auto.
  - rewrite mi_state0, mi_session0. done.
  - rewrite mi_state0, mi_info0, mi_was_ready0. done.
  - rewrite mi_state0, mi_connects0. done.
  - rewrite mi_disconnects0, mi_user0. intros H. destruct (ch_disconnects0 H) as [? Ht]. split; [done|].
    by destruct (cl_transport c), (cl_transport c').
  - rewrite mi_state0, mi_locked0. done.
  - rewrite mi_state0, mi_was_ready0, mi_waits0. done.
Qed.

Lemma linked_send f t r t' w : async_send quiet f None t = (r, t', w) -> linked t -> linked t'.
Proof.
  unfold async_send, begin_write. intros E [Hp Ho]. revert E. rewrite run_get.
  destruct (is_open t); cbn [negb]; [|intros [= _ <- _]; by split].
  case_match; [intros [= _ <- _]; by split|]. case_match; [intros [= _ <- _]; by split|].
  rewrite run_modify. unfold bind. cbn. destruct (tr_write_active t); cbn; [intros [= _ <- _]; by split|].
  destruct (tr_tx_queue t ++ _); intros [= _ <- _]; by split.
Qed.
Lemma linked_close code reason t r t' w : close quiet code reason t = (r, t', w) -> linked t -> linked t'.
Proof.
  intros E [Hp Ho]. destruct t as [ph uc q wa oc rh ch]. cbn in Hp. revert E.
  destruct Hp as [-> | ->]; cbn; intros [= _ <- _]; (split; [by right|done]).
Qed.

Lemma mild_use_transport m : (forall t r t' w, m t = (r, t', w) -> linked t -> linked t') ->
  respects mildR (use_transport m).
Proof.
  intros Hm c r c' w. unfold use_transport. rewrite run_gets.
  destruct (cl_transport c) as [t|] eqn:Et; [|intros [= _ <- _]; reflexivity].
  unfold on_part. destruct (m t) as [[r1 t1] w1] eqn:Em. intros [= _ <- _].
  split; try done. rewrite Et. cbn. by eapply Hm.
Qed.

Definition not_ready (e : event) : Prop := match e with Ev_ready _ => False | _ => True end.

Section Coherent.
Context (endpoint : Endpoint) (su : surrounding).

Lemma mild_part {S E A} here put event (m : M S E A) : (forall s c, mild c (put s c)) ->
  respects mildR (on_part here put event m).
Proof. intros H c r c' w. unfold on_part. destruct (m (here c)) as [[r1 s] w1]. intros [= _ <- _]. apply H. Qed.

Lemma mild_set_datapoints s c : mild c (set_cl_datapoints s c).
Proof. split; try done. by cbn; destruct (cl_transport c). Qed.
Lemma mild_set_poller s c : mild c (set_cl_poller s c).
Proof. split; try done. by cbn; destruct (cl_transport c). Qed.
Lemma mild_set_failure s c : mild c (set_cl_failure s c).
Proof. split; try done. by cbn; destruct (cl_transport c). Qed.
Lemma mild_set_session s c : cl_session c <> None -> mild c (set_cl_session (Some s) c).
Proof. intros H. split; try done. by cbn; destruct (cl_transport c). Qed.
#[local] Hint Resolve mild_set_datapoints mild_set_poller mild_set_failure : fnt.

Lemma mild_call_handler h r : respects mildR (call_handler su h r).
Proof.
  unfold call_handler. respects_step; [by apply respects_emit|]. apply mild_part. intros s c.
  split; try done. by cbn; destruct (cl_transport c).
Qed.
Lemma mild_deliver e : not_ready e -> respects mildR (deliver su e).
Proof.
  destruct e; cbn [deliver not_ready]; intros He; try done;
    try (apply respects_emit; reflexivity).
  - apply mild_call_handler.
  - apply mild_use_transport. intros *. apply linked_send.
  - apply mild_use_transport. intros *. apply linked_close.
  - apply respects_modify. auto with fnt.
  - respects_step; [apply mild_part; auto with fnt|by respects_step].
Qed.

Lemma mild_run_session {A} (m : senv -> M (Dispatcher * Core) event A) :
  (forall env s r s' w, m env s = (r, s', w) -> Forall not_ready w) -> respects mildR (run_session su m).
Proof.
  intros Hm c r c' w. unfold run_session. destruct (cl_session c) as [[config st]|] eqn:Es; [|intros [= _ <- _]; reflexivity].
  destruct (m _ st) as [[r1 st'] w0] eqn:Em. apply Hm in Em. intros E.
  transitivity (set_cl_session (Some (config, st')) c); [by apply mild_set_session; rewrite Es|]. revert E.
  enough (respects mildR (forM w0 (deliver su) ;;; lift r1)) as H by apply H.
  respects_step; [|by respects_step].
  induction Em as [|e w0 He _ IH]; [by apply respects_ret, _|]. cbn [forM].
  apply respects_bind; [apply _|by apply mild_deliver|done].
Qed.

(** Only a received frame makes a session ready. *)
Lemma not_ready_send env spec :
  respects (fun (_ _ : Core) (w : list event) => Forall not_ready w)
    (send_request (Sender := session_sender env) spec).
Proof.
  intros c r c' w H. assert (Forall (fun e => is_send e = true) w) as Hw.
  { apply encode_and_send_tame in H as [[Ht _]|(_ & Ht & _)]; apply (tame_events _ _ _ Ht). }
  eapply list.Forall_impl; [exact Hw|]. by intros [].
Qed.
Lemma not_ready_request env spec h s r s' w : request env spec h s = (r, s', w) -> Forall not_ready w.
Proof.
  intros H. revert H. enough (respects (fun (_ _ : Dispatcher * Core) (w : list event) => Forall not_ready w)
    (request env spec h)) as Hr by apply Hr.
  unfold request. respects_step.
  - intros [d c] r0 s0 w0 [= _ _ <-]. constructor.
  - intros s0 r0 s1 w0 H. by eapply (events_submit (HX := session_sender env) not_ready ltac:(done)
      (not_ready_send env)) in H.
Qed.
Lemma not_ready_closed e s r s' w : on_transport_closed e s = (r, s', w) -> Forall not_ready w.
Proof.
  destruct s as [d c]. unfold on_transport_closed. destruct (enter_eq Closed d c) as (d1 & He & _).
  rewrite (run_bind_quiet _ _ _ _ _ He).
  destruct (fail_all_spec e d1 (set_state Closed c)) as (d2 & Hf & _). rewrite Hf.
  intros [= _ _ <-]. eapply list.Forall_impl; [exact (answers_calls d1 e)|]. by intros [].
Qed.
Lemma not_ready_open env s r s' w : on_transport_open env s = (r, s', w) -> Forall not_ready w.
Proof.
  enough (respects (fun (_ _ : Dispatcher * Core) (w : list event) => Forall not_ready w) (on_transport_open env))
    as H by apply H.
  unfold on_transport_open, now, smod, oracle, cmod.
  repeat respects_step; try (apply respects_on_snd; intros ?); repeat respects_step; try constructor.
  intros [d c] r1 s1 w1. destruct (enter_eq AwaitHello d c) as (d1 & -> & _). intros [= _ _ <-]. constructor.
Qed.
Lemma not_ready_message env type body irt (s : Dispatcher * Core) r s' w :
  on_snd (send_message env type body irt) s = (r, s', w) -> Forall not_ready w.
Proof.
  enough (respects (fun (_ _ : Dispatcher * Core) (w : list event) => Forall not_ready w)
    (on_snd (send_message env type body irt))) as H by (intros E; exact (H _ _ _ _ E)).
  apply respects_on_snd. intros _. apply tame_only_sends; [apply tame_send_message|]. by intros [].
Qed.
Lemma not_ready_callbacks cb s r s' w : set_callbacks cb s = (r, s', w) -> Forall not_ready w.
Proof. intros [= _ _ <-]. constructor. Qed.

(** While a connection is held, whatever the session does keeps the client coherent. *)
Definition flying (c c' : Client) (_ : list cevent) : Prop :=
  coherent c -> cl_transport c <> None -> coherent c' /\ cl_transport c' <> None.
#[export] Instance composable_flying : Composable flying.
Proof. split; [by intros c|]. intros c1 c2 c3 w1 w2 H1 H2 Hc Ht. destruct (H1 Hc Ht). auto. Qed.

Lemma flying_mild c c' w : mild c c' -> flying c c' w.
Proof.
  intros Hm Hc Ht. split; [by eapply mild_coherent|]. destruct Hm. by destruct (cl_transport c), (cl_transport c').
Qed.

Lemma flying_ready i : respects flying (on_ready i).
Proof.
  intros c r c' w. unfold on_ready. rewrite !run_modify. unfold bind at 1. rewrite enter_state_run.
  erewrite run_bind_quiet by reflexivity. rewrite complete_connect_run. cbn.
  intros [= _ <- _] [] Ht. cbn in Ht. destruct (cl_transport c) as [t|] eqn:Et; [|done].
  destruct ch_transport0 as [Hs Hl]. assert (cl_state c <> CS_Disconnected /\ cl_state c <> CS_Reconnecting) as [Hd Hr] by (destruct Hs; split; congruence).
  split; [|cbn; congruence]. split; cbn; try done; rewrite ?Et.
  - set_solver.
  - destruct (cl_dialer c); [|done]. destruct Hs; destruct ch_dialer0; congruence.
  - split; [by right|done].
  - auto.
  - auto.
  - auto.
Qed.

Lemma flying_session {A} (m : senv -> M (Dispatcher * Core) event A) : respects flying (run_session su m).
Proof.
  intros c r c' w. unfold run_session. destruct (cl_session c) as [[config st]|] eqn:Es;
    [|intros [= _ <- _]; apply composable_flying].
  destruct (m _ st) as [[r1 st'] w0]. intros E. apply (comp_trans _ (set_cl_session (Some (config, st')) c) _ [] w).
  - apply flying_mild, mild_set_session. by rewrite Es.
  - revert E. enough (respects flying (forM w0 (deliver su) ;;; lift r1)) as H by apply H.
    respects_step; [|by respects_step]. apply respects_forM; [apply _|]. intros e.
    destruct e; try (intros ? ? ? ? H; apply flying_mild; by eapply mild_deliver in H).
    apply flying_ready.
Qed.

(** The connection and the attempt are gone. *)
Record detached (c : Client) : Prop := {
  de_dialer : cl_dialer c = None;
  de_transport : cl_transport c = None;
  de_locked : sc_locked (cl_security c) = true;
  de_disconnects : cl_disconnects c <> [] -> cl_user_disconnect c = true;
  de_reconnect : cl_was_ready c = false -> cl_reconnect_waits c = 0%nat
}.

(** What a loss does, branch by branch. *)
Lemma lost_user e c : cl_user_disconnect c = true ->
  exists w, handle_connection_lost su e c =
    (Ret tt, set_cl_disconnects [] (set_cl_connects [] (set_cl_state CS_Disconnected
       (set_cl_security (unlock (cl_security c)) c))), w).
Proof.
  intros Hu. unfold handle_connection_lost. rewrite run_get, Hu, run_modify.
  eexists. eapply run_bind; [apply enter_state_run|]. eapply run_bind; [apply complete_connect_run|].
  apply complete_disconnect_run.
Qed.
Lemma lost_first e c : cl_user_disconnect c = false ->
  cl_was_ready c = false \/ rp_enabled (co_reconnect (cl_options c)) = false ->
  exists w, handle_connection_lost su e c =
    (Ret tt, set_cl_state CS_Disconnected (set_cl_security (unlock (cl_security c)) (set_cl_connects [] c)), w).
Proof.
  intros Hu Hw. unfold handle_connection_lost. rewrite run_get, Hu.
  eexists. eapply run_bind; [apply complete_connect_run|]. cbv zeta.
  assert (negb (cl_was_ready c) || negb (rp_enabled (co_reconnect (cl_options c))) = true) as ->.
  { destruct Hw as [-> | ->]; [done|]. by rewrite orb_true_r. }
  rewrite run_modify. apply enter_state_run.
Qed.
(** The delay before the next attempt, and the backoff after it is chosen. *)
Definition reconnect_delay (c : Client) (e : Error) : Z :=
  let policy := co_reconnect (cl_options c) in
  if decide (err_domain e = Dom_Authentication) then rp_authentication_delay policy
  else let backoff := next_backoff policy (cl_backoff c) in
       if rp_jitter policy && (1 <? backoff) then backoff + su_jitter su (backoff / 4) else backoff.
Definition reconnect_backoff (c : Client) (e : Error) : Z :=
  if decide (err_domain e = Dom_Authentication) then cl_backoff c
  else next_backoff (co_reconnect (cl_options c)) (cl_backoff c).
Lemma lost_again e c : cl_user_disconnect c = false -> cl_was_ready c = true ->
  rp_enabled (co_reconnect (cl_options c)) = true ->
  exists w, connected w = cl_connects c /\ handle_connection_lost su e c =
    (Ret tt, set_cl_reconnect_waits (S (cl_reconnect_waits c)) (set_cl_state CS_Reconnecting
       (set_cl_backoff (reconnect_backoff c e) (set_cl_connects [] c))), w ++ [Ce_arm_reconnect (reconnect_delay c e)]).
Proof.
  intros Hu Hw Hr. unfold handle_connection_lost, reconnect_backoff, reconnect_delay. rewrite run_get, Hu.
  exists (map (fun h => Ce_connected h (Err e)) (cl_connects c) ++
    (if decide (cl_state c = CS_Reconnecting) then []
     else [Ce_bus (B_state (mkStateChange (cl_state c) CS_Reconnecting None (Some e)))])).
  split.
  { rewrite connected_app. destruct (decide _); cbn; rewrite app_nil_r; induction (cl_connects c); cbn; by f_equal. }
  rewrite <- app_assoc. eapply run_bind; [apply complete_connect_run|]. cbv zeta. rewrite Hw, Hr. cbn [negb orb].
  set (c1 := set_cl_connects [] c).
  assert (Hb : set_cl_backoff (cl_backoff c) c1 = c1) by (by destruct c).
  destruct (decide (err_domain e = Dom_Authentication)).
  - rewrite run_ret, Hb. eapply run_bind; [exact (enter_state_run CS_Reconnecting None (Some e) c1)|].
    by rewrite run_modify.
  - rewrite run_assoc, run_modify, run_ret.
    eapply run_bind; [exact (enter_state_run CS_Reconnecting None (Some e) (set_cl_backoff _ c1))|].
    by rewrite run_modify.
Qed.

Lemma lost_coherent e c r c' w : detached c -> handle_connection_lost su e c = (r, c', w) ->
  coherent c' /\ r = Ret tt.
Proof.
  intros []. destruct (cl_user_disconnect c) eqn:Eu.
  { destruct (lost_user e c Eu) as [w0 ->]. intros [= <- <- _]. split; [|done].
    split; cbn; rewrite ?de_dialer0, ?de_transport0; try done; [set_solver|]. intros. split; [auto|done]. }
  assert (cl_disconnects c = []) as Hd.
  { destruct (cl_disconnects c); [done|]. by discriminate de_disconnects0. }
  destruct (cl_was_ready c) eqn:Ew, (rp_enabled (co_reconnect (cl_options c))) eqn:Er;
    [destruct (lost_again e c Eu Ew Er) as (w0&_& ->)
    |destruct (lost_first e c Eu (or_intror Er)) as [w0 ->]
    |destruct (lost_first e c Eu (or_introl Ew)) as [w0 ->]..];
    intros [= <- <- _]; (split; [|done]);
    (split; cbn; rewrite ?de_dialer0, ?de_transport0, ?Hd, ?Ew; try done; try set_solver; auto).
Qed.

Lemma mild_detached c c' : mild c c' -> detached c -> detached c'.
Proof.
  intros [] []. split; try congruence.
  - rewrite de_transport0 in mi_transport0. by destruct (cl_transport c').
  - by rewrite mi_disconnects0, mi_user0.
  - by rewrite mi_was_ready0, mi_waits0.
Qed.

Lemma closed_coherent e c c' w : detached (set_cl_transport None c) ->
  handle_transport_closed su e c = (Ret tt, c', w) -> coherent c'.
Proof.
  intros Hd. unfold handle_transport_closed. set (c0 := set_cl_transport None c) in *.
  intros H. apply bind_ret_inv in H as (?&?&?&w0&[= <- <- <-]&H&->). rewrite run_modify in H. fold c0 in H.
  rewrite run_get in H. apply bind_ret_inv in H as ([]&c1&?&w1&H1&H&->).
  apply bind_ret_inv in H as ([]&c2&?&w2&H2&H&->).
  refine (proj1 (lost_coherent _ _ _ _ _ _ H)). apply (mild_detached c1).
  { revert H2. apply mild_part. auto with fnt. }
  apply (mild_detached c0); [|done]. revert H1. destruct (cl_session c0); [|by intros [= <- <-]].
  apply mild_run_session. intros _. apply not_ready_closed.
Qed.

Lemma dial_coherent r c c' w : coherent c \/ (exists c0, coherent c0 /\ exists t, c = set_cl_dialer (Some t) c0) ->
  cl_state c = CS_Resolving ->
  match r with Ok t => tr_phase t = Ph_Open /\ tr_open_completion t = None | Err _ => True end ->
  on_dial su r c = (Ret tt, c', w) -> coherent c'.
Proof.
  intros Hc0 Hs Hr.
  assert (Hc : cl_transport c = None /\ cl_session c <> None /\ sc_locked (cl_security c) = true /\
    cl_disconnects c = [] /\ (cl_was_ready c = false -> cl_reconnect_waits c = 0%nat)).
  { assert (exists c0, coherent c0 /\ cl_state c0 = CS_Resolving /\ cl_transport c0 = cl_transport c /\
      cl_session c0 = cl_session c /\ cl_security c0 = cl_security c /\ cl_disconnects c0 = cl_disconnects c /\
      cl_was_ready c0 = cl_was_ready c /\ cl_reconnect_waits c0 = cl_reconnect_waits c) as (c0&[]&Hs0&<-&<-&<-&<-&<-&<-).
    { destruct Hc0 as [?|(c0&?&t&->)]; [by exists c|by exists c0]. }
    assert (cl_transport c0 = None) as Ht.
    { destruct (cl_transport c0); [|done]. destruct ch_transport0 as [[?|?] _]; congruence. }
    split; [done|]. split; [apply ch_session0; congruence|]. split; [apply ch_locked0; congruence|]. split.
    - destruct (cl_disconnects c0); [done|]. by destruct ch_disconnects0 as [_ []].
    - intros H. by apply ch_reconnect0. }
  destruct Hc as (Ht&Hse&Hl&Hd&Hw). unfold on_dial. rewrite run_modify. destruct r as [t|e].
  - rewrite run_modify. set (c1 := set_cl_transport _ _). intros H.
    apply bind_ret_inv in H as ([]&c2&?&w2&H1&H&->). rewrite enter_state_run in H1. injection H1 as <- _.
    apply bind_ret_inv in H as ([]&c3&?&w3&H2&H&->).
    assert (coherent (set_cl_state CS_FountainHandshaking c1)) as Hc1.
    { destruct Hr as [Hr1 Hr2]. split; cbn; try done; rewrite ?Hd; try done; [set_solver| |by right|by auto].
      split; [by left|]. split; [by left|done]. }
    assert (coherent c3) as Hc3 by by eapply (flying_session (fun env => on_transport_open env)); [exact H2|..].
    revert H. unfold arm_tick. rewrite run_modify. intros [= <- _]. eapply mild_coherent; [|exact Hc3].
    split; try done. by cbn; destruct (cl_transport c3).
  - intros H. refine (proj1 (lost_coherent _ _ _ _ _ _ H)). split; cbn; rewrite ?Hd; auto; done.
Qed.

(** What a step of the attempt does to its owner: nothing, its failure, or its
    success. *)
Definition plain (e : tevent) : Prop := match e with Te_opened _ _ | Te_closed _ _ => False | _ => True end.
Inductive dialed (t : Transport) (w : list tevent) : Prop :=
| dialed_on : dialing t -> Forall plain w -> dialed t w
| dialed_failed w0 e : w = w0 ++ [Te_opened 0 (Err e)] -> Forall plain w0 -> dialed t w
| dialed_open : tr_phase t = Ph_Open -> tr_open_completion t = None -> w = [Te_opened 0 ok; Te_read] -> dialed t w.
Inductive lasting (t : Transport) (w : list tevent) : Prop :=
| lasting_on : linked t -> Forall plain w -> lasting t w
| lasting_closed w0 e : w = w0 ++ [Te_closed 0 e] -> Forall plain w0 -> lasting t w.

Lemma plain_run t w c : Forall plain w -> forM w (handle_tevent su t) c = (Ret tt, c, map Ce_transport w).
Proof.
  intros H. revert c. induction H as [|e w He _ IH]; intros c; [done|]. cbn [forM map].
  change (Ce_transport e :: ?x) with ([Ce_transport e] ++ x). eapply run_bind; [|apply IH]. by destruct e.
Qed.
Lemma plain_then t w1 w2 c c' x : Forall plain w1 -> forM (w1 ++ w2) (handle_tevent su t) c = (Ret tt, c', x) ->
  exists y, forM w2 (handle_tevent su t) c = (Ret tt, c', y) /\ x = map Ce_transport w1 ++ y.
Proof.
  intros Hw. revert x. induction Hw as [|e w1 He _ IH]; intros x; cbn [app forM map]; [eauto|].
  intros H. apply bind_ret_inv in H as ([]&c1&?&?&H1&H&->).
  assert (c1 = c /\ x0 = [Ce_transport e]) as [-> ->] by (destruct e; try done; by injection H1 as <- <-).
  destruct (IH _ H) as (y&Hy& ->). by exists y.
Qed.

(** The callbacks, case by case. *)
Lemma dialer_cases m c c' w : (forall t, cl_dialer c = Some t -> dialed (m t).1.2 (m t).2) ->
  dialer_callback su m c = (Ret tt, c', w) ->
  (cl_dialer c = None /\ c' = c /\ w = []) \/
  exists t t', cl_dialer c = Some t /\
    ((dialing t' /\ c' = set_cl_dialer (Some t') c /\ exists w0, w = map Ce_transport w0) \/
     exists r w0 y w1, on_dial su r (set_cl_dialer (Some t') c) = (Ret tt, c', y) /\
       match r with Ok t => tr_phase t = Ph_Open /\ tr_open_completion t = None | Err _ => True end /\
       w = map Ce_transport w0 ++ y ++ map Ce_transport w1).
Proof.
  intros Hm. unfold dialer_callback. rewrite run_gets.
  destruct (cl_dialer c) as [t|]; [|intros [= <- <-]; by left]. specialize (Hm t eq_refl).
  destruct (m t) as [[r t'] wt]. cbn [fst snd] in Hm. rewrite run_modify. set (c1 := set_cl_dialer (Some t') c).
  intros H. apply bind_ret_inv in H as ([]&c2&w2&w3&H&H2&->).
  assert (c2 = c' /\ w3 = []) as [-> ->] by (unfold lift in H2; split; congruence). clear H2. rewrite app_nil_r.
  right. exists t, t'. split; [done|]. destruct Hm as [Hdi Hp|w0 e -> Hp|Hp Ho ->].
  - left. rewrite plain_run in H by done. injection H as <- <-. eauto.
  - right. apply plain_then in H as (y&H& ->); [|done]. cbn [forM handle_tevent] in H.
    apply bind_ret_inv in H as ([]&c3&y0&?&H&[= <- <-]&->). exists (Err e), w0, y0, []. by rewrite !app_nil_r.
  - right. cbn [forM] in H. apply bind_ret_inv in H as ([]&c3&y&?&H&H2&->). injection H2 as <- <-.
    exists (Ok t'), [], y, [Te_read]. done.
Qed.
Lemma transport_cases m c c' w : (forall t, cl_transport c = Some t -> lasting (m t).1.2 (m t).2) ->
  transport_callback su m c = (Ret tt, c', w) ->
  (cl_transport c = None /\ c' = c /\ w = []) \/
  exists t t', cl_transport c = Some t /\
    ((linked t' /\ c' = set_cl_transport (Some t') c /\ exists w0, w = map Ce_transport w0) \/
     exists e w0 y, handle_transport_closed su e (set_cl_transport (Some t') c) = (Ret tt, c', y) /\
       w = map Ce_transport w0 ++ y).
Proof.
  intros Hm. unfold transport_callback. rewrite run_gets.
  destruct (cl_transport c) as [t|]; [|intros [= <- <-]; by left]. specialize (Hm t eq_refl).
  destruct (m t) as [[r t'] wt]. cbn [fst snd] in Hm. rewrite run_modify. set (c1 := set_cl_transport (Some t') c).
  intros H. apply bind_ret_inv in H as ([]&c2&w2&w3&H&H2&->).
  assert (c2 = c' /\ w3 = []) as [-> ->] by (unfold lift in H2; split; congruence). clear H2. rewrite app_nil_r.
  right. exists t, t'. split; [done|]. destruct Hm as [Hdi Hp|w0 e -> Hp].
  - left. rewrite plain_run in H by done. injection H as <- <-. eauto.
  - right. apply plain_then in H as (y&H& ->); [|done]. cbn [forM handle_tevent] in H.
    apply bind_ret_inv in H as ([]&c3&y0&?&H&[= <- <-]&->). exists e, w0, y0. by rewrite app_nil_r.
Qed.

Lemma dialer_coherent m c c' w :
  (forall t, cl_dialer c = Some t -> dialed (m t).1.2 (m t).2) ->
  coherent c -> dialer_callback su m c = (Ret tt, c', w) -> coherent c'.
Proof.
  intros Hm Hc [(_& -> &_)|(t&t'&Ed&[(Hd& -> &_)|(r&_&y&_&H&Hr&_)])]%(dialer_cases m); try done;
    pose proof (ch_dialer _ Hc) as Hs; rewrite Ed in Hs; destruct Hs as [Hs _].
  - destruct Hc. by split.
  - eapply dial_coherent; [right; exists c; eauto|exact Hs|exact Hr|exact H].
Qed.

Lemma transport_coherent m c c' w :
  (forall t, cl_transport c = Some t -> lasting (m t).1.2 (m t).2) ->
  coherent c -> transport_callback su m c = (Ret tt, c', w) -> coherent c'.
Proof.
  intros Hm Hc [(_& -> &_)|(t&t'&Et&[(Hl& -> &_)|(e&_&y&H&_)])]%(transport_cases m); try done;
    pose proof (ch_transport _ Hc) as Hs; rewrite Et in Hs; destruct Hs as [Hs _].
  - destruct Hc. split; try done. cbn. intros. by destruct ch_disconnects0.
  - eapply closed_coherent; [|exact H]. destruct Hc.
    assert (cl_state c <> CS_Disconnected) by (destruct Hs; congruence).
    split; cbn; auto; try tauto. destruct (cl_dialer c); [|done]. destruct Hs, ch_dialer0; congruence.
Qed.

Lemma plain_sent q r : Forall plain (sent_errors q r).
Proof. induction q as [|[f [i|]] q IH]; [constructor|by constructor|done]. Qed.
Lemma plain_outcomes w : outcomes w = [] -> Forall plain w.
Proof. induction w as [|e w IH]; [constructor|]. destruct e; cbn; intros H; try done; constructor; auto; done. Qed.

Lemma finish_dialed e t : dialing t -> dialed (finish quiet e t).1.2 (finish quiet e t).2.
Proof.
  intros [Hc Ho]. rewrite finish_quiet, bool_decide_false.
  2: { intros Hp. rewrite Hp in Hc. by destruct Hc as [?|[?|[?|?]]]. }
  cbn [fst snd]. unfold end_events. rewrite Ho. apply (dialed_failed _ _ (Te_shutdown_socket :: sent_errors (tr_tx_queue t) (Err e)) e).
  - done.
  - constructor; [done|apply plain_sent].
Qed.
Lemma dialed_after t w0 w : Forall plain w0 -> (tr_phase t <> Ph_Open \/ w0 = []) -> dialed t w -> dialed t (w0 ++ w).
Proof.
  intros Hp Ho [H1 H2|w1 e -> H2|H1 H2 ->].
  - apply dialed_on; [done|]. by apply Forall_app.
  - apply (dialed_failed _ _ (w0 ++ w1) e); [by rewrite app_assoc|by apply Forall_app].
  - destruct Ho as [?| ->]; [done|]. by apply dialed_open.
Qed.
Lemma finish_closed e t : tr_phase (finish quiet e t).1.2 = Ph_Closed.
Proof. rewrite finish_quiet. by case_bool_decide. Qed.

Lemma dial_step ip policy options c t : dial_handler c = true -> dialing t ->
  match c with
  | Tc_on_resolve None => tr_phase t = Ph_Resolving
  | Tc_on_connect None => tr_phase t = Ph_Connecting
  | Tc_on_tls_handshake None => tr_phase t = Ph_TlsHandshake
  | Tc_on_ws_handshake None => tr_phase t = Ph_WsHandshake
  | _ => True
  end ->
  dialed (run_tcall ip endpoint policy options quiet (fun _ => ret tt) c t).1.2
         (run_tcall ip endpoint policy options quiet (fun _ => ret tt) c t).2.
Proof.
  intros Hh Hd Hp. pose proof Hd as [Hc Ho]. destruct c as [ | | | | | |ec|ec|ec|ec|ec| | | ]; try done; cbn [run_tcall]; destruct ec as [ec|].
  - apply dialed_on; [done|constructor].
  - apply dialed_on; [done|by repeat constructor].
  - unfold on_resolve, bind. cbn [emit].
    match goal with |- context [finish quiet ?e t] => pose proof (finish_dialed e t Hd) as Hf;
      pose proof (finish_closed e t) as Hcl; destruct (finish quiet e t) as [[r t'] w] end.
    cbn [fst snd] in *. apply (dialed_after _ [Te_cancel_resolve_timer]); [by repeat constructor|left; congruence|done].
  - apply dialed_on; [|by repeat constructor]. split; [cbn; unfold connecting; tauto|done].
  - by apply finish_dialed.
  - apply dialed_on; [|by repeat constructor]. split; [cbn; unfold connecting; tauto|done].
  - by apply finish_dialed.
  - apply dialed_on; [|by repeat constructor]. split; [cbn; unfold connecting; tauto|done].
  - by apply finish_dialed.
  - unfold on_ws_handshake. rewrite run_modify, run_get. cbn. rewrite Ho. by apply dialed_open.
Qed.

Lemma cancel_failed t : dialing t -> exists t' w0, Forall plain w0 /\
  cancel quiet t = (Ret tt, t', w0 ++ [Te_opened 0 (Err (cancelled_error "connect"))]).
Proof.
  intros [Hc Ho]. unfold cancel. rewrite run_get, !bool_decide_false.
  2, 3: intros Hp; rewrite Hp in Hc; by destruct Hc as [?|[?|[?|?]]].
  cbn [orb]. rewrite run_modify. unfold bind. cbn [emit]. rewrite finish_quiet, bool_decide_false.
  2: intros Hp; cbn in Hp; rewrite Hp in Hc; by destruct Hc as [?|[?|[?|?]]].
  unfold end_events. cbn [tr_open_completion set_tr_user_close]. rewrite Ho.
  eexists. exists ([Te_cancel_resolve_timer; Te_cancel_resolver; Te_shutdown_socket] ++
    sent_errors (tr_tx_queue t) (Err (cancelled_error "connect"))).
  split; [|by rewrite <- app_assoc]. apply Forall_app. split; [by repeat constructor|apply plain_sent].
Qed.

Lemma finish_lasting e t : linked t -> lasting (finish quiet e t).1.2 (finish quiet e t).2.
Proof.
  intros (Hp&Ho&Hh&_). rewrite finish_quiet, bool_decide_false by (destruct Hp; congruence).
  cbn [fst snd]. unfold end_events. rewrite Ho, Hh.
  assert (was_open t = true) as ->.
  { unfold was_open. destruct Hp as [-> | ->]; [done|]. by rewrite orb_true_r. }
  apply (lasting_closed _ _ (Te_shutdown_socket :: sent_errors (tr_tx_queue t) (Err e)) e); [done|].
  constructor; [done|apply plain_sent].
Qed.
Lemma lasting_after t w0 w : Forall plain w0 -> lasting t w -> lasting t (w0 ++ w).
Proof.
  intros Hp [H1 H2|w1 e -> H2].
  - apply lasting_on; [done|]. by apply Forall_app.
  - apply (lasting_closed _ _ (w0 ++ w1) e); [by rewrite app_assoc|by apply Forall_app].
Qed.
Lemma lasting_close code reason t : linked t -> lasting (close quiet code reason t).1.2 (close quiet code reason t).2.
Proof.
  intros Hl. pose proof (linked_close code reason t) as Hk.
  destruct (close quiet code reason t) as [[r t'] w] eqn:E. cbn [fst snd]. apply lasting_on; [by eapply Hk|].
  destruct t as [ph uc q wa oc rh ch]. destruct Hl as [Hp _]. cbn in Hp. revert E.
  destruct Hp as [-> | ->]; cbn; intros [= _ _ <-]; by repeat constructor.
Qed.
Lemma lasting_write ec t : linked t -> lasting (on_write quiet ec t).1.2 (on_write quiet ec t).2.
Proof.
  intros Hl. destruct ec as [e|].
  - destruct (on_write_failed e t) as (w0&Ho&_&_& ->). apply plain_outcomes in Ho.
    assert (linked (after_failure t)) as Hl' by done.
    destruct (tr_user_close t); unfold bind; cbn [emits].
    + cbn. rewrite app_nil_r. by apply lasting_on.
    + match goal with |- context [finish quiet ?e ?t] => pose proof (finish_lasting e t Hl') as Hf;
        destruct (finish quiet e t) as [[r t'] w] end. by apply lasting_after.
  - destruct t as [ph uc [|[f c] q] wa oc rh ch]; [by apply lasting_on|].
    unfold on_write, bind, is_open, begin_write. destruct Hl as [[Hp|Hp] Ho]; cbn in Hp; subst ph;
      destruct c, q as [|[f2 c2] q]; cbn; (apply lasting_on; [|by repeat constructor]);
      (split; [by (left + right)|done]).
Qed.
Lemma lasting_read e b f t : linked t ->
  lasting (on_read quiet (fun _ => ret tt) (Some e) b f t).1.2 (on_read quiet (fun _ => ret tt) (Some e) b f t).2.
Proof.
  intros Hl. cbn [on_read]. destruct (ec_closed e); [by apply finish_lasting|]. rewrite run_get.
  destruct (tr_user_close t); [|by apply finish_lasting]. by apply lasting_on.
Qed.

(** ** Starting an attempt *)

Lemma ensure_session_run c : cl_session c = None ->
  exists st, ensure_session su c = (Ret tt, set_cl_session (Some st) c, []) /\ queue st.2.1 = [] /\ pending st.2.1 = [].
Proof. intros H. unfold ensure_session. rewrite run_get, H, run_modify. by eexists. Qed.

(** The state in which a new attempt starts, and the one it leads to. *)
Definition starting (h : option nat) (c : Client) : Client :=
  set_cl_session None (set_cl_failure None (set_cl_user_disconnect false
    (set_cl_security (lock (cl_security c)) (set_cl_connects (cl_connects c ++ option_list h) c)))).
Definition idle (c : Client) : Prop := cl_state c = CS_Disconnected \/ cl_state c = CS_Reconnecting.

Lemma begin_connect_dials h c ctx : idle c -> security_validate (su_readable su) (cl_security c) = ok ->
  make_ssl_context (su_readable su) (su_ssl su) (sc_tls (cl_security c)) = Ok ctx ->
  exists st w, queue st.2.1 = [] /\ pending st.2.1 = [] /\ begin_connect endpoint su h c =
    (Ret tt, set_cl_dialer (Some (mkTransport Ph_Resolving false [] false (Some 0%nat) false None))
       (set_cl_dial_config (tls_policy (sc_tls (cl_security c)), wss_options c)
         (set_cl_state CS_Resolving (set_cl_session (Some st) (starting h c)))),
     [Ce_cancel_reconnect] ++ w ++ [Ce_transport (Te_resolve (ep_host endpoint) (dec_Z (ep_port endpoint))
        (co_connect_timeout (cl_options c)))]) /\
    omap (fun e => match e with Ce_response i _ => Some i | _ => None end) w = [].
Proof.
  intros Hi Hv Hs.
  destruct (ensure_session_run (starting h c)) as (st&He&Hqu&Hpe); [done|]. exists st.
  exists [Ce_bus (B_state (mkStateChange (cl_state c) CS_Resolving None None))].
  split; [done|]. split; [done|]. split; [|done].
  unfold begin_connect. rewrite run_gets. rewrite !decide_False by (destruct Hi; congruence).
  rewrite run_modify.
  assert (negb (bool_decide (cl_state c = CS_Disconnected)) && negb (bool_decide (cl_state c = CS_Reconnecting)) = false) as ->.
  { destruct Hi as [-> | ->]; [done|]. by rewrite andb_false_r. }
  eapply run_bind; [reflexivity|]. rewrite run_gets. cbn [cl_security set_cl_connects]. rewrite Hv. unfold ok. cbv match.
  rewrite !run_modify, Hs. cbv match. change (set_cl_session None _) with (starting h c). rewrite (run_bind_quiet _ _ _ _ _ He).
  eapply run_bind; [rewrite enter_state_run, decide_False by (cbn; destruct Hi; congruence); reflexivity|].
  rewrite run_get, !run_modify. reflexivity.
Qed.

Lemma begin_connect_refused h c : idle c ->
  (exists e, security_validate (su_readable su) (cl_security c) = Err e) \/
  (exists e, make_ssl_context (su_readable su) (su_ssl su) (sc_tls (cl_security c)) = Err e) ->
  exists c' w, begin_connect endpoint su h c = (Ret tt, c', w) /\
    cl_state c' = cl_state c /\ cl_dialer c' = cl_dialer c /\ cl_transport c' = cl_transport c /\
    cl_connects c' = [] /\ cl_info c' = cl_info c /\ cl_was_ready c' = cl_was_ready c /\
    cl_reconnect_waits c' = cl_reconnect_waits c /\ cl_disconnects c' = cl_disconnects c /\
    (sc_locked (cl_security c) = true -> sc_locked (cl_security c') = true) /\
    (security_validate (su_readable su) (cl_security c) = ok -> sc_locked (cl_security c') = true).
Proof.
  intros Hi Hf. unfold begin_connect.
  assert (negb (bool_decide (cl_state c = CS_Disconnected)) && negb (bool_decide (cl_state c = CS_Reconnecting)) = false) as Hn.
  { destruct Hi as [-> | ->]; [done|]. by rewrite andb_false_r. }
  destruct (security_validate (su_readable su) (cl_security c)) as [[]|e] eqn:Hv.
  - destruct Hf as [[e [=]]|[e Hs]]. do 2 eexists. split.
    + rewrite run_gets, !decide_False by (destruct Hi; congruence). rewrite run_modify, Hn.
      eapply run_bind; [reflexivity|]. rewrite run_gets. cbn [cl_security set_cl_connects]. rewrite Hv. cbv match.
      rewrite !run_modify, Hs. cbv match. apply complete_connect_run.
    + by repeat split.
  - do 2 eexists. split.
    + rewrite run_gets, !decide_False by (destruct Hi; congruence). rewrite run_modify, Hn.
      eapply run_bind; [reflexivity|]. rewrite run_gets. cbn [cl_security set_cl_connects]. rewrite Hv. cbv match.
      apply complete_connect_run.
    + by repeat split.
Qed.

Lemma idle_free c : coherent c -> idle c -> cl_dialer c = None /\ cl_transport c = None /\ cl_disconnects c = [].
Proof.
  intros [] Hi. assert (cl_transport c = None) as Ht.
  { destruct (cl_transport c); [|done]. destruct Hi, ch_transport0 as [[?|?] _]; congruence. }
  split; [|split; [done|]].
  - destruct (cl_dialer c); [|done]. destruct Hi, ch_dialer0; congruence.
  - destruct (cl_disconnects c); [done|]. by destruct ch_disconnects0.
Qed.

Lemma begin_connect_coherent h c c' w : coherent c -> begin_connect endpoint su h c = (Ret tt, c', w) -> coherent c'.
Proof.
  intros Hc. destruct (decide (idle c)) as [Hi|Hi].
  - destruct (idle_free c Hc Hi) as (Hd&Ht&Hw). pose proof Hc as [].
    assert (Hbusy : cl_state c = CS_Ready \/ cl_state c = CS_FountainHandshaking \/ cl_state c = CS_Resolving -> False).
    { destruct Hi as [-> | ->]; intros [?|[?|?]]; congruence. }
    destruct (security_validate (su_readable su) (cl_security c)) as [[]|e] eqn:Hv;
      [destruct (make_ssl_context (su_readable su) (su_ssl su) (sc_tls (cl_security c))) as [ctx|e] eqn:Hs|].
    + destruct (begin_connect_dials h c ctx Hi Hv Hs) as (st&w0&_&_&->&_). intros [= <- _].
      split; cbn; rewrite ?Ht, ?Hw; try done; [set_solver| |by left|].
      * split; [done|]. split; [|done]. by left.
      * intros H. by destruct (ch_reconnect0 H).
    + destruct (begin_connect_refused h c Hi) as (c1&w1&->&Es&Ed&Et&Ec&Ei&Er&Ew&Edw&El&_); [right; eauto|].
      intros [= <- _]. split; rewrite ?Es, ?Ed, ?Et, ?Ec, ?Ei, ?Er, ?Ew, ?Edw; try done; auto.
      intros H1 H2. by destruct Hi.
    + destruct (begin_connect_refused h c Hi) as (c1&w1&->&Es&Ed&Et&Ec&Ei&Er&Ew&Edw&El&_); [left; eauto|].
      intros [= <- _]. split; rewrite ?Es, ?Ed, ?Et, ?Ec, ?Ei, ?Er, ?Ew, ?Edw; try done; auto.
      intros H1 H2. by destruct Hi.
  - unfold begin_connect. rewrite run_gets. destruct (decide (cl_state c = CS_Ready)) as [Hr|Hr].
    { destruct h; [|by intros [= <- _]]. rewrite run_gets. destruct (cl_info c); [by intros [= <- _]|done]. }
    destruct (decide (cl_state c = CS_Closing)) as [Hcl|Hcl].
    { destruct h; by intros [= <- _]. }
    rewrite run_modify. rewrite (bool_decide_false (cl_state c = CS_Disconnected)), (bool_decide_false (cl_state c = CS_Reconnecting))
      by (intros ?; apply Hi; by (left + right)).
    intros [= <- _]. destruct Hc. split; try done. cbn. intros _.
    assert (cl_state c <> CS_Disconnected /\ cl_state c <> CS_Reconnecting) as [? ?]
      by (split; intros ?; apply Hi; by (left + right)).
    set_solver.
Qed.

(** ** Every operation *)

Lemma mild_set_user c : coherent c -> coherent (set_cl_user_disconnect true c).
Proof. intros []. split; try done. cbn. intros H. by destruct (ch_disconnects0 H). Qed.

Lemma request_disconnect_coherent h c c' w : coherent c -> request_disconnect su h c = (Ret tt, c', w) -> coherent c'.
Proof.
  intros Hc. unfold request_disconnect. rewrite run_modify. set (c1 := set_cl_user_disconnect true c).
  assert (coherent c1) as Hc1 by by apply mild_set_user.
  intros H. apply bind_ret_inv in H as ([]&c2&?&?&H1&H&->).
  assert (coherent c2) as Hc2.
  { eapply mild_coherent; [|exact Hc1]. revert H1. apply mild_part. auto with fnt. }
  assert (cl_user_disconnect c2 = true) as Hu.
  { assert (mild c1 c2) as [] by (revert H1; apply mild_part; auto with fnt). by rewrite mi_user0. }
  apply bind_ret_inv in H as ([]&c3&?&?&[= <- _]&H&->). apply bind_ret_inv in H as ([]&c3&?&?&[= <- _]&H&->).
  rewrite run_get in H. pose proof Hc2 as [].
  destruct (cl_transport c2) as [t|] eqn:Et; [|destruct (cl_dialer c2) as [t|] eqn:Ed].
  - rewrite run_modify in H. eapply transport_coherent; [|..|exact H].
    + cbn. rewrite Et. intros ? [= <-]. by apply lasting_close, ch_transport0.
    + split; try done; cbn; rewrite ?Et; done.
  - rewrite run_modify in H. set (c4 := set_cl_disconnects _ c2) in H.
    unfold dialer_callback in H. rewrite run_gets in H. change (cl_dialer c4) with (cl_dialer c2) in H. rewrite Ed in H.
    destruct ch_dialer0 as [Hs Hd]. destruct (cancel_failed t Hd) as (t'&w0&Hp&Hcan).
    change (cancel (fun _ _ => ret tt) t) with (cancel quiet t) in H. rewrite Hcan, run_modify in H.
    apply bind_ret_inv in H as ([]&c5&?&?&H&H2&->). assert (c5 = c') as -> by (unfold lift in H2; congruence).
    apply plain_then in H as (y&H&_); [|done]. cbn [forM handle_tevent] in H.
    apply bind_ret_inv in H as ([]&c6&?&?&H&[= <- _]&_). unfold on_dial in H. rewrite run_modify in H.
    refine (proj1 (lost_coherent _ _ _ _ _ _ H)). split; cbn; try done.
    + apply ch_locked0. congruence.
    + intros Hw. by destruct (ch_reconnect0 Hw).
  - rewrite run_modify in H. apply bind_ret_inv in H as ([]&c4&?&?&H3&H&->). rewrite enter_state_run in H3.
    injection H3 as <- _. assert (c' = set_cl_state CS_Disconnected (set_cl_security (unlock (cl_security c2)) c2)) as ->.
    { destruct h; by injection H as <- _. }
    split; cbn; rewrite ?Et, ?Ed; try done; [set_solver|..].
    + intros Hn. destruct (ch_connects0 Hn); destruct ch_transport0; congruence.
    + intros Hn. by destruct (ch_reconnect0 Hn).
Qed.

Lemma flying_frame b f : respects flying (on_frame su None b f).
Proof.
  unfold on_frame, read_frame. pose proof (fun frame => flying_session (fun env => on_text env frame)).
  repeat respects_step; auto; intros ??; auto.
Qed.
Lemma flying_tick ec : respects flying (on_tick su ec).
Proof.
  unfold on_tick, arm_tick. pose proof (flying_session (fun env => session_tick env (su_clock su))).
  repeat respects_step; auto; try (intros ??; by auto);
    try (apply flying_mild; split; try done; by cbn; destruct (cl_transport _)).
  intros ? ? ? ? E2. apply flying_mild. revert E2. apply mild_part. auto with fnt.
Qed.

Lemma frame_coherent ec b f c c' w : coherent c -> on_frame su ec b f c = (Ret tt, c', w) -> coherent c'.
Proof.
  intros Hc. destruct ec as [e|].
  - apply transport_coherent; [|done]. intros t Ht. apply lasting_read.
    pose proof (ch_transport _ Hc) as Hd. rewrite Ht in Hd. apply Hd.
  - destruct (cl_transport c) as [t|] eqn:Et; [intros H; refine (proj1 (flying_frame _ _ _ _ _ _ H Hc _)); congruence|].
    unfold on_frame, read_frame. rewrite run_gets, Et. cbn [default]. unfold when.
    rewrite andb_false_r, run_ret, run_gets, Et. by intros [= <- _].
Qed.
Lemma tick_coherent ec c c' w : coherent c -> on_tick su ec c = (Ret tt, c', w) -> coherent c'.
Proof.
  intros Hc H. destruct (cl_transport c) eqn:Et; [refine (proj1 (flying_tick _ _ _ _ _ H Hc _)); congruence|].
  unfold on_tick in H. rewrite run_modify, run_get in H. unfold is_transport_open in H. cbn in H. rewrite Et, orb_true_r in H.
  injection H as <- _. eapply mild_coherent; [|exact Hc]. split; try done. cbn. by rewrite Et.
Qed.

Lemma reconnect_fired c : coherent c -> coherent (set_cl_reconnect_waits (pred (cl_reconnect_waits c)) c).
Proof. intros []. split; try done. cbn. intros Hw. destruct (ch_reconnect0 Hw) as [-> ?]. done. Qed.

Lemma run_ccall_coherent call c c' w : coherent c -> can_run c call ->
  run_ccall endpoint su call c = (Ret tt, c', w) -> coherent c'.
Proof.
  intros Hc Hr. destruct call as [h|h|spec h|type body|d|ec b f|ec| |ec|ec|sc|o|p|m|m]; cbn [run_ccall].
  - by apply begin_connect_coherent.
  - by apply request_disconnect_coherent.
  - unfold submit_request. rewrite run_get. destruct (cl_session c).
    + intros E. eapply mild_coherent; [|exact Hc]. revert E. apply mild_run_session. intros *. apply not_ready_request.
    + destruct h; [|done]. intros E. eapply mild_coherent; [|exact Hc]. by eapply mild_call_handler.
  - unfold send_raw. rewrite run_get. destruct (cl_session c); [|by intros [= <- _]].
    intros H. apply bind_ret_inv in H as (x&c1&?&?&H&[= <- _]&_). eapply mild_coherent; [|exact Hc]. revert H.
    apply mild_run_session. intros *. apply not_ready_message.
  - destruct Hr as [Hh Hp]. rewrite run_gets. apply dialer_coherent; [|done]. intros t Ht. rewrite Ht in Hp.
    pose proof (ch_dialer _ Hc) as Hd. rewrite Ht in Hd. by apply dial_step; [|apply Hd|exact Hp].
  - by apply frame_coherent.
  - apply transport_coherent; [|done]. intros t Ht. apply lasting_write.
    pose proof (ch_transport _ Hc) as Hd. rewrite Ht in Hd. apply Hd.
  - apply transport_coherent; [|done]. intros t Ht. apply finish_lasting.
    pose proof (ch_transport _ Hc) as Hd. rewrite Ht in Hd. apply Hd.
  - by apply tick_coherent.
  - unfold on_reconnect_timer. rewrite run_modify, run_get. set (c1 := set_cl_reconnect_waits _ c).
    assert (coherent c1) as Hc1 by by apply reconnect_fired.
    destruct (ec || _); [by intros [= <- _]|]. by apply begin_connect_coherent.
  - intros [= <- _]. eapply mild_coherent; [|exact Hc]. split; try done; [by cbn; destruct (cl_transport c)|].
    cbn. destruct sc; cbn; unfold set_tls, set_hmac, set_credential_provider; repeat case_match; done.
  - intros [= <- _]. eapply mild_coherent; [|exact Hc]. split; try done. by cbn; destruct (cl_transport c).
  - intros [= <- _]. eapply mild_coherent; [|exact Hc]. split; try done. by cbn; destruct (cl_transport c).
  - intros E. eapply mild_coherent; [|exact Hc]. revert E. apply mild_part. auto with fnt.
  - intros E. eapply mild_coherent; [|exact Hc]. revert E. apply mild_part. auto with fnt.
Qed.
End Coherent.

(** ** The life of a client *)

(** C3: every connect and every disconnect completion is called exactly once or still
    waits, and it waits only while an attempt or a connection can still answer it:
    when both are gone nobody waits. *)
Theorem completions_answered endpoint calls c w : clife endpoint calls c w ->
  connected w ++ cl_connects c ≡ₚ concat (map asked_connect calls) /\
  disconnected w ++ cl_disconnects c ≡ₚ concat (map asked_disconnect calls) /\
  (cl_dialer c = None -> cl_transport c = None -> cl_connects c = [] /\ cl_disconnects c = []) /\
  (cl_state c = CS_Ready -> cl_connects c = []).
Proof.
  intros H.
  assert (coherent c /\ connected w ++ cl_connects c ≡ₚ concat (map asked_connect calls) /\
    disconnected w ++ cl_disconnects c ≡ₚ concat (map asked_disconnect calls)) as ([]&A&D).
  { induction H as [s Hs|calls c w su call c' w' _ (Hc&A&D) Hr E].
    - split; [|done]. split; cbn; try done; set_solver.
    - split; [by eapply run_ccall_coherent|]. destruct (run_ccall_balance _ _ _ _ _ _ _ E) as [A' D'].
      rewrite connected_app, disconnected_app, <- !app_assoc, A', D', !map_app, !concat_app. cbn. rewrite !app_nil_r.
      rewrite (app_assoc _ (asked_connect call)), (app_assoc _ (asked_disconnect call)),
        (comm (++) (connected w)), (comm (++) (disconnected w)), <- !app_assoc, A, D.
      split; apply comm, _. }
  split; [done|]. split; [done|]. split.
  - intros Hd Ht. rewrite Hd in ch_dialer0. rewrite Ht in ch_transport0. split.
    + destruct (cl_connects c); [done|]. by destruct ch_connects0 as [?|?]; [|tauto..].
    + destruct (cl_disconnects c); [done|]. by destruct ch_disconnects0.
  - intros Hs. destruct (cl_connects c); [done|]. destruct ch_connects0; [done|congruence..].
Qed.

(** C7: the state the client reports agrees with what it holds: an attempt exactly
    while resolving, an open or closing transport exactly while handshaking or
    ready, a session then, the device's data when ready; the credentials are locked
    whenever it is not disconnected; a reconnect is awaited only after a first
    ready; and the states CLOSING, TCP_CONNECTING, TLS_HANDSHAKING and
    WEBSOCKET_HANDSHAKING are never entered. *)
Theorem client_coherent endpoint calls c w : clife endpoint calls c w -> coherent c.
Proof.
  induction 1 as [s Hs|calls c w su call c' w' _ Hc Hr E]; [|by eapply run_ccall_coherent].
  split; cbn; try done; set_solver.
Qed.

(** ** The reconnect timer *)

Lemma backoff_schedule p n : 0 < rp_initial_delay p <= rp_max_delay p ->
  Nat.iter (S n) (next_backoff p) 0 = Z.min (rp_max_delay p) (rp_initial_delay p * 2 ^ Z.of_nat n).
Proof.
  intros [Hi Hm]. induction n as [|n IH].
  - cbn. rewrite Z.mul_1_r. lia.
  - rewrite Nat.iter_succ, IH. unfold next_backoff.
    assert (0 < 2 ^ Z.of_nat n) by (apply Z.pow_pos_nonneg; lia).
    destruct (Z.eqb_spec (Z.min (rp_max_delay p) (rp_initial_delay p * 2 ^ Z.of_nat n)) 0); [nia|].
    rewrite Nat2Z.inj_succ, Z.pow_succ_r by lia. nia.
Qed.


(** ** Departures of the code from its intent *)

Definition responses (w : list cevent) : list nat :=
  omap (fun e => match e with Ce_response h _ => Some h | _ => None end) w.

(** A request to a session that is not running waits. *)
Lemma request_waits env spec h d core : sending_enabled d = false -> queue d = [] -> pending d = [] ->
  0 < default (default_timeout d) (rs_timeout spec) ->
  exists d' core', request env spec (Some h) (d, core) = (Ret tt, (d', core'), []) /\
    map w_handlers (queue d') = [[Some h]] /\ sending_enabled d' = false.
Proof.
  intros Hs Hq Hp Ht. set (t := e_now env (reads core)). set (core' := set_reads (S (reads core)) core).
  assert (E : request env spec (Some h) (d, core) = submit (Sender0 := session_sender env) spec (Some h) t (d, core')).
  { unfold request. erewrite run_bind_quiet by reflexivity. reflexivity. }
  rewrite E. unfold submit, dget, dmod. rewrite run_modify, run_gets. cbn [fst snd].
  set (d1 := Dispatcher.bump m_submitted set_m_submitted 1 d).
  assert (Hq1 : queue d1 = []) by done. rewrite Hq1. cbn [coalesce].
  assert ((if str_empty (rs_coalesce_key spec) then None else None) = @None (list Waiting)) as -> by by destruct (str_empty _).
  rewrite !run_modify. cbn [fst snd]. rewrite tick_disabled by done.
  unfold expired. rewrite queue_refill. cbn [queue set_queue set_sequence]. rewrite Hq1. cbn [app expire_waiting w_deadline].
  match goal with |- context [t + ?x <=? t] => destruct (Z.leb_spec (t + x) t) as [Hle|] end.
  { exfalso. revert Hle. change (default_timeout d1) with (default_timeout d). destruct (rs_timeout spec); cbn in *; lia. }
  cbn [pending set_queue Dispatcher.bump set_metrics_]. rewrite pending_refill. cbn [pending set_sequence set_queue].
  change (pending d1) with (pending d). rewrite Hp. cbn [expire_pending]. do 2 eexists. split; [reflexivity|].
  split; [done|]. cbn. unfold refill. by repeat case_match_goal.
Qed.

(** a request made while the client has no connection — waiting to reconnect, or
    disconnected after it was connected — is not refused as the code intends: it is
    queued in the finished session, no tick reaches it, and the next attempt
    destroys it with that session.  Its handler is never called; a blocking call
    never returns. *)
Theorem queued_request_lost endpoint su su' spec h h' c config d core ctx : idle c ->
  cl_session c = Some (config, (d, core)) -> sending_enabled d = false -> queue d = [] -> pending d = [] ->
  0 < default (default_timeout d) (rs_timeout spec) ->
  security_validate (su_readable su') (cl_security c) = ok ->
  make_ssl_context (su_readable su') (su_ssl su') (sc_tls (cl_security c)) = Ok ctx ->
  exists c1 d1 core1 c2 w st,
    submit_request su spec (Some h) c = (Ret tt, c1, []) /\ idle c1 /\
    cl_session c1 = Some (config, (d1, core1)) /\ map w_handlers (queue d1) = [[Some h]] /\
    begin_connect endpoint su' h' c1 = (Ret tt, c2, w) /\ responses w = [] /\
    cl_session c2 = Some st /\ queue st.2.1 = [] /\ pending st.2.1 = [].
Proof.
  intros Hi Hs Hd Hq Hp Ht Hv Hssl.
  destruct (request_waits (session_env su config (is_transport_open c)) spec h d core Hd Hq Hp Ht)
    as (d1&core1&Er&Hw&_).
  set (c1 := set_cl_session (Some (config, (d1, core1))) c).
  destruct (begin_connect_dials endpoint su' h' c1 ctx Hi Hv Hssl) as (st&w&Hqu&Hpe&Eb&Hr).
  exists c1, d1, core1. do 2 eexists. exists st. split; [|split; [done|split; [done|split; [done|split; [exact Eb|]]]]].
  - unfold submit_request. rewrite run_get, Hs. unfold run_session. rewrite Hs, Er. reflexivity.
  - split; [|done]. unfold responses. rewrite !omap_app. rewrite Hr. reflexivity.
Qed.

(** when the configuration does not validate at the moment the reconnect timer
    fires — a certificate file is being replaced, say — the client stays
    RECONNECTING with no attempt, no connection and no timer: it never tries again
    by itself, and its configuration stays locked. *)
Theorem reconnect_stalls endpoint su c e : coherent c -> cl_state c = CS_Reconnecting ->
  cl_user_disconnect c = false -> cl_reconnect_waits c = 1%nat ->
  security_validate (su_readable su) (cl_security c) = Err e ->
  exists c', on_reconnect_timer endpoint su false c = (Ret tt, c', [Ce_cancel_reconnect]) /\
    cl_state c' = CS_Reconnecting /\ cl_reconnect_waits c' = 0%nat /\ cl_dialer c' = None /\
    cl_transport c' = None /\ sc_locked (cl_security c') = true.
Proof.
  intros Hc Hs Hu Hw Hv. destruct (idle_free c Hc (or_intror Hs)) as (Hd&Ht&_).
  assert (cl_connects c = []) as Hn.
  { destruct (cl_connects c) eqn:En; [done|]. destruct (ch_connects _ Hc); congruence. }
  assert (sc_locked (cl_security c) = true) as Hl by (apply (ch_locked _ Hc); congruence).
  unfold on_reconnect_timer. rewrite run_modify, run_get. cbn [orb cl_user_disconnect set_cl_reconnect_waits].
  rewrite Hu. unfold begin_connect. rewrite run_gets. cbn [cl_state set_cl_reconnect_waits].
  rewrite Hs, !decide_False by done. rewrite run_modify. cbn [bool_decide negb andb].
  eexists. split.
  - eapply (run_bind _ _ _ tt _ [Ce_cancel_reconnect] _ _ []); [reflexivity|]. rewrite run_gets.
    cbn [cl_security set_cl_connects set_cl_reconnect_waits]. rewrite Hv. cbv match. rewrite complete_connect_run.
    cbn. rewrite Hn. reflexivity.
  - cbn. by rewrite Hw.
Qed.

(** an attempt refused because the TLS files do not fit leaves the client
    disconnected but its configuration locked: the call that would correct the
    files is refused until the application disconnects. *)
Theorem tls_failure_locks endpoint su h c e t : cl_state c = CS_Disconnected ->
  security_validate (su_readable su) (cl_security c) = ok ->
  make_ssl_context (su_readable su) (su_ssl su) (sc_tls (cl_security c)) = Err e ->
  exists c' w, begin_connect endpoint su h c = (Ret tt, c', w) /\ cl_state c' = CS_Disconnected /\
    (set_tls (su_readable su) t (cl_security c')).1 =
      Err (make_error Dom_Configuration InvalidState "TLS cannot be changed while connected").
Proof.
  intros Hs Hv He.
  destruct (begin_connect_refused endpoint su h c) as (c'&w&E&Hs'&_&_&_&_&_&_&_&_&Hl); [by left|right; eauto|].
  exists c', w. split; [done|]. split; [congruence|]. unfold set_tls. by rewrite Hl.
Qed.

(** a connect call made after a disconnect call, while the connection is closing,
    is answered at once with the data of the connection that is being closed: the
    state CLOSING, which would refuse it, is never entered. *)
Theorem connect_while_closing endpoint su h h' c t i : cl_state c = CS_Ready -> cl_info c = Some i ->
  cl_transport c = Some t -> is_open t = true ->
  exists c1 w1, request_disconnect su h c = (Ret tt, c1, w1) /\ cl_user_disconnect c1 = true /\
    is_transport_open c1 = false /\ disconnected w1 = [] /\
    begin_connect endpoint su (Some h') c1 = (Ret tt, c1, [Ce_connected h' (Ok i)]).
Proof.
  intros Hs Hi Ht Ho. destruct t as [ph uc q wa oc rh ch]. apply bool_decide_eq_true in Ho. cbn in Ho. subst ph.
  unfold request_disconnect. rewrite run_modify. erewrite run_bind_quiet by reflexivity.
  do 2 eexists. split.
  - eapply run_bind; [reflexivity|]. eapply run_bind; [reflexivity|]. rewrite run_get. cbn [cl_transport set_cl_poller set_cl_user_disconnect].
    rewrite Ht, run_modify. unfold transport_callback. rewrite run_gets.
    cbn [cl_transport set_cl_poller set_cl_user_disconnect set_cl_disconnects]. rewrite Ht.
    cbn [close]. reflexivity.
  - split; [done|]. split; [done|]. split; [done|]. unfold begin_connect. rewrite run_gets.
    rewrite decide_True by exact Hs. rewrite run_gets. cbn. by rewrite Hi.
Qed.
