(* ===== verification/ClientReady.v ===== *)
(** * When a client becomes ready

    The composition of the life cycle with the session: whatever an operation of the
    client does — its handlers' exceptions included — the client turns READY only
    inside the handling of a received frame that the session accepts as the proof of
    the handshake. *)
From S2P Require Import Prelude StdMap Errors Float Json Canonical Messages Auth Events Dispatcher.
From S2P Require Import DispatcherFacts Session SessionFacts.
From S2P Require Import Datapoint Generated Catalog Codec WriteSet Snapshot Service Manager Poller.
From S2P Require Import Security Transport TransportFacts EventBus Client ClientFacts.
Local Open Scope Z_scope.

Abbreviation ST := (Dispatcher * Core)%type.

(** ** The session announces itself only on the proof *)

Definition noneR : ST -> ST -> list event -> Prop := fun _ _ w => Forall not_ready w.
#[export] Instance noneR_composable : Composable noneR.
Proof. split; [constructor|]. intros s1 s2 s3 w1 w2 H1 H2. by apply Forall_app. Qed.
#[export] Instance noneR_frame : FrameStep noneR.
Proof.
  intros d c c' w Ht. unfold noneR. eapply list.Forall_impl; [exact (tame_events _ _ _ Ht)|]. by intros [].
Qed.

Section Session.
Context (env : senv).

Lemma none_steady {A} (m : M ST event A) : respects steady m -> respects noneR m.
Proof.
  intros H s r s' w Hm. eapply list.Forall_impl; [exact (st_events _ _ _ (H _ _ _ _ Hm))|]. by intros [].
Qed.
Lemma none_calls w : Forall (fun e => is_call e = true) w -> Forall not_ready w.
Proof. intros H. eapply list.Forall_impl; [exact H|]. by intros []. Qed.
Lemma none_abort e code reason : respects noneR (abort env e code reason).
Proof.
  apply abort_respects; [apply _|]. intros d c d' _ _ _ _. apply Forall_app.
  split; [apply none_calls, answers_calls|]. unfold abort_events.
  destruct (e_close env), (cb_failed (callbacks_ c)); by repeat constructor.
Qed.
Lemma none_enter next : respects noneR (enter next).
Proof.
  intros [d c] r s' w. destruct (enter_eq next d c) as (d' & -> & _). intros [= _ _ <-]. constructor.
Qed.
Lemma none_now : respects noneR (on_snd (now env)).
Proof. apply (respects_tame noneR), tame_now. Qed.
Lemma none_now_ms : respects noneR (on_snd (now_ms env)).
Proof. apply (respects_tame noneR), tame_now_ms. Qed.
#[local] Hint Resolve none_abort none_enter none_now none_now_ms : fnt.

Lemma none_hello m : respects noneR (handle_hello env m).
Proof.
  unfold handle_hello, smod, cget. repeat first
  [ match goal with |- respects _ (on_snd _) =>
      first [solve [eauto with fnt] | apply (respects_tame noneR); solve [eauto with fnt]] end
  | respects_step | progress simpl | solve [eauto with fnt] ]; constructor.
Qed.

Lemma none_tick t : respects noneR (session_tick env t).
Proof.
  intros [d c] r s' w H. unfold session_tick, cget in H. rewrite run_gets in H. cbn [snd] in H.
  destruct (_ && _); [by apply none_abort in H|].
  by eapply (events_tick (HX := session_sender env) not_ready ltac:(done) (not_ready_send env)) in H.
Qed.

(** A frame on which [on_ready] is called is the proof the handshake waits for. *)
Lemma ready_on_proof frame d c r s' w : on_text env frame (d, c) = (r, s', w) ->
  Forall not_ready w \/ state c = AwaitProof /\ proves env c (e_parse env frame).
Proof.
  intros H. unfold on_text, cget in H. rewrite run_gets in H. cbn [snd] in H.
  destruct (e_parse env frame) as [| | | | | | |m| |] eqn:Ep;
    try (left; revert H; destruct (bool_decide (state c = Running));
         [apply (none_steady _ (steady_warn _ _))|apply none_abort]).
  destruct (state c) eqn:Es.
  - left. injection H as _ _ <-. constructor.
  - left. by apply none_hello in H.
  - unfold handle_proof, cget in H. rewrite run_gets, run_lift in H. cbn [snd] in H. unfold proves.
    destruct (verify _ (J_obj m) (auth_ c) C2s) as [[]|e];
      try (left; apply none_abort in H; exact H); [|left; injection H as _ _ <-; constructor].
    rewrite run_lift in H. destruct (auth_seq (J_obj m)) as [seq|e]; [|left; injection H as _ _ <-; constructor].
    destruct (Z.leb_spec seq (replay_ c)) as [Hle|Hlt]; [left|right; split; [done|split; [done|by exists seq]]].
    erewrite run_bind_quiet in H; [|rewrite check_replay_run].
    2: { replace (seq <=? replay_ c) with true by lia. reflexivity. }
    by apply none_abort in H.
  - left. by apply (none_steady _ (steady_running env _)) in H.
Qed.
End Session.

(** ** The client follows *)

(** A step that does not make the client ready. *)
Definition stays (c c' : Client) (_ : list cevent) : Prop := cl_state c' = CS_Ready -> cl_state c = CS_Ready.
#[export] Instance stays_composable : Composable stays.
Proof. split; unfold stays; auto. Qed.

Create HintDb ready.
Section Stays.
Context (endpoint : Endpoint) (su : surrounding).

Lemma stays_same c c' w : cl_state c' = cl_state c -> stays c c' w.
Proof. unfold stays. congruence. Qed.
Lemma stays_mild c c' w : mild c c' -> stays c c' w.
Proof. intros H. apply stays_same, H. Qed.
Lemma stays_mildly {A} (m : M Client cevent A) : respects mildR m -> respects stays m.
Proof. intros H c r c' w E. by eapply stays_mild, H. Qed.
Lemma stays_enter next i cause : next <> CS_Ready -> respects stays (enter_state next i cause).
Proof. intros Hn c r c' w. rewrite enter_state_run. intros [= _ <- _] H. by cbn in H. Qed.
Lemma stays_connects r : respects stays (complete_connect r).
Proof. intros c r' c' w. rewrite complete_connect_run. intros [= _ <- _]. by apply stays_same. Qed.
Lemma stays_disconnects : respects stays complete_disconnect.
Proof. intros c r' c' w. rewrite complete_disconnect_run. intros [= _ <- _]. by apply stays_same. Qed.
Lemma stays_part {S E A} here put event (m : M S E A) : (forall s c, cl_state (put s c) = cl_state c) ->
  respects stays (on_part here put event m).
Proof.
  intros H c r c' w. unfold on_part. destruct (m (here c)) as [[r1 s] w1]. intros [= _ <- _]. apply stays_same, H.
Qed.
Lemma stays_session {A} (m : senv -> M ST event A) : (forall env, respects noneR (m env)) ->
  respects stays (run_session su m).
Proof. intros H. apply stays_mildly, mild_run_session. intros env s r s' w E. by apply H in E. Qed.
Lemma stays_callbacks cb : respects noneR (set_callbacks cb).
Proof. intros s r s' w E. by apply not_ready_callbacks in E. Qed.
#[local] Hint Resolve stays_connects stays_disconnects : ready.
#[local] Hint Extern 1 (stays _ _ _) => (apply stays_same; reflexivity) : ready.
#[local] Hint Extern 1 (respects stays (enter_state _ _ _)) => (apply stays_enter; discriminate) : ready.
#[local] Hint Extern 1 (respects stays (on_part _ _ _ _)) => (apply stays_part; reflexivity) : ready.
#[local] Hint Extern 1 (respects stays (on_poller _)) => (apply stays_part; reflexivity) : ready.
#[local] Hint Extern 1 (respects stays (on_datapoints _)) => (apply stays_part; reflexivity) : ready.

Ltac ready_tac := repeat first [ solve [eauto with ready] | respects_step | progress simpl ].

Lemma stays_lost e : respects stays (handle_connection_lost su e).
Proof. unfold handle_connection_lost. ready_tac. Qed.
Lemma stays_closed e : respects stays (handle_transport_closed su e).
Proof.
  unfold handle_transport_closed, cancel_tick. pose proof stays_lost.
  assert (forall cause, respects stays (run_session su (fun _ => on_transport_closed cause))) as Hc.
  { intros cause. apply stays_session. intros _ s r s' w E. by apply not_ready_closed in E. }
  ready_tac.
Qed.
Lemma stays_dial r : respects stays (on_dial su r).
Proof.
  unfold on_dial, arm_tick. pose proof stays_lost.
  assert (respects stays (run_session su (fun env => on_transport_open env))) as Ho.
  { apply stays_session. intros env s r0 s' w E. by apply not_ready_open in E. }
  ready_tac.
Qed.
#[local] Hint Resolve stays_lost stays_closed stays_dial : ready.
Lemma stays_tevent t e : respects stays (handle_tevent su t e).
Proof. destruct e; cbn [handle_tevent]; repeat case_match; ready_tac. Qed.
Lemma stays_tevents t w : respects stays (forM w (handle_tevent su t)).
Proof. apply respects_forM; [apply _|]. apply stays_tevent. Qed.
#[local] Hint Resolve stays_tevents : ready.
Lemma stays_dialer m : respects stays (dialer_callback su m).
Proof.
  unfold dialer_callback. apply respects_bind; [apply _|ready_tac|]. intros [t|]; [|ready_tac].
  destruct (m t) as [[r t'] w]. ready_tac.
Qed.
Lemma stays_transport m : respects stays (transport_callback su m).
Proof.
  unfold transport_callback. apply respects_bind; [apply _|ready_tac|]. intros [t|]; [|ready_tac].
  destruct (m t) as [[r t'] w]. ready_tac.
Qed.
#[local] Hint Resolve stays_dialer stays_transport : ready.

Lemma stays_ensure : respects stays (ensure_session su).
Proof.
  unfold ensure_session. pose proof (stays_session (fun _ => set_callbacks all_callbacks) (fun _ => stays_callbacks _)).
  ready_tac.
Qed.
#[local] Hint Resolve stays_ensure : ready.
Lemma stays_begin h : respects stays (begin_connect endpoint su h).
Proof. unfold begin_connect, cancel_reconnect. ready_tac. Qed.
#[local] Hint Resolve stays_begin : ready.
Lemma stays_disconnect h : respects stays (request_disconnect su h).
Proof. unfold request_disconnect, cancel_reconnect, cancel_tick. ready_tac. Qed.
Lemma stays_tick ec : respects stays (on_tick su ec).
Proof.
  unfold on_tick, arm_tick.
  pose proof (stays_session (fun env => session_tick env (su_clock su)) (fun env => none_tick env _)).
  ready_tac.
Qed.
Lemma stays_handler h r : respects stays (call_handler su h r).
Proof. apply stays_mildly, mild_call_handler. Qed.
#[local] Hint Resolve stays_handler : ready.
Lemma stays_submit spec h : respects stays (submit_request su spec h).
Proof.
  unfold submit_request.
  assert (respects stays (run_session su (fun env => request env spec h))).
  { apply stays_session. intros env s r s' w E. by apply not_ready_request in E. }
  ready_tac.
Qed.
Lemma stays_send type body : respects stays (send_raw su type body).
Proof.
  unfold send_raw.
  assert (respects stays (run_session su (fun env => on_snd (send_message env type body EmptyString)))).
  { apply stays_session. intros env s r s' w E. by apply not_ready_message in E. }
  ready_tac.
Qed.

(** A received frame. *)
Lemma frame_ready frame c r c' w : run_session su (fun env => on_text env frame) c = (r, c', w) ->
  stays c c' w \/ exists config d core, cl_session c = Some (config, (d, core)) /\ state core = AwaitProof /\
    proves (session_env su config (is_transport_open c)) core (su_parse su frame).
Proof.
  unfold run_session. destruct (cl_session c) as [[config [d core]]|] eqn:Es; [|intros [= _ <- _]; left; by apply stays_same].
  destruct (on_text _ frame (d, core)) as [[r1 st'] w0] eqn:Ef. apply ready_on_proof in Ef as [Hn|[Hs Hp]].
  - intros E. left. apply (comp_trans _ (set_cl_session (Some (config, st')) c) _ [] w); [by apply stays_same|].
    revert E. enough (respects stays (forM w0 (deliver su) ;;; lift r1)) as H by apply H.
    respects_step; [|by respects_step].
    induction Hn as [|e w0 He _ IH]; [by apply respects_ret, _|]. cbn [forM].
    apply respects_bind; [apply _|by apply stays_mildly, mild_deliver|done].
  - intros _. right. by exists config, d, core.
Qed.

(** C1: a client becomes READY in one way only: by a frame received while its session
    waits for the proof, that verifies under the key, key id and nonces of this
    connection and carries a fresh sequence number.  No other call, timer or
    transport event makes it ready, whatever its handlers throw. *)
Theorem ready_needs_proof call c r c' w : run_ccall endpoint su call c = (r, c', w) ->
  cl_state c <> CS_Ready -> cl_state c' = CS_Ready ->
  exists text frame config d core, call = Cc_frame None text frame /\
    cl_session c = Some (config, (d, core)) /\ state core = AwaitProof /\
    proves (session_env su config (is_transport_open c)) core (su_parse su frame).
Proof.
  intros E Hn Hr. destruct call as [h|h|spec h|type body|d|ec b f|ec| |ec|ec|sc|o|p|m|m]; cbn [run_ccall] in E.
  6: { unfold on_frame in E. destruct ec as [ec|]; [by apply stays_transport in E; destruct Hn; auto|].
       unfold read_frame in E. rewrite run_gets in E. destruct (b && _).
       - cbn [when] in E. destruct (run_session su (fun env => on_text env f) c) as [[r1 c1] w1] eqn:Ef.
         assert (cl_state c' = cl_state c1) as Hc.
         { revert E. unfold bind. cbn -[run_session]. rewrite Ef. destruct r1 as [[]|e]; [|by intros [= _ <- _]].
           destruct (is_open _); by intros [= _ <- _]. }
         destruct (frame_ready f c r1 c1 w1 Ef) as [Hs|(config&d&core&Hp)]; [destruct Hn, Hs; congruence|].
         by exists b, f, config, d, core.
       - exfalso. apply Hn. rewrite <- Hr. revert E. unfold bind. cbn. by destruct (is_open _); intros [= _ <- _]. }
  all: exfalso; apply Hn.
  all: try by (injection E as _ <- _).
  - by apply stays_begin in E; auto.
  - by apply stays_disconnect in E; auto.
  - by apply stays_submit in E; auto.
  - by apply stays_send in E; auto.
  - rewrite run_gets in E. by apply stays_dialer in E; auto.
  - by apply stays_transport in E; auto.
  - by apply stays_transport in E; auto.
  - by apply stays_tick in E; auto.
  - revert E. unfold on_reconnect_timer. intros E. enough (respects stays (on_reconnect_timer endpoint su ec)) as H by (apply H in E; auto).
    unfold on_reconnect_timer. ready_tac.
  - apply (stays_part cl_datapoints) in E; auto.
  - apply (stays_part cl_poller) in E; auto.
Qed.
End Stays.
