(* ===== verification/ClientGate.v ===== *)
(** * What leaves the client before it is ready

    The sessions of a client keep the invariants of a session's life, and one of
    them runs only while the client is READY; with what the session guarantees
    before it runs, nothing but the handshake is handed to the socket until then. *)
From S2P Require Import Prelude StdMap Errors Float Json Canonical Messages Auth Events Dispatcher.
From S2P Require Import DispatcherFacts Session SessionFacts.
From S2P Require Import Datapoint Generated Catalog Codec WriteSet Snapshot Service Manager Poller.
From S2P Require Import Security Transport TransportFacts EventBus Client ClientFacts.
Local Open Scope Z_scope.

(** ** A session runs only after it announced itself *)

Abbreviation SST := (Dispatcher * Core)%type.
Definition rung (s s' : SST) (w : list event) : Prop :=
  callbacks_ s'.2 = callbacks_ s.2 /\
  (state s'.2 = Running -> state s.2 = Running \/ (cb_ready (callbacks_ s.2) = true -> exists i, Ev_ready i ∈ w)).
#[export] Instance rung_composable : Composable rung.
Proof.
  split; [by split; [|left]|]. intros s1 s2 s3 w1 w2 [C1 R1] [C2 R2]. split; [congruence|]. rewrite C1 in R2.
  intros [Hr|Hr]%R2; [apply R1 in Hr as [?|Hr]; [by left|]|]; right; intros Hcb; destruct (Hr Hcb) as [i ?];
    exists i; set_solver.
Qed.
#[export] Instance rung_frame : FrameStep rung.
Proof.
  intros d c c' w Ht. split; [apply (tame_callbacks _ _ _ Ht)|]. cbn. rewrite (tame_state _ _ _ Ht). by left.
Qed.

Section Session.
Context (env : senv).

Lemma rung_same (s s' : SST) w : callbacks_ s'.2 = callbacks_ s.2 -> state s'.2 = state s.2 -> rung s s' w.
Proof. intros Hc Hs. split; [done|]. rewrite Hs. by left. Qed.
Lemma rung_calm (s s' : SST) w : calm s.2 s'.2 -> rung s s' w.
Proof. intros []. by apply rung_same. Qed.
Lemma rung_steady {A} (m : M SST event A) : respects steady m -> respects rung m.
Proof. intros H s r s' w Hm. destruct (H _ _ _ _ Hm). by apply rung_same. Qed.
Lemma rung_abort e code reason : respects rung (abort env e code reason).
Proof. apply abort_respects; [apply _|]. intros. by split. Qed.
Lemma rung_enter next : next <> Running -> respects rung (enter next).
Proof. intros Hn [d c] r s' w. destruct (enter_eq next d c) as (d' & -> & _). intros [= _ <- _]. by split. Qed.
Lemma rung_ready : respects rung announce_ready.
Proof.
  intros [d c] r s' w. unfold announce_ready, cget. destruct (enter_eq Running d c) as (d' & He & _).
  rewrite (run_bind_quiet _ _ _ _ _ He), run_gets. cbn [snd callbacks_ set_state].
  destruct (cb_ready (callbacks_ c)) eqn:Ec; intros [= _ <- <-]; (split; [done|]); intros _; right; cbn; [|congruence].
  intros _. eexists. apply list_elem_of_here.
Qed.
#[local] Hint Resolve rung_abort rung_ready : fnt.
#[local] Hint Extern 1 (respects rung (enter _)) => (apply rung_enter; discriminate) : fnt.
#[local] Hint Extern 1 (respects rung (warn _ _)) => (apply rung_steady, steady_warn) : fnt.
#[local] Hint Extern 1 (respects rung (check_replay _)) => (apply rung_steady, steady_check_replay) : fnt.
#[local] Hint Extern 1 (respects rung (dispatch_running _ _)) => (apply rung_steady, steady_running) : fnt.
#[local] Hint Extern 1 (rung _ _ _) => (apply rung_same; reflexivity) : fnt.

Ltac rung_tac := unfold smod, cget; repeat first
  [ match goal with |- respects _ (on_snd _) => apply (respects_tame rung); solve [eauto with fnt] end
  | respects_step | progress simpl | solve [eauto with fnt] ].

Lemma rung_text frame : respects rung (on_text env frame).
Proof.
  pose proof (tame_now env). pose proof (tame_now_ms env).
  assert (forall m, respects rung (handle_hello env m)) by (intros; unfold handle_hello; rung_tac).
  assert (forall m, respects rung (answer_ota_check env m)) by (intros; unfold answer_ota_check; rung_tac).
  assert (forall m, respects rung (handle_proof env m)) by (intros; unfold handle_proof; rung_tac).
  unfold on_text. rung_tac.
Qed.

(** Every call but the one that sets the callbacks. *)
Lemma rung_op op : match op with So_callbacks _ => False | _ => True end -> respects rung (run_sop env op).
Proof.
  destruct op as [|e|frame|t|spec h|cb|type body irt]; intros Hop; cbn [run_sop].
  - unfold on_transport_open. pose proof (tame_now env). rung_tac.
  - unfold on_transport_closed. respects_step; [by apply rung_enter|]. intros s r s' w H.
    exact (rung_calm _ _ _ (calm_fail_all e _ _ _ _ H)).
  - apply rung_text.
  - unfold session_tick, cget. intros [d c] r s' w H. rewrite run_gets in H. cbn [snd] in H.
    destruct (_ && _); [by apply rung_abort in H|]. exact (rung_calm _ _ _ (calm_tick env t _ _ _ _ H)).
  - unfold request. respects_step; [apply (respects_tame rung), tame_now|]. intros s r s' w H.
    exact (rung_calm _ _ _ (calm_submit env spec h _ _ _ _ _ H)).
  - done.
  - apply (send_step env rung).
Qed.
End Session.

(** ** What reaches the transport *)

Definition queues (P : string -> Prop) (e : tevent) : Prop := match e with Te_queued f => P f | _ => True end.

(** Only a send queues a frame, and its own. *)
Lemma queued_frames ip endpoint policy options c (P : string -> Prop) : (forall f h, c = Tc_send f h -> P f) ->
  respects (fun (_ _ : Transport) (w : list tevent) => Forall (queues P) w)
    (run_tcall ip endpoint policy options quiet (fun _ => ret tt) c).
Proof.
  intros Hc.
  assert (forall o r, respects (fun (_ _ : Transport) (w : list tevent) => Forall (queues P) w) (notify quiet o r)).
  { intros [i|] r; unfold notify, quiet; respects_tac; by repeat constructor. }
  assert (forall e, respects (fun (_ _ : Transport) (w : list tevent) => Forall (queues P) w) (finish quiet e)).
  { intros e. unfold finish, report_end. respects_tac; auto; by repeat constructor. }
  assert (respects (fun (_ _ : Transport) (w : list tevent) => Forall (queues P) w) begin_write).
  { unfold begin_write. respects_tac; by repeat constructor. }
  destruct c; cbn [run_tcall];
    unfold async_open, cancel, async_send, close, on_resolve_timer, on_resolve, on_connect, on_tls_handshake,
      on_ws_handshake, do_read, on_read, read_frame, on_write, on_close;
    respects_tac; repeat constructor; cbn; eauto.
Qed.

(** ** The client keeps its session's invariants *)

Definition session_ok (env : senv) (c : Client) : Prop := forall config st, cl_session c = Some (config, st) ->
  sess_ok env st /\ cb_ready (callbacks_ st.2) = true /\ (state st.2 = Running -> cl_state c = CS_Ready).
Definition stilled (c : Client) : Prop := forall config st, cl_session c = Some (config, st) -> state st.2 <> Running.

(** A step that leaves the session alone, and a ready client ready. *)
Definition aside (c c' : Client) (_ : list cevent) : Prop :=
  cl_session c' = cl_session c /\ (cl_state c = CS_Ready -> cl_state c' = CS_Ready).
#[export] Instance aside_composable : Composable aside.
Proof. split; [by split|]. intros c1 c2 c3 w1 w2 [S1 R1] [S2 R2]. split; [congruence|auto]. Qed.
Create HintDb gate.
Section Keeps.
Context (endpoint : Endpoint) (su : surrounding).

Lemma aside_part {S E A} here put event (m : M S E A) :
  (forall s c, cl_session (put s c) = cl_session c /\ cl_state (put s c) = cl_state c) ->
  respects aside (on_part here put event m).
Proof.
  intros H c r c' w. unfold on_part. destruct (m (here c)) as [[r1 s] w1]. intros [= _ <- _].
  destruct (H s c) as [Hs Ht]. split; [done|congruence].
Qed.
Lemma aside_enter i : respects aside (enter_state CS_Ready i None).
Proof. intros c r c' w. rewrite enter_state_run. intros [= _ <- _]. by split. Qed.
Lemma aside_connects r : respects aside (complete_connect r).
Proof. intros c r' c' w. rewrite complete_connect_run. intros [= _ <- _]. by split. Qed.
#[local] Hint Resolve aside_enter aside_connects : gate.
#[local] Hint Extern 1 (respects aside (on_part _ _ _ _)) => (apply aside_part; by split) : gate.
#[local] Hint Extern 1 (aside _ _ _) => (split; [reflexivity|cbn; auto; fail]) : gate.
#[local] Hint Extern 1 (aside _ _ _) => (by split) : gate.
Ltac gate_tac := repeat first [ solve [eauto with gate] | respects_step | progress simpl ].

Lemma aside_handler h r : respects aside (call_handler su h r).
Proof. unfold call_handler, on_services. gate_tac. Qed.
#[local] Hint Resolve aside_handler : gate.
Lemma aside_deliver e : respects aside (deliver su e).
Proof. destruct e; cbn [deliver]; unfold use_transport, on_ready, on_datapoints, on_poller; gate_tac. Qed.
Lemma aside_delivers w : respects aside (forM w (deliver su)).
Proof. apply respects_forM; [apply _|apply aside_deliver]. Qed.

Lemma delivered_ready w c c' x i : Ev_ready i ∈ w -> forM w (deliver su) c = (Ret tt, c', x) -> cl_state c' = CS_Ready.
Proof.
  revert c x. induction w as [|e w IH]; intros c x Hin; [by apply not_elem_of_nil in Hin|]. cbn [forM].
  intros H. apply bind_ret_inv in H as ([]&c1&?&?&H1&H&->).
  apply elem_of_cons in Hin as [<-|Hin]; [|by eapply IH]. apply (aside_delivers _ _ _ _ _ H).
  cbn [deliver] in H1. unfold on_ready in H1. rewrite !run_modify in H1.
  apply bind_ret_inv in H1 as ([]&c2&?&?&H1&H2&_). rewrite enter_state_run in H1. injection H1 as <- _.
  revert H2. set (c2 := set_cl_state _ _). intros H2.
  enough (respects aside (on_poller on_reconnected ;;; complete_connect (Ok i))) as Ha by (apply (Ha _ _ _ _ H2); done).
  unfold on_poller. gate_tac.
Qed.

(** An operation of the session keeps the invariant, if it keeps the session's. *)
Lemma session_step {A} env0 (m : senv -> M SST event A) c a c' w : session_ok env0 c ->
  (forall config st, cl_session c = Some (config, st) -> let env := session_env su config (is_transport_open c) in
     sess_ok env0 st -> forall a st' w0, m env st = (Ret a, st', w0) ->
     sess_ok env0 st' /\ rung st st' w0) ->
  run_session su m c = (Ret a, c', w) -> session_ok env0 c'.
Proof.
  intros Hok Hm H config' st' Hs. unfold run_session in H.
  destruct (cl_session c) as [[config st]|] eqn:Ec; [|done]. destruct (Hok config st Ec) as (Hst&Hcb&Hrun).
  destruct (m _ st) as [[r1 st1] w0] eqn:Em. apply bind_ret_inv in H as ([]&c1&x&y&Hd&H&->).
  destruct r1 as [a1|]; [|discriminate]. injection H as _ <- _.
  destruct (Hm _ _ eq_refl Hst _ _ _ Em) as (Hst1&Hcb1&Hrun1).
  pose proof (aside_delivers _ _ _ _ _ Hd) as [Hse Hup]. cbn in Hse, Hup. rewrite Hse in Hs. injection Hs as <- <-.
  split; [done|]. split; [by rewrite Hcb1|]. intros Hr. destruct (Hrun1 Hr) as [Hr0|Hi]; [auto|].
  destruct (Hi Hcb) as [i Hin]. by eapply delivered_ready.
Qed.

Lemma op_step env0 op c c' w : match op with So_callbacks _ => False | _ => True end ->
  (op = So_open -> stilled c) -> session_ok env0 c -> run_session su (fun env => run_sop env op) c = (Ret tt, c', w) ->
  session_ok env0 c'.
Proof.
  intros Hop Ho Hok. apply session_step; [done|]. intros config st Hc env Hst [] st' w0 Em. split.
  - apply (accounts_op env op _ _ _ Em); [|exact Hst]. intros He. by eapply Ho.
  - by apply (rung_op env op Hop) in Em.
Qed.


(** *** While the session does not run *)

Definition handshake_text (f : string) : Prop :=
  exists m t, su_dump su m = Some f /\ jfind "type" m = Some (J_str t) /\ t ∈ handshake_types.
Definition gate_frame (e : cevent) : Prop :=
  match e with Ce_transport e => queues handshake_text e | _ => True end.

(** A step that leaves the session alone. *)
Definition keep (c c' : Client) (w : list cevent) : Prop := cl_session c' = cl_session c /\ Forall gate_frame w.
#[export] Instance keep_composable : Composable keep.
Proof. split; [by split|]. intros c1 c2 c3 w1 w2 [S1 F1] [S2 F2]. split; [congruence|by apply Forall_app]. Qed.
#[local] Hint Extern 1 (keep _ _ _) => (split; [reflexivity|by repeat constructor]) : gate.

Lemma keep_part {S E A} here put event (m : M S E A) : (forall s c, cl_session (put s c) = cl_session c) ->
  (forall e, gate_frame (event e)) -> respects keep (on_part here put event m).
Proof.
  intros H He c r c' w. unfold on_part. destruct (m (here c)) as [[r1 s] w1]. intros [= _ <- <-].
  split; [apply H|]. apply Forall_map, Forall_elem. auto.
Qed.
Lemma keep_transport_part here put ip policy options d : (forall s c, cl_session (put s c) = cl_session c) ->
  (forall f h, d = Tc_send f h -> handshake_text f) ->
  respects keep (on_part here put Ce_transport (run_tcall ip endpoint policy options quiet (fun _ => ret tt) d)).
Proof.
  intros H Hd c r c' w. unfold on_part. destruct (run_tcall _ _ _ _ _ _ _ _) as [[r1 s] w1] eqn:E.
  intros [= _ <- <-]. split; [apply H|]. apply Forall_map. exact (queued_frames _ _ _ _ _ _ Hd _ _ _ _ E).
Qed.
Lemma keep_use ip policy options d : (forall f h, d = Tc_send f h -> handshake_text f) ->
  respects keep (use_transport (run_tcall ip endpoint policy options quiet (fun _ => ret tt) d)).
Proof.
  intros Hd. unfold use_transport. respects_step; [by respects_step|].
  respects_step; [by apply keep_transport_part|by respects_step].
Qed.
Lemma keep_enter next i cause : respects keep (enter_state next i cause).
Proof. unfold enter_state. repeat respects_step; auto with gate. Qed.
Lemma keep_connects r : respects keep (complete_connect r).
Proof. unfold complete_connect. repeat respects_step; auto with gate. Qed.
Lemma keep_disconnects : respects keep complete_disconnect.
Proof. unfold complete_disconnect. repeat respects_step; auto with gate. Qed.
#[local] Hint Resolve keep_enter keep_connects keep_disconnects : gate.
#[local] Hint Extern 1 (respects keep (on_datapoints _)) => (apply keep_part; [reflexivity|done]) : gate.
#[local] Hint Extern 1 (respects keep (on_poller _)) => (apply keep_part; [reflexivity|done]) : gate.

Lemma keep_handler h r : respects keep (call_handler su h r).
Proof.
  unfold call_handler. respects_step; [apply respects_emit; auto with gate|]. apply keep_part; [reflexivity|done].
Qed.
#[local] Hint Resolve keep_handler : gate.
Lemma keep_deliver config open e : handshake_frame (session_env su config open) e -> respects keep (deliver su e).
Proof.
  destruct e; cbn [deliver]; unfold on_ready; intros He; gate_tac.
  - destruct He as [(t&Ht&Hin) Hd]. apply (keep_use (su_ip_literal su) VerifyDnsName (mkWssOptions 0 0 EmptyString) (Tc_send _ None)).
    intros f h [= <- _]. exists msg, t. split; [|done]. revert Hd. unfold dump. cbn.
    by destruct (su_dump su msg) as [s|]; [intros [= ->]|].
  - by apply (keep_use (su_ip_literal su) VerifyDnsName (mkWssOptions 0 0 EmptyString) (Tc_close _ _)).
Qed.

Context (env0 : senv).
Definition hushed (c : Client) : Prop := session_ok env0 c /\ stilled c.
Definition still (c c' : Client) (w : list cevent) : Prop := hushed c -> hushed c' /\ Forall gate_frame w.
#[local] Instance still_composable : Composable still.
Proof.
  split; [by intros c|]. intros c1 c2 c3 w1 w2 H1 H2 H. destruct (H1 H) as [H' F1]. destruct (H2 H') as [H'' F2].
  split; [done|by apply Forall_app].
Qed.
Lemma still_keep {A} (m : M Client cevent A) : respects keep m -> yields still m.
Proof.
  intros Hm c r c' w E [Hok Hs]. apply Hm in E as [Es F]. split; [|done]. split.
  - intros config st Hc. rewrite Es in Hc. destruct (Hok _ _ Hc) as (?&?&_). split; [done|]. split; [done|].
    intros Hr. by apply Hs in Hc.
  - intros config st Hc. rewrite Es in Hc. by eapply Hs.
Qed.

(** What a session that does not run hands over. *)
Lemma hushed_session op a c c' w : gated op -> hushed c ->
  run_session su (fun env => run_sop env op) c = (Ret a, c', w) ->
  Forall gate_frame w /\ exists config st st' w0, cl_session c = Some (config, st) /\
    cl_session c' = Some (config, st') /\ run_sop (session_env su config (is_transport_open c)) op st = (Ret tt, st', w0).
Proof.
  intros Hg [Hok Hs] H. unfold run_session in H. destruct (cl_session c) as [[config st]|] eqn:Ec; [|done].
  destruct (run_sop _ op st) as [[r1 st'] w0] eqn:Em. apply bind_ret_inv in H as ([]&c1&w1&w2&Hd&H&->).
  destruct r1 as [[]|]; [|discriminate]. injection H as _ <- <-.
  assert (Forall (handshake_frame (session_env su config (is_transport_open c))) w0) as Hf.
  { destruct st as [d core]. destruct (Hok _ _ Ec) as [Hst _]. eapply gated_frames; [exact Hst|by eapply (Hs _ (_, _))|exact Hg|exact Em]. }
  assert (respects keep (forM w0 (deliver su))) as Hk.
  { clear -Hf endpoint. induction Hf as [|e w0 He _ IH]; [by apply respects_ret, _|]. cbn [forM].
    apply respects_bind; [apply _|by eapply keep_deliver|done]. }
  apply Hk in Hd as [Hse Hgf]. split; [by rewrite app_nil_r|]. by exists config, st, st', w0.
Qed.
Lemma still_session op : gated op -> match op with So_callbacks _ | So_text _ => False | _ => True end ->
  yields still (run_session su (fun env => run_sop env op)).
Proof.
  intros Hg Hop c r c' w E Hh. destruct (hushed_session _ _ _ _ _ Hg Hh E) as (Hf&config&st&st'&w0&Ec&Ec'&Em).
  destruct Hh as [Hok Hs]. split; [|done].
  assert (stilled c') as Hs'.
  { intros config1 st1 Hc. rewrite Ec' in Hc. injection Hc as <- <-. apply Hs in Ec.
    destruct st as [d core], st' as [d' core']. pose proof (sop_step _ op d core _ d' core' w0 Em) as Ht. cbn in *. destruct op; try done; destruct Ht as [-> | ->]; done. }
  split; [|done]. destruct r. apply (op_step env0 op) in E; [exact E|by destruct op|intros _; exact Hs|exact Hok].
Qed.

Lemma still_forM {A} (l : list A) f : (forall x, x ∈ l -> yields still (f x)) -> yields still (forM l f).
Proof.
  induction l as [|x l IH]; intros Hf; cbn [forM]; [apply yields_ret, _|].
  apply yields_bind; [apply _|apply Hf, list_elem_of_here|]. intros _. apply IH. intros y Hy. by apply Hf, list_elem_of_further.
Qed.
Lemma still_forget : yields still (modify (set_cl_session None)).
Proof. intros c r c' w [= _ <- <-] _. by split. Qed.
#[local] Hint Resolve still_forget : gate.
#[local] Hint Extern 2 (yields still (modify _)) => (apply still_keep, respects_modify; intros ?; by split) : gate.
#[local] Hint Extern 2 (yields still (emit _)) => (apply still_keep, respects_emit; intros ?; split; [reflexivity|by repeat constructor]) : gate.
#[local] Hint Extern 2 (yields still (enter_state _ _ _)) => (apply still_keep, keep_enter) : gate.
#[local] Hint Extern 2 (yields still (complete_connect _)) => (apply still_keep, keep_connects) : gate.
#[local] Hint Extern 2 (yields still complete_disconnect) => (apply still_keep, keep_disconnects) : gate.
#[local] Hint Extern 2 (yields still (on_datapoints _)) => (apply still_keep, keep_part; [reflexivity|done]) : gate.
#[local] Hint Extern 2 (yields still (call_handler _ _ _)) => (apply still_keep, keep_handler) : gate.
#[local] Hint Extern 2 (yields still (on_poller _)) => (apply still_keep, keep_part; [reflexivity|done]) : gate.
Ltac still_tac := repeat first
  [ solve [eauto with gate]
  | apply yields_bind; [apply _| |intros ?]
  | apply yields_ret, _ | apply yields_throw
  | (apply yields_respects; first [apply respects_get|apply respects_gets|apply respects_lift]; apply _)
  | match goal with
    | |- yields _ (match ?x with _ => _ end) => destruct x
    | |- yields _ (let _ := _ in _) => cbv zeta
    | |- yields _ (when ?b _) => unfold when; destruct b
    end ].

Lemma still_lost e : yields still (handle_connection_lost su e).
Proof. unfold handle_connection_lost. still_tac. Qed.
#[local] Hint Resolve still_lost : gate.
Lemma still_closed e : yields still (handle_transport_closed su e).
Proof.
  unfold handle_transport_closed, cancel_tick.
  pose proof (fun cause => still_session (So_closed cause) I I). still_tac.
Qed.
Lemma still_dial r : yields still (on_dial su r).
Proof. unfold on_dial, arm_tick. pose proof (still_session So_open I I). still_tac. Qed.
#[local] Hint Resolve still_closed still_dial : gate.
Lemma still_tevent t e : queues handshake_text e -> yields still (handle_tevent su t e).
Proof.
  destruct e; cbn [handle_tevent]; intros He; still_tac.
Qed.

(** A handler of the attempt or of the transport queues nothing. *)
Definition quiet_call (m : M Transport tevent unit) : Prop := forall t, Forall (queues handshake_text) (m t).2.
Lemma quiet_tcall ip policy options d : match d with Tc_send _ _ => False | _ => True end ->
  quiet_call (run_tcall ip endpoint policy options quiet (fun _ => ret tt) d).
Proof.
  intros Hd t. destruct (run_tcall _ _ _ _ _ _ _ _) as [[r t'] w] eqn:E.
  refine (queued_frames _ _ _ _ _ _ _ _ _ _ _ E). intros f h ->. done.
Qed.
Lemma still_tevents t w : Forall (queues handshake_text) w -> yields still (forM w (handle_tevent su t)).
Proof. intros Hw. apply still_forM. intros e He. apply still_tevent. by eapply Forall_elem in Hw. Qed.
Lemma still_dialer m : quiet_call m -> yields still (dialer_callback su m).
Proof.
  intros Hm. unfold dialer_callback. apply yields_bind; [apply _|still_tac|]. intros [t|]; [|still_tac].
  specialize (Hm t). destruct (m t) as [[r t'] w]. pose proof (still_tevents t' w Hm). still_tac.
Qed.
Lemma still_transport m : quiet_call m -> yields still (transport_callback su m).
Proof.
  intros Hm. unfold transport_callback. apply yields_bind; [apply _|still_tac|]. intros [t|]; [|still_tac].
  specialize (Hm t). destruct (m t) as [[r t'] w]. pose proof (still_tevents t' w Hm). still_tac.
Qed.

Lemma ensure_hushed c : cl_session c = None -> exists c', ensure_session su c = (Ret tt, c', []) /\ hushed c'.
Proof.
  intros Hc. unfold ensure_session. rewrite run_get, Hc, run_modify. eexists. split; [reflexivity|].
  split; intros config st [= <- <-]; [|done]. split; [|done]. split; [done|]. split; [done|]. by apply nothing_pending_ok.
Qed.
Lemma still_ensure : yields still (ensure_session su).
Proof.
  intros c [] c' w E Hc. destruct (cl_session c) eqn:Es.
  - unfold ensure_session in E. rewrite run_get, Es in E. by injection E as <- <-.
  - destruct (ensure_hushed c Es) as (c1&E1&Hh). rewrite E in E1. injection E1 as -> ->. by split.
Qed.
#[local] Hint Resolve still_ensure : gate.
Lemma still_begin h : yields still (begin_connect endpoint su h).
Proof.
  unfold begin_connect, cancel_reconnect. still_tac.
  match goal with |- context [async_open _ ?o _] =>
    apply still_keep, (keep_transport_part _ _ (su_ip_literal su) VerifyDnsName o (Tc_open _)); done end.
Qed.
Lemma still_disconnect h : yields still (request_disconnect su h).
Proof.
  unfold request_disconnect, cancel_reconnect, cancel_tick.
  pose proof (still_transport _ (quiet_tcall (su_ip_literal su) VerifyDnsName (mkWssOptions 0 0 EmptyString)
    (Tc_close kCloseNormal "client shutdown") I)).
  pose proof (still_dialer _ (quiet_tcall (su_ip_literal su) VerifyDnsName (mkWssOptions 0 0 EmptyString) Tc_cancel I)).
  still_tac.
Qed.
Lemma still_tick ec : yields still (on_tick su ec).
Proof. unfold on_tick, arm_tick. pose proof (still_session (So_tick (su_clock su)) I I). still_tac. Qed.
Lemma still_submit spec h : yields still (submit_request su spec h).
Proof. unfold submit_request. pose proof (still_session (So_request spec h) I I). still_tac. Qed.

(** Every call but a received frame and a message without a response. *)
Lemma still_call call :
  match call with Cc_frame None _ _ | Cc_send _ _ => False | Cc_dial d => dial_handler d = true | _ => True end ->
  yields still (run_ccall endpoint su call).
Proof.
  pose proof (fun d H => still_transport _ (quiet_tcall (su_ip_literal su) VerifyDnsName (mkWssOptions 0 0 EmptyString) d H)) as Ht.
  destruct call as [h|h|spec h|type body|d|[ec|] b f|ec| |ec|ec|sc|o|p|m|m]; intros Hc; try done; cbn [run_ccall].
  - apply still_begin.
  - apply still_disconnect.
  - apply still_submit.
  - apply yields_bind; [apply _|still_tac|]. intros config. apply still_dialer, quiet_tcall. by destruct d.
  - apply (Ht (Tc_on_read (Some ec) b f) I).
  - apply (Ht (Tc_on_write ec) I).
  - apply (Ht Tc_on_close I).
  - apply still_tick.
  - unfold on_reconnect_timer. pose proof (still_begin None). still_tac.
  - still_tac.
  - still_tac.
  - still_tac.
  - apply still_keep, keep_part; [reflexivity|done].
  - apply still_keep, keep_part; [reflexivity|done].
Qed.

(** *** While it runs *)

Lemma aside_ok c c' w : aside c c' w -> session_ok env0 c -> session_ok env0 c'.
Proof.
  intros [E Hr] Hok config st Hc. rewrite E in Hc. destruct (Hok _ _ Hc) as (?&?&?). auto.
Qed.
Lemma closed_session e c c' w : session_ok env0 c ->
  run_session su (fun _ => on_transport_closed e) c = (Ret tt, c', w) -> hushed c'.
Proof.
  intros Hok H. split; [by apply (op_step env0 (So_closed e)) in H|].
  unfold run_session in H. destruct (cl_session c) as [[config [d core]]|] eqn:Ec; [|done].
  unfold on_transport_closed in H. destruct (enter_eq Closed d core) as (d1 & He & _).
  rewrite (run_bind_quiet _ _ _ _ _ He) in H. destruct (fail_all_spec e d1 (set_state Closed core)) as (d2 & Hf & _).
  rewrite Hf in H. apply bind_ret_inv in H as ([]&c2&?&?&Hd&H2&_). injection H2 as <- _.
  apply aside_delivers in Hd as [Hse _]. intros config1 st1 Hc1. rewrite Hse in Hc1. by injection Hc1 as <- <-.
Qed.
Lemma closed_ok e c c' w : session_ok env0 c -> handle_transport_closed su e c = (Ret tt, c', w) -> session_ok env0 c'.
Proof.
  intros Hok. unfold handle_transport_closed, cancel_tick. intros H.
  apply bind_ret_inv in H as (?&?&?&w0&[= <- <- <-]&H&->). rewrite run_modify in H.
  set (c0 := set_cl_transport None c) in *. rewrite run_get in H.
  apply bind_ret_inv in H as ([]&c1&?&w1&H1&H&->).
  assert (hushed c1) as Hh.
  { destruct (cl_session c0) eqn:Ec; [by apply closed_session in H1|]. injection H1 as <- _.
    split; intros config st Hc; congruence. }
  assert (yields still (on_datapoints mark_all_stale ;;; handle_connection_lost su (default e (cl_failure c0)))) as Hs
    by still_tac.
  by destruct (Hs _ _ _ _ H Hh) as [[? _] _].
Qed.
Lemma transport_ok m c c' w : (forall t, cl_transport c = Some t -> lasting (m t).1.2 (m t).2) ->
  session_ok env0 c -> transport_callback su m c = (Ret tt, c', w) -> session_ok env0 c'.
Proof.
  intros Hm Hok [(_& -> &_)|(t&t'&Et&[(_& -> &_)|(e&_&y&H&_)])]%(transport_cases su m); try done.
  apply closed_ok in H; [done|]. by apply (aside_ok c _ []).
Qed.
Lemma linked_ok m c c' w : coherent c -> (forall t, linked t -> lasting (m t).1.2 (m t).2) ->
  session_ok env0 c -> transport_callback su m c = (Ret tt, c', w) -> session_ok env0 c'.
Proof.
  intros Hc Hm. apply transport_ok. intros t Ht. apply Hm. pose proof (ch_transport _ Hc) as H.
  rewrite Ht in H. apply H.
Qed.
Lemma not_ready_hushed c : session_ok env0 c -> cl_state c <> CS_Ready -> hushed c.
Proof. intros Hok Hn. split; [done|]. intros config st Hc Hr. destruct (Hok _ _ Hc) as (_&_&H). auto. Qed.

Lemma frame_run b f c c' w : on_frame su None b f c = (Ret tt, c', w) ->
  (c' = c /\ Forall gate_frame w) \/
  exists w0, run_session su (fun env => on_text env f) c = (Ret tt, c', w0) /\ (Forall gate_frame w0 -> Forall gate_frame w).
Proof.
  unfold on_frame, read_frame. rewrite run_gets. intros H. apply bind_ret_inv in H as ([]&c1&w1&w2&H1&H&->).
  rewrite run_gets in H. assert (c' = c1 /\ Forall gate_frame w2) as [-> F].
  { unfold when in H. destruct (is_open _); injection H as <- <-; split; done || by repeat constructor. }
  unfold when in H1. destruct (b && _); [|injection H1 as <- <-; by left].
  apply bind_ret_inv in H1 as ([]&c2&w3&w4&[= <- <-]&H1&->). right. exists w4. split; [exact H1|].
  intros Hw. apply Forall_app. split; [by constructor|done].
Qed.
Lemma frame_ok ec b f c c' w : coherent c -> session_ok env0 c -> on_frame su ec b f c = (Ret tt, c', w) ->
  session_ok env0 c'.
Proof.
  intros Hc Hok. destruct ec as [e|].
  - apply (linked_ok _ _ _ _ Hc); [|done]. intros t Ht. by apply lasting_read.
  - intros [[-> _]|(w0&H&_)]%frame_run; [done|]. by apply (op_step env0 (So_text f)) in H.
Qed.
Lemma tick_ok ec c c' w : session_ok env0 c -> on_tick su ec c = (Ret tt, c', w) -> session_ok env0 c'.
Proof.
  intros Hok. unfold on_tick, arm_tick. rewrite run_modify, run_get. set (c1 := set_cl_tick_waits _ c).
  assert (session_ok env0 c1) as Hok1 by by apply (aside_ok c c1 []).
  destruct (ec || _); [by intros [= <- _]|]. cbv zeta. intros H.
  apply bind_ret_inv in H as ([]&c2&?&?&H1&H&->). apply (op_step env0 (So_tick (su_clock su))) in H1; try done.
  refine (aside_ok c2 c' [] _ H1). revert H.
  match goal with |- ?m c2 = _ -> _ => enough (respects aside m) as Ha by apply Ha end.
  unfold on_poller. gate_tac.
Qed.

Lemma send_ok type body c c' w : session_ok env0 c -> send_raw su type body c = (Ret tt, c', w) -> session_ok env0 c'.
Proof.
  intros Hok H. unfold send_raw in H. rewrite run_get in H. destruct (cl_session c); [|by injection H as <- _].
  apply bind_ret_inv in H as (m&c1&w1&w2&H&[= <- <-]&->). revert H. apply session_step; [done|].
  intros config st Hc env Hst a st' w0 E.
  assert (run_sop env (So_send type body EmptyString) st = (Ret tt, st', w0 ++ [])) as E' by by eapply run_bind.
  rewrite app_nil_r in E'. split.
  { by eapply (accounts_op env (So_send type body EmptyString)); [exact E'|discriminate|]. }
  exact (rung_op env (So_send type body EmptyString) I _ _ _ _ E').
Qed.
(** A ready client holds no attempt. *)
Lemma ready_no_dialer c : coherent c -> cl_state c = CS_Ready -> cl_dialer c = None.
Proof. intros Hc Hr. pose proof (ch_dialer _ Hc) as Hd. destruct (cl_dialer c); [|done]. destruct Hd. congruence. Qed.

(** The invariant is kept by every operation. *)
Lemma ready_ok call c c' w : coherent c -> cl_state c = CS_Ready -> session_ok env0 c ->
  run_ccall endpoint su call c = (Ret tt, c', w) -> session_ok env0 c'.
Proof.
  intros Hc Hs Hok H.
  destruct call as [h|h|spec h|type body|d|ec b f|ec| |ec|ec|sc|o|p|m|m]; cbn [run_ccall] in H.
  - unfold begin_connect in H. rewrite run_gets, decide_True in H by done. destruct h; [|by injection H as <- _].
    rewrite run_gets in H. destruct (cl_info c); [by injection H as <- _|done].
  - unfold request_disconnect in H. rewrite run_modify in H. apply bind_ret_inv in H as ([]&c2&?&?&H1&H&->).
    unfold on_poller, on_part in H1. destruct (Poller.stop _) as [[r1 q] wp]. injection H1 as _ <- _.
    set (c2 := set_cl_poller _ _) in H. assert (session_ok env0 c2) as Hok2 by by apply (aside_ok c c2 []).
    unfold cancel_reconnect, cancel_tick in H. apply bind_ret_inv in H as ([]&c3&?&?&[= <- _]&H&->).
    apply bind_ret_inv in H as ([]&c3&?&?&[= <- _]&H&->). rewrite run_get in H.
    pose proof (ch_transport _ Hc) as Ht. change (cl_transport c2) with (cl_transport c) in H.
    destruct (cl_transport c) as [t|] eqn:Et; [|by destruct Ht].
    rewrite run_modify in H. eapply transport_ok; [| |exact H]; [|exact Hok2]. cbn. rewrite Et.
    intros ? [= <-]. by apply lasting_close, Ht.
  - unfold submit_request in H. rewrite run_get in H. destruct (cl_session c) eqn:Ec.
    + by apply (op_step env0 (So_request spec h)) in H.
    + destruct h; [|done]. by apply aside_handler, aside_ok in H.
  - by eapply send_ok.
  - rewrite run_gets in H. unfold dialer_callback in H. rewrite run_gets, (ready_no_dialer _ Hc Hs) in H.
    by injection H as <- _.
  - by eapply frame_ok.
  - revert H. apply linked_ok; [done|intros t; apply lasting_write|done].
  - revert H. apply linked_ok; [done|intros t; apply finish_lasting|done].
  - by eapply tick_ok.
  - unfold on_reconnect_timer in H. rewrite run_modify, run_get in H. set (c1 := set_cl_reconnect_waits _ c) in H.
    assert (session_ok env0 c1) by by apply (aside_ok c c1 []).
    destruct (ec || _); [by injection H as <- _|]. unfold begin_connect in H.
    rewrite run_gets, decide_True in H by done. by injection H as <- _.
  - injection H as <- _. by apply (aside_ok c _ []).
  - injection H as <- _. by apply (aside_ok c _ []).
  - injection H as <- _. by apply (aside_ok c _ []).
  - apply (aside_part cl_datapoints set_cl_datapoints) in H; [by apply aside_ok in H|by split].
  - apply (aside_part cl_poller set_cl_poller) in H; [by apply aside_ok in H|by split].
Qed.
Lemma run_ccall_ok call c c' w : coherent c -> can_run c call -> session_ok env0 c ->
  run_ccall endpoint su call c = (Ret tt, c', w) -> session_ok env0 c'.
Proof.
  intros Hc Hr Hok H. destruct (decide (cl_state c = CS_Ready)) as [Hs|Hs]; [by eapply ready_ok|].
  assert (hushed c) as Hh by by apply not_ready_hushed.
  assert (match call with Cc_frame None _ _ | Cc_send _ _ => False | Cc_dial d => dial_handler d = true | _ => True end ->
    session_ok env0 c') as Hq by (intros Hq; by destruct (still_call _ Hq _ _ _ _ H Hh) as [[? _] _]).
  destruct call as [h|h|spec h|type body|d|[ec|] b f|ec| |ec|ec|sc|o|p|m|m]; try (by apply Hq).
  - cbn [run_ccall] in H. by eapply send_ok.
  - apply Hq. by destruct Hr.
  - cbn [run_ccall] in H. by eapply frame_ok.
Qed.

Lemma gate_call call c c' w : can_run c call -> session_ok env0 c -> cl_state c <> CS_Ready ->
  match call with Cc_send _ _ => False | _ => True end ->
  run_ccall endpoint su call c = (Ret tt, c', w) -> Forall gate_frame w.
Proof.
  intros Hr Hok Hn Hg H. assert (hushed c) as Hh by by apply not_ready_hushed.
  assert (match call with Cc_frame None _ _ | Cc_send _ _ => False | Cc_dial d => dial_handler d = true | _ => True end ->
    Forall gate_frame w) as Hq by (intros Hq; by destruct (still_call _ Hq _ _ _ _ H Hh)).
  destruct call as [h|h|spec h|type body|d|[ec|] b f|ec| |ec|ec|sc|o|p|m|m]; try (by apply Hq).
  - apply Hq. by destruct Hr.
  - cbn [run_ccall] in H. apply frame_run in H as [[_ ?]|(w0&H&Hw)]; [done|]. apply Hw.
    by apply (hushed_session (So_text f)) in H as [? _].
Qed.
End Keeps.

Lemma life_ok endpoint env calls c w : clife endpoint calls c w -> coherent c /\ session_ok env c.
Proof.
  induction 1 as [s Hs|calls c w su call c' w' _ [Hc Hok] Hr E]; [split; [|by intros config st [=]]|split].
  - split; cbn; try done; set_solver.
  - by eapply run_ccall_coherent.
  - by eapply run_ccall_ok.
Qed.

(** C11: before the client is READY nothing but the handshake reaches the transport:
    in any life of a client, a call that starts when it is not READY — a message the
    application sends without awaiting a response apart — queues only texts of
    messages of the handshake's types. *)
Theorem handshake_only_before_ready endpoint calls c w su call c' w' frame : clife endpoint calls c w ->
  can_run c call -> run_ccall endpoint su call c = (Ret tt, c', w') -> cl_state c <> CS_Ready ->
  match call with Cc_send _ _ => False | _ => True end -> Ce_transport (Te_queued frame) ∈ w' ->
  exists m t, su_dump su m = Some frame /\ jfind "type" m = Some (J_str t) /\ t ∈ handshake_types.
Proof.
  intros Hl Hr E Hn Hg Hin. destruct (life_ok _ (session_env su (session_config c) false) _ _ _ Hl) as [_ Hok].
  pose proof (gate_call _ _ _ _ _ _ _ Hr Hok Hn Hg E) as Hf. by eapply Forall_elem in Hin; [|exact Hf].
Qed.
