(* ===== verification/ClientHandlers.v ===== *)
(** * Where a client's response handlers are

    Every response handler handed to the client is called once, held by its session,
    or destroyed with a session that a new attempt replaces; and a session that has
    lost its connection holds none, unless a request was handed to it since. *)
From S2P Require Import Prelude StdMap Errors Float Json Canonical Messages Auth Events Dispatcher.
From S2P Require Import DispatcherFacts Session SessionFacts.
From S2P Require Import Datapoint Generated Catalog Codec WriteSet Snapshot Service Manager Poller.
From S2P Require Import Replies Security Transport TransportFacts EventBus Client ClientFacts ClientGate.
Local Open Scope Z_scope.

(** The handlers the session holds. *)
Definition held (c : Client) : list nat := match cl_session c with Some (_, (d, _)) => live d | None => [] end.

Lemma responses_app w1 w2 : responses (w1 ++ w2) = responses w1 ++ responses w2.
Proof. apply omap_app. Qed.

Section Held.
Context (endpoint : Endpoint) (su : surrounding) (env0 : senv).

Definition sound (c : Client) : Prop := forall config st, cl_session c = Some (config, st) -> sess_ok env0 st.
Lemma ok_sound c : session_ok env0 c -> sound c.
Proof. intros H config st Hc. apply (H _ _ Hc). Qed.

(** A step that is given the handlers [g]. *)
Definition owes (g : list nat) (c c' : Client) (w : list cevent) : Prop :=
  sound c -> sound c' /\ g ++ held c ≡ₚ responses w ++ held c'.
#[local] Instance owes_composable : Composable (owes []).
Proof.
  split; [by intros c|]. intros c1 c2 c3 w1 w2 H1 H2 H. destruct (H1 H) as [Hs B1]. destruct (H2 Hs) as [Hs' B2].
  split; [done|]. cbn [app] in *. by rewrite B1, B2, responses_app, app_assoc.
Qed.
(** A step that does nothing to them. *)
Definition idles (c c' : Client) (w : list cevent) : Prop := cl_session c' = cl_session c /\ responses w = [].
#[local] Instance idles_composable : Composable idles.
Proof. split; [done|]. intros c1 c2 c3 w1 w2 [S1 R1] [S2 R2]. split; [congruence|]. by rewrite responses_app, R1, R2. Qed.
Lemma idles_owes c c' w : idles c c' w -> owes [] c c' w.
Proof. intros [E Hw] Hs. unfold held, sound in *. rewrite E, Hw. done. Qed.
Lemma idle_owes {A} (m : M Client cevent A) : respects idles m -> yields (owes []) m.
Proof. intros H c a c' w E. by eapply idles_owes, H. Qed.

Lemma idles_part {S E A} here put event (m : M S E A) : (forall s c, cl_session (put s c) = cl_session c) ->
  (forall e, responses [event e] = []) -> respects idles (on_part here put event m).
Proof.
  intros H He c r c' w. unfold on_part. destruct (m (here c)) as [[r1 s] w1]. intros [= _ <- <-].
  split; [apply H|]. induction w1 as [|e w1 IH]; [done|]. cbn [map].
  change (event e :: ?l) with ([event e] ++ l). by rewrite responses_app, He, IH.
Qed.

Create HintDb owed.
#[local] Hint Extern 1 (idles _ _ _) => (split; reflexivity) : owed.
#[local] Hint Extern 1 (respects idles (on_part _ _ _ _)) => (apply idles_part; [reflexivity|by intros []]) : owed.
#[local] Hint Extern 1 (respects idles (on_poller _)) => (apply idles_part; [reflexivity|by intros []]) : owed.
#[local] Hint Extern 1 (respects idles (on_datapoints _)) => (apply idles_part; [reflexivity|by intros []]) : owed.
#[local] Hint Extern 1 (respects idles (on_services _)) => (apply idles_part; [reflexivity|by intros []]) : owed.
Ltac idle_tac := repeat first [ solve [eauto with owed] | respects_step | progress simpl ].
Lemma idles_enter next i cause : respects idles (enter_state next i cause).
Proof. unfold enter_state. idle_tac. Qed.
Lemma idles_connects r : respects idles (complete_connect r).
Proof. unfold complete_connect. idle_tac. Qed.
Lemma idles_disconnects : respects idles complete_disconnect.
Proof. unfold complete_disconnect. idle_tac. Qed.
#[local] Hint Resolve idles_enter idles_connects idles_disconnects : owed.
Lemma idles_lost e : respects idles (handle_connection_lost su e).
Proof. unfold handle_connection_lost. idle_tac. Qed.

(** The session's handler calls are the client's. *)
Lemma deliver_idles e : match e with Ev_call _ _ => False | _ => True end -> respects idles (deliver su e).
Proof. destruct e; cbn [deliver]; intros He; try done; unfold use_transport, on_ready; idle_tac. Qed.
Lemma handler_owes h r c a c' w : call_handler su h r c = (Ret a, c', w) ->
  cl_session c' = cl_session c /\ responses w = [h].
Proof.
  unfold call_handler. intros H. apply bind_ret_inv in H as ([]&c1&w1&w2&[= <- <-]&H&->).
  assert (respects idles (on_services (su_respond su h r))) as Hi by idle_tac.
  apply Hi in H as [-> Hw]. split; [done|]. by rewrite responses_app, Hw.
Qed.
Lemma deliver_owes e c a c' w : deliver su e c = (Ret a, c', w) ->
  cl_session c' = cl_session c /\ responses w = called [e].
Proof.
  intros H. destruct e eqn:He; first [by apply handler_owes in H|by apply deliver_idles in H].
Qed.
Lemma delivers_owes es c c' w : forM es (deliver su) c = (Ret tt, c', w) ->
  cl_session c' = cl_session c /\ responses w = called es.
Proof.
  revert c w. induction es as [|e es IH]; intros c w; cbn [forM]; [by intros [= <- <-]|].
  intros H. apply bind_ret_inv in H as (a&c1&w1&w2&H1&H&->). apply deliver_owes in H1 as [E1 R1].
  apply IH in H as [E2 R2]. split; [congruence|]. rewrite responses_app, R1, R2.
  by rewrite <- (called_app [e] es).
Qed.

Lemma session_account {A} (m : senv -> M SST event A) g a c c' w :
  (forall config st, cl_session c = Some (config, st) -> let env := session_env su config (is_transport_open c) in
     forall a st' w0, m env st = (Ret a, st', w0) -> SessionFacts.accounts env0 g st st' w0) ->
  run_session su m c = (Ret a, c', w) -> owes g c c' w.
Proof.
  intros Hm H Hs. unfold run_session in H. destruct (cl_session c) as [[config [d core]]|] eqn:Ec; [|done].
  destruct (m _ (d, core)) as [[r1 [d' core']] w0] eqn:Em. apply bind_ret_inv in H as ([]&c1&w1&w2&Hd&H&->).
  destruct r1 as [a1|]; [|discriminate]. injection H as _ <- <-. apply delivers_owes in Hd as [Hse Hre]. cbn in Hse.
  destruct (Hm _ _ eq_refl _ _ _ Em (Hs _ _ Ec)) as [Hok HB]. rewrite app_nil_r, Hre. unfold held. rewrite Ec, Hse.
  split; [|exact HB]. intros config1 st1 Hc1. rewrite Hse in Hc1. by injection Hc1 as <- <-.
Qed.
Lemma session_owes op c c' w : (op = So_open -> stilled c) ->
  run_session su (fun env => run_sop env op) c = (Ret tt, c', w) -> owes (sop_handlers op) c c' w.
Proof.
  intros Hop. apply session_account. intros config st Hc env [] st' w0 Em.
  eapply (accounts_op env op); [exact Em|]. intros He. by apply (Hop He) in Hc.
Qed.

Lemma closed_holds_nothing e c c' w : handle_transport_closed su e c = (Ret tt, c', w) -> held c' = [].
Proof.
  unfold handle_transport_closed, cancel_tick. intros H.
  apply bind_ret_inv in H as (?&?&?&w0&[= <- <- <-]&H&->). rewrite run_modify in H.
  set (c0 := set_cl_transport None c) in *. rewrite run_get in H.
  apply bind_ret_inv in H as ([]&c1&?&w1&H1&H&->).
  assert (held c1 = []) as Hh.
  { destruct (cl_session c0) as [[config [d core]]|] eqn:Ec; [|injection H1 as <- _; unfold held; by rewrite Ec].
    unfold run_session in H1. rewrite Ec in H1. unfold on_transport_closed in H1.
    destruct (enter_eq Closed d core) as (d1 & He & _). rewrite (run_bind_quiet _ _ _ _ _ He) in H1.
    destruct (fail_all_spec (default e (cl_failure c0)) d1 (set_state Closed core)) as (d2 & Hf & Hq & Hp & _).
    rewrite Hf in H1. apply bind_ret_inv in H1 as ([]&c2&?&?&Hd&H2&_). injection H2 as <- _.
    apply delivers_owes in Hd as [Hse _]. unfold held. rewrite Hse. cbn. unfold live. by rewrite Hq, Hp. }
  assert (respects idles (on_datapoints mark_all_stale ;;; handle_connection_lost su (default e (cl_failure c0)))) as Hi.
  { pose proof (idles_lost (default e (cl_failure c0))). idle_tac. }
  apply Hi in H as [E _]. unfold held in *. by rewrite E.
Qed.
Lemma closed_owes e : yields (owes []) (handle_transport_closed su e).
Proof.
  unfold handle_transport_closed, cancel_tick. apply yields_bind; [apply _|apply idle_owes; idle_tac|]. intros _.
  apply yields_bind; [apply _|apply idle_owes; idle_tac|]. intros _.
  apply yields_bind; [apply _|apply idle_owes; idle_tac|]. intros c.
  apply yields_bind; [apply _| |].
  - destruct (cl_session c); [|apply idle_owes; idle_tac]. intros c1 [] c2 w H.
    by apply (session_owes (So_closed (default e (cl_failure c)))) in H.
  - intros _. apply idle_owes. pose proof (idles_lost (default e (cl_failure c))). idle_tac.
Qed.
Lemma dial_owes r c c' w : stilled c -> on_dial su r c = (Ret tt, c', w) -> owes [] c c' w.
Proof.
  intros Hs. unfold on_dial. rewrite run_modify. set (c0 := set_cl_dialer None c).
  assert (idles c c0 []) as H0 by done. intros H.
  apply (comp_trans c c0 c' [] w (idles_owes _ _ _ H0)). destruct r as [t|e]; [|by apply idles_lost, idles_owes in H].
  rewrite run_modify in H. set (c1 := set_cl_transport _ c0) in H.
  apply (comp_trans c0 c1 c' [] w); [by apply idles_owes|]. apply bind_ret_inv in H as ([]&c2&w1&w2&H1&H&->).
  pose proof (idles_enter _ _ _ _ _ _ _ H1) as Hi. apply (comp_trans c1 c2); [by apply idles_owes|].
  assert (stilled c2) as Hs2 by (destruct Hi as [E _]; intros config st Hc; rewrite E in Hc; by eapply Hs).
  apply bind_ret_inv in H as ([]&c3&w3&w4&H2&H&->).
  apply (comp_trans c2 c3); [by apply (session_owes So_open) in H2|].
  unfold arm_tick in H. rewrite run_modify in H. injection H as <- <-. by apply idles_owes.
Qed.

Lemma transport_owes m c c' w : (forall t, cl_transport c = Some t -> lasting (m t).1.2 (m t).2) ->
  transport_callback su m c = (Ret tt, c', w) ->
  owes [] c c' w /\ (cl_transport c <> None -> cl_transport c' = None -> held c' = []).
Proof.
  assert (forall w0, responses (map Ce_transport w0) = []) as Hw by (by induction w0).
  intros Hm [(Et& ->& ->)|(t&t'&Et&[(_& ->&w0& ->)|(e&w0&y&H& ->)])]%(transport_cases su m); try done.
  - split; [by apply idles_owes|]. done.
  - split.
    + apply (comp_trans c (set_cl_transport (Some t') c) c' (map Ce_transport w0) y);
        [by apply idles_owes|by eapply closed_owes].
    + intros _ _. by eapply closed_holds_nothing.
Qed.
Lemma dialer_owes m c c' w : (forall t, cl_dialer c = Some t -> dialed (m t).1.2 (m t).2) ->
  (cl_dialer c <> None -> stilled c) -> dialer_callback su m c = (Ret tt, c', w) -> owes [] c c' w.
Proof.
  assert (forall w0, responses (map Ce_transport w0) = []) as Hw by (by induction w0).
  intros Hm Hs [(_& ->& ->)|(t&t'&Et&[(_& ->&w0& ->)|(r&w0&y&w1&H&_& ->)])]%(dialer_cases su m); try done.
  - by apply idles_owes.
  - apply (comp_trans c (set_cl_dialer (Some t') c) c' (map Ce_transport w0)); [by apply idles_owes|].
    apply (comp_trans (set_cl_dialer (Some t') c) c' c' y); [|by apply idles_owes].
    apply dial_owes in H; [done|]. rewrite Et in Hs. by apply Hs.
Qed.

(** Starting an attempt replaces the session. *)
Definition forgets (c c' : Client) (w : list cevent) : Prop :=
  responses w = [] /\ (cl_session c' = cl_session c \/ held c' = []).
#[local] Instance forgets_composable : Composable forgets.
Proof.
  split; [split; [done|by left]|]. intros c1 c2 c3 w1 w2 [R1 S1] [R2 S2]. unfold forgets. rewrite responses_app, R1, R2. split; [done|].
  destruct S2 as [E|]; [|by right]. unfold held. rewrite E. by destruct S1; [left|right].
Qed.
Lemma idles_forgets {A} (m : M Client cevent A) : respects idles m -> respects forgets m.
Proof. intros H c r c' w E. apply H in E as [? ?]. split; [done|by left]. Qed.
Lemma forgets_ensure : respects forgets (ensure_session su).
Proof.
  unfold ensure_session. respects_step; [by respects_step|]. destruct (cl_session a); [by respects_step|].
  cbv zeta. intros c r c' w E. split; [by injection E as _ _ <-|]. right. by injection E as _ <- _.
Qed.
Lemma forgets_begin h : respects forgets (begin_connect endpoint su h).
Proof.
  unfold begin_connect, cancel_reconnect. pose proof forgets_ensure. pose proof (fun r => idles_forgets _ (idles_connects r)).
  pose proof (fun next i cause => idles_forgets _ (idles_enter next i cause)).
  repeat first [ solve [auto] | respects_step | progress simpl ].
  all: try (split; [reflexivity|by (left + right)]).
  apply idles_forgets, idles_part; [reflexivity|by intros []].
Qed.
Lemma begin_busy h c c' w : ~ idle c -> begin_connect endpoint su h c = (Ret tt, c', w) ->
  cl_session c' = cl_session c /\ cl_transport c' = cl_transport c.
Proof.
  intros Hi. unfold begin_connect. rewrite run_gets.
  destruct (decide (cl_state c = CS_Ready)) as [Hy|Hy].
  { destruct h; [|by intros [= <- _]]. rewrite run_gets. destruct (cl_info c); [by intros [= <- _]|done]. }
  destruct (decide (cl_state c = CS_Closing)) as [Hcl|Hcl]; [destruct h; by intros [= <- _]|].
  rewrite run_modify, (bool_decide_false (cl_state c = CS_Disconnected)), (bool_decide_false (cl_state c = CS_Reconnecting))
    by (intros ?; apply Hi; by (left + right)).
  by intros [= <- _].
Qed.
(** An attempt loses what the session of a client without a connection holds. *)
Lemma begin_owes h c c' w : coherent c -> begin_connect endpoint su h c = (Ret tt, c', w) ->
  exists lost, held c ≡ₚ responses w ++ held c' ++ lost /\ (lost = [] \/ idle c /\ lost = held c) /\
    (cl_transport c <> None -> cl_transport c' <> None).
Proof.
  intros Hc H. pose proof (forgets_begin h _ _ _ _ H) as [-> Hs]. destruct (decide (idle c)) as [Hi|Hi].
  - assert (cl_transport c <> None -> cl_transport c' <> None) as Ht by (by destruct (idle_free c Hc Hi) as (_&?&_)).
    destruct Hs as [E|Hh].
    + exists []. unfold held. rewrite E, app_nil_r. split; [done|]. split; [by left|done].
    + exists (held c). rewrite Hh. split; [done|]. split; [by right|done].
  - destruct (begin_busy _ _ _ _ Hi H) as [E Et]. exists []. unfold held. rewrite E, Et, app_nil_r.
    split; [done|]. split; [by left|done].
Qed.

Lemma disconnect_owes h c c' w : coherent c -> stilled c \/ cl_dialer c = None ->
  request_disconnect su h c = (Ret tt, c', w) ->
  owes [] c c' w /\ (cl_transport c <> None -> cl_transport c' = None -> held c' = []).
Proof.
  intros Hc Hs. unfold request_disconnect. rewrite run_modify. intros H. apply bind_ret_inv in H as ([]&c2&w1&?&H1&H&->).
  assert (idles c c2 w1 /\ cl_transport c2 = cl_transport c /\ cl_dialer c2 = cl_dialer c) as (Hi&Et&Ed).
  { revert H1. unfold on_poller, on_part. destruct (Poller.stop _) as [[r1 q] wp]. intros [= _ <- <-].
    split; [|done]. split; [done|]. by induction wp. }
  unfold cancel_reconnect, cancel_tick in H. apply bind_ret_inv in H as ([]&c3&?&?&[= <- <-]&H&->).
  apply bind_ret_inv in H as ([]&c3&?&w2&[= <- <-]&H&->). rewrite run_get, Et, Ed in H.
  pose proof (ch_transport _ Hc) as Hct. pose proof (ch_dialer _ Hc) as Hcd.
  assert (idles c c2 (w1 ++ [Ce_cancel_reconnect] ++ [Ce_cancel_tick])) as Hi'
    by (destruct Hi as [Hi1 Hi2]; split; [done|]; by rewrite responses_app, Hi2).
  rewrite !(app_assoc w1), <- !app_assoc. rewrite (app_assoc w1), (app_assoc (w1 ++ _)), <- (app_assoc w1).
  enough (owes [] c2 c' w2 /\ (cl_transport c <> None -> cl_transport c' = None -> held c' = [])) as [Ho Hh].
  { split; [|exact Hh]. apply (comp_trans c c2 c'); [by apply idles_owes|done]. }
  destruct (cl_transport c) as [t|]; [|destruct (cl_dialer c) as [t|]].
  - rewrite run_modify in H. set (c4 := set_cl_disconnects _ c2) in H. apply transport_owes in H as [Ho Hh].
    + change (cl_transport c4) with (cl_transport c2) in Hh. split; [|rewrite Et in Hh; auto]. apply (comp_trans c2 c4 c' [] w2); [by apply idles_owes|done].
    + cbn. rewrite Et. intros ? [= <-]. by apply lasting_close, Hct.
  - split; [|done]. rewrite run_modify in H. set (c4 := set_cl_disconnects _ c2) in H.
    apply (comp_trans c2 c4 c' [] w2); [by apply idles_owes|]. revert H. apply dialer_owes.
    + change (cl_dialer c4) with (cl_dialer c2). rewrite Ed. intros ? [= <-]. destruct Hcd as [_ Hd]. destruct (cancel_failed t Hd) as (t'&w0&Hp&Hcan).
      change (cancel (fun _ _ => ret tt) t) with (cancel quiet t). rewrite Hcan. by eapply dialed_failed.
    + intros _ config st Hst. destruct Hs as [Hs|]; [|done]. destruct Hi as [E _]. cbn in Hst. rewrite E in Hst. by eapply Hs.
  - split; [|done]. apply idles_owes. revert H.
    match goal with |- ?m c2 = _ -> _ => enough (respects idles m) as Hx by apply Hx end. idle_tac.
Qed.

Lemma frame_owes ec b f c c' w : coherent c -> on_frame su ec b f c = (Ret tt, c', w) ->
  owes [] c c' w /\ (cl_transport c <> None -> cl_transport c' = None -> held c' = []).
Proof.
  intros Hc. destruct ec as [e|].
  - apply transport_owes. intros t Ht. apply lasting_read. pose proof (ch_transport _ Hc) as Hd. rewrite Ht in Hd. apply Hd.
  - intros H. assert (cl_transport c <> None -> cl_transport c' <> None) as Ht
      by (intros Ht; by apply (flying_frame _ _ _ _ _ _ _ H)).
    split; [|by intros H1 H2%(Ht H1)]. unfold on_frame, read_frame in H. rewrite run_gets in H.
    apply bind_ret_inv in H as ([]&c1&w1&w2&H1&H&->). apply (comp_trans c c1).
    + unfold when in H1. destruct (b && _); [|injection H1 as <- <-; by apply idles_owes].
      apply bind_ret_inv in H1 as ([]&c2&w3&w4&[= <- <-]&H1&->).
      apply (comp_trans c c c1 [_] w4); [by apply idles_owes|]. by apply (session_owes (So_text f)) in H1.
    + rewrite run_gets in H. unfold when in H. destruct (is_open _); injection H as <- <-; by apply idles_owes.
Qed.
Lemma tick_owes ec c c' w : coherent c -> on_tick su ec c = (Ret tt, c', w) ->
  owes [] c c' w /\ (cl_transport c <> None -> cl_transport c' <> None).
Proof.
  intros Hc H. pose proof H as H0. unfold on_tick in H. rewrite run_modify, run_get in H.
  set (c1 := set_cl_tick_waits _ c) in H. assert (idles c c1 []) as Hi by done.
  destruct (ec || _); [injection H as <- <-; split; [by apply idles_owes|done]|]. cbv zeta in H. split.
  - apply (comp_trans c c1 c' [] w); [by apply idles_owes|]. apply bind_ret_inv in H as ([]&c2&w1&w2&H1&H&->).
    apply (comp_trans c1 c2); [by apply (session_owes (So_tick (su_clock su))) in H1|]. apply idles_owes. revert H.
    match goal with |- ?m c2 = _ -> _ => enough (respects idles m) as Hx by apply Hx end. unfold arm_tick. idle_tac.
  - intros Ht. by apply (flying_tick su ec _ _ _ _ H0).
Qed.
Lemma send_owes type body c c' w : send_raw su type body c = (Ret tt, c', w) -> owes [] c c' w.
Proof.
  intros H. unfold send_raw in H. rewrite run_get in H. destruct (cl_session c) as [[config st]|] eqn:Ec;
    [|injection H as <- <-; by apply idles_owes].
  apply bind_ret_inv in H as (m&c1&w1&w2&H&[= <- <-]&->). rewrite app_nil_r. revert H. apply session_account.
  intros config1 st1 _ env a st' w0 E. eapply (accounts_op env (So_send type body EmptyString)); [|done].
  rewrite <- (app_nil_r w0). by eapply run_bind.
Qed.
Lemma mild_linked c c' : mild c c' -> cl_transport c <> None -> cl_transport c' <> None.
Proof. intros []. by destruct (cl_transport c), (cl_transport c'). Qed.

(** What one operation of the client does with handlers: [asked] is what it is given. *)
Definition handed (call : ccall) : list nat := match call with Cc_submit _ h => option_list h | _ => [] end.
Record settled (asked : list nat) (c c' : Client) (w : list cevent) (lost : list nat) : Prop := {
  se_balance : asked ++ held c ≡ₚ responses w ++ held c' ++ lost;
  se_lost : lost = [] \/ idle c /\ lost = held c;
  se_closed : cl_transport c <> None -> cl_transport c' = None -> held c' = []
}.
Lemma owes_settled g c c' w : sound c -> owes g c c' w ->
  (cl_transport c <> None -> cl_transport c' = None -> held c' = []) -> settled g c c' w [].
Proof. intros Hs Ho Hc. destruct (Ho Hs) as [_ HB]. split; [by rewrite app_nil_r|by left|done]. Qed.
Lemma idles_settled c c' w : idles c c' w -> (cl_transport c <> None -> cl_transport c' <> None) -> settled [] c c' w [].
Proof.
  intros [E Hw] Ht. split; [|by left|intros H1 H2; by destruct (Ht H1)]. unfold held. by rewrite E, Hw, app_nil_r.
Qed.

Lemma ccall_handlers call c c' w : coherent c -> can_run c call -> session_ok env0 c ->
  run_ccall endpoint su call c = (Ret tt, c', w) -> exists lost, settled (handed call) c c' w lost.
Proof.
  intros Hc Hr Hok H. pose proof (ok_sound _ Hok) as Hs.
  assert (cl_dialer c <> None -> stilled c) as Hd.
  { intros Hd. pose proof (ch_dialer _ Hc) as Hcd. destruct (cl_dialer c); [|done]. destruct Hcd as [Hst _].
    apply (not_ready_hushed env0 c Hok). congruence. }
  assert (stilled c \/ cl_dialer c = None) as Hd' by (destruct (cl_dialer c); [left; by apply Hd|by right]).
  assert (forall t : Transport, cl_transport c = Some t -> linked t) as Hl.
  { intros t Ht. pose proof (ch_transport _ Hc) as Hct. rewrite Ht in Hct. apply Hct. }
  destruct call as [h|h|spec h|type body|d|ec b f|ec| |ec|ec|sc|o|p|m|m]; cbn [run_ccall handed] in *.
  - destruct (begin_owes _ _ _ _ Hc H) as (lost&HB&HL&Ht). exists lost. split; [done|done|]. intros H1 H2. by destruct (Ht H1).
  - apply disconnect_owes in H as [Ho Ht]; [|done..]. exists []. by apply owes_settled.
  - exists []. unfold submit_request in H. rewrite run_get in H. destruct (cl_session c) eqn:Ec.
    + apply owes_settled; [done|by apply (session_owes (So_request spec h)) in H|]. intros H1 H2.
      destruct (mild_linked c c'); [|done..]. revert H. apply mild_run_session. intros *. apply not_ready_request.
    + destruct h as [h|]; [|done]. pose proof (mild_call_handler _ _ _ _ _ _ _ H) as Hm. apply handler_owes in H as [E Hw].
      split; [|by left|intros H1 H2; by destruct (mild_linked c c' Hm)]. unfold held. rewrite E, Ec, Hw. done.
  - exists []. apply owes_settled; [done|by eapply send_owes|]. intros H1 H2. unfold send_raw in H. rewrite run_get in H.
    destruct (cl_session c); [|by injection H as <- _]. apply bind_ret_inv in H as (x&c1&?&?&H&[= <- _]&_).
    destruct (mild_linked c c1); [|done..]. revert H. apply mild_run_session. intros *. apply not_ready_message.
  - rewrite run_gets in H. exists []. apply owes_settled; [done|..].
    + revert H. apply dialer_owes; [|done]. intros t Ht. destruct Hr as [Hh Hp]. rewrite Ht in Hp.
      pose proof (ch_dialer _ Hc) as Hcd. rewrite Ht in Hcd. by apply dial_step; [|apply Hcd|exact Hp].
    + intros H1 H2. apply dialer_cases in H as [(_& ->&_)|(t&t'&Ed&_)]; [done| |].
      * pose proof (ch_dialer _ Hc) as Hcd. pose proof (ch_transport _ Hc) as Hct. rewrite Ed in Hcd.
        destruct (cl_transport c); [|done]. destruct Hct as [[?|?] _], Hcd; congruence.
      * intros t Ht. destruct Hr as [Hh Hp]. rewrite Ht in Hp.
        pose proof (ch_dialer _ Hc) as Hcd. rewrite Ht in Hcd. by apply dial_step; [|apply Hcd|exact Hp].
  - apply frame_owes in H as [Ho Ht]; [|done]. exists []. by apply owes_settled.
  - apply transport_owes in H as [Ho Ht]; [exists []; by apply owes_settled|]. intros t Ht. by apply lasting_write, Hl.
  - apply transport_owes in H as [Ho Ht]; [exists []; by apply owes_settled|]. intros t Ht. by apply finish_lasting, Hl.
  - apply tick_owes in H as [Ho Ht]; [|done]. exists []. apply owes_settled; [done..|]. intros H1 H2. by destruct (Ht H1).
  - unfold on_reconnect_timer in H. rewrite run_modify, run_get in H. set (c1 := set_cl_reconnect_waits _ c) in H.
    assert (coherent c1) as Hc1 by by apply reconnect_fired.
    destruct (ec || _); [injection H as <- <-; exists []; by apply idles_settled|].
    destruct (begin_owes _ _ _ _ Hc1 H) as (lost&HB&HL&Ht). exists lost. split; [done|done|]. intros H1 H2. by destruct (Ht H1).
  - injection H as <- <-. exists []. by apply idles_settled.
  - injection H as <- <-. exists []. by apply idles_settled.
  - injection H as <- <-. exists []. by apply idles_settled.
  - exists []. apply idles_settled; [revert H; apply idles_part; [done|by intros []]|].
    apply (mild_linked c c'). revert H. apply mild_part, mild_set_datapoints.
  - exists []. apply idles_settled; [revert H; apply idles_part; [done|by intros []]|].
    apply (mild_linked c c'). revert H. apply mild_part, mild_set_poller.
Qed.
End Held.
