(* ===== verification/System.v ===== *)
(** * The client with its services and its I/O queue ([client.cpp], [sync_wait.hpp])

    The services reach the session only through functions that post to the client's
    [io_context]; this file puts the parts together.  The queue of posted tasks is
    first in, first out; the response handlers the services made are kept in a table
    under the number the session knows them by; and the handler the session calls is
    run where it is called ([Client.call_handler]).  What a caller does in a completion
    is a call of its own. *)
From stdpp Require Import gmap.
From S2P Require Import Prelude StdMap Errors Float Json Canonical Messages Auth Events Dispatcher.
From S2P Require Import Session.
From S2P Require Import Datapoint Generated Catalog Codec WriteSet Snapshot Service Manager Poller.
From S2P Require Import Commands Logs Replies Security Transport EventBus Client ClientFacts.
Local Open Scope Z_scope.

(** The tasks that are posted. *)
Inductive posted :=
| Po_submit (spec : RequestSpec) (h : nat)
| Po_send (type : string) (body : json)
| Po_work (call : service_call) (k : nat)
| Po_connect (h : option nat)
| Po_disconnect (h : option nat).

Record System := mkSystem {
  sy_client : Client;
  sy_posted : list posted;
  sy_handlers : gmap nat reply_handler;
  sy_next : nat
}.
Definition set_sy_client (v : Client) (s : System) : System :=
  mkSystem v (sy_posted s) (sy_handlers s) (sy_next s).
Definition set_sy_posted (v : list posted) (s : System) : System :=
  mkSystem (sy_client s) v (sy_handlers s) (sy_next s).
Definition set_sy_handlers (v : gmap nat reply_handler) (s : System) : System :=
  mkSystem (sy_client s) (sy_posted s) v (sy_next s).
Definition new_system (security : SecurityConfiguration) : System :=
  mkSystem (set_cl_security security new_client) [] ∅ 0.

(** [asio::post] *)
Definition post (task : posted) (s : System) : System := set_sy_posted (sy_posted s ++ [task]) s.
(** The [submit] function of the services: the handler goes with the task. *)
Definition post_submit (spec : RequestSpec) (h : reply_handler) (s : System) : System :=
  post (Po_submit spec (sy_next s))
    (mkSystem (sy_client s) (sy_posted s) (<[sy_next s := h]> (sy_handlers s)) (S (sy_next s))).

(** The reads the poller started within an operation. *)
Definition polled (w : list cevent) : list (RequestSpec * poll_handler) :=
  omap (fun e => match e with Ce_poll (Pe_read spec h) => Some (spec, h) | _ => None end) w.
(** A handler that was called is gone; the poller's reads are posted. *)
Definition absorb (w : list cevent) (s : System) : System :=
  fold_left (fun s p => post_submit p.1 (Rh_poll p.2) s) (polled w)
    (set_sy_handlers (fold_left (fun m h => delete h m) (responses w) (sy_handlers s)) s).

Section System.
Context (endpoint : Endpoint) (su : surrounding).

Definition reply_dump (j : json) : outcome string :=
  match su_dump su j with Some s => Ret s | None => Throw Exn_dump end.
Definition respond_with (handlers : gmap nat reply_handler) (h : nat) (response : Result json) : ReplyM unit :=
  match handlers !! h with
  | Some rh => respond reply_dump (su_clock su) rh response
  | None => ret tt
  end.
Definition with_handlers (handlers : gmap nat reply_handler) : surrounding :=
  {| su_crypto := su_crypto su; su_parse := su_parse su; su_dump := su_dump su; su_now := su_now su;
     su_now_ms := su_now_ms su; su_random := su_random su; su_ip_literal := su_ip_literal su;
     su_readable := su_readable su; su_ssl := su_ssl su; su_jitter := su_jitter su; su_clock := su_clock su;
     su_respond := respond_with handlers |}.

(** An operation of the client. *)
Definition client_op (call : ccall) : M System cevent unit := fun s =>
  let '(r, c, w) := run_ccall endpoint (with_handlers (sy_handlers s)) call (sy_client s) in
  (r, absorb w (set_sy_client c s), w).

(** A service's call runs up to its submission. *)
Definition begin_call (call : service_call) (k : nat) : M System cevent unit :=
  let* b := lift (start_call call k) in
  match b with
  | Answered a => emit (Ce_reply (Re_answer k a))
  | Submits spec h => modify (post_submit spec h)
  end.

Definition run_posted (task : posted) : M System cevent unit :=
  match task with
  | Po_submit spec h => client_op (Cc_submit spec (Some h))
  | Po_send type body => client_op (Cc_send type body)
  | Po_work call k => begin_call call k
  | Po_connect h => client_op (Cc_connect h)
  | Po_disconnect h => client_op (Cc_disconnect h)
  end.

Inductive sys_call :=
| Sy_call (call : service_call) (k : nat)       (* an asynchronous call, on any thread *)
| Sy_blocking (call : service_call) (k : nat)   (* a blocking one, on another thread *)
| Sy_send (type : string) (body : json)
| Sy_connect (h : option nat)
| Sy_disconnect (h : option nat)
| Sy_run                                        (* the oldest posted task runs *)
| Sy_io (call : ccall).                         (* an Asio handler, or a call that does not post *)

Definition sys_step (a : sys_call) : M System cevent unit :=
  match a with
  | Sy_call call k => begin_call call k
  | Sy_blocking call k => modify (post (Po_work call k))
  | Sy_send type body => modify (post (Po_send type body))
  | Sy_connect h => modify (post (Po_connect h))
  | Sy_disconnect h => modify (post (Po_disconnect h))
  | Sy_run =>
      let* s := get in
      match sy_posted s with
      | [] => ret tt
      | task :: rest => modify (set_sy_posted rest) ;;; run_posted task
      end
  | Sy_io call => client_op call
  end.
End System.

(** The calls of the client that go through the queue. *)
Definition is_posted (call : ccall) : bool :=
  match call with Cc_connect _ | Cc_disconnect _ | Cc_submit _ _ | Cc_send _ _ => true | _ => false end.
Definition sys_can (s : System) (a : sys_call) : Prop :=
  match a with Sy_io call => is_posted call = false /\ can_run (sy_client s) call | _ => True end.

(** The lives of a client and its callers under a rule the callers keep. *)
Inductive sys_life (endpoint : Endpoint) (rule : System -> sys_call -> Prop) : list sys_call -> System -> list cevent -> Prop :=
| sys_new security : sc_locked security = false -> sys_life endpoint rule [] (new_system security) []
| sys_more calls s w su a s' w' : sys_life endpoint rule calls s w -> sys_can s a -> rule s a ->
    sys_step endpoint su a s = (Ret tt, s', w') -> sys_life endpoint rule (calls ++ [a]) s' (w ++ w').

(** No rule; and the rule that a request is not handed to a session without a
    connection. *)
Definition any_call (_ : System) (_ : sys_call) : Prop := True.
Definition connected_calls (s : System) (a : sys_call) : Prop :=
  match a, sy_posted s with
  | Sy_run, Po_submit _ _ :: _ => cl_session (sy_client s) = None \/ cl_transport (sy_client s) <> None
  | _, _ => True
  end.

(** The completions of the calls made, called and waiting. *)
Definition asked_call (a : sys_call) : list nat :=
  match a with Sy_call _ k | Sy_blocking _ k => [k] | _ => [] end.
Definition answered_calls (w : list cevent) : list nat :=
  omap (fun e => match e with Ce_reply (Re_answer k _) => Some k | _ => None end) w.
Definition works (l : list posted) : list nat :=
  omap (fun t => match t with Po_work _ k => Some k | _ => None end) l.
Definition submits (l : list posted) : list nat :=
  omap (fun t => match t with Po_submit _ h => Some h | _ => None end) l.
Definition owing (m : gmap nat reply_handler) : list nat := omap (fun p => owed p.2) (map_to_list m).
Definition table (m : gmap nat reply_handler) : list nat := (map_to_list m).*1.
