(* ===== verification/SystemFacts.v ===== *)
(** * The calls of the services are answered ([client.cpp])

    Every asynchronous and every blocking call of a service is answered exactly once,
    or waits for the I/O thread, or its response handler waits in the session; and the
    handlers that are destroyed unanswered are those of requests handed to a session
    that had lost its connection. *)
From stdpp Require Import gmap.
From S2P Require Import Prelude StdMap Errors Float Json Canonical Messages Auth Events Dispatcher.
From S2P Require Import Session.
From S2P Require Import Datapoint Generated Catalog Codec WriteSet Snapshot Service Manager Poller.
From S2P Require Import Commands Logs Replies Security Transport EventBus Client ClientFacts ClientGate ClientHandlers System.
Local Open Scope Z_scope.

Lemma answered_calls_app w1 w2 : answered_calls (w1 ++ w2) = answered_calls w1 ++ answered_calls w2.
Proof. apply omap_app. Qed.

(** ** The completions an operation of the client calls *)
Section Told.
Context (endpoint : Endpoint) (su : surrounding) (owes : nat -> option nat).
Context (Hsu : forall h r s a s' w, su_respond su h r s = (Ret a, s', w) -> answers_of w = option_list (owes h)).

(** Those that the handlers it called owe, in their order. *)
Definition told (_ _ : Client) (w : list cevent) : Prop := answered_calls w = omap owes (responses w).
#[local] Instance told_composable : Composable told.
Proof.
  split; [done|]. intros c1 c2 c3 w1 w2 H1 H2. unfold told in *. by rewrite answered_calls_app, responses_app, omap_app, H1, H2.
Qed.
Definition unanswering (e : cevent) : Prop := match e with Ce_response _ _ | Ce_reply _ => False | _ => True end.
Lemma told_events c c' w : Forall unanswering w -> told c c' w.
Proof. unfold told. induction 1 as [|e w He _ IH]; [done|]. by destruct e. Qed.
Lemma told_part {S E A} here put event (m : M S E A) : (forall e, unanswering (event e)) ->
  respects told (on_part here put event m).
Proof.
  intros H c r c' w. unfold on_part. destruct (m (here c)) as [[r1 s] w1]. intros [= _ _ <-].
  apply told_events, Forall_map, Forall_elem. auto.
Qed.
Lemma told_handler h r : yields told (call_handler su h r).
Proof.
  intros c [] c' w H. unfold call_handler in H. apply bind_ret_inv in H as ([]&c1&w1&w2&[= <- <-]&H&->).
  unfold on_services, on_part in H. destruct (su_respond su h r _) as [[r1 s] w0] eqn:E. injection H as -> _ <-.
  apply Hsu in E. unfold told.
  change ([Ce_response h r] ++ map Ce_reply w0) with (Ce_response h r :: map Ce_reply w0).
  replace (answered_calls (Ce_response h r :: map Ce_reply w0)) with (answers_of w0)
    by (clear; unfold answered_calls, answers_of; cbn; induction w0 as [|[] w0 IH]; cbn; by rewrite ?IH).
  replace (responses (Ce_response h r :: map Ce_reply w0)) with [h]
    by (clear; unfold responses; cbn; f_equal; by induction w0).
  rewrite E. cbn. by destruct (owes h).
Qed.

Create HintDb told.
#[local] Hint Resolve told_handler : told.
#[local] Hint Extern 1 (yields told (on_part _ _ _ _)) => (apply yields_respects, told_part; by intros []) : told.
#[local] Hint Extern 1 (yields told (on_poller _)) => (apply yields_respects, told_part; by intros []) : told.
#[local] Hint Extern 1 (yields told (on_datapoints _)) => (apply yields_respects, told_part; by intros []) : told.
#[local] Hint Extern 1 (yields told (modify _)) => (apply yields_respects, respects_modify; intros ?; reflexivity) : told.
#[local] Hint Extern 1 (yields told (emit _)) => (apply yields_respects, respects_emit; intros ?; reflexivity) : told.
Lemma told_forM {A} (l : list A) f : (forall x, yields told (f x)) -> yields told (forM l f).
Proof.
  intros Hf. induction l as [|x l IH]; cbn [forM]; [apply yields_ret, _|]. apply yields_bind; [apply _|done|done].
Qed.
Ltac told_tac := repeat first
  [ solve [eauto with told]
  | apply yields_bind; [apply _| |intros ?]
  | apply yields_ret, _ | apply yields_throw | apply told_forM; intros ?
  | (apply yields_respects; first [apply respects_get|apply respects_gets|apply respects_lift]; apply _)
  | match goal with
    | |- yields _ (match ?x with _ => _ end) => destruct x
    | |- yields _ (let _ := _ in _) => cbv zeta
    | |- yields _ (when ?b _) => unfold when; destruct b
    end ].
Lemma told_enter next i cause : yields told (enter_state next i cause).
Proof. unfold enter_state. told_tac. Qed.
Lemma told_connects r : yields told (complete_connect r).
Proof. unfold complete_connect. told_tac. Qed.
Lemma told_disconnects : yields told complete_disconnect.
Proof. unfold complete_disconnect. told_tac. Qed.
#[local] Hint Resolve told_enter told_connects told_disconnects : told.
Lemma told_deliver e : yields told (deliver su e).
Proof. destruct e; cbn [deliver]; unfold use_transport, on_ready; told_tac. Qed.
#[local] Hint Resolve told_deliver : told.
Lemma told_session {A} (m : senv -> M (Dispatcher * Core) event A) : yields told (run_session su m).
Proof.
  intros c x c' w. unfold run_session. destruct (cl_session c) as [[config st]|]; [|done].
  destruct (m _ st) as [[r st'] w0]. intros E.
  apply (comp_trans c (set_cl_session (Some (config, st')) c) c' []); [done|].
  revert E. apply yields_bind; [apply _|told_tac|]. intros _. told_tac.
Qed.
#[local] Hint Resolve told_session : told.
Lemma told_lost e : yields told (handle_connection_lost su e).
Proof. unfold handle_connection_lost. told_tac. Qed.
#[local] Hint Resolve told_lost : told.
Lemma told_closed e : yields told (handle_transport_closed su e).
Proof. unfold handle_transport_closed, cancel_tick. told_tac. Qed.
#[local] Hint Resolve told_closed : told.
Lemma told_dial r : yields told (on_dial su r).
Proof. unfold on_dial, arm_tick. told_tac. Qed.
#[local] Hint Resolve told_dial : told.
Lemma told_tevent t e : yields told (handle_tevent su t e).
Proof. destruct e; cbn [handle_tevent]; told_tac. Qed.
#[local] Hint Resolve told_tevent : told.
Lemma told_transport m : yields told (transport_callback su m).
Proof.
  apply yields_bind; [apply _|told_tac|]. intros [t|]; [|told_tac]. intros c. destruct (m t) as [[r t'] w]. revert c.
  apply yields_bind; [apply _|told_tac|]. intros _. told_tac.
Qed.
Lemma told_dialer m : yields told (dialer_callback su m).
Proof.
  apply yields_bind; [apply _|told_tac|]. intros [t|]; [|told_tac]. intros c. destruct (m t) as [[r t'] w]. revert c.
  apply yields_bind; [apply _|told_tac|]. intros _. told_tac.
Qed.
#[local] Hint Resolve told_transport told_dialer : told.
Lemma told_begin h : yields told (begin_connect endpoint su h).
Proof. unfold begin_connect, ensure_session, cancel_reconnect. told_tac. Qed.
#[local] Hint Resolve told_begin : told.
Lemma told_call call : yields told (run_ccall endpoint su call).
Proof.
  destruct call; cbn [run_ccall]; unfold request_disconnect, submit_request, send_raw, on_frame, read_frame, on_tick,
    on_reconnect_timer, arm_tick, cancel_tick, cancel_reconnect; told_tac.
Qed.
End Told.

(** ** The table of the handlers *)

Lemma table_delete (m : gmap nat reply_handler) h rh : m !! h = Some rh ->
  table m ≡ₚ h :: table (delete h m) /\ owing m ≡ₚ option_list (owed rh) ++ owing (delete h m).
Proof.
  intros Hm. unfold table, owing. rewrite <- (map_to_list_delete _ _ _ Hm). split; [done|]. cbn. by destruct (owed rh).
Qed.
Lemma table_insert (m : gmap nat reply_handler) h rh : m !! h = None ->
  table (<[h := rh]> m) ≡ₚ h :: table m /\ owing (<[h := rh]> m) ≡ₚ option_list (owed rh) ++ owing m.
Proof.
  intros Hm. unfold table, owing. rewrite (map_to_list_insert _ _ _ Hm). split; [done|]. cbn. by destruct (owed rh).
Qed.
Lemma in_table (m : gmap nat reply_handler) h : h ∈ table m -> exists rh, m !! h = Some rh.
Proof. intros ([i rh]&->&Hi)%list_elem_of_fmap. apply elem_of_map_to_list in Hi. by exists rh. Qed.
Lemma table_nodup (m : gmap nat reply_handler) : NoDup (table m).
Proof. apply NoDup_fst_map_to_list. Qed.

Definition drop_handlers (m : gmap nat reply_handler) (hs : list nat) : gmap nat reply_handler :=
  fold_left (fun m h => delete h m) hs m.
Lemma drop_handlers_spec hs m rest : table m ≡ₚ hs ++ rest ->
  table (drop_handlers m hs) ≡ₚ rest /\ owing m ≡ₚ omap (fun h => m !! h ≫= owed) hs ++ owing (drop_handlers m hs).
Proof.
  revert m. induction hs as [|h hs IH]; intros m Ht; [done|].
  destruct (in_table m h) as [rh Hh]; [rewrite Ht; left|]. destruct (table_delete _ _ _ Hh) as [Ht' Ho'].
  rewrite Ht' in Ht. cbn [app] in Ht. apply (inj (h ::.)) in Ht. pose proof (table_nodup m) as Hn. rewrite Ht' in Hn.
  apply list.NoDup_cons in Hn as [Hni _]. destruct (IH _ Ht) as [H1 H2]. split; [exact H1|]. rewrite Ho', H2.
  change (drop_handlers m (h :: hs)) with (drop_handlers (delete h m) hs). cbn [omap list_omap]. rewrite Hh. cbn.
  replace (list_omap _ _ (fun h0 => delete h m !! h0 ≫= owed) hs) with (list_omap _ _ (fun h0 => m !! h0 ≫= owed) hs).
  - by destruct (owed rh).
  - rewrite Ht in Hni. clear -Hni. induction hs as [|x hs IH]; [done|]. cbn.
    rewrite lookup_delete_ne by (intros ->; set_solver). rewrite IH by set_solver. done.
Qed.

(** The handlers in the table are those of the posted requests and [rest]. *)
Definition holds (s : System) (rest : list nat) : Prop :=
  table (sy_handlers s) ≡ₚ submits (sy_posted s) ++ rest /\ Forall (fun h => h < sy_next s)%nat (table (sy_handlers s)).
Lemma submits_app l1 l2 : submits (l1 ++ l2) = submits l1 ++ submits l2.
Proof. apply omap_app. Qed.
Lemma works_app l1 l2 : works (l1 ++ l2) = works l1 ++ works l2.
Proof. apply omap_app. Qed.
Lemma post_submit_holds spec h s rest : holds s rest -> let s' := post_submit spec h s in
  holds s' rest /\ owing (sy_handlers s') ≡ₚ option_list (owed h) ++ owing (sy_handlers s) /\
  works (sy_posted s') = works (sy_posted s).
Proof.
  intros [Ht Hb]. destruct (table_insert (sy_handlers s) (sy_next s) h) as [H1 H2].
  { apply eq_None_not_Some. intros [rh Hrh]. apply table_delete in Hrh as [Hrh _]. rewrite Hrh in Hb.
    apply Forall_cons_iff in Hb as [Hb _]. lia. }
  cbn. unfold holds. cbn. rewrite submits_app, works_app. cbn. rewrite app_nil_r.
  split; [split|done].
  - rewrite H1, Ht, <- app_assoc. by rewrite (Permutation_middle (submits (sy_posted s)) rest).
  - rewrite H1. constructor; [lia|]. revert Hb. apply Forall_impl. cbn. lia.
Qed.
Lemma post_reads_holds l s rest : holds s rest ->
  let s' := fold_left (fun s (p : RequestSpec * poll_handler) => post_submit p.1 (Rh_poll p.2) s) l s in
  holds s' rest /\ owing (sy_handlers s') ≡ₚ owing (sy_handlers s) /\ works (sy_posted s') = works (sy_posted s).
Proof.
  revert s. induction l as [|p l IH]; intros s Hs; [done|]. cbn [fold_left].
  destruct (post_submit_holds p.1 (Rh_poll p.2) s rest Hs) as (H1&H2&H3).
  destruct (IH _ H1) as (H4&H5&H6). cbv zeta in *. split; [exact H4|]. split; [by rewrite H5, H2|congruence].
Qed.
Lemma absorb_client w s : sy_client (absorb w s) = sy_client s.
Proof.
  unfold absorb. set (s1 := set_sy_handlers _ s). change (sy_client s) with (sy_client s1). generalize s1.
  induction (polled w) as [|p l IH]; intros s2; [done|]. cbn [fold_left]. by rewrite IH.
Qed.
Lemma absorb_holds w s rest : holds s (responses w ++ rest) -> let s' := absorb w s in
  holds s' rest /\ omap (fun h => sy_handlers s !! h ≫= owed) (responses w) ++ owing (sy_handlers s') ≡ₚ owing (sy_handlers s) /\
  works (sy_posted s') = works (sy_posted s).
Proof.
  intros [Ht Hb]. assert (table (sy_handlers s) ≡ₚ responses w ++ submits (sy_posted s) ++ rest) as Ht'.
  { rewrite Ht, !app_assoc. by rewrite (comm (++) (submits _) (responses w)). }
  destruct (drop_handlers_spec _ _ _ Ht') as [H1 H2]. unfold absorb.
  destruct (post_reads_holds (polled w) (set_sy_handlers (drop_handlers (sy_handlers s) (responses w)) s) rest)
    as (H3&H4&H5).
  { split; cbn; [done|]. rewrite Ht' in Hb. apply Forall_app in Hb as [_ Hb]. by rewrite H1. }
  cbv zeta in *. split; [exact H3|]. split; [|exact H5]. rewrite H4, H2. done.
Qed.

(** ** One step *)
Section Steps.
Context (endpoint : Endpoint) (su : surrounding).

Lemma with_handlers_answers m h r s a s' w : su_respond (with_handlers su m) h r s = (Ret a, s', w) ->
  answers_of w = option_list (m !! h ≫= owed).
Proof.
  cbn. unfold respond_with. destruct (m !! h) as [rh|]; [|by intros [= _ _ <-]]. destruct a. apply respond_answers.
Qed.

Lemma client_op_step call s s' w lost : (exists calls w0, clife endpoint calls (sy_client s) w0) ->
  can_run (sy_client s) call -> holds s (handed call ++ held (sy_client s) ++ lost) ->
  client_op endpoint su call s = (Ret tt, s', w) ->
  (exists calls w0, clife endpoint calls (sy_client s') w0) /\
  owing (sy_handlers s) ≡ₚ answered_calls w ++ owing (sy_handlers s') /\
  works (sy_posted s') = works (sy_posted s) /\
  exists gone, settled (handed call) (sy_client s) (sy_client s') w gone /\ holds s' (held (sy_client s') ++ gone ++ lost).
Proof.
  intros (calls&w0&Hl) Hr Hh H. unfold client_op in H. set (su' := with_handlers su (sy_handlers s)) in *.
  destruct (run_ccall endpoint su' call (sy_client s)) as [[r c'] w1] eqn:E. injection H as -> <- <-.
  destruct (life_ok _ (session_env su (session_config new_client) false) _ _ _ Hl) as [Hc Hok].
  destruct (ccall_handlers _ _ _ _ _ _ _ Hc Hr Hok E) as [gone Hs].
  assert (holds (set_sy_client c' s) (responses w1 ++ held c' ++ gone ++ lost)) as Hh'.
  { destruct Hh as [Ht Hb]. split; [|done]. cbn. rewrite Ht, (app_assoc (handed call)), (se_balance _ _ _ _ _ Hs).
    by rewrite <- !app_assoc. }
  destruct (absorb_holds _ _ _ Hh') as (H1&H2&H3). cbv zeta in *. rewrite absorb_client. cbn [sy_client set_sy_client].
  split; [exists (calls ++ [call]), (w0 ++ w1); by eapply clife_call|].
  split; [|split; [exact H3|by exists gone]].
  pose proof (told_call endpoint su' _ (with_handlers_answers (sy_handlers s)) call _ _ _ _ E) as Ht.
  unfold told in Ht. rewrite Ht. symmetry. exact H2.
Qed.

Lemma start_call_owes call k spec h : start_call call k = Ret (Submits spec h) -> owed h = Some k.
Proof.
  unfold start_call, command_call, begun_of. intros H.
  destruct call; try (apply outcome_bind_ret_inv in H as (?&_&H)); repeat case_match; by simplify_eq.
Qed.
Lemma begin_call_step call k s s' w rest : holds s rest -> begin_call call k s = (Ret tt, s', w) ->
  holds s' rest /\ sy_client s' = sy_client s /\ k :: owing (sy_handlers s) ≡ₚ answered_calls w ++ owing (sy_handlers s') /\
  works (sy_posted s') = works (sy_posted s).
Proof.
  intros Hh. unfold begin_call. rewrite run_lift. destruct (start_call call k) as [[a|spec h]|] eqn:E; [| |done].
  - by intros [= <- <-].
  - intros [= <- <-]. destruct (post_submit_holds spec h s rest Hh) as (H1&H2&H3). split; [exact H1|]. split; [done|].
    split; [|exact H3]. rewrite H2. by rewrite (start_call_owes _ _ _ _ E).
Qed.
End Steps.

(** ** A life *)
Section Life.
Context (endpoint : Endpoint) (rule : System -> sys_call -> Prop).

(** What holds after the calls [calls]; [lost] are the handlers destroyed. *)
Record upkeep (calls : list sys_call) (s : System) (w : list cevent) (lost : list nat) : Prop := {
  up_client : exists cs w0, clife endpoint cs (sy_client s) w0;
  up_holds : holds s (held (sy_client s) ++ lost);
  up_answered : concat (map asked_call calls) ≡ₚ answered_calls w ++ works (sy_posted s) ++ owing (sy_handlers s);
  up_kept : (forall s a, rule s a -> connected_calls s a) ->
    lost = [] /\ (cl_transport (sy_client s) = None -> held (sy_client s) = [])
}.

(** An operation of the client that is not a request to a session without a connection
    keeps the second half. *)
Lemma kept_step asked c c' w gone : coherent c -> settled asked c c' w gone ->
  (asked = [] \/ cl_transport c <> None \/ held c' = []) -> (cl_transport c = None -> held c = []) ->
  gone = [] /\ (cl_transport c' = None -> held c' = []).
Proof.
  intros Hc [HB HL HC] Ha Hk. split.
  - destruct HL as [->|[Hi ->]]; [done|]. apply Hk. by destruct (idle_free c Hc Hi) as (_&?&_).
  - intros Ht. destruct (decide (cl_transport c = None)) as [Hn|Hn]; [|by apply HC].
    destruct Ha as [->|[?|?]]; [|done..]. rewrite (Hk Hn) in HB. cbn in HB. symmetry in HB.
    apply Permutation_nil_r, app_eq_nil in HB as [_ HB]. by apply app_eq_nil in HB as [HB _].
Qed.
Lemma submit_unconnected su spec h c c' w : cl_session c = None -> submit_request su spec (Some h) c = (Ret tt, c', w) ->
  held c' = [].
Proof.
  intros Hs. unfold submit_request. rewrite run_get, Hs. intros H. apply handler_owes in H as [E _].
  unfold held. by rewrite E, Hs.
Qed.

Lemma upkeep_op calls a s s1 s' w w' lost su call : upkeep calls s w lost -> sy_client s1 = sy_client s ->
  sy_handlers s1 = sy_handlers s -> works (sy_posted s) = works (sy_posted s1) -> asked_call a = [] ->
  can_run (sy_client s) call -> holds s1 (handed call ++ held (sy_client s) ++ lost) ->
  client_op endpoint su call s1 = (Ret tt, s', w') ->
  (forall c' w0, (forall s a, rule s a -> connected_calls s a) -> run_ccall endpoint (with_handlers su (sy_handlers s)) call (sy_client s) = (Ret tt, c', w0) ->
    handed call = [] \/ cl_transport (sy_client s) <> None \/ held c' = []) ->
  exists lost', upkeep (calls ++ [a]) s' (w ++ w') lost'.
Proof.
  intros [Hl Hh Ha Hk] Ec Eh Ew Eb Hr Hh1 H Hc. rewrite <- Ec in Hl, Hr, Hh1.
  destruct (client_op_step endpoint su call s1 s' w' lost Hl Hr Hh1 H) as (Hl'&Ho&Hw&gone&Hs&Hh').
  exists (gone ++ lost). split; [exact Hl'|exact Hh'|..].
  - rewrite map_app, concat_app, Ha, answered_calls_app, Hw. cbn. rewrite Eb, !app_nil_r, <- Eh, Ho, Ew, <- !app_assoc.
    apply Permutation_app_head. rewrite !app_assoc. by rewrite (comm (++) (works _)).
  - intros Hrule. destruct (Hk Hrule) as [-> Hk']. rewrite app_nil_r. rewrite Ec in Hs. eapply kept_step; [|exact Hs| |exact Hk'].
    + destruct Hl as (cs&w0&Hl). rewrite Ec in Hl.
      by destruct (life_ok _ (session_env su (session_config new_client) false) _ _ _ Hl).
    + unfold client_op in H. destruct (run_ccall _ _ _ _) as [[r c'] w1] eqn:E. injection H as -> <- <-.
      rewrite absorb_client. rewrite Ec, Eh in E. exact (Hc c' w1 Hrule E).
Qed.

(** A call that leaves the client alone. *)
Lemma upkeep_aside calls a s s' w w' lost : upkeep calls s w lost -> sy_client s' = sy_client s ->
  holds s' (held (sy_client s) ++ lost) ->
  answered_calls w' ++ works (sy_posted s') ++ owing (sy_handlers s') ≡ₚ
    asked_call a ++ works (sy_posted s) ++ owing (sy_handlers s) ->
  upkeep (calls ++ [a]) s' (w ++ w') lost.
Proof.
  intros [Hl Hh Ha Hk] Ec Hh' Hb. split; rewrite ?Ec; [done..| |done].
  rewrite map_app, concat_app, Ha, answered_calls_app, <- !app_assoc, Hb. cbn. rewrite app_nil_r, !app_assoc.
  rewrite (comm (++) _ (asked_call a)). by rewrite !app_assoc, (comm (++) (asked_call a)).
Qed.
Lemma upkeep_post calls a task s w lost : upkeep calls s w lost -> submits [task] = [] -> works [task] = asked_call a ->
  upkeep (calls ++ [a]) (post task s) w lost.
Proof.
  intros H Hs Hw. rewrite <- (app_nil_r w). eapply upkeep_aside; [exact H|done|..].
  - destruct (up_holds _ _ _ _ H) as [Ht Hb]. split; [|done]. cbn. by rewrite submits_app, Hs, app_nil_r.
  - cbn. rewrite works_app, Hw. by rewrite (comm (++) (works _) (asked_call a)), <- app_assoc.
Qed.

Lemma life_upkeep calls s w : sys_life endpoint rule calls s w -> exists lost, upkeep calls s w lost.
Proof.
  induction 1 as [security Hs|calls s w su a s' w' _ [lost Hu] Hcan Hrule E].
  { exists []. split; [|split|done|]; cbn; try done. exists [], []. by apply clife_new. }
  pose proof (up_holds _ _ _ _ Hu) as Hh. destruct a as [call k|call k|type body|h|h| |call]; cbn [sys_step] in E.
  - exists lost. destruct (begin_call_step _ _ _ _ _ _ Hh E) as (H1&H2&H3&H4).
    eapply upkeep_aside; [exact Hu|exact H2|exact H1|]. rewrite H4. cbn. rewrite (Permutation_middle (works _)), H3, !app_assoc.
    by rewrite (comm (++) (works _)).
  - exists lost. injection E as <- <-. rewrite app_nil_r. by apply upkeep_post.
  - exists lost. injection E as <- <-. rewrite app_nil_r. by apply upkeep_post.
  - exists lost. injection E as <- <-. rewrite app_nil_r. by apply upkeep_post.
  - exists lost. injection E as <- <-. rewrite app_nil_r. by apply upkeep_post.
  - rewrite run_get in E. destruct (sy_posted s) as [|task rest] eqn:Ep.
    { injection E as <- <-. exists lost. eapply upkeep_aside; [exact Hu|done|exact Hh|]. cbn. by rewrite Ep. }
    rewrite run_modify in E. set (s1 := set_sy_posted rest s) in E.
    assert (forall l, submits (task :: rest) = l ++ submits rest -> holds s1 (l ++ held (sy_client s) ++ lost)) as Hh1.
    { intros l Hl. destruct Hh as [Ht Hb]. split; [|done]. cbn. rewrite Ht, Ep, Hl, !app_assoc.
      by rewrite (comm (++) l). }
    destruct task as [spec h|type body|call k|h|h]; cbn [run_posted] in E.
    + eapply upkeep_op; [exact Hu|..|exact E|]; try done; [by rewrite Ep|by apply (Hh1 [h])|]. cbn [handed option_list].
      intros c' w0 Hcon Er. right. specialize (Hcon s Sy_run Hrule). unfold connected_calls in Hcon. rewrite Ep in Hcon.
      destruct Hcon as [Hn|Hn]; [right|by left]. by eapply submit_unconnected.
    + eapply upkeep_op; [exact Hu|..|exact E|]; try done; [by rewrite Ep|by apply (Hh1 [])|]. intros *. by left.
    + exists lost. destruct (begin_call_step _ _ _ _ _ _ (Hh1 [] eq_refl) E) as (H1&H2&H3&H4).
      eapply upkeep_aside; [exact Hu|exact H2|exact H1|]. rewrite H4, Ep. cbn.
      change (sy_handlers s1) with (sy_handlers s) in H3. rewrite (Permutation_middle (works rest)), H3, !app_assoc.
      by rewrite (comm (++) (works _)).
    + eapply upkeep_op; [exact Hu|..|exact E|]; try done; [by rewrite Ep|by apply (Hh1 [])|]. intros *. by left.
    + eapply upkeep_op; [exact Hu|..|exact E|]; try done; [by rewrite Ep|by apply (Hh1 [])|]. intros *. by left.
  - cbn in Hcan. destruct Hcan as [Hp Hr]. eapply upkeep_op; [exact Hu|..]; try done.
    + by destruct call.
    + intros *. left. by destruct call.
Qed.
End Life.


