(* ===== verification/ClientExamples.v ===== *)
(** * A client on a concrete device

    The toy device of [SessionExamples] behind a transport whose handlers succeed:
    the client connects, becomes ready and loses the connection; the theorems of
    [ClientFacts] are applied along that life. *)
From S2P Require Import Prelude StdMap Errors Float Json Canonical Messages Auth Events Dispatcher.
From S2P Require Import Session SessionFacts SessionExamples.
From S2P Require Import Datapoint Generated Catalog Codec WriteSet Snapshot Service Manager Poller.
From S2P Require Import Security Transport EventBus Client ClientFacts ClientReady ClientGate.
Local Open Scope Z_scope.

Definition toy_ssl : ssl_library := {|
  sl_load_verify_file := fun _ => None; sl_use_certificate_chain := fun _ => None;
  sl_use_private_key := fun _ => None; sl_keys_match := fun _ _ => true |}.
Definition toy_su : surrounding := {|
  su_crypto := toy_crypto; su_parse := toy_parse;
  su_dump := fun j => match canonical_serialize j with Ret s => Some s | Throw _ => None end;
  su_now := fun n => Z.of_nat n; su_now_ms := fun n => 1000 + Z.of_nat n;
  su_random := fun _ => Some toy_bytes; su_ip_literal := fun _ => true; su_readable := fun _ => true;
  su_ssl := toy_ssl; su_jitter := fun b => b / 2; su_clock := 0; su_respond := fun _ _ => ret tt |}.
Definition with_ssl (lib : ssl_library) (su : surrounding) : surrounding :=
  mkSurrounding (su_crypto su) (su_parse su) (su_dump su) (su_now su) (su_now_ms su) (su_random su)
    (su_ip_literal su) (su_readable su) lib (su_jitter su) (su_clock su) (su_respond su).
(** The same with no readable file, and with an identity whose key does not match. *)
Definition unreadable_su : surrounding :=
  mkSurrounding toy_crypto toy_parse (su_dump toy_su) (su_now toy_su) (su_now_ms toy_su) (su_random toy_su)
    (fun _ => true) (fun _ => false) toy_ssl (su_jitter toy_su) 0 (su_respond toy_su).
Definition mismatched_su : surrounding :=
  with_ssl (mkSslLibrary (fun _ => None) (fun _ => None) (fun _ => None) (fun _ _ => false)) toy_su.

Definition toy_endpoint : Endpoint := default_endpoint "192.168.1.51".
Definition toy_security : SecurityConfiguration :=
  mkSecurity (mutual_tls "ca.pem" "cert.pem" "key.pem" VerifyCertificateChainOnly) true
    (Some (fixed_provider "1" [1; 2; 3] EmptyString)) "1" "dev-1" false.
Definition fresh : Client := set_cl_security toy_security new_client.
Abbreviation play_client := (fun calls => forM calls (run_ccall toy_endpoint toy_su) fresh).

Fixpoint runnable (calls : list ccall) (c : Client) : Prop :=
  match calls with
  | [] => True
  | call :: r => can_run c call /\
      match run_ccall toy_endpoint toy_su call c with (Ret _, c', _) => runnable r c' | _ => False end
  end.
Lemma runnable_life calls : runnable calls fresh ->
  exists c w, play_client calls = (Ret tt, c, w) /\ clife toy_endpoint calls c w.
Proof.
  enough (forall past c0 w0, clife toy_endpoint past c0 w0 -> runnable calls c0 ->
    exists c w, forM calls (run_ccall toy_endpoint toy_su) c0 = (Ret tt, c, w) /\
      clife toy_endpoint (past ++ calls) c (w0 ++ w)) as H.
  { intros Hr. apply (H [] fresh []); [by apply clife_new|done]. }
  induction calls as [|call calls IH]; intros past c0 w0 Hl; cbn [runnable forM].
  - intros _. exists c0, []. by rewrite !app_nil_r.
  - intros [Hp Hr]. destruct (run_ccall toy_endpoint toy_su call c0) as [[[[]|e] c1] w1] eqn:E; [|done].
    destruct (IH (past ++ [call]) c1 (w0 ++ w1)) as (c&w&Hf&Hl'); [by eapply clife_call|done|].
    exists c, (w1 ++ w). split; [by eapply run_bind|]. by rewrite <- !app_assoc in Hl'.
Qed.

Definition dial_up : list ccall :=
  [Cc_connect (Some 1%nat); Cc_connect (Some 2%nat); Cc_dial (Tc_on_resolve None); Cc_dial (Tc_on_connect None);
   Cc_dial (Tc_on_tls_handshake None); Cc_dial (Tc_on_ws_handshake None)].
Definition get_ready : list ccall := dial_up ++ [Cc_frame None true "hello"; Cc_frame None true "proof"].
Definition reset_ec : error_code := mkEc "connection reset" false false false false.
Definition get_lost : list ccall := get_ready ++ [Cc_tick false; Cc_frame (Some reset_ec) true EmptyString].
Definition shut_down : list ccall := get_ready ++ [Cc_disconnect (Some 3%nat); Cc_closed].

(** The client after a list of calls. *)
Definition client_after (calls : list ccall) : Client := (play_client calls).1.2.

Example toy_life :
  map (fun calls => cl_state (client_after calls)) [[]; dial_up; get_ready; get_lost; shut_down] =
    [CS_Disconnected; CS_FountainHandshaking; CS_Ready; CS_Reconnecting; CS_Disconnected].
Proof. vm_compute. reflexivity. Qed.

Lemma get_lost_runs : runnable get_lost fresh.
Proof. vm_compute. repeat split; lia. Qed.

Lemma completions_answered_witness : exists c w,
  clife toy_endpoint get_lost c w /\ cl_state c = CS_Reconnecting /\ connected w ≡ₚ [1; 2]%nat.
Proof.
  destruct (runnable_life get_lost get_lost_runs) as (c&w&E&Hl). exists c, w. split; [exact Hl|].
  destruct (completions_answered _ _ _ _ Hl) as (HA&_&_).
  assert (cl_state c = CS_Reconnecting /\ cl_connects c = []) as [Hs Hn].
  { assert (c = client_after get_lost) as -> by (unfold client_after; rewrite E; reflexivity).
    clear. vm_compute. split; reflexivity. }
  split; [exact Hs|]. rewrite Hn, app_nil_r in HA. exact HA.
Defined.

Lemma client_coherent_witness : exists c w, clife toy_endpoint get_lost c w /\ coherent c.
Proof.
  destruct (runnable_life get_lost get_lost_runs) as (c&w&_&Hl). exists c, w. split; [exact Hl|].
  exact (client_coherent _ _ _ _ Hl).
Defined.

(** The connection was lost once; the reconnect's attempt fails too. *)
Definition redial : Client := client_after (get_lost ++ [Cc_reconnect false]).

Definition status_request : RequestSpec :=
  {| rs_type := "command"; rs_body := J_obj [("op", J_str "reset")]; rs_timeout := None;
     rs_priority := SafetyControl; rs_coalesce_key := EmptyString |}.
Lemma queued_request_lost_witness : exists c1 c2 w,
  submit_request toy_su status_request (Some 9%nat) (client_after get_lost) = (Ret tt, c1, []) /\
  begin_connect toy_endpoint toy_su None c1 = (Ret tt, c2, w) /\ responses w = [].
Proof.
  set (s := default (session_config fresh, new_session (session_env toy_su (session_config fresh) false))
    (cl_session (client_after get_lost))).
  destruct (queued_request_lost toy_endpoint toy_su toy_su status_request 9 None (client_after get_lost)
    s.1 s.2.1 s.2.2 (mkSslContext true (Some "ca.pem") (Some ("cert.pem", "key.pem"))))
    as (c1&_&_&c2&w&_&E1&_&_&_&E2&Hr&_); try (vm_compute; reflexivity).
  - vm_compute. auto.
  - exists c1, c2, w. split; [exact E1|]. split; [exact E2|exact Hr].
Defined.

Lemma reconnect_stalls_witness : exists c',
  on_reconnect_timer toy_endpoint unreadable_su false (client_after get_lost) = (Ret tt, c', [Ce_cancel_reconnect]) /\
  cl_state c' = CS_Reconnecting /\ cl_reconnect_waits c' = 0%nat.
Proof.
  destruct (runnable_life get_lost get_lost_runs) as (c&w&E&Hl).
  assert (c = client_after get_lost) as Hc by (unfold client_after; rewrite E; reflexivity).
  destruct (reconnect_stalls toy_endpoint unreadable_su (client_after get_lost)
    (config_error FileNotReadable "tls ca_file is not readable: ca.pem")) as (c'&Er&Hs&Hw&_);
    try (vm_compute; reflexivity).
  - rewrite <- Hc. clear E Hc. induction Hl as [s Hs|calls c w su call c' w' _ Hc Hr E].
    + split; cbn; try done; set_solver.
    + by eapply run_ccall_coherent.
  - exists c'. split; [exact Er|]. split; [exact Hs|exact Hw].
Defined.

Lemma tls_failure_locks_witness : exists c' w,
  begin_connect toy_endpoint mismatched_su (Some 1%nat) fresh = (Ret tt, c', w) /\
  cl_state c' = CS_Disconnected /\ sc_locked (cl_security c') = true.
Proof.
  destruct (tls_failure_locks toy_endpoint mismatched_su (Some 1%nat) fresh
    (config_error MissingCredentials "client key does not match the client certificate")
    (server_only "ca.pem" VerifyCertificateChainOnly)) as (c'&w&E&Hs&Hl); try (vm_compute; reflexivity).
  exists c', w. split; [exact E|]. split; [exact Hs|]. destruct (sc_locked (cl_security c')) eqn:El; [reflexivity|].
  exfalso. revert Hl. unfold set_tls. rewrite El. vm_compute. discriminate.
Defined.

Lemma connect_while_closing_witness : exists c1 w1 i,
  request_disconnect toy_su (Some 3%nat) (client_after get_ready) = (Ret tt, c1, w1) /\
  begin_connect toy_endpoint toy_su (Some 4%nat) c1 = (Ret tt, c1, [Ce_connected 4 (Ok i)]).
Proof.
  assert (exists i, cl_info (client_after get_ready) = Some i) as [i Hi].
  { destruct (cl_info (client_after get_ready)) eqn:Ei; [by eexists|]. exfalso. revert Ei. vm_compute. discriminate. }
  assert (exists t, cl_transport (client_after get_ready) = Some t /\ is_open t = true) as (t&Ht&Ho).
  { destruct (cl_transport (client_after get_ready)) eqn:Et.
    - eexists. split; [reflexivity|]. revert Et. vm_compute. by intros [= <-].
    - exfalso. revert Et. vm_compute. discriminate. }
  destruct (connect_while_closing toy_endpoint toy_su (Some 3%nat) 4 (client_after get_ready) t i)
    as (c1&w1&E1&_&_&_&E2); [vm_compute; reflexivity|exact Hi|exact Ht|exact Ho|].
  exists c1, w1, i. split; [exact E1|exact E2].
Defined.

Definition greeted : list ccall := dial_up ++ [Cc_frame None true "hello"].
Lemma ready_needs_proof_witness : exists r c' w core,
  run_ccall toy_endpoint toy_su (Cc_frame None true "proof") (client_after greeted) = (r, c', w) /\
  cl_state c' = CS_Ready /\ state core = AwaitProof.
Proof.
  destruct (run_ccall toy_endpoint toy_su (Cc_frame None true "proof") (client_after greeted)) as [[r c'] w] eqn:E.
  assert (cl_state c' = CS_Ready) as Hr.
  { transitivity (cl_state (run_ccall toy_endpoint toy_su (Cc_frame None true "proof") (client_after greeted)).1.2);
      [rewrite E; reflexivity|vm_compute; reflexivity]. }
  destruct (ready_needs_proof toy_endpoint toy_su _ _ _ _ _ E) as (_&_&_&_&core&_&_&Hs&_);
    [vm_compute; discriminate|exact Hr|].
  exists r, c', w, core. split; [reflexivity|]. split; [exact Hr|exact Hs].
Defined.

Lemma handshake_only_before_ready_witness : exists c' w frame m,
  run_ccall toy_endpoint toy_su (Cc_frame None true "hello") (client_after dial_up) = (Ret tt, c', w) /\
  Ce_transport (Te_queued frame) ∈ w /\ su_dump toy_su m = Some frame.
Proof.
  assert (runnable dial_up fresh) as Hr by (vm_compute; repeat split).
  destruct (runnable_life dial_up Hr) as (c&w0&E0&Hl).
  assert (c = client_after dial_up) as Hc by (unfold client_after; rewrite E0; reflexivity). clear E0. subst c.
  destruct (run_ccall toy_endpoint toy_su (Cc_frame None true "hello") (client_after dial_up)) as [[r c'] w] eqn:E.
  assert (r = Ret tt) as ->.
  { transitivity (run_ccall toy_endpoint toy_su (Cc_frame None true "hello") (client_after dial_up)).1.1;
      [rewrite E; reflexivity|vm_compute; reflexivity]. }
  assert (exists frame, Ce_transport (Te_queued frame) ∈ w) as [frame Hin].
  { assert (w = (run_ccall toy_endpoint toy_su (Cc_frame None true "hello") (client_after dial_up)).2) as ->
      by (rewrite E; reflexivity).
    clear. eexists. vm_compute. repeat first [apply list_elem_of_here | apply list_elem_of_further]. }
  destruct (handshake_only_before_ready _ _ _ _ toy_su (Cc_frame None true "hello") c' w frame Hl I E) as (m&_&Hm&_&_);
    [vm_compute; discriminate|exact I|exact Hin|].
  exists c', w, frame, m. split; [reflexivity|]. split; [exact Hin|exact Hm].
Defined.
