(* ===== verification/SystemExamples.v ===== *)
(** * The services on a concrete device

    The client of [ClientExamples] with its services: calls are posted, answered by a
    frame or by the end of the connection, and the theorems of [SystemFacts] are
    applied along that life. *)
From stdpp Require Import gmap.
From S2P Require Import Prelude StdMap Errors Float Json Canonical Messages Auth Events Dispatcher.
From S2P Require Import Session SessionExamples.
From S2P Require Import Datapoint Generated Catalog Codec WriteSet Snapshot Service Manager Poller.
From S2P Require Import Commands Logs Replies Security Transport EventBus Client ClientFacts ClientHandlers System SystemFacts.
From S2P Require Import ClientExamples.
Local Open Scope Z_scope.

Definition toy_system : System := new_system toy_security.
Abbreviation play_system := (fun calls => forM calls (sys_step toy_endpoint toy_su) toy_system).

(** The life of the system along a list of calls, each run where it may. *)
Fixpoint sys_runnable (calls : list sys_call) (s : System) : Prop :=
  match calls with
  | [] => True
  | a :: r => sys_can s a /\ connected_calls s a /\
      match sys_step toy_endpoint toy_su a s with (Ret _, s', _) => sys_runnable r s' | _ => False end
  end.
Lemma sys_runnable_life calls : sys_runnable calls toy_system ->
  exists s w, play_system calls = (Ret tt, s, w) /\ sys_life toy_endpoint connected_calls calls s w.
Proof.
  enough (forall past s0 w0, sys_life toy_endpoint connected_calls past s0 w0 -> sys_runnable calls s0 ->
    exists s w, forM calls (sys_step toy_endpoint toy_su) s0 = (Ret tt, s, w) /\
      sys_life toy_endpoint connected_calls (past ++ calls) s (w0 ++ w)) as H.
  { intros Hr. apply (H [] toy_system []); [by apply sys_new|done]. }
  induction calls as [|a calls IH]; intros past s0 w0 Hl; cbn [sys_runnable forM].
  - intros _. exists s0, []. by rewrite !app_nil_r.
  - intros (Hp&Hq&Hr). destruct (sys_step toy_endpoint toy_su a s0) as [[[[]|e] s1] w1] eqn:E; [|done].
    destruct (IH (past ++ [a]) s1 (w0 ++ w1)) as (s&w&Hf&Hl'); [by eapply sys_more|done|].
    exists s, (w1 ++ w). split; [by eapply run_bind|]. by rewrite <- !app_assoc in Hl'.
Qed.

Definition sys_ready : list sys_call :=
  [Sy_connect (Some 1%nat); Sy_run; Sy_io (Cc_dial (Tc_on_resolve None)); Sy_io (Cc_dial (Tc_on_connect None));
   Sy_io (Cc_dial (Tc_on_tls_handshake None)); Sy_io (Cc_dial (Tc_on_ws_handshake None));
   Sy_io (Cc_frame None true "hello"); Sy_io (Cc_frame None true "proof")].
(** One command is answered; a blocking read is open when the connection is lost. *)
Definition sys_used : list sys_call := sys_ready ++
  [Sy_call (Sc_command "reset" None None SafetyControl) 7; Sy_run; Sy_io (Cc_frame None true "answer");
   Sy_blocking Sc_read_all 8; Sy_run; Sy_run].
Definition sys_lost : list sys_call := sys_used ++ [Sy_io (Cc_frame (Some reset_ec) true EmptyString)].

Definition system_after (calls : list sys_call) : System := (play_system calls).1.2.

Example toy_system_life :
  map (fun calls => (cl_state (sy_client (system_after calls)), answered_calls (play_system calls).2,
      table (sy_handlers (system_after calls)), held (sy_client (system_after calls))))
    [sys_ready; sys_used; sys_lost] =
  [(CS_Ready, [], [], []); (CS_Ready, [7], [1], [1]); (CS_Reconnecting, [7; 8], [], [])]%nat.
Proof. vm_compute. reflexivity. Qed.

Lemma sys_lost_runs : sys_runnable sys_lost toy_system.
Proof. vm_compute. repeat split; first [lia|by right|by left]. Qed.
Lemma sys_used_runs : sys_runnable sys_used toy_system.
Proof. vm_compute. repeat split; first [lia|by right|by left]. Qed.


