(* ===== verification/SystemAnswers.v ===== *)
(** * The answer of the device reaches the caller ([client.cpp], [session.cpp], [dispatcher.cpp])

    What one frame does on its way from the connection to the completions of the
    callers: the client's receive handler, the session, the dispatcher, the response
    handlers of the services.  The outcome is the one the blocking calls of the
    services are modelled with. *)
From stdpp Require Import gmap.
From S2P Require Import Prelude StdMap Errors Float Json Canonical Messages Auth Events Dispatcher DispatcherFacts.
From S2P Require Import Session SessionFacts.
From S2P Require Import Datapoint Generated Catalog Codec WriteSet Snapshot Service Manager Poller.
From S2P Require Import Commands Logs Replies Security Transport EventBus Client ClientFacts ClientGate ClientHandlers.
From S2P Require Import System SystemFacts SessionExamples ClientExamples SystemExamples.
Local Open Scope Z_scope.

(** A frame that answers the open request [p]. *)
Record answers_request (d : Dispatcher) (message : json) (id : string) (p : Pending) : Prop := {
  an_object : exists members, message = J_obj members;
  an_id : value_string "in_reply_to" message = Ret id /\ str_empty id = false;
  an_open : mget id (pending d) = Some p;
  an_type : exists type, value_string "type" message = Ret type /\
    forall meta, find_meta (p_type p) = Some meta -> accepts_response meta type = true;
  an_plain : contains "auth" message = false
}.

(** The session and the dispatcher: the request is closed, its handlers are called. *)
Lemma session_answers env d k frame message id p : state k = Running -> e_parse env frame = message ->
  answers_request d message id p ->
  on_text env frame (d, k) =
    (Ret tt, (Dispatcher.bump m_completed set_m_completed 1 (set_pending (mdel id (pending d)) d), k),
     complete (p_handlers p) (Ok message)).
Proof.
  intros Hk Hp [[members Ho] [Hi He] Hopen (type&Ht&Hacc) Ha]. unfold on_text. rewrite Hp. unfold cget. rewrite run_gets. cbn [snd].
  rewrite Ho, Hk, <- Ho. unfold dispatch_running. rewrite run_lift, Ht. unfold authenticate. rewrite Ha, run_ret. cbn [negb].
  assert (on_message message (d, k) = (Ret true, (Dispatcher.bump m_completed set_m_completed 1 (set_pending (mdel id (pending d)) d), k),
    complete (p_handlers p) (Ok message))) as Hm.
  { unfold on_message. rewrite run_lift, Hi, He. unfold dget. rewrite run_gets. cbn [fst]. rewrite Hopen, run_lift, Ht.
    unfold dmod. rewrite run_modify. cbn [fst snd]. destruct (find_meta (p_type p)) as [meta|].
    - rewrite (Hacc _ eq_refl). cbn [negb]. rewrite run_modify. unfold bind, emits, ret. by rewrite app_nil_r.
    - rewrite run_modify. unfold bind, emits, ret. by rewrite app_nil_r. }
  set (st := (Dispatcher.bump m_completed set_m_completed 1 (set_pending (mdel id (pending d)) d), k)) in *.
  assert (route_warnings (on_message message) (d, k) = (Ret true, st, complete (p_handlers p) (Ok message))) as Hr.
  { unfold route_warnings. rewrite Hm.
    assert (List.filter (fun e => negb (is_warning e)) (complete (p_handlers p) (Ok message)) = complete (p_handlers p) (Ok message)) as ->.
    { unfold complete. induction (omap Datatypes.id (p_handlers p)) as [|h l IH]; [done|]. cbn. by f_equal. }
    by destruct (cb_warning _). }
  rewrite (run_bind _ _ _ true st (complete (p_handlers p) (Ok message)) (Ret tt) st []); [by rewrite app_nil_r|exact Hr|done].
Qed.

(** ** The response handlers *)

(** What the response handlers did: the calls of completions and subscribers, the reads
    of the poller. *)
Definition replies (w : list cevent) : list revent :=
  omap (fun e => match e with Ce_reply e => Some e | _ => None end) w.
Lemma replies_app w1 w2 : replies (w1 ++ w2) = replies w1 ++ replies w2.
Proof. apply omap_app. Qed.

Section Answers.
Context (endpoint : Endpoint) (su : surrounding).

(** The handlers of a request, one after the other on the services' state. *)
Definition answer_all (handlers : gmap nat reply_handler) (hs : list nat) (response : Result json) : ReplyM unit :=
  forM hs (fun h => respond_with su handlers h response).

(** The client with the services in the state [sv]. *)
Definition with_services (sv : services) (c : Client) : Client := set_cl_poller sv.2 (set_cl_datapoints sv.1 c).

Lemma deliver_answers handlers hs r c sv' w : answer_all handlers hs r (cl_datapoints c, cl_poller c) = (Ret tt, sv', w) ->
  exists w', forM (map (fun h => Ev_call h r) hs) (deliver (with_handlers su handlers)) c = (Ret tt, with_services sv' c, w') /\
    responses w' = hs /\ replies w' = w.
Proof.
  revert c w. induction hs as [|h hs IH]; intros c w; cbn [answer_all forM map].
  - intros [= <- <-]. exists []. split; [|done]. by destruct c.
  - unfold answer_all. cbn [forM]. intros ([]&sv1&w1&w2&H1&H2&->)%bind_ret_inv.
    destruct (IH (with_services sv1 c) w2) as (w'&E&Hr&Hp); [by destruct sv1, c|].
    exists (Ce_response h r :: map Ce_reply w1 ++ w'). split; [|split].
    + change (Ce_response h r :: map Ce_reply w1 ++ w') with ((Ce_response h r :: map Ce_reply w1) ++ w').
      replace (with_services sv' c) with (with_services sv' (with_services sv1 c)) by by destruct sv', sv1, c.
      eapply run_bind; [|exact E]. cbn [deliver]. unfold call_handler. eapply (run_bind _ _ _ tt c [_]); [done|].
      unfold on_services, on_part. cbn [su_respond with_handlers]. by rewrite H1.
    + change (h :: responses (map Ce_reply w1 ++ w') = h :: hs). f_equal. rewrite responses_app, Hr.
      replace (responses (map Ce_reply w1)) with (@nil nat); [done|]. clear. by induction w1.
    + change (replies (map Ce_reply w1 ++ w') = w1 ++ w2). rewrite replies_app, Hp. f_equal.
      clear. induction w1 as [|e w1 IH]; [done|]. cbn. by f_equal.
Qed.
End Answers.

(** ** The whole way *)

(** A handler in the session's hands is in the table, and none there is numbered like
    one to come. *)
Lemma held_known endpoint rule calls s w h : sys_life endpoint rule calls s w -> h ∈ held (sy_client s) ->
  is_Some (sy_handlers s !! h) /\ (h < sy_next s)%nat.
Proof.
  intros [lost [_ [Ht Hb] _ _]]%life_upkeep Hh. assert (h ∈ table (sy_handlers s)) as Hin by (rewrite Ht; set_solver).
  split; [destruct (in_table _ _ Hin) as [rh ->]; by eexists|]. rewrite Forall_elem in Hb. by apply Hb.
Qed.
Lemma absorb_forgets w s h : h ∈ responses w -> (h < sy_next s)%nat -> sy_handlers (absorb w s) !! h = None.
Proof.
  intros Hin Hlt. unfold absorb. set (s1 := set_sy_handlers _ s).
  assert (sy_handlers s1 !! h = None /\ (h < sy_next s1)%nat) as H.
  { split; [|exact Hlt]. cbn. clear Hlt s1. revert Hin. generalize (sy_handlers s). induction (responses w) as [|x l IH]; intros m; [set_solver|].
    cbn [fold_left]. intros [->|Hin]%elem_of_cons; [|by apply IH].
    assert (forall m : gmap nat reply_handler, m !! x = None -> fold_left (fun m h => delete h m) l m !! x = None) as Hn.
    { clear. induction l as [|y l IH]; intros m Hm; [done|]. apply IH. by rewrite lookup_delete_None; right. }
    apply Hn, lookup_delete_eq. }
  clearbody s1. revert s1 H. induction (polled w) as [|q l IH]; intros s1 [Hn Hb]; [done|]. cbn [fold_left]. apply IH.
  cbn. split; [|lia]. rewrite lookup_insert_ne by lia. done.
Qed.

(** An open request means that the client is ready, with its connection. *)
Lemma open_request_ready endpoint calls c w config d k id p : clife endpoint calls c w ->
  cl_session c = Some (config, (d, k)) -> mget id (pending d) = Some p ->
  state k = Running /\ cl_state c = CS_Ready /\ exists t, cl_transport c = Some t /\ tr_receive_handler t = true.
Proof.
  intros Hl Hs Hp. destruct (life_ok _ toy_env _ _ _ Hl) as [Hc Hok]. destruct (Hok _ _ Hs) as ((_&He&_)&_&Hr). cbn in He, Hr.
  assert (state k = Running) as Hk.
  { destruct (decide (state k = Running)) as [|Hn]; [done|]. rewrite (He Hn) in Hp. done. }
  split; [done|]. specialize (Hr Hk). split; [done|]. pose proof (ch_transport _ Hc) as Ht.
  destruct (cl_transport c) as [t|]; [|tauto]. exists t. split; [done|]. by destruct Ht as [_ (_&_&_&?)].
Qed.

(** A frame that answers an open request: the request is closed, its handlers run one
    after the other on the services' state, and are gone. *)
Lemma frame_answers endpoint rule calls s w su config d k i p frame sv' w' :
  sys_life endpoint rule calls s w -> cl_session (sy_client s) = Some (config, (d, k)) ->
  answers_request d (su_parse su frame) i p ->
  answer_all su (sy_handlers s) (omap id (p_handlers p)) (Ok (su_parse su frame))
    (cl_datapoints (sy_client s), cl_poller (sy_client s)) = (Ret tt, sv', w') ->
  exists s' w2 d', sys_step endpoint su (Sy_io (Cc_frame None true frame)) s = (Ret tt, s', w2) /\
    replies w2 = w' /\ responses w2 = omap id (p_handlers p) /\
    (cl_datapoints (sy_client s'), cl_poller (sy_client s')) = sv' /\
    cl_session (sy_client s') = Some (config, (d', k)) /\ pending d' = mdel i (pending d) /\ queue d' = queue d /\
    forall h, Some h ∈ p_handlers p -> is_Some (sy_handlers s !! h) /\ sy_handlers s' !! h = None.
Proof.
  intros Hl Hs Ha Hall. pose proof (life_upkeep _ _ _ _ _ Hl) as [lost [(cs&w0&Hc) _ _ _]].
  destruct (open_request_ready _ _ _ _ _ _ _ _ _ Hc Hs (an_open _ _ _ _ Ha)) as (Hk&_&t&Ht&Hrh).
  set (c := sy_client s) in *. set (env := session_env (with_handlers su (sy_handlers s)) config (is_transport_open c)).
  pose proof (session_answers env d k frame _ i p Hk eq_refl Ha) as Hsess.
  set (d' := Dispatcher.bump _ _ _ _) in Hsess. set (c1 := set_cl_session (Some (config, (d', k))) c).
  destruct (deliver_answers su (sy_handlers s) _ _ c1 sv' w' Hall) as (wr&Hd&Hr&Hp).
  set (c2 := with_services sv' c1) in Hd. set (wt := if is_open t then [Ce_transport Te_read] else []).
  assert (run_ccall endpoint (with_handlers su (sy_handlers s)) (Cc_frame None true frame) c =
    (Ret tt, c2, (Ce_transport (Te_receive frame) :: wr) ++ wt)) as E.
  { cbn [run_ccall]. unfold on_frame, read_frame. rewrite run_gets, Ht.
    change (default new_transport (Some t)) with t. rewrite Hrh. cbn [andb when].
    eapply run_bind.
    - change (Ce_transport (Te_receive frame) :: wr) with ([Ce_transport (Te_receive frame)] ++ wr).
      apply (run_bind _ _ _ tt c); [done|]. unfold run_session. rewrite Hs. fold env. rewrite Hsess.
      change (set_cl_session (Some (config, (d', k))) c) with c1. rewrite <- (app_nil_r wr). by eapply run_bind.
    - rewrite run_gets. replace (cl_transport c2) with (Some t) by (by rewrite <- Ht; destruct sv', c).
      change (default new_transport (Some t)) with t. unfold wt. by destruct (is_open t). }
  set (w2 := (Ce_transport (Te_receive frame) :: wr) ++ wt) in *.
  assert (responses w2 = omap id (p_handlers p) /\ replies w2 = w') as [Hr2 Hp2].
  { unfold w2. rewrite responses_app, replies_app. unfold wt. split.
    - change (responses wr ++ responses (if is_open t then [Ce_transport Te_read] else []) = omap id (p_handlers p)).
      rewrite Hr. destruct (is_open t); cbn; by rewrite app_nil_r.
    - change (replies wr ++ replies (if is_open t then [Ce_transport Te_read] else []) = w').
      rewrite Hp. destruct (is_open t); cbn; by rewrite app_nil_r. }
  exists (absorb w2 (set_sy_client c2 s)), w2, d'. rewrite absorb_client. cbn [sy_client set_sy_client].
  split; [cbn [sys_step]; unfold client_op; fold c; by rewrite E|]. do 2 (split; [done|]).
  split; [by destruct sv', c|]. split; [by destruct sv', c|]. do 2 (split; [done|]).
  intros h Hin. assert (h ∈ omap id (p_handlers p)) as Hin' by (apply list_elem_of_omap; by exists (Some h)).
  destruct (held_known _ _ _ _ _ h Hl) as [Hsome Hlt].
  { unfold held. fold c. rewrite Hs, (live_mdel _ _ _ (an_open _ _ _ _ Ha)). by apply elem_of_app; left. }
  split; [exact Hsome|]. apply absorb_forgets; [by rewrite Hr2|exact Hlt].
Qed.

(** ** The blocking calls *)

(** The blocking form of each call, as the services model it: submitted, then whatever
    happens in between, then the response. *)
Definition blocking (dump : json -> outcome string) (x : exchange Manager) (call : service_call) :
    M Manager sevent answer :=
  match call with
  | Sc_read names => let* r := Manager.read_names x names in ret (A_snapshot r)
  | Sc_read_all => let* r := Manager.read_all x in ret (A_snapshot r)
  | Sc_write changes => let* r := Manager.write dump x changes in ret (A_write r)
  | Sc_command command target steps priority =>
      let* r := Commands.raw x command target steps priority in ret (A_command r)
  | Sc_set_state v => let* r := Commands.set_state x v in ret (A_command r)
  | Sc_turn_on_for duration => let* r := Commands.turn_on_for x duration in ret (A_command r)
  | Sc_restart_pump => let* r := Commands.restart_pump x in ret (A_command r)
  | Sc_reboot => let* r := Commands.reboot x in ret (A_command r)
  | Sc_log_read o => let* r := Logs.read_log x o in ret (A_batch r)
  | Sc_log_read_previous o => let* r := Logs.read_previous x o in ret (A_batch r)
  | Sc_log_ack_previous boot_id => let* r := Logs.ack_previous x boot_id in ret (A_ack r)
  | Sc_request spec => let* r := raw_request x spec in ret (A_raw r)
  end.

Section Blocking.
Context (dump : json -> outcome string) (x : exchange Manager) (spec : RequestSpec) (m0 m1 : Manager) (w0 : list sevent).
Context (Hbound : x_bound x = true) (Hstatus : x_status x = ok) (Hbetween : x_between x spec m0 = (Ret tt, m1, w0)).

(** What a blocking call returns is what its handler hands to the completion. *)
Lemma waits_for {T} (reply : Result T -> answer) (start : outcome (started T)) finish k pl a m2 w :
  start = Ret (Submitted spec) -> (let* r := sync_wait x start finish in ret (reply r)) m0 = (Ret a, m2, w) ->
  exists w1, w = Sv_submit spec :: w0 ++ w1 /\
    (let* r := on_manager (finish (x_reply x spec)) in emit (Re_answer k (reply r))) (m1, pl) =
      (Ret tt, (m2, pl), map Re_service w1 ++ [Re_answer k a]).
Proof.
  intros -> (r&m3&w3&w4&H1&[= <- <- <-]&->)%bind_ret_inv. rewrite app_nil_r. unfold sync_wait in H1.
  rewrite Hbound, Hstatus in H1. cbn [negb ok] in H1. rewrite run_lift in H1.
  apply bind_ret_inv in H1 as (u&m4&w5&w6&[= <- <- <-]&H1&->). apply bind_ret_inv in H1 as (u'&m5&w7&w8&Hb&H1&->).
  rewrite Hbetween in Hb. injection Hb as <- <- <-. exists w8. split; [done|].
  eapply run_bind; [|reflexivity]. unfold on_manager. cbn [fst snd]. by rewrite H1.
Qed.

Lemma begun_submits {T} (reply : Result T -> answer) h0 (s : started T) h :
  begun_of reply h0 s = Submits spec h -> s = Submitted spec /\ h = h0.
Proof. destruct s; cbn; [done|]. by intros [= <- <-]. Qed.

Lemma blocking_responds call k h pl a m2 w : start_call call k = Ret (Submits spec h) ->
  blocking dump x call m0 = (Ret a, m2, w) ->
  exists w1, w = Sv_submit spec :: w0 ++ w1 /\
    respond dump (x_now x) h (x_reply x spec) (m1, pl) = (Ret tt, (m2, pl), map Re_service w1 ++ [Re_answer k a]).
Proof.
  intros Hs Hb. destruct call; cbn [start_call blocking] in *; unfold command_call in Hs.
  3: apply outcome_bind_ret_inv in Hs as (st&E&Hs); unfold Manager.write in Hb; rewrite E in Hb.
  all: try (apply ret_inj, begun_submits in Hs as [Hs ->]; eapply waits_for; [|exact Hb]; by rewrite Hs).
  injection Hs as E <-. rewrite E in Hb. destruct (waits_for A_raw _ _ k pl _ _ _ eq_refl Hb) as (w1&->&H). by exists w1.
Qed.
End Blocking.

(** C6: The composition implements the blocking calls: at any point of a life, when the
    device's frame answers the open request of a call, the completion of that call is
    called with what the blocking call returns for that frame, given the state in which
    the request finds the services, and the cache and the staging are what it leaves. *)
Theorem blocking_calls_implemented endpoint rule calls s w su config d core i p frame call k spec h rh x m0 w0 a m2 wb :
  sys_life endpoint rule calls s w -> cl_session (sy_client s) = Some (config, (d, core)) ->
  answers_request d (su_parse su frame) i p -> p_handlers p = [Some h] ->
  sy_handlers s !! h = Some rh -> start_call call k = Ret (Submits spec rh) ->
  x_bound x = true -> x_status x = ok -> x_now x = su_clock su -> x_reply x spec = Ok (su_parse su frame) ->
  x_between x spec m0 = (Ret tt, cl_datapoints (sy_client s), w0) ->
  blocking (reply_dump su) x call m0 = (Ret a, m2, wb) ->
  exists s' w2 w1, sys_step endpoint su (Sy_io (Cc_frame None true frame)) s = (Ret tt, s', w2) /\
    replies w2 = map Re_service w1 ++ [Re_answer k a] /\ wb = Sv_submit spec :: w0 ++ w1 /\
    cl_datapoints (sy_client s') = m2 /\ cl_poller (sy_client s') = cl_poller (sy_client s) /\
    sy_handlers s' !! h = None.
Proof.
  intros Hl Hs Ha Hp Hh Hc Hb Hst Hn Hr Hbt Hbl.
  destruct (blocking_responds _ x spec m0 _ _ Hb Hst Hbt call k rh (cl_poller (sy_client s)) a m2 wb Hc Hbl) as (w1&->&Hrs).
  rewrite Hn, Hr in Hrs.
  destruct (frame_answers endpoint rule calls s w su config d core i p frame (m2, cl_poller (sy_client s))
    (map Re_service w1 ++ [Re_answer k a]) Hl Hs Ha) as (s'&w2&d'&E&Hrep&_&Hsv&_&_&_&Hf).
  { rewrite Hp. cbn [omap list_omap Datatypes.id option_bind mbind answer_all forM]. unfold answer_all. cbn [forM].
    rewrite <- (app_nil_r (map _ _ ++ _)). eapply run_bind; [|reflexivity]. unfold respond_with. by rewrite Hh. }
  exists s', w2, w1. split; [exact E|]. split; [exact Hrep|]. split; [done|]. injection Hsv as H1 H2. do 2 (split; [done|]).
  apply Hf. rewrite Hp. by left.
Qed.

(** ** A witness: a command on the toy device *)
Definition reset_call : service_call := Sc_command "reset" None None SafetyControl.
Definition sys_asked : list sys_call := sys_ready ++ [Sy_call reset_call 7; Sy_run].
Definition asked_session : SessionConfig * (Dispatcher * Core) :=
  default (session_config new_client, new_session toy_env) (cl_session (sy_client (system_after sys_asked))).
Definition asked_handler : nat * reply_handler := default (0%nat, Rh_raw 0) (head (map_to_list (sy_handlers (system_after sys_asked)))).
Definition asked_request : string * Pending := default (EmptyString, mkPending EmptyString [] 0) (head (pending asked_session.2.1)).
Definition asked_spec : RequestSpec :=
  match start_call reset_call 7 with Ret (Submits spec _) => spec | _ => toy_spec EmptyString EmptyString Polling end.
Definition asked_exchange : exchange Manager :=
  mkExchange true ok (fun _ => ret tt) (su_clock toy_su) (fun _ => Ok (su_parse toy_su "answer")).

Lemma sys_asked_runs : sys_runnable sys_asked toy_system.
Proof. vm_compute. repeat split; first [lia|by right|by left]. Qed.
Lemma asked_answers : answers_request asked_session.2.1 (su_parse toy_su "answer") asked_request.1 asked_request.2.
Proof.
  split.
  - eexists. vm_compute. reflexivity.
  - split; vm_compute; reflexivity.
  - vm_compute. reflexivity.
  - eexists. split; [vm_compute; reflexivity|]. intros meta H. vm_compute in H. injection H as <-. vm_compute. reflexivity.
  - vm_compute. reflexivity.
Qed.

Lemma blocking_calls_implemented_witness : exists s w s' w2 a, sys_life toy_endpoint connected_calls sys_asked s w /\
  sys_step toy_endpoint toy_su (Sy_io (Cc_frame None true "answer")) s = (Ret tt, s', w2) /\ replies w2 = [Re_answer 7 a].
Proof.
  destruct (sys_runnable_life sys_asked sys_asked_runs) as (s&w&E&Hl).
  assert (s = system_after sys_asked) as Hs by (unfold system_after; rewrite E; reflexivity).
  destruct (blocking (reply_dump toy_su) asked_exchange reset_call (cl_datapoints (sy_client (system_after sys_asked)))) as [[[a|e] m2] wb] eqn:Eb.
  2: { vm_compute in Eb. discriminate Eb. }
  destruct (blocking_calls_implemented toy_endpoint connected_calls sys_asked s w toy_su asked_session.1 asked_session.2.1
    asked_session.2.2 asked_request.1 asked_request.2 "answer" reset_call 7 asked_spec asked_handler.1 asked_handler.2
    asked_exchange (cl_datapoints (sy_client (system_after sys_asked))) [] a m2 wb Hl) as (s'&w2&w1&H1&H2&H3&_).
  - rewrite Hs. vm_compute. reflexivity.
  - exact asked_answers.
  - vm_compute. reflexivity.
  - rewrite Hs. vm_compute. reflexivity.
  - vm_compute. reflexivity.
  - reflexivity.
  - reflexivity.
  - reflexivity.
  - reflexivity.
  - rewrite Hs. reflexivity.
  - exact Eb.
  - exists s, w, s', w2, a. split; [exact Hl|]. split; [exact H1|].
    assert (w1 = []) as ->; [|exact H2]. vm_compute in Eb. injection Eb as _ _ <-. by injection H3 as <-.
Defined.
