(* ===== verification/Logger.v ===== *)
(** * The logger ([logging/logger.hpp], [logger.cpp])

    The level filter and the injectable sink.  A line written to [stderr] and a call
    of the sink (known by a number) are events; the time stamp of a line is what
    [strftime] makes of the clock. *)
From S2P Require Import Prelude StdMap.
Local Open Scope Z_scope.

Inductive Level := Lv_Trace | Lv_Debug | Lv_Info | Lv_Warn | Lv_Error.
#[export] Instance Level_eq_dec : EqDecision Level.
Proof. solve_decision. Defined.
(** The value of the enumerator. *)
Definition level_rank (l : Level) : Z :=
  match l with Lv_Trace => 0 | Lv_Debug => 1 | Lv_Info => 2 | Lv_Warn => 3 | Lv_Error => 4 end.
Definition level_tag (l : Level) : string :=
  match l with
  | Lv_Trace => "TRACE" | Lv_Debug => "DEBUG" | Lv_Info => "INFO " | Lv_Warn => "WARN " | Lv_Error => "ERROR"
  end.

(** [g_level], [g_sink]. *)
Record Logger := mkLogger { lg_level : Level; lg_sink : option nat }.
Definition new_logger : Logger := mkLogger Lv_Info None.

Inductive levent :=
| Lg_sink (sink : nat) (level : Level) (category message : string)
| Lg_stderr (line : string).

(** The level a name stands for; an unknown name changes nothing. *)
Definition level_named (name : string) : option Level :=
  if String.eqb name "trace" then Some Lv_Trace
  else if String.eqb name "debug" then Some Lv_Debug
  else if String.eqb name "info" then Some Lv_Info
  else if String.eqb name "warn" then Some Lv_Warn
  else if String.eqb name "error" then Some Lv_Error
  else None.
Definition set_level_name (name : string) (g : Logger) : Logger :=
  match level_named name with Some l => mkLogger l (lg_sink g) | None => g end.
Definition set_level (level : Level) (g : Logger) : Logger := mkLogger level (lg_sink g).
Definition set_sink (sink : option nat) (g : Logger) : Logger := mkLogger (lg_level g) sink.

Fixpoint spaces (n : nat) : string :=
  match n with O => EmptyString | S n => String " " (spaces n) end.
(** [%-10s] *)
Definition pad_right (width : nat) (s : string) : string := s +:+ spaces (width - String.length s).
Definition newline : string := String "010" EmptyString.
Definition stderr_line (stamp : string) (level : Level) (category message : string) : string :=
  "[" +:+ stamp +:+ "] [" +:+ level_tag level +:+ "] " +:+ pad_right 10 category +:+ " " +:+ message +:+ newline.

(** [stamp]: the time of the call. *)
Definition log_write (stamp : string) (level : Level) (category message : string) : M Logger levent unit :=
  let* g := get in
  if level_rank level <? level_rank (lg_level g) then ret tt else
  match lg_sink g with
  | Some sink => emit (Lg_sink sink level category message)
  | None => emit (Lg_stderr (stderr_line stamp level category message))
  end.

Inductive lcall :=
| Lc_level_name (name : string)
| Lc_level (level : Level)
| Lc_sink (sink : option nat)
| Lc_write (stamp : string) (level : Level) (category message : string).
Definition run_lcall (c : lcall) : M Logger levent unit :=
  match c with
  | Lc_level_name name => modify (set_level_name name)
  | Lc_level level => modify (set_level level)
  | Lc_sink sink => modify (set_sink sink)
  | Lc_write stamp level category message => log_write stamp level category message
  end.

(** ** The filter *)

(** The level and the sink in force after some calls. *)
Definition level_after (calls : list lcall) (start : Level) : Level :=
  default start (list.last (omap (fun c => match c with
    | Lc_level l => Some l | Lc_level_name n => level_named n | _ => None end) calls)).
Definition sink_after (calls : list lcall) (start : option nat) : option nat :=
  default start (list.last (omap (fun c => match c with Lc_sink s => Some s | _ => None end) calls)).

Lemma last_default {A} (x d : A) l : default d (list.last (x :: l)) = default x (list.last l).
Proof. rewrite last_cons. by destruct (list.last l). Qed.

Lemma run_lcalls_state calls g : exists w,
  forM calls run_lcall g = (Ret tt, mkLogger (level_after calls (lg_level g)) (sink_after calls (lg_sink g)), w).
Proof.
  revert g. induction calls as [|c calls IH]; intros [l s]; [by exists []|].
  assert (exists g1 w1, run_lcall c (mkLogger l s) = (Ret tt, g1, w1) /\
    lg_level g1 = level_after [c] l /\ lg_sink g1 = sink_after [c] s) as (g1&w1&E&El&Es).
  { destruct c as [n|l'|s'|st l' cat m]; try by do 2 eexists.
    - exists (set_level_name n (mkLogger l s)), []. split; [done|]. unfold set_level_name, level_after. cbn.
      by destruct (level_named n).
    - cbn [run_lcall]. unfold log_write. rewrite run_get. cbn. destruct (_ <? _); [by do 2 eexists|].
      destruct s; by do 2 eexists. }
  destruct (IH g1) as [w2 E2]. exists (w1 ++ w2). cbn [forM]. erewrite run_bind by done.
  f_equal. f_equal. rewrite El, Es. unfold level_after, sink_after.
  f_equal; destruct c as [n|l'|s'|st l' cat m]; cbn; try destruct (level_named n); cbn [omap list_omap];
    rewrite ?last_default; done.
Qed.

(** after any calls, a message is handed over exactly when its level is at least
    the last level set (by name or value; unknown names count for nothing), once, to
    the last sink set or, without one, as a line on [stderr]. *)
Theorem log_filter calls stamp level category message : exists g w,
  forM calls run_lcall new_logger = (Ret tt, g, w) /\
  log_write stamp level category message g = (Ret tt, g,
    if level_rank (level_after calls Lv_Info) <=? level_rank level then
      [match sink_after calls None with
       | Some sink => Lg_sink sink level category message
       | None => Lg_stderr (stderr_line stamp level category message)
       end]
    else []).
Proof.
  destruct (run_lcalls_state calls new_logger) as [w E]. do 2 eexists. split; [exact E|].
  unfold log_write. rewrite run_get. cbn [lg_level lg_sink new_logger].
  rewrite Z.ltb_antisym. destruct (_ <=? _); [|done]. cbn [negb].
  by destruct (sink_after calls None).
Qed.
