(* ===== verification/Config.v ===== *)
(** * The configuration file ([config.hpp], [config.cpp])

    Loading the JSON file, section by section, and the validation before the first
    connection attempt.  The file system and the text parser are parameters;
    exceptions are values: [Exn_runtime] is [std::runtime_error], the JSON library's
    exceptions are [Exn_type_error] until [load_config] translates them. *)
From S2P Require Import Prelude StdMap Errors Float Json Canonical Messages.
Local Open Scope Z_scope.

Record DeviceConfig := mkDeviceConfig {
  dc_host : string;
  dc_port : Z;                       (* std::uint16_t *)
  dc_path : string;
  dc_subprotocol : string
}.
Record TlsConfig := mkTlsConfig {
  tc_ca_file : string;
  tc_client_cert_file : string;
  tc_client_key_file : string;
  tc_verify_peer : bool;
  tc_use_mtls : bool;
  tc_verify_hostname : string
}.
(** Times in seconds. *)
Record ConnectionConfig := mkConnectionConfig {
  cc_auto_reconnect : bool;
  cc_connect_timeout : Z;
  cc_reconnect_initial : Z;
  cc_reconnect_max : Z;
  cc_idle_timeout : Z
}.
Record FountainStep := mkStep {
  fs_type : string;
  fs_body : json;
  fs_delay : Z;                      (* milliseconds *)
  fs_timeout : Z                     (* seconds *)
}.
Record FountainConfig := mkFountainConfig {
  fc_enabled : bool;
  fc_device_id : string;
  fc_serial : string;
  fc_kid : string;
  fc_hmac_key_file : string;
  fc_handshake_timeout : Z;
  fc_dp_read_on_ready : bool;
  fc_sequence : list FountainStep;
  fc_loop : bool
}.
Record Config := mkConfig {
  cf_device : DeviceConfig;
  cf_tls : TlsConfig;
  cf_connection : ConnectionConfig;
  cf_level : string;                 (* LoggingConfig *)
  cf_fountain : FountainConfig
}.

Definition default_config : Config := {|
  cf_device := mkDeviceConfig EmptyString 4443 "/ws" "fountain";
  cf_tls := mkTlsConfig EmptyString EmptyString EmptyString true true "auto";
  cf_connection := mkConnectionConfig true 10 1 30 60;
  cf_level := "info";
  cf_fountain := mkFountainConfig false EmptyString EmptyString "1" EmptyString 15 true [] false
|}.

Definition runtime_error {A} (what : string) : outcome A := Throw (Exn_runtime what).
(** [if (bad) throw ...; rest] *)
Definition refuse_if (bad : bool) (what : string) : outcome unit :=
  if bad then runtime_error what else Ret tt.

Definition in_quotes (s : string) : string := String quote (s +:+ String quote EmptyString).

(** ** Validation *)

Section Files.
Context (exists_file : string -> bool).

Definition require_file (path what : string) : outcome unit :=
  let! _ := refuse_if (str_empty path) (what +:+ " not configured") in
  refuse_if (negb (exists_file path)) (what +:+ " does not exist: " +:+ path).

Definition known_levels : list string := ["trace"; "debug"; "info"; "warn"; "error"].

Definition absolute (path : string) : bool :=
  match path with String c _ => Ascii.eqb c "/" | EmptyString => false end.

Fixpoint validate_steps (l : list FountainStep) : outcome unit :=
  match l with
  | [] => Ret tt
  | step :: rest =>
      let! _ := refuse_if (bool_decide (find_meta (fs_type step) = None))
        ("fountain.sequence: unknown message type '" +:+ fs_type step +:+ "'") in
      validate_steps rest
  end.

Definition validate (config : Config) : outcome unit :=
  let device := cf_device config in
  let tls := cf_tls config in
  let connection := cf_connection config in
  let fountain := cf_fountain config in
  let! _ := refuse_if (str_empty (dc_host device)) "device.host is missing" in
  let! _ := refuse_if (dc_port device =? 0) "device.port must not be 0" in
  let! _ := refuse_if (negb (absolute (dc_path device)))
    ("device.path must be a non-empty absolute path: '" +:+ dc_path device +:+ "'") in
  let! _ := (if tc_verify_peer tls then require_file (tc_ca_file tls) "tls.ca_file" else Ret tt) in
  let! _ :=
    (if tc_use_mtls tls then
       let! _ := require_file (tc_client_cert_file tls) "tls.client_cert_file" in
       require_file (tc_client_key_file tls) "tls.client_key_file"
     else Ret tt) in
  let! _ := refuse_if (negb (bool_decide (tc_verify_hostname tls ∈ ["auto"; "on"; "off"])))
    ("tls.verify_hostname must be " +:+ in_quotes "auto" +:+ ", " +:+ in_quotes "on" +:+ " or " +:+
     in_quotes "off" +:+ ": '" +:+ tc_verify_hostname tls +:+ "'") in
  let! _ := refuse_if (cc_connect_timeout connection <=? 0) "connection.connect_timeout_s must be > 0" in
  let! _ := refuse_if (cc_reconnect_initial connection <=? 0) "connection.reconnect_initial_s must be > 0" in
  let! _ := refuse_if (cc_reconnect_max connection <? cc_reconnect_initial connection)
    "connection.reconnect_max_s must be >= reconnect_initial_s" in
  let! _ := refuse_if (cc_idle_timeout connection <? 0)
    "connection.idle_timeout_s must be >= 0 (0 disables keepalive)" in
  let! _ := refuse_if (negb (bool_decide (cf_level config ∈ known_levels)))
    ("logging.level must be trace|debug|info|warn|error: '" +:+ cf_level config +:+ "'") in
  if fc_enabled fountain then
    let! _ := refuse_if (str_empty (fc_device_id fountain)) "fountain.device_id is missing" in
    let! _ := refuse_if (str_empty (fc_kid fountain)) "fountain.kid is missing" in
    let! _ := require_file (fc_hmac_key_file fountain) "fountain.hmac_key_file" in
    let! _ := refuse_if (fc_handshake_timeout fountain <=? 0) "fountain.handshake_timeout_s must be > 0" in
    validate_steps (fc_sequence fountain)
  else Ret tt.
End Files.

(** ** Reading the sections *)

(** [if (json.contains(name)) { ... json.at(name) ... }] *)
Definition section {A} (name : string) (j : json) (present : json -> outcome A) (absent : A) : outcome A :=
  match jfind name j with Some part => present part | None => Ret absent end.

Definition read_seconds (j : json) (key : string) (fallback : Z) : outcome Z :=
  value get_int64 key fallback j.

Definition read_device (j : json) (d : DeviceConfig) : outcome DeviceConfig :=
  section "device" j (fun device =>
    let! host := value get_string "host" EmptyString device in
    let! port := value (get_int 32) "port" 4443 device in
    let! _ := refuse_if ((port <? 0) || (65535 <? port)) ("device.port out of range: " +:+ dec_Z port) in
    let! path := value get_string "path" "/ws" device in
    let! subprotocol := value get_string "websocket_subprotocol" "fountain" device in
    Ret (mkDeviceConfig host port path subprotocol)) d.

Definition read_tls (j : json) (t : TlsConfig) : outcome TlsConfig :=
  section "tls" j (fun tls =>
    let! ca := value get_string "ca_file" EmptyString tls in
    let! cert := value get_string "client_cert_file" EmptyString tls in
    let! key := value get_string "client_key_file" EmptyString tls in
    let! verify_peer := value get_bool "verify_peer" true tls in
    let! use_mtls := value get_bool "use_mtls" true tls in
    let! hostname := section "verify_hostname" tls (fun raw =>
      if is_boolean raw then let! b := get_bool raw in Ret (if b : bool then "on" else "off")
      else get_string raw) (tc_verify_hostname t) in
    Ret (mkTlsConfig ca cert key verify_peer use_mtls hostname)) t.

Definition read_connection (j : json) (c : ConnectionConfig) : outcome ConnectionConfig :=
  section "connection" j (fun connection =>
    let! auto_reconnect := value get_bool "auto_reconnect" true connection in
    let! connect_timeout := read_seconds connection "connect_timeout_s" (cc_connect_timeout c) in
    let! reconnect_initial := read_seconds connection "reconnect_initial_s" (cc_reconnect_initial c) in
    let! reconnect_max := read_seconds connection "reconnect_max_s" (cc_reconnect_max c) in
    let! idle_timeout := read_seconds connection "idle_timeout_s" (cc_idle_timeout c) in
    Ret (mkConnectionConfig auto_reconnect connect_timeout reconnect_initial reconnect_max idle_timeout)) c.

Definition read_step (entry : json) : outcome FountainStep :=
  let! type := value get_string "type" EmptyString entry in
  let! body := value get_json "body" (J_obj []) entry in
  let! delay := value (get_int 32) "delay_ms" 0 entry in
  let! timeout := value (get_int 32) "timeout_s" 10 entry in
  Ret (mkStep type body delay timeout).
Fixpoint read_steps (l : list json) : outcome (list FountainStep) :=
  match l with
  | [] => Ret []
  | entry :: rest =>
      let! step := read_step entry in
      let! steps := read_steps rest in
      Ret (step :: steps)
  end.

Definition read_fountain (j : json) (f : FountainConfig) : outcome FountainConfig :=
  section "fountain" j (fun fountain =>
    let! device_id := value get_string "device_id" EmptyString fountain in
    let! serial := value get_string "serial" EmptyString fountain in
    let! kid := value get_string "kid" "1" fountain in
    let! hmac_key_file := value get_string "hmac_key_file" EmptyString fountain in
    let! handshake_timeout := read_seconds fountain "handshake_timeout_s" (fc_handshake_timeout f) in
    let! dp_read_on_ready := value get_bool "dp_read_on_ready" true fountain in
    let! loop := value get_bool "loop" false fountain in
    let! sequence := section "sequence" fountain (fun l => read_steps (elements l)) (fc_sequence f) in
    Ret (mkFountainConfig true device_id serial kid hmac_key_file handshake_timeout
      dp_read_on_ready sequence loop)) f.

Definition read_config (j : json) (config : Config) : outcome Config :=
  let! device := read_device j (cf_device config) in
  let! tls := read_tls j (cf_tls config) in
  let! connection := read_connection j (cf_connection config) in
  let! level := section "logging" j (value get_string "level" "info") (cf_level config) in
  let! fountain := read_fountain j (cf_fountain config) in
  Ret (mkConfig device tls connection level fountain).

Section Load.
(** The files: whether one exists, the text of one that can be opened; the parser
    ([None]: it throws), and the text of the JSON library's exceptions. *)
Context (exists_file : string -> bool) (read_file : string -> option string)
  (parse : string -> option json) (json_what : string).

(** [catch (const nlohmann::json::exception&)] *)
Definition catch_json {A} (path : string) (m : outcome A) : outcome A :=
  match m with
  | Throw Exn_type_error | Throw Exn_dump => runtime_error ("invalid JSON in " +:+ path +:+ ": " +:+ json_what)
  | _ => m
  end.

Definition load_config (path : string) : outcome Config :=
  match read_file path with
  | None => runtime_error ("cannot open config file: " +:+ path)
  | Some text =>
      let! config := catch_json path
        match parse text with
        | None => Throw Exn_type_error
        | Some j => read_config j default_config
        end in
      let! _ := validate exists_file config in
      Ret config
  end.
End Load.

(** ** What validation accepts *)

Definition present (exists_file : string -> bool) (path : string) : Prop :=
  path <> EmptyString /\ exists_file path = true.

Record valid_config (exists_file : string -> bool) (c : Config) : Prop := {
  vc_host : dc_host (cf_device c) <> EmptyString;
  vc_port : dc_port (cf_device c) <> 0;
  vc_path : absolute (dc_path (cf_device c)) = true;
  vc_ca : tc_verify_peer (cf_tls c) = true -> present exists_file (tc_ca_file (cf_tls c));
  vc_mtls : tc_use_mtls (cf_tls c) = true ->
    present exists_file (tc_client_cert_file (cf_tls c)) /\ present exists_file (tc_client_key_file (cf_tls c));
  vc_hostname : tc_verify_hostname (cf_tls c) ∈ ["auto"; "on"; "off"];
  vc_connect : 0 < cc_connect_timeout (cf_connection c);
  vc_backoff : 0 < cc_reconnect_initial (cf_connection c) <= cc_reconnect_max (cf_connection c);
  vc_idle : 0 <= cc_idle_timeout (cf_connection c);
  vc_level : cf_level c ∈ known_levels;
  vc_fountain : fc_enabled (cf_fountain c) = true ->
    fc_device_id (cf_fountain c) <> EmptyString /\ fc_kid (cf_fountain c) <> EmptyString /\
    present exists_file (fc_hmac_key_file (cf_fountain c)) /\ 0 < fc_handshake_timeout (cf_fountain c) /\
    Forall (fun s => find_meta (fs_type s) <> None) (fc_sequence (cf_fountain c))
}.

Lemma refuse_bind {A} bad what (k : unit -> outcome A) a :
  (let! x := refuse_if bad what in k x) = Ret a <-> bad = false /\ k tt = Ret a.
Proof. destruct bad; cbn; naive_solver. Qed.
Lemma refuse_ret bad what u : refuse_if bad what = Ret u <-> bad = false.
Proof. destruct bad, u; cbn; naive_solver. Qed.
Lemma bind_unit {A} (m : outcome unit) (k : unit -> outcome A) a :
  (let! x := m in k x) = Ret a <-> m = Ret tt /\ k tt = Ret a.
Proof. destruct m as [[]|]; cbn; naive_solver. Qed.

Lemma require_file_ret e path what : require_file e path what = Ret tt <-> present e path.
Proof.
  unfold require_file, present. rewrite refuse_bind, refuse_ret, negb_false_iff.
  destruct path; cbn; split; try tauto; intros []; done.
Qed.

Lemma validate_steps_ret l : validate_steps l = Ret tt <-> Forall (fun s => find_meta (fs_type s) <> None) l.
Proof.
  induction l as [|s l IH]; [by split|]. cbn [validate_steps].
  by rewrite refuse_bind, bool_decide_eq_false, IH, Forall_cons_iff.
Qed.

Lemma str_empty_false s : str_empty s = false <-> s <> EmptyString.
Proof. by destruct s. Qed.

Lemma validate_ret exists_file c : validate exists_file c = Ret tt <-> valid_config exists_file c.
Proof.
  unfold validate. cbv zeta.
  destruct (tc_verify_peer (cf_tls c)) eqn:Ev, (tc_use_mtls (cf_tls c)) eqn:Em, (fc_enabled (cf_fountain c)) eqn:Ef;
    repeat first [rewrite refuse_bind | rewrite bind_unit]; rewrite ?require_file_ret, ?validate_steps_ret,
    ?negb_false_iff, ?bool_decide_eq_true, ?str_empty_false, ?Z.leb_gt, ?Z.ltb_ge, ?Z.eqb_neq;
    (split; [intros H; split; rewrite ?Ev, ?Em, ?Ef; clear Ev Em Ef; first [tauto | intros; discriminate]
            |intros []; rewrite ?Ev, ?Em, ?Ef in *; clear Ev Em Ef; tauto]).
Qed.

(** ** What loading can return *)

Definition i64 (z : Z) : Prop := - 2 ^ 63 <= z < 2 ^ 63.
Definition i32 (z : Z) : Prop := - 2 ^ 31 <= z < 2 ^ 31.

(** The values the fields can hold once [load_config] assigned them. *)
Record typed_config (c : Config) : Prop := {
  ty_port : 0 <= dc_port (cf_device c) <= 65535;
  ty_times : Forall i64 [cc_connect_timeout (cf_connection c); cc_reconnect_initial (cf_connection c);
    cc_reconnect_max (cf_connection c); cc_idle_timeout (cf_connection c); fc_handshake_timeout (cf_fountain c)];
  ty_steps : Forall (fun s => i32 (fs_delay s) /\ i32 (fs_timeout s)) (fc_sequence (cf_fountain c));
  ty_absent : fc_enabled (cf_fountain c) = false -> cf_fountain c = cf_fountain default_config
}.

(** [gives P m]: what [m] returns satisfies [P], and it throws nothing but the
    exceptions [load_config] accounts for. *)
Definition conversion_ub : exn := Exn_ub "floating to integer conversion out of range".
Definition gives {A} (P : A -> Prop) (m : outcome A) : Prop :=
  match m with
  | Ret a => P a
  | Throw e => e = Exn_type_error \/ e = conversion_ub \/ exists what, e = Exn_runtime what
  end.

Lemma gives_bind {A B} (P : A -> Prop) (Q : B -> Prop) m (k : A -> outcome B) :
  gives P m -> (forall a, P a -> gives Q (k a)) -> gives Q (let! a := m in k a).
Proof. destruct m; cbn; auto. Qed.
Lemma gives_refuse bad what : gives (fun _ => bad = false) (refuse_if bad what).
Proof. destruct bad; cbn; eauto. Qed.
Lemma gives_value {A} (P : A -> Prop) conv key d j : (forall j, gives P (conv j)) -> P d ->
  gives P (value conv key d j).
Proof. intros Hc Hd. destruct j; cbn; auto. by destruct (mget key m). Qed.
Lemma gives_section {A} (P : A -> Prop) name j (k : json -> outcome A) a :
  (forall part, gives P (k part)) -> P a -> gives P (section name j k a).
Proof. intros Hk Ha. unfold section. by destruct (jfind name j). Qed.

Lemma gives_cast lo hi f : gives (fun z => lo <= z <= hi) (cast_float lo hi f).
Proof.
  unfold cast_float. destruct (is_finite f && _ && _) eqn:E; [|cbn; auto].
  apply andb_true_iff in E as [[_ ?%Z.leb_le]%andb_true_iff ?%Z.leb_le]. done.
Qed.
Lemma gives_string j : gives (fun _ => True) (get_string j).
Proof. destruct j; cbn; auto. Qed.
Lemma gives_bool j : gives (fun _ => True) (get_bool j).
Proof. destruct j; cbn; auto. Qed.
Lemma gives_int64 j : gives i64 (get_int64 j).
Proof.
  destruct j as [| |z|z|f| | | | |]; cbn -[cast_float wrap_s Z.pow]; auto; try by apply (wrap_s_range 64).
  pose proof (gives_cast (- 2 ^ 63) (2 ^ 63 - 1) f) as H. destruct (cast_float _ _ _); [|done].
  cbn in *. unfold i64. lia.
Qed.
Lemma gives_int32 j : gives i32 (get_int 32 j).
Proof.
  destruct j as [|b|z|z|f| | | | |]; cbn -[cast_float wrap_s Z.pow]; auto; try by apply (wrap_s_range 32).
  - destruct b; done.
  - pose proof (gives_cast (- 2 ^ (32 - 1)) (2 ^ (32 - 1) - 1) f) as H. destruct (cast_float _ _ _); [|done].
    cbn in *. unfold i32. lia.
Qed.
Create HintDb config.
#[export] Hint Resolve gives_string gives_bool gives_int64 gives_int32 : config.

(** Peel the binds of a reader one by one. *)
Ltac reading := repeat first
  [ eapply gives_bind; [solve [eapply gives_value; [auto with config|cbn; try done; auto]
                              |apply gives_refuse]|intros ??]
  | apply gives_section; [intros ?|] ].

Lemma gives_read_step entry : gives (fun s => i32 (fs_delay s) /\ i32 (fs_timeout s)) (read_step entry).
Proof.
  unfold read_step. eapply gives_bind; [by eapply gives_value; [auto with config|]|]. intros ? _.
  eapply gives_bind; [eapply (gives_value (fun _ => True)); [intros; exact I|exact I]|]. intros ? _.
  reading. cbn. auto.
Qed.
Lemma gives_read_steps l : gives (Forall (fun s => i32 (fs_delay s) /\ i32 (fs_timeout s))) (read_steps l).
Proof.
  induction l as [|e l IH]; cbn [read_steps]; [constructor|].
  eapply gives_bind; [apply gives_read_step|]. intros s Hs.
  eapply gives_bind; [exact IH|]. intros r Hr. by constructor.
Qed.

Lemma gives_device j d : 0 <= dc_port d <= 65535 -> gives (fun d => 0 <= dc_port d <= 65535) (read_device j d).
Proof.
  intros Hd. unfold read_device. reading; [|done].
  apply orb_false_iff in H1 as [?%Z.ltb_ge ?%Z.ltb_ge]. cbn. lia.
Qed.

Definition typed_connection (c : ConnectionConfig) : Prop :=
  Forall i64 [cc_connect_timeout c; cc_reconnect_initial c; cc_reconnect_max c; cc_idle_timeout c].
Lemma gives_connection j c : typed_connection c -> gives typed_connection (read_connection j c).
Proof.
  intros Hc. assert (i64 (cc_connect_timeout c) /\ i64 (cc_reconnect_initial c) /\ i64 (cc_reconnect_max c) /\
    i64 (cc_idle_timeout c)) as (?&?&?&?) by by repeat (inversion_clear Hc as [|? ? ? Hc']; rename Hc' into Hc).
  unfold read_connection, read_seconds. reading; [|done]. cbn. unfold typed_connection. cbn. by rewrite !Forall_cons_iff.
Qed.

Lemma gives_tls j t : gives (fun _ => True) (read_tls j t).
Proof.
  unfold read_tls. reading; [|done]. eapply (gives_bind (fun _ => True)); [|done].
  apply gives_section; [|done]. intros raw. destruct (is_boolean raw); [|auto with config].
  eapply gives_bind; [apply gives_bool|done].
Qed.

Definition typed_fountain (f : FountainConfig) : Prop :=
  i64 (fc_handshake_timeout f) /\
  Forall (fun s => i32 (fs_delay s) /\ i32 (fs_timeout s)) (fc_sequence f) /\
  (fc_enabled f = false -> f = cf_fountain default_config).
Lemma gives_fountain j : gives typed_fountain (read_fountain j (cf_fountain default_config)).
Proof.
  unfold read_fountain, read_seconds. reading; [|split; [done|]; split; [constructor|done]].
  eapply gives_bind; [apply gives_section; [intros; apply gives_read_steps|constructor]|].
  intros steps Hs. cbn. split; [assumption|]. split; [exact Hs|discriminate].
Qed.

Lemma gives_config j : gives typed_config (read_config j default_config).
Proof.
  unfold read_config. eapply gives_bind; [by apply gives_device|]. intros device Hd.
  eapply gives_bind; [apply gives_tls|]. intros tls _.
  eapply gives_bind; [by apply gives_connection; repeat constructor|]. intros connection Hc.
  eapply (gives_bind (fun _ => True)).
  { apply gives_section; [|done]. intros. eapply gives_value; [auto with config|done]. }
  intros level _. eapply gives_bind; [apply gives_fountain|]. intros fountain (Ht&Hs&He).
  split; try done. cbn. unfold typed_connection in Hc. rewrite !Forall_cons_iff in *. naive_solver.
Qed.

Lemma gives_validate e c : validate e c = Ret tt \/ exists what, validate e c = runtime_error what.
Proof.
  assert (forall (m : outcome unit) (k : unit -> outcome unit), (m = Ret tt \/ exists w, m = runtime_error w) ->
    (k tt = Ret tt \/ exists w, k tt = runtime_error w) ->
    ((let! x := m in k x) = Ret tt \/ exists w, (let! x := m in k x) = runtime_error w)) as Hb.
  { intros m k [->|[w ->]] Hk; [exact Hk|right; by exists w]. }
  assert (forall bad what, refuse_if bad what = Ret tt \/ exists w, refuse_if bad what = runtime_error w) as Hr.
  { intros [] what; cbn; eauto. }
  assert (forall p what, require_file e p what = Ret tt \/ exists w, require_file e p what = runtime_error w) as Hf.
  { intros. by apply Hb. }
  assert (forall l, validate_steps l = Ret tt \/ exists w, validate_steps l = runtime_error w) as Hs.
  { induction l as [|s l IH]; cbn [validate_steps]; [by left|by apply Hb]. }
  unfold validate. cbv zeta. do 3 (apply Hb; [apply Hr|]).
  apply Hb; [by destruct (tc_verify_peer _); auto|].
  apply Hb; [by destruct (tc_use_mtls _); auto|].
  do 6 (apply Hb; [apply Hr|]). destruct (fc_enabled _); [|by left]. repeat (apply Hb; [auto|]). auto.
Qed.

Section LoadFacts.
Context (exists_file : string -> bool) (read_file : string -> option string)
  (parse : string -> option json) (json_what : string).
Abbreviation load := (load_config exists_file read_file parse json_what).

(** C21: whatever the file holds, loading returns a configuration that passes every
    check and whose numbers fit their types, or throws [std::runtime_error]; the one
    exception is a floating point number outside the range of the integer it is
    converted to, which the language leaves undefined. *)
Theorem load_config_outcome path :
  match load path with
  | Ret c => valid_config exists_file c /\ typed_config c
  | Throw e => (exists what, e = Exn_runtime what) \/
      e = conversion_ub /\ exists text j, read_file path = Some text /\ parse text = Some j /\
        read_config j default_config = Throw conversion_ub
  end.
Proof.
  unfold load_config. destruct (read_file path) as [text|] eqn:Er; [|cbn; eauto].
  destruct (parse text) as [j|] eqn:Ep; [|cbn; eauto]. pose proof (gives_config j) as Hg.
  destruct (read_config j default_config) as [c|e] eqn:Ec.
  - cbn [catch_json outcome_bind]. destruct (gives_validate exists_file c) as [E|[what E]]; rewrite E; cbn; [|eauto].
    split; [by apply validate_ret|done].
  - cbn in Hg. destruct Hg as [->|[->|[what ->]]]; cbn; eauto 9.
Qed.
End LoadFacts.

(** ** Every valid configuration can be written down *)

Definition j_num (z : Z) : json := if z <? 0 then J_int z else J_uint z.
Definition step_json (s : FountainStep) : json := J_obj
  [("body", fs_body s); ("delay_ms", j_num (fs_delay s)); ("timeout_s", j_num (fs_timeout s));
   ("type", J_str (fs_type s))].
Definition fountain_json (f : FountainConfig) : json := J_obj
  [("device_id", J_str (fc_device_id f)); ("dp_read_on_ready", J_bool (fc_dp_read_on_ready f));
   ("handshake_timeout_s", j_num (fc_handshake_timeout f)); ("hmac_key_file", J_str (fc_hmac_key_file f));
   ("kid", J_str (fc_kid f)); ("loop", J_bool (fc_loop f)); ("sequence", J_arr (map step_json (fc_sequence f)));
   ("serial", J_str (fc_serial f))].
(** The file that spells out every member. *)
Definition config_json (c : Config) : json := J_obj (
  [("connection", J_obj
     [("auto_reconnect", J_bool (cc_auto_reconnect (cf_connection c)));
      ("connect_timeout_s", j_num (cc_connect_timeout (cf_connection c)));
      ("idle_timeout_s", j_num (cc_idle_timeout (cf_connection c)));
      ("reconnect_initial_s", j_num (cc_reconnect_initial (cf_connection c)));
      ("reconnect_max_s", j_num (cc_reconnect_max (cf_connection c)))]);
   ("device", J_obj
     [("host", J_str (dc_host (cf_device c))); ("path", J_str (dc_path (cf_device c)));
      ("port", j_num (dc_port (cf_device c))); ("websocket_subprotocol", J_str (dc_subprotocol (cf_device c)))])] ++
  (if fc_enabled (cf_fountain c) then [("fountain", fountain_json (cf_fountain c))] else []) ++
  [("logging", J_obj [("level", J_str (cf_level c))]);
   ("tls", J_obj
     [("ca_file", J_str (tc_ca_file (cf_tls c))); ("client_cert_file", J_str (tc_client_cert_file (cf_tls c)));
      ("client_key_file", J_str (tc_client_key_file (cf_tls c))); ("use_mtls", J_bool (tc_use_mtls (cf_tls c)));
      ("verify_hostname", J_str (tc_verify_hostname (cf_tls c)));
      ("verify_peer", J_bool (tc_verify_peer (cf_tls c)))])]).

Lemma get_j_num64 z : i64 z -> get_int64 (j_num z) = Ret z.
Proof. intros H. unfold j_num. destruct (z <? 0); cbn -[wrap_s]; by rewrite wrap_s_id. Qed.
Lemma get_j_num32 z : i32 z -> get_int 32 (j_num z) = Ret z.
Proof. intros H. unfold j_num. destruct (z <? 0); cbn -[wrap_s]; by rewrite wrap_s_id. Qed.

Lemma read_step_json s : i32 (fs_delay s) -> i32 (fs_timeout s) -> read_step (step_json s) = Ret s.
Proof.
  destruct s as [type body delay timeout]. intros Hd Ht. cbn in Hd, Ht. unfold read_step, step_json.
  cbn -[get_int j_num]. by rewrite !get_j_num32.
Qed.
Lemma read_steps_json l : Forall (fun s => i32 (fs_delay s) /\ i32 (fs_timeout s)) l ->
  read_steps (map step_json l) = Ret l.
Proof.
  induction 1 as [|s l [Hd Ht] _ IH]; [done|]. cbn [map read_steps]. rewrite read_step_json by done.
  cbn [outcome_bind]. by rewrite IH.
Qed.

Lemma read_config_json c : typed_config c -> read_config (config_json c) default_config = Ret c.
Proof.
  destruct c as [[host port path sub] [ca cert key vp um vh] [ar ct ri rm it] level f].
  intros [Hp Ht Hs Ha]. cbn in *. repeat rewrite Forall_cons_iff in Ht. destruct Ht as (H1&H2&H3&H4&H5&_).
  assert (i32 port) by (unfold i32; lia).
  assert (read_fountain (config_json (mkConfig (mkDeviceConfig host port path sub) (mkTlsConfig ca cert key vp um vh)
    (mkConnectionConfig ar ct ri rm it) level f)) (cf_fountain default_config) = Ret f) as Ef.
  { unfold read_fountain, read_seconds, section, config_json. cbn [cf_fountain]. destruct (fc_enabled f) eqn:E.
    - destruct f as [en di se kid hk ht dp seq lp]. cbn in E, Hs, H5. subst en. cbn -[get_int64 j_num read_steps].
      rewrite get_j_num64 by done. cbn [outcome_bind elements]. by rewrite read_steps_json.
    - rewrite (Ha eq_refl). reflexivity. }
  unfold read_config. rewrite Ef.
  unfold read_device, read_tls, read_connection, read_seconds, section, config_json.
  destruct (fc_enabled _); cbn -[get_int64 get_int j_num Z.ltb];
    (rewrite get_j_num32 by done; cbn [outcome_bind];
     rewrite (proj2 (Z.ltb_ge port 0)), (proj2 (Z.ltb_ge 65535 port)) by lia; cbn [orb refuse_if outcome_bind];
     rewrite !get_j_num64 by done; reflexivity).
Qed.

Section Written.
Context (exists_file : string -> bool) (read_file : string -> option string)
  (parse : string -> option json) (json_what : string).

(** a valid configuration written out member by member is loaded back exactly:
    every configuration the checks allow can be given by a file. *)
Theorem config_roundtrip path text c : valid_config exists_file c -> typed_config c ->
  read_file path = Some text -> parse text = Some (config_json c) ->
  load_config exists_file read_file parse json_what path = Ret c.
Proof.
  intros Hv Ht Hr Hp. unfold load_config. rewrite Hr, Hp, read_config_json by done.
  cbn [catch_json outcome_bind]. by rewrite (proj2 (validate_ret _ _) Hv).
Qed.
End Written.

(** The range check of [device.port] comes after the conversion to [int]: a port
    number that is a multiple of [2^32] too large passes it. *)
Lemma port_wraps port k : 0 <= port <= 65535 -> 0 <= k ->
  read_device (J_obj [("device", J_obj [("port", J_uint (port + k * 2 ^ 32))])]) (cf_device default_config) =
    Ret (mkDeviceConfig EmptyString port "/ws" "fountain").
Proof.
  intros Hp Hk. unfold read_device, section. cbn -[wrap_s Z.ltb Z.mul Z.pow Z.add].
  replace (wrap_s 32 (port + k * 2 ^ 32)) with port.
  - cbn [outcome_bind]. rewrite (proj2 (Z.ltb_ge port 0)), (proj2 (Z.ltb_ge 65535 port)) by lia. reflexivity.
  - unfold wrap_s. replace (port + k * 2 ^ 32 + 2 ^ (32 - 1)) with (port + 2 ^ (32 - 1) + k * 2 ^ 32) by lia.
    rewrite Z_mod_plus_full, Z.mod_small; lia.
Qed.

(** ** A configuration file *)

Definition sample_config : Config := {|
  cf_device := mkDeviceConfig "192.168.1.51" 4443 "/ws" "fountain";
  cf_tls := mkTlsConfig "ca.pem" "cert.pem" "key.pem" true true "auto";
  cf_connection := mkConnectionConfig true 10 1 30 60;
  cf_level := "debug";
  cf_fountain := mkFountainConfig true "fnt-000001" EmptyString "1" "device.hmac" 15 true
    [mkStep "dp_read" (J_obj []) 0 10] false
|}.
Definition sample_parse (text : string) : option json :=
  if String.eqb text "sample" then Some (config_json sample_config) else None.

Lemma sample_valid : valid_config (fun _ => true) sample_config /\ typed_config sample_config.
Proof.
  split; [apply validate_ret; reflexivity|].
  split; cbn; [lia|repeat constructor; done|repeat constructor; done|done].
Qed.

Lemma config_roundtrip_witness :
  load_config (fun _ => true) (fun _ => Some "sample") sample_parse "what" "client.json" = Ret sample_config.
Proof.
  apply (config_roundtrip (fun _ => true) (fun _ => Some "sample") sample_parse "what" "client.json" "sample");
    [exact (proj1 sample_valid)|exact (proj2 sample_valid)|reflexivity|reflexivity].
Defined.
