(* ===== verification/Numbers.v ===== *)
(** * Numbers from text: [std::stod], [std::stol]

    The conversions of the standard library that the command line tool applies to its
    arguments, over [strtod] and [strtol] as the C library defines them in the C
    locale.  A conversion takes the longest prefix that is a number and leaves the
    rest alone. *)
From S2P Require Import Prelude StdMap Errors Float Json Canonical Auth Datapoint Generated Catalog Codec.
Local Open Scope Z_scope.

(** ** Pieces of a number *)

Definition decimal_of (c : ascii) : option Z :=
  let b := byte_of c in if (48 <=? b) && (b <=? 57) then Some (b - 48) else None.

(** The digits from the front: their number, the value they continue [acc] to, and
    what follows. *)
Fixpoint digit_span (digit : ascii -> option Z) (base : Z) (s : string) (acc : Z) : Z * Z * string :=
  match s with
  | String c r =>
      match digit c with
      | Some d => let '(n, v, rest) := digit_span digit base r (acc * base + d) in (n + 1, v, rest)
      | None => (0, acc, s)
      end
  | EmptyString => (0, acc, EmptyString)
  end.

(** Digits with at most one point among them: the number of digits, their value
    without the point, the number of digits behind it, and what follows. *)
Definition mantissa (digit : ascii -> option Z) (base : Z) (s : string) : Z * Z * Z * string :=
  let '(n1, v1, r1) := digit_span digit base s 0 in
  match r1 with
  | String c r2 =>
      if byte_of c =? 46 then let '(n2, v2, r3) := digit_span digit base r2 v1 in (n1 + n2, v2, n2, r3)
      else (n1, v1, 0, r1)
  | EmptyString => (n1, v1, 0, r1)
  end.

(** The exponent after its mark; nothing unless a digit follows. *)
Definition exponent (mark : ascii -> bool) (s : string) : Z :=
  match s with
  | String c r =>
      if mark c then
        let '(neg, r) := strip_sign r in
        let '(n, v, _) := digit_span decimal_of 10 r 0 in
        if n =? 0 then 0 else if neg then - v else v
      else 0
  | EmptyString => 0
  end.
Definition lower (c : ascii) : Z := let b := byte_of c in if (65 <=? b) && (b <=? 90) then b + 32 else b.
Definition is_e (c : ascii) : bool := lower c =? 101.
Definition is_p (c : ascii) : bool := lower c =? 112.
(** A word in front, in any case. *)
Fixpoint begins_with (word s : string) : bool :=
  match word, s with
  | EmptyString, _ => true
  | String w word, String c s => (lower w =? lower c) && begins_with word s
  | _, _ => false
  end.

(** ** [strtod] *)

(** The magnitude before rounding: a quotient with a positive denominator, or one of
    the words. *)
Inductive magnitude := Mg_quot (n d : Z) | Mg_inf | Mg_nan.
Definition scaled (m base e : Z) : magnitude := Mg_quot (m * base ^ Z.max e 0) (base ^ Z.max (- e) 0).

Definition decimal_magnitude (s : string) : option magnitude :=
  let '(n, v, f, rest) := mantissa decimal_of 10 s in
  if n =? 0 then None else Some (scaled v 10 (exponent is_e rest - f)).
(** After [0x]; a hexadecimal digit counts four binary ones. *)
Definition hex_magnitude (s : string) : option magnitude :=
  let '(n, v, f, rest) := mantissa nibble_of 16 s in
  if n =? 0 then None else Some (scaled v 2 (exponent is_p rest - 4 * f)).

Definition unsigned_magnitude (s : string) : option magnitude :=
  if begins_with "inf" s then Some Mg_inf
  else if begins_with "nan" s then Some Mg_nan
  else if begins_with "0x" s then
    match s with
    | String _ (String _ r) =>
        match hex_magnitude r with Some m => Some m | None => decimal_magnitude s end
    | _ => None
    end
  else decimal_magnitude s.

(** The least normal number, less the half unit that rounds up to it. *)
Definition underflows (n d : Z) : bool := n * 2 ^ 1076 <? (2 ^ 54 - 1) * d.
Definition is_inf (x : float) : bool := match x with F_inf _ => true | _ => false end.
(** Whether a finite result is the exact magnitude. *)
Definition is_exact (x : float) (n d : Z) : bool :=
  let '(p, q) := quotient x in Z.abs p * d =? n * q.

(** Value and range error; [None]: nothing to convert. *)
Definition strtod (s : string) : option (float * bool) :=
  let '(neg, r) := strip_sign (skip_spaces s) in
  match unsigned_magnitude r with
  | None => None
  | Some Mg_nan => Some (F_nan, false)
  | Some Mg_inf => Some (F_inf neg, false)
  | Some (Mg_quot n d) =>
      let x := round_quot binary64 neg (if neg then - n else n) d in
      Some (x, is_inf x || (underflows n d && negb (is_exact x n d)))
  end.

Definition stod (s : string) : outcome float :=
  match strtod (c_str s) with
  | None => Throw (Exn_invalid_argument "stod")
  | Some (_, true) => Throw (Exn_out_of_range "stod")
  | Some (x, false) => Ret x
  end.

(** ** [strtol], base 10 *)

Definition stol (s : string) : outcome Z :=
  let '(neg, r) := strip_sign (skip_spaces (c_str s)) in
  let '(n, v, _) := digit_span decimal_of 10 r 0 in
  if n =? 0 then Throw (Exn_invalid_argument "stol") else
  let z := if neg then - v else v in
  if (z <? - 2 ^ 63) || (2 ^ 63 - 1 <? z) then Throw (Exn_out_of_range "stol") else Ret z.

(** Values of a C library. *)
Definition shown (m : outcome float) : string :=
  match m with
  | Ret x => fixed_text 4 x
  | Throw (Exn_invalid_argument _) => "invalid"
  | Throw (Exn_out_of_range _) => "range"
  | Throw _ => "other"
  end.
Example stod_values :
  map (fun s => shown (stod s))
    ["12"; " -0.5"; "12abc"; "1e3 bar"; "0x1.8p1"; "-inf"; "NaN"; "0x"; "1."; ".5"; "1e"; "4.9e-324"; "1e-400"; "1e309";
     "abc"; "-"; ""; "-0"; "0.0001220703125"; "+7"; "- 7"; "1e+2"; "0X.Cp+2"; "infinite"] =
  ["12.0000"; "-0.5000"; "12.0000"; "1000.0000"; "3.0000"; "-inf"; "nan"; "0.0000"; "1.0000"; "0.5000"; "1.0000"; "range";
   "range"; "range"; "invalid"; "invalid"; "invalid"; "-0.0000"; "0.0001"; "7.0000"; "invalid"; "100.0000"; "3.0000"; "inf"].
Proof. vm_compute. reflexivity. Qed.
Example stol_values :
  map stol ["30"; " -5s"; "9223372036854775807"; "9223372036854775808"; "abc"; ""; "0x10"] =
  [Ret 30; Ret (-5); Ret (2 ^ 63 - 1); Throw (Exn_out_of_range "stol"); Throw (Exn_invalid_argument "stol");
   Throw (Exn_invalid_argument "stol"); Ret 0].
Proof. vm_compute. reflexivity. Qed.

(** ** Printed integers are read back *)

(** A text that ends a number. *)
Definition ends_number (s : string) : Prop :=
  match s with String c _ => decimal_of c = None /\ byte_of c <> 46 /\ is_e c = false /\ lower c <> 120 | EmptyString => True end.

Lemma decimal_digit x : (x < 10)%N -> decimal_of (pretty_N_char x) = Some (Z.of_N x).
Proof. intros H. destruct x as [|p]; [done|]. do 4 (destruct p as [p|p|]; try done; try lia). Qed.
Lemma span_pretty_go x s : exists k, (0 <= k) /\ ((0 < x)%N -> 0 < k) /\
  digit_span decimal_of 10 (pretty_N_go x s) 0 =
    (let '(n, v, rest) := digit_span decimal_of 10 s (Z.of_N x) in (k + n, v, rest)).
Proof.
  revert s. induction (N.lt_wf_0 x) as [x _ IH]. intros s. destruct (decide (x = 0)%N) as [->|Hx].
  { rewrite pretty_N_go_0. exists 0. split; [done|]. split; [lia|]. by destruct (digit_span _ _ s _) as [[n v] r]. }
  rewrite pretty_N_go_step by lia.
  destruct (IH (x `div` 10)%N ltac:(apply N.div_lt; lia) (String (pretty_N_char (x `mod` 10)) s)) as (k&Hk&_&->).
  cbn [digit_span]. rewrite decimal_digit by (apply N.mod_lt; lia).
  replace (Z.of_N (x `div` 10) * 10 + Z.of_N (x `mod` 10)) with (Z.of_N x)
    by (rewrite N2Z.inj_div, N2Z.inj_mod; pose proof (Z.div_mod (Z.of_N x) 10); lia).
  exists (k + 1). split; [lia|]. split; [lia|]. destruct (digit_span _ _ s _) as [[n v] r]. do 2 f_equal. lia.
Qed.
Lemma span_stops s acc : match s with String c _ => decimal_of c = None | EmptyString => True end ->
  digit_span decimal_of 10 s acc = (0, acc, s).
Proof. destruct s as [|c s]; [done|]. cbn. by intros ->. Qed.
Lemma pretty_go_app x s t : pretty_N_go x (s +:+ t) = pretty_N_go x s +:+ t.
Proof.
  revert s. induction (N.lt_wf_0 x) as [x _ IH]. intros s. destruct (decide (x = 0)%N) as [->|Hx]; [done|].
  rewrite (pretty_N_go_step x s), (pretty_N_go_step x (s +:+ t)) by lia.
  apply (IH (x `div` 10)%N ltac:(apply N.div_lt; lia) (String (pretty_N_char (x `mod` 10)) s)).
Qed.
Lemma span_pretty n rest : ends_number rest -> exists k, 0 < k /\
  digit_span decimal_of 10 (pretty (n : N) +:+ rest) 0 = (k, Z.of_N n, rest).
Proof.
  intros He. assert (match rest with String c _ => decimal_of c = None | EmptyString => True end) as Hs
    by (destruct rest; [done|apply He]).
  unfold pretty, pretty_N. case_decide as Hn.
  - subst n. exists 1. split; [done|]. cbn [String.append digit_span].
    change (decimal_of "0") with (Some 0). cbv iota. by rewrite span_stops.
  - rewrite <- pretty_go_app. destruct (span_pretty_go n (EmptyString +:+ rest)) as (k&_&Hk&->). cbn [String.append].
    rewrite span_stops by done. exists k. split; [lia|]. by rewrite Z.add_0_r.
Qed.

Definition is_decimal (c : ascii) : bool := (48 <=? byte_of c) && (byte_of c <=? 57).
Lemma is_decimal_of c : decimal_of c = if is_decimal c then Some (byte_of c - 48) else None.
Proof. done. Qed.
Lemma sall_decimal_go x s : sall is_decimal s = true -> sall is_decimal (pretty_N_go x s) = true.
Proof.
  revert s. induction (N.lt_wf_0 x) as [x _ IH]. intros s Hs. destruct (decide (x = 0)%N) as [->|Hx]; [done|].
  rewrite pretty_N_go_step by lia. apply IH; [apply N.div_lt; lia|]. cbn [sall]. rewrite Hs, andb_true_r.
  pose proof (decimal_digit (x `mod` 10) ltac:(apply N.mod_lt; lia)) as Hd. rewrite is_decimal_of in Hd.
  by destruct (is_decimal _).
Qed.
Lemma sall_decimal (n : N) : sall is_decimal (pretty n) = true.
Proof. unfold pretty, pretty_N. case_decide; [done|]. by apply sall_decimal_go. Qed.
Lemma pretty_front (n : N) : exists c r, pretty n = String c r /\ is_decimal c = true.
Proof.
  pose proof (sall_decimal n) as H. pose proof (pretty_N_nonempty n) as Hn. destruct (pretty n) as [|c r]; [done|].
  exists c, r. split; [done|]. cbn in H. by destruct (is_decimal c).
Qed.

(** A [char*] ends at a NUL byte, and a number holds none. *)
Lemma c_str_app a b : sall (fun c => negb (byte_of c =? 0)) a = true -> c_str (a +:+ b) = a +:+ c_str b.
Proof.
  induction a as [|c a IH]; [done|]. cbn [sall String.append c_str]. intros [Hc Ha]%andb_prop.
  destruct (byte_of c =? 0); [done|]. by rewrite IH.
Qed.
Lemma ends_c_str s : ends_number s -> ends_number (c_str s).
Proof. destruct s as [|c s]; [done|]. cbn. by destruct (byte_of c =? 0). Qed.

(** The conversion of an integer below 2^53 is exact. *)
Lemma rne_div_exact z b : 0 < b -> rne_div (z * b) b = z.
Proof.
  intros Hb. unfold rne_div. rewrite Z.div_mul, Z.mod_mul by lia.
  destruct (Z.compare_spec (2 * 0) b); [lia|done|lia].
Qed.
Lemma ndigits_bounds z : z <> 0 -> 0 < ndigits z /\ 2 ^ (ndigits z - 1) <= Z.abs z < 2 ^ ndigits z.
Proof.
  intros Hz. unfold ndigits. pose proof (Z.log2_spec (Z.abs z) ltac:(lia)) as H. pose proof (Z.log2_nonneg (Z.abs z)).
  rewrite Z.add_simpl_r, Z.add_1_r. split; [lia|done].
Qed.
Lemma ndigits_shift z k : z <> 0 -> 0 <= k -> ndigits (z * 2 ^ k) = ndigits z + k.
Proof.
  intros Hz Hk. unfold ndigits. rewrite Z.abs_mul, (Z.abs_eq (2 ^ k)) by (apply Z.pow_nonneg; lia).
  rewrite Z.log2_mul_pow2 by lia. lia.
Qed.
Lemma round_quot_int neg z : z <> 0 -> Z.abs z < 2 ^ 53 ->
  round_quot binary64 neg z 1 = F_fin (z * 2 ^ (53 - ndigits z)) (ndigits z - 53).
Proof.
  intros Hz Hb. destruct (ndigits_bounds z Hz) as [Hp _]. pose proof (ndigits_le z 53 ltac:(lia) Hb) as Hn.
  set (n := ndigits z) in *. unfold round_quot. rewrite (proj2 (Z.eqb_neq z 0) Hz). cbn [f_prec binary64].
  change (ndigits 1) with 1. replace (Z.max 0 (53 + 3 + 1 - ndigits z)) with (57 - n) by lia.
  rewrite Z.div_1_r, Z.mod_1_r. change (0 =? 0) with true. cbv iota zeta. rewrite Z.add_0_r.
  replace (Z.sgn z * (2 * (Z.abs z * 2 ^ (57 - n)))) with (z * 2 ^ (58 - n)).
  2:{ replace (58 - n) with (1 + (57 - n)) by lia. rewrite Z.pow_add_r by lia. pose proof (Z.sgn_abs z). nia. }
  unfold round_to. rewrite (proj2 (Z.eqb_neq (z * 2 ^ (58 - n)) 0)) by (pose proof (Z.pow_pos_nonneg 2 (58 - n)); nia).
  rewrite ndigits_shift by lia. fold n. cbn [f_prec f_emin f_emax binary64].
  replace (Z.max (n + (58 - n) + (- (57 - n) - 1) - 53) (-1074)) with (n - 53) by lia.
  rewrite (proj2 (Z.leb_gt (n - 53) (- (57 - n) - 1))) by lia.
  replace (n - 53 - (- (57 - n) - 1)) with 5 by lia.
  replace (z * 2 ^ (58 - n)) with (z * 2 ^ (53 - n) * 2 ^ 5) by (rewrite <- Z.mul_assoc, <- Z.pow_add_r by lia; do 2 f_equal; lia).
  rewrite rne_div_exact by lia.
  rewrite (proj2 (Z.eqb_neq (z * 2 ^ (53 - n)) 0)) by (pose proof (Z.pow_pos_nonneg 2 (53 - n)); nia).
  rewrite ndigits_shift by lia. fold n. by rewrite (proj2 (Z.ltb_ge 1024 _)) by lia.
Qed.
Lemma round_quot_nearbyint neg z : z <> 0 -> Z.abs z < 2 ^ 53 ->
  nearbyint (round_quot binary64 neg z 1) = double_of_Z z /\ is_finite (round_quot binary64 neg z 1) = true.
Proof.
  intros Hz Hb. rewrite round_quot_int, double_of_Z_exact by done. split; [|done].
  pose proof (ndigits_le z 53 ltac:(lia) Hb) as Hn. unfold nearbyint. destruct (Z.leb_spec 0 (ndigits z - 53)).
  - replace (ndigits z - 53) with 0 by lia. replace (53 - ndigits z) with 0 by lia. by rewrite Z.mul_1_r.
  - replace (- (ndigits z - 53)) with (53 - ndigits z) by lia. rewrite rne_div_exact by (apply Z.pow_pos_nonneg; lia).
    by rewrite (proj2 (Z.eqb_neq z 0)).
Qed.

Lemma decimal_plain c : is_decimal c = true ->
  isspace c = false /\ byte_of c <> 45 /\ byte_of c <> 43 /\ byte_of c <> 0 /\ lower c = byte_of c.
Proof.
  unfold is_decimal, isspace, lower. intros [H1%Z.leb_le H2%Z.leb_le]%andb_prop.
  repeat split; try lia.
  by replace ((65 <=? byte_of c) && (byte_of c <=? 90)) with false by lia.
Qed.
Lemma strip_front c r : is_decimal c = true -> skip_spaces (String c r) = String c r /\ strip_sign (String c r) = (false, String c r).
Proof.
  intros (Hs&H1&H2&_&_)%decimal_plain. cbn. rewrite Hs. split; [done|].
  by rewrite (proj2 (Z.eqb_neq _ _) H1), (proj2 (Z.eqb_neq _ _) H2).
Qed.
Lemma pretty_strip (n : N) rest : skip_spaces (pretty n +:+ rest) = pretty n +:+ rest /\
  strip_sign (pretty n +:+ rest) = (false, pretty n +:+ rest).
Proof. destruct (pretty_front n) as (c&r&->&Hc). by apply strip_front. Qed.

Lemma begins_with_decimal w word (n : N) rest : (lower w <? 48) || (57 <? lower w) = true ->
  begins_with (String w word) (pretty n +:+ rest) = false.
Proof.
  intros Hw. destruct (pretty_front n) as (c&r&->&Hc). cbn. apply decimal_plain in Hc as Hp. destruct Hp as (_&_&_&_&->).
  unfold is_decimal in Hc. rewrite (proj2 (Z.eqb_neq (lower w) (byte_of c))) by lia. done.
Qed.
Lemma begins_with_0x (n : N) rest : ends_number rest -> begins_with "0x" (pretty n +:+ rest) = false.
Proof.
  intros He. destruct (pretty_front n) as (c&r&Hp&Hc). pose proof (sall_decimal n) as Hs. rewrite Hp in *.
  cbn [sall] in Hs. apply andb_prop in Hs as [_ Hs]. cbn [String.append begins_with].
  destruct r as [|d r]; cbn [String.append].
  - destruct rest as [|x rest]; [by rewrite andb_false_r|]. destruct He as (_&_&_&He).
    change (lower "x") with 120. rewrite (proj2 (Z.eqb_neq 120 (lower x))) by congruence. by rewrite andb_false_r.
  - cbn [sall] in Hs. apply andb_prop in Hs as [Hd _]. apply decimal_plain in Hd as Hq. destruct Hq as (_&_&_&_&->).
    unfold is_decimal in Hd. change (lower "x") with 120. rewrite (proj2 (Z.eqb_neq 120 (byte_of d))) by lia.
    by rewrite andb_false_r.
Qed.
Lemma magnitude_printed (n : N) rest : ends_number rest -> unsigned_magnitude (pretty n +:+ rest) = Some (Mg_quot (Z.of_N n) 1).
Proof.
  intros He. unfold unsigned_magnitude. rewrite !begins_with_decimal by done. rewrite begins_with_0x by done.
  unfold decimal_magnitude, mantissa. destruct (span_pretty n rest He) as (k&Hk&->).
  assert (exponent is_e rest = 0) as Hx.
  { destruct rest as [|c r]; [done|]. destruct He as (_&_&He&_). cbn. by rewrite He. }
  destruct rest as [|c r].
  - rewrite (proj2 (Z.eqb_neq k 0)) by lia. rewrite Hx. unfold scaled. cbn. by rewrite Z.mul_1_r.
  - rewrite (proj2 (Z.eqb_neq (byte_of c) 46)) by apply He. rewrite (proj2 (Z.eqb_neq k 0)) by lia.
    rewrite Hx. unfold scaled. cbn. by rewrite Z.mul_1_r.
Qed.

Lemma decimal_no_nul s : sall is_decimal s = true -> sall (fun c => negb (byte_of c =? 0)) s = true.
Proof.
  induction s as [|c s IH]; [done|]. cbn [sall]. intros [(_&_&_&Hc&_)%decimal_plain Hs]%andb_prop.
  rewrite (proj2 (Z.eqb_neq _ _) Hc). by apply IH.
Qed.

(** [std::stod] of a printed integer, whatever follows it. *)
Lemma stod_printed z rest : Z.abs z < 2 ^ 53 -> ends_number rest ->
  exists x, stod (dec_Z z +:+ rest) = Ret x /\ is_finite x = true /\ nearbyint x = double_of_Z z.
Proof.
  intros Hb He. set (neg := z <? 0). set (n := Z.to_N (Z.abs z)).
  assert (dec_Z z = if neg then String "-" (pretty n) else pretty n) as Hz by (by destruct z).
  assert (stod (dec_Z z +:+ rest) = stod ((if neg then "-" else EmptyString) +:+ pretty n +:+ rest)) as ->
    by (rewrite Hz; by destruct neg).
  unfold stod, strtod. rewrite c_str_app by (by destruct neg). rewrite c_str_app.
  2:{ apply decimal_no_nul, sall_decimal. }
  assert (strip_sign (skip_spaces ((if neg then "-" else EmptyString) +:+ pretty n +:+ c_str rest)) = (neg, pretty n +:+ c_str rest)) as ->.
  { destruct (pretty_strip n (c_str rest)) as [H1 H2]. destruct neg; [done|]. cbn [String.append]. by rewrite H1. }
  rewrite (magnitude_printed n) by by apply ends_c_str.
  assert ((if neg then - Z.of_N n else Z.of_N n) = z) as -> by (unfold neg, n; destruct (Z.ltb_spec z 0); lia).
  destruct (decide (z = 0)) as [->|Hn]; [by eexists|].
  destruct (round_quot_nearbyint neg z Hn Hb) as [Hy Hf].
  eexists. split; [|split; [exact Hf|exact Hy]].
  assert (is_inf (round_quot binary64 neg z 1) = false) as -> by by destruct (round_quot _ _ _ _).
  replace (underflows (Z.of_N n) 1) with false; [done|]. symmetry. apply Z.ltb_ge.
  assert (1 <= Z.of_N n) by (unfold n; lia). assert (2 ^ 54 - 1 <= 2 ^ 1076) by (vm_compute; discriminate). nia.
Qed.

(** [std::stol] of a printed integer. *)
Lemma stol_printed z : - 2 ^ 63 <= z < 2 ^ 63 -> stol (dec_Z z) = Ret z.
Proof.
  intros Hb. set (neg := z <? 0). set (n := Z.to_N (Z.abs z)).
  assert (dec_Z z = (if neg then "-" else EmptyString) +:+ pretty n +:+ EmptyString) as ->.
  { rewrite sapp_nil_r. by destruct z. }
  unfold stol. rewrite c_str_app by (by destruct neg). rewrite c_str_app by apply decimal_no_nul, sall_decimal.
  assert (strip_sign (skip_spaces ((if neg then "-" else EmptyString) +:+ pretty n +:+ c_str EmptyString)) =
    (neg, pretty n +:+ EmptyString)) as ->.
  { destruct (pretty_strip n EmptyString) as [H1 H2]. destruct neg; [done|]. cbn [String.append c_str]. by rewrite H1. }
  destruct (span_pretty n EmptyString I) as (k&Hk&->). rewrite (proj2 (Z.eqb_neq k 0)) by lia.
  assert ((if neg then - Z.of_N n else Z.of_N n) = z) as -> by (unfold neg, n; destruct (Z.ltb_spec z 0); lia).
  rewrite (proj2 (Z.ltb_ge z _)), (proj2 (Z.ltb_ge _ z)) by lia. done.
Qed.
