(* ===== verification/Cli.v ===== *)
(** * The command line tool ([apps/fountainer-cli/main.cpp])

    What the tool is built on: taking a configuration file over into a client, and
    playing back the file's sequence over the raw protocol.  A line printed is an
    event with its text; the client's answers and the signal flag are parameters.
    The other verbs and [main] are in [Tool]. *)
From S2P Require Import Prelude StdMap Errors Float Json Canonical Messages Auth Events Dispatcher.
From S2P Require Import Session.
From S2P Require Import Datapoint Generated Catalog Codec WriteSet Snapshot Service Manager Poller.
From S2P Require Import Security Transport EventBus Client Config.
Local Open Scope Z_scope.

(** ** [configure] *)

Definition is_ip_literal (host : string) : bool :=
  sall (fun c => ((48 <=? byte_of c) && (byte_of c <=? 57)) || Ascii.eqb c ".") host || negb (sall (fun c => negb (Ascii.eqb c ":")) host).

Definition identity_policy (config : Config) : EndpointIdentityPolicy :=
  let verify := tc_verify_hostname (cf_tls config) in
  if String.eqb verify "off" || (String.eqb verify "auto" && is_ip_literal (dc_host (cf_device config)))
  then VerifyCertificateChainOnly else VerifyDnsName.

Definition configured_tls (config : Config) : TlsCredentials :=
  let tls := cf_tls config in
  let credentials := mutual_tls (tc_ca_file tls) (tc_client_cert_file tls) (tc_client_key_file tls)
    (identity_policy config) in
  if tc_verify_peer tls then credentials else set_unsafe_options true credentials.

Definition configured_options (config : Config) (o : ClientOptions) : ClientOptions :=
  let connection := cf_connection config in
  let reconnect := co_reconnect o in
  {| co_connect_timeout := sec (cc_connect_timeout connection);
     co_transport_idle_timeout := sec (cc_idle_timeout connection);
     co_handshake_timeout := sec (fc_handshake_timeout (cf_fountain config));
     co_default_request_timeout := co_default_request_timeout o;
     co_reconnect := {| rp_enabled := cc_auto_reconnect connection;
                        rp_initial_delay := cc_reconnect_initial connection;
                        rp_max_delay := cc_reconnect_max connection;
                        rp_authentication_delay := rp_authentication_delay reconnect;
                        rp_jitter := rp_jitter reconnect |};
     co_rate_budget := co_rate_budget o;
     co_enable_test_commands := co_enable_test_commands o |}.

Section Configure.
Context (readable_file : string -> bool) (content_of : string -> option string).

Definition configure (c : Client) (config : Config) : Status * Client :=
  match set_tls readable_file (configured_tls config) (cl_security c) with
  | (Err e, security) => (Err e, set_cl_security security c)
  | (Ok _, security) =>
      let fountain := cf_fountain config in
      let security := set_expected_device_id (fc_device_id fountain) security in
      match from_file (fc_kid fountain) (fc_hmac_key_file fountain) (content_of (fc_hmac_key_file fountain)) with
      | Err e => (Err e, set_cl_security security c)
      | Ok hmac =>
          match set_hmac hmac security with
          | (Err e, security) => (Err e, set_cl_security security c)
          | (Ok _, security) =>
              (ok, set_cl_options (configured_options config (cl_options c)) (set_cl_security security c))
          end
      end
  end.
End Configure.

(** ** [run_script] *)

Inductive cli_event :=
| Cl_out (text : string)               (* std::cout *)
| Cl_err (text : string)               (* std::cerr *)
| Cl_sleep (milliseconds : Z)
| Cl_send (type : string) (body : json)
| Cl_request (spec : RequestSpec)
| Cl_service (e : sevent)              (* within a call of the datapoint manager *)
| Cl_level (level : string)            (* [log::set_level] *)
| Cl_signal (name : string)            (* the handler is installed *)
| Cl_disconnect.
Definition nl : string := str1 "010".

Definition step_request (step : FountainStep) : RequestSpec :=
  {| rs_type := fs_type step; rs_body := fs_body step; rs_timeout := Some (sec (fs_timeout step));
     rs_priority := InteractiveRead; rs_coalesce_key := EmptyString |}.

Section Script.
(** What the [n]-th look at the signal flag finds, the answers of the blocking raw
    request, and [json::dump]. *)
Context (g_stop : nat -> bool) (raw_request : RequestSpec -> Result json) (dump : json -> outcome string).

(** The state counts the looks. *)
Abbreviation ScriptM := (M nat cli_event).
Definition look : ScriptM bool :=
  let* n := get in
  modify S ;;;
  ret (g_stop n).

(** [Some code]: the function returns; [None]: the loop goes on. *)
Definition run_step (step : FountainStep) : ScriptM (option Z) :=
  let* stop := look in
  if stop : bool then ret (Some 0) else
  when (0 <? fs_delay step) (emit (Cl_sleep (fs_delay step))) ;;;
  match find_meta (fs_type step) with
  | None => emit (Cl_err ("unknown type '" +:+ fs_type step +:+ "'" +:+ nl)) ;;; ret (Some 2)
  | Some meta =>
      if negb (meta_request meta) then
        emit (Cl_send (fs_type step) (fs_body step)) ;;; ret None
      else
        emit (Cl_request (step_request step)) ;;;
        match raw_request (step_request step) with
        | Err e => emit (Cl_err (fs_type step +:+ " -> " +:+ error_to_string e +:+ nl))
        | Ok response =>
            let* text := lift (dump response) in
            emit (Cl_out (fs_type step +:+ " -> " +:+ text +:+ nl))
        end ;;;
        ret None
  end.
Fixpoint run_sequence (l : list FountainStep) : ScriptM (option Z) :=
  match l with
  | [] => ret None
  | step :: rest =>
      let* code := run_step step in
      match code with Some c => ret (Some c) | None => run_sequence rest end
  end.
(** [do ... while (loop && !g_stop)], [fuel] rounds at most; [None]: still running. *)
Fixpoint run_script (fuel : nat) (config : Config) : ScriptM (option Z) :=
  match fuel with
  | O => ret None
  | S fuel =>
      let* code := run_sequence (fc_sequence (cf_fountain config)) in
      match code with
      | Some c => ret (Some c)
      | None =>
          if negb (fc_loop (cf_fountain config)) then ret (Some 0) else
          let* stop := look in
          if stop : bool then ret (Some 0) else run_script fuel config
      end
  end.
End Script.

(** ** A loaded configuration makes a client that can dial *)

Lemma present_readable exists_file readable f : (forall f, exists_file f = true -> readable f = true) ->
  present exists_file f -> str_empty f = false /\ readable f = true.
Proof. intros Hr [Hn He]. split; [by apply str_empty_false|auto]. Qed.

Lemma configured_tls_valid exists_file readable config : valid_config exists_file config ->
  (forall f, exists_file f = true -> readable f = true) -> tc_use_mtls (cf_tls config) = true ->
  tls_validate readable (configured_tls config) = ok.
Proof.
  intros Hv Hr Hm. destruct (vc_mtls _ _ Hv Hm) as [Hc Hk].
  destruct (present_readable _ _ _ Hr Hc) as [Ec Rc], (present_readable _ _ _ Hr Hk) as [Ek Rk].
  unfold tls_validate, configured_tls, require_readable, uses_mutual_tls.
  destruct (tc_verify_peer (cf_tls config)) eqn:Ep; cbn; [|by rewrite Ec, Rc, Ek, Rk].
  destruct (present_readable _ _ _ Hr (vc_ca _ _ Hv Ep)) as [Ea Ra]. by rewrite Ea, Ra, Ec, Rc, Ek, Rk.
Qed.

(** a configuration that [load_config] accepts, with mutual TLS, a fountain
    section and a well-formed key file, configures a client completely: the
    credentials pass the check made before dialing, the provider answers for the
    configured key id, the reconnect delays are positive and ordered as the backoff
    needs them, and the timeouts are positive. *)
Theorem configure_ready exists_file readable content_of config hmac c : valid_config exists_file config ->
  (forall f, exists_file f = true -> readable f = true) ->
  tc_use_mtls (cf_tls config) = true -> fc_enabled (cf_fountain config) = true ->
  from_file (fc_kid (cf_fountain config)) (fc_hmac_key_file (cf_fountain config))
    (content_of (fc_hmac_key_file (cf_fountain config))) = Ok hmac ->
  sc_locked (cl_security c) = false ->
  exists c', configure readable content_of c config = (ok, c') /\
    security_validate readable (cl_security c') = ok /\ sc_locked (cl_security c') = false /\
    sc_expected_device_id (cl_security c') = fc_device_id (cf_fountain config) /\
    (exists p, sc_provider (cl_security c') = Some p /\
       forall device, p device (sc_kid (cl_security c')) = Ok (hc_key hmac)) /\
    0 < rp_initial_delay (co_reconnect (cl_options c')) <= rp_max_delay (co_reconnect (cl_options c')) /\
    0 < co_connect_timeout (cl_options c') /\ 0 < co_handshake_timeout (cl_options c') /\
    cl_state c' = cl_state c.
Proof.
  intros Hv Hr Hm Hf Hk Hl. pose proof (configured_tls_valid _ _ _ Hv Hr Hm) as Ht.
  unfold configure, set_tls. rewrite Hl, Ht. cbn [ok]. rewrite Hk. unfold set_hmac. cbn [sc_locked set_expected_device_id].
  eexists. split; [reflexivity|]. cbn. split.
  { unfold security_validate. cbn. by rewrite Ht. }
  split; [done|]. split; [done|]. split.
  { eexists. split; [done|]. intros device. unfold fixed_provider. cbn. by rewrite String.eqb_refl. }
  destruct (vc_fountain _ _ Hv Hf) as (_&_&_&Hh&_). pose proof (vc_connect _ _ Hv). unfold sec.
  split; [by apply Hv|]. split; [lia|]. split; [lia|done].
Qed.

(** The switch [tls.use_mtls] is checked by the loader and read by nobody: the
    client is configured with the certificate files either way. *)
Definition set_use_mtls (b : bool) (config : Config) : Config :=
  let t := cf_tls config in
  mkConfig (cf_device config)
    (mkTlsConfig (tc_ca_file t) (tc_client_cert_file t) (tc_client_key_file t) (tc_verify_peer t) b
       (tc_verify_hostname t)) (cf_connection config) (cf_level config) (cf_fountain config).
Lemma use_mtls_ignored readable content_of c config b :
  configure readable content_of c (set_use_mtls b config) = configure readable content_of c config.
Proof. reflexivity. Qed.

(** ** The script *)

(** What went out, as messages. *)
Definition played (w : list cli_event) : list (string * json) :=
  omap (fun e => match e with
    | Cl_send type body => Some (type, body)
    | Cl_request spec => Some (rs_type spec, rs_body spec)
    | _ => None
    end) w.
Lemma played_app w1 w2 : played (w1 ++ w2) = played w1 ++ played w2.
Proof. apply omap_app. Qed.

Section ScriptFacts.
Context (g_stop : nat -> bool) (raw_request : RequestSpec -> Result json) (dump : json -> outcome string).
(** A response was parsed from a frame, so its strings are UTF-8 and it can be dumped. *)
Context (dumpable : forall spec response, raw_request spec = Ok response -> exists text, dump response = Ret text).
Abbreviation step_message := (fun s => (fs_type s, fs_body s)).

Lemma run_step_known s n : find_meta (fs_type s) <> None ->
  exists w, run_step g_stop raw_request dump s n = (Ret (if g_stop n then Some 0 else None), S n, w) /\
    played w = if g_stop n then [] else [step_message s].
Proof.
  intros Hm. unfold run_step, look.
  destruct (g_stop n) eqn:Es; [eexists; unfold bind; cbn; rewrite Es; by split|].
  destruct (find_meta (fs_type s)) as [meta|]; [|done].
  unfold bind. cbn. rewrite Es. destruct (0 <? fs_delay s), (meta_request meta); cbn; try (by eexists);
    destruct (raw_request _) eqn:Er; cbn; try (by eexists); destruct (dumpable _ _ Er) as [text ->]; by eexists.
Qed.

Lemma run_sequence_known l n : Forall (fun s => find_meta (fs_type s) <> None) l ->
  exists r n' w, run_sequence g_stop raw_request dump l n = (Ret r, n', w) /\ (n <= n')%nat /\
    played w `prefix_of` map step_message l /\
    (r = None -> played w = map step_message l) /\ (r = None \/ r = Some 0 /\ exists k, g_stop k = true).
Proof.
  intros Hl. revert n. induction Hl as [|s l Hs _ IH]; intros n; cbn [run_sequence map].
  - exists None, n, []. split; [done|]. split; [done|]. split; [apply prefix_nil|]. by split; [|left].
  - destruct (run_step_known s n Hs) as (w&E&Hp). destruct (g_stop n) eqn:Eg.
    + exists (Some 0), (S n), w. erewrite run_bind; [|exact E|reflexivity]. rewrite app_nil_r, Hp.
      split; [done|]. split; [lia|]. split; [apply prefix_nil|]. split; [done|]. right. eauto.
    + destruct (IH (S n)) as (r&n'&w'&E'&Hn&Hpre&Hall&Hr). exists r, n', (w ++ w').
      erewrite run_bind; [|exact E|exact E']. rewrite played_app, Hp. cbn.
      split; [done|]. split; [lia|]. split; [by apply prefix_cons|]. split; [|done].
      intros ->. by rewrite Hall.
Qed.

Lemma run_script_ends fuel config n r n' w :
  run_sequence g_stop raw_request dump (fc_sequence (cf_fountain config)) n = (Ret r, n', w) -> r = None \/ r = Some 0 ->
  r = Some 0 \/ fc_loop (cf_fountain config) = false \/ g_stop n' = true ->
  exists n2 w2, run_script g_stop raw_request dump (S fuel) config n = (Ret (Some 0), n2, w2).
Proof.
  intros E Hr Hend. cbn [run_script]. unfold bind at 1. rewrite E. destruct Hr as [->| ->]; [|by do 2 eexists].
  destruct (fc_loop _); cbn [negb]; [|by do 2 eexists]. unfold look, bind. cbn.
  destruct Hend as [?|[?|Hg]]; [done..|]. rewrite Hg. by do 2 eexists.
Qed.
Lemma run_script_again fuel config n r n' w n2 w2 :
  run_sequence g_stop raw_request dump (fc_sequence (cf_fountain config)) n = (Ret r, n', w) ->
  run_script g_stop raw_request dump fuel config (S n') = (Ret (Some 0), n2, w2) ->
  g_stop n' = false -> r = None \/ r = Some 0 ->
  exists n3 w3, run_script g_stop raw_request dump (S fuel) config n = (Ret (Some 0), n3, w3).
Proof.
  intros E E2 Hg Hr. cbn [run_script]. unfold bind at 1. rewrite E. destruct Hr as [->| ->]; [|by do 2 eexists].
  destruct (fc_loop _); cbn [negb]; [|by do 2 eexists]. unfold look, bind. cbn. rewrite Hg, E2. by do 2 eexists.
Qed.

(** the script of a loaded configuration never meets an unknown message type: it
    sends the messages of the sequence in order, all of them unless it is
    interrupted, and ends with exit code 0; with [loop] set it ends at the signal. *)
Theorem script_completes exists_file config : valid_config exists_file config ->
  fc_enabled (cf_fountain config) = true ->
  let messages := map step_message (fc_sequence (cf_fountain config)) in
  (fc_loop (cf_fountain config) = false -> exists n w,
     run_script g_stop raw_request dump 1 config 0%nat = (Ret (Some 0), n, w) /\ played w `prefix_of` messages /\
     ((forall k, g_stop k = false) -> played w = messages)) /\
  (forall m, (forall k, (m <= k)%nat -> g_stop k = true) -> forall fuel, (m < fuel)%nat -> exists n w,
     run_script g_stop raw_request dump fuel config 0%nat = (Ret (Some 0), n, w)).
Proof.
  intros Hv Hf. cbv zeta. destruct (vc_fountain _ _ Hv Hf) as (_&_&_&_&Hs). split.
  - intros Hl. destruct (run_sequence_known _ 0%nat Hs) as (r&n&w&E&_&Hp&Hall&Hr). exists n, w. split; [|split; [done|]].
    + cbn [run_script]. rewrite <- (app_nil_r w). eapply run_bind; [exact E|]. rewrite Hl.
      by destruct Hr as [->|[-> _]].
    + intros Hg. destruct Hr as [->|[_ [k Hk]]]; [auto|]. congruence.
  - intros m Hm. enough (forall fuel n, (m <= n + fuel)%nat -> exists n' w,
      run_script g_stop raw_request dump (S fuel) config n = (Ret (Some 0), n', w)) as H.
    { intros [|fuel] Hlt; [lia|]. by apply H; lia. }
    induction fuel as [|fuel IH]; intros n Hn;
      destruct (run_sequence_known _ n Hs) as (r&n'&w&E&Hle&_&_&Hr).
    + apply (run_script_ends _ _ _ _ _ _ E); [naive_solver|]. right. right. apply Hm. lia.
    + destruct (g_stop n') eqn:Eg; [apply (run_script_ends _ _ _ _ _ _ E); naive_solver|].
      destruct (IH (S n')) as (n2&w2&E2); [lia|]. apply (run_script_again _ _ _ _ _ _ _ _ E E2); naive_solver.
Qed.
End ScriptFacts.

(** ** The sample configuration *)

Definition sample_key (_ : string) : option string :=
  Some "00112233445566778899aabbccddeeff00112233445566778899aabbccddeeff".

Lemma configure_ready_witness : exists c',
  configure (fun _ => true) sample_key new_client sample_config = (ok, c') /\
  security_validate (fun _ => true) (cl_security c') = ok.
Proof.
  assert (exists hmac, from_file "1" "device.hmac" (sample_key "device.hmac") = Ok hmac) as [hmac Hk].
  { eexists. vm_compute. reflexivity. }
  destruct (configure_ready (fun _ => true) (fun _ => true) sample_key sample_config hmac new_client
    (proj1 sample_valid) (fun _ H => H) eq_refl eq_refl Hk eq_refl) as (c'&E&Hv&_).
  exists c'. split; [exact E|exact Hv].
Defined.

Lemma script_completes_witness : exists n w,
  run_script (fun _ => false) (fun _ => Ok J_null) (fun _ => Ret "null") 1 sample_config 0%nat = (Ret (Some 0), n, w) /\
  played w = [("dp_read", J_obj [])].
Proof.
  destruct (proj1 (script_completes (fun _ => false) (fun _ => Ok J_null) (fun _ => Ret "null") (fun _ _ _ => ex_intro _ _ eq_refl)
    (fun _ => true) sample_config
    (proj1 sample_valid) eq_refl) eq_refl) as (n&w&E&_&Hall).
  exists n, w. split; [exact E|]. exact (Hall (fun _ => eq_refl)).
Defined.
