(* ===== verification/Tool.v ===== *)
(** * The verbs of the command line tool ([apps/fountainer-cli/main.cpp])

    [main] with every verb: the arguments, the calls of the client's services, the
    lines printed and the exit code.  The state is the client and the number of looks
    at the signal flag.  A blocking call is the service's own definition in the
    surroundings it meets; what the I/O thread does to the client between the calls
    is part of those. *)
From S2P Require Import Prelude StdMap Errors Float Json Canonical Messages Auth Events Dispatcher.
From S2P Require Import Session.
From S2P Require Import Datapoint Generated Catalog Codec WriteSet Snapshot Service Manager ManagerFacts Poller.
From S2P Require Import Commands Logs Security Transport EventBus Client Config Numbers Cli.
Local Open Scope Z_scope.

(** ** Lines *)

Definition print_error_line (e : Error) : string := "error: " +:+ error_to_string e +:+ nl.
Definition value_line (d : DatapointDescriptor) (v : DatapointValue) : string :=
  d_name d +:+ " = " +:+ to_display_string d v +:+ nl.
(** The line of a change, printed by the subscription of [watch]. *)
Definition change_line (change : AnyDatapointChange) : string :=
  d_name (ch_descriptor change) +:+ " = " +:+ to_display_string (ch_descriptor change) (ch_value change) +:+
  "   [" +:+ source_to_string (ch_source change) +:+ "]" +:+ nl.
Definition record_line (r : LogRecord) : string :=
  dec_Z (lr_sequence r) +:+ " [" +:+ dec_Z (lr_level r) +:+ "] " +:+ lr_text r +:+ nl.
Definition batch_line (b : LogBatch) : string :=
  "boot_id=" +:+ dec_Z (lb_boot_id b) +:+ " available=" +:+
  (if lb_previous_boot_available b then "yes" else "no") +:+
  " records=" +:+ dec_Z (Z.of_nat (length (lb_records b))) +:+ nl.
Definition stats_line (s : PollStats) : string :=
  nl +:+ "poll stats: requests=" +:+ dec_Z (ps_requests s) +:+ " coalesced=" +:+ dec_Z (ps_coalesced_points s) +:+
  " skipped=" +:+ dec_Z (ps_skipped_inflight s) +:+ " missed=" +:+ dec_Z (ps_missed_deadlines s) +:+
  " keepalives=" +:+ dec_Z (ps_keepalives s) +:+ " failures=" +:+ dec_Z (ps_failures s) +:+ nl.
Definition command_line (r : CommandResult) : string :=
  cr_command r +:+ ": " +:+ (if command_applied r then "applied" else "rejected") +:+
  match cr_error r with Some e => " (" +:+ e +:+ ")" | None => EmptyString end +:+ nl.
Definition info_text (c : ConnectionInfo) : string :=
  "device_id: " +:+ ci_device_id c +:+ nl +:+ "serial:    " +:+ ci_serial c +:+ nl +:+
  "firmware:  " +:+ ci_firmware_version c +:+ nl +:+ "hw_rev:    " +:+ ci_hardware_revision c +:+ nl +:+
  "protocol:  v" +:+ dec_Z (ci_protocol_version c) +:+ nl +:+
  "auth:      " +:+ ci_auth_scheme c +:+ " kid=" +:+ ci_auth_kid c +:+ nl.
Definition connected_line (c : ConnectionInfo) : string :=
  "connected: device=" +:+ ci_device_id c +:+ " serial=" +:+ ci_serial c +:+ " fw=" +:+ ci_firmware_version c +:+ nl.

(** ** Assignments *)

(** The text before and after the first equals sign. *)
Fixpoint split_assignment (s : string) : option (string * string) :=
  match s with
  | EmptyString => None
  | String c r =>
      if byte_of c =? 61 then Some (EmptyString, r)
      else match split_assignment r with Some (name, text) => Some (String c name, text) | None => None end
  end.

(** The argument's text as the JSON value the datapoint's type is decoded from. *)
Definition assigned_json (d : DatapointDescriptor) (text : string) : option json :=
  match d_type d with
  | T_Bool => Some (J_bool (String.eqb text "1" || String.eqb text "true" || String.eqb text "on"))
  | T_Str | T_U64 => Some (J_str text)
  | _ => match stod text with Ret x => Some (J_float x) | Throw _ => None end
  end.

Definition parse_assignment (changes : DatapointWriteSet) (assignment : string) : Status * DatapointWriteSet :=
  match split_assignment assignment with
  | None => (Err (validation_error ConstraintViolation ("expected <name>=<value>: " +:+ assignment) EmptyString), changes)
  | Some (name, text) =>
      match find name with
      | None => (Err (validation_error UnknownDatapoint ("unknown datapoint '" +:+ name +:+ "'") name), changes)
      | Some d =>
          match assigned_json d text with
          | None => (Err (validation_error TypeMismatch (name +:+ ": '" +:+ text +:+ "' is not a number") name), changes)
          | Some raw =>
              match value_from_json d raw with
              | Err e => (Err e, changes)
              | Ok v => ws_set name v changes
              end
          end
      end
  end.
Fixpoint parse_assignments (args : list string) (changes : DatapointWriteSet) : Status * DatapointWriteSet :=
  match args with
  | [] => (ok, changes)
  | a :: r => match parse_assignment changes a with
              | (Err e, changes) => (Err e, changes)
              | (Ok _, changes) => parse_assignments r changes
              end
  end.

(** ** What the tool meets *)

Record tool_world := mkToolWorld {
  wd_exists : string -> bool;
  wd_read_file : string -> option string;
  wd_parse_config : string -> option json;
  wd_json_what : string;
  wd_readable : string -> bool;
  wd_connect : Client -> Result ConnectionInfo * Client;
  wd_exchange : nat -> exchange Manager;
  wd_raw : RequestSpec -> Result json;
  wd_parse_body : string -> json;               (* [json::parse] that does not throw *)
  wd_dump : json -> outcome string;
  wd_dump_indented : json -> outcome string;
  wd_stop : nat -> bool;
  wd_stats : PollStats                          (* at the end of [watch] *)
}.

Abbreviation ToolM := (M (Client * nat) cli_event).

(** A call of the datapoint manager or the poller by this thread. *)
Definition service {A} (m : M Manager sevent A) : ToolM A := fun t =>
  let '(r, mg, w) := m (cl_datapoints t.1) in (r, (set_cl_datapoints mg t.1, t.2), map Cl_service w).
Definition polling {A} (m : M Poller pevent A) : ToolM A := fun t =>
  let '(r, p, _) := m (cl_poller t.1) in (r, (set_cl_poller p t.1, t.2), []).
Definition looking {A} (m : M nat cli_event A) : ToolM A := on_snd m.
Definition out (text : string) : ToolM unit := emit (Cl_out text).
Definition err (text : string) : ToolM unit := emit (Cl_err text).
Definition print_error (e : Error) : ToolM Z := err (print_error_line e) ;;; ret 1.

Definition print_value (d : DatapointDescriptor) (v : DatapointValue) : ToolM unit := out (value_line d v).
Definition print_snapshot (s : DatapointSnapshot) : ToolM unit :=
  forM (sn_values s) (fun kv =>
    match find kv.1 with
    | Some d => print_value d kv.2
    | None => throw (Exn_ub "null descriptor")
    end) ;;;
  forM (sn_unknown s) (fun name => out (name +:+ " = ? (unknown)" +:+ nl)).

Section Tool.
Context (w : tool_world).
Abbreviation dump := (wd_dump w).
Abbreviation x := (wd_exchange w 0%nat).

(** ** [run_watch] *)

(** [while (!g_stop) sleep]: [None]: still running after [fuel] looks. *)
Fixpoint wait_for_signal (fuel : nat) : ToolM (option unit) :=
  match fuel with
  | O => ret None
  | S fuel =>
      let* stop := looking (look (wd_stop w)) in
      if stop : bool then ret (Some tt) else emit (Cl_sleep 200) ;;; wait_for_signal fuel
  end.
Definition watch_until (fuel : nat) : ToolM (option Z) :=
  emit (Cl_signal "SIGINT") ;;;
  emit (Cl_signal "SIGTERM") ;;;
  let* stopped := wait_for_signal fuel in
  match stopped with
  | None => ret None
  | Some _ => err (stats_line (wd_stats w)) ;;; ret (Some 0)
  end.
(** The subscription is released at the end; its handler prints [change_line]. *)
Definition run_watch (fuel : nat) (names : list string) (interval : Z) : ToolM (option Z) :=
  let* token := service (subscribe_all 0) in
  let* code :=
    match names with
    | [] => polling start_defaults ;;; watch_until fuel
    | _ =>
        let* status := polling (every interval names) in
        match status with
        | Err e => let* code := print_error e in ret (Some code)
        | Ok _ => polling Poller.start ;;; watch_until fuel
        end
    end in
  match code with
  | None => ret None
  | Some _ => service (unsubscribe token) ;;; ret code
  end.

(** ** [run_logs] *)

Definition print_records (l : list LogRecord) : ToolM unit := forM l (fun r => out (record_line r)).
Definition log_records (r : Result (list LogRecord)) : ToolM Z :=
  match r with
  | Err e => print_error e
  | Ok records => print_records records ;;; err (dec_Z (Z.of_nat (length records)) +:+ " records" +:+ nl) ;;; ret 0
  end.
Definition run_logs (fuel : nat) (mode : string) : ToolM (option Z) :=
  if String.eqb mode "prev" then
    let* batch := service (read_previous x default_log_options) in
    match batch with
    | Err e => let* code := print_error e in ret (Some code)
    | Ok b => out (batch_line b) ;;; print_records (lb_records b) ;;; ret (Some 0)
    end
  else if String.eqb mode "all" then
    let* records := service (read_all_log fuel (wd_exchange w) default_log_options) in
    match records with
    | None => ret None
    | Some r => let* code := log_records r in ret (Some code)
    end
  else
    let* batch := service (read_log x default_log_options) in
    let* code := log_records (match batch with Err e => Err e | Ok b => Ok (lb_records b) end) in
    ret (Some code).

(** ** [run_command] *)

Definition state_named (s : string) : option FountainState :=
  if String.eqb s "On" then Some FS_On
  else if String.eqb s "Off" then Some FS_Off
  else if String.eqb s "Auto" then Some FS_Auto
  else if String.eqb s "Manual" then Some FS_Manual
  else None.
Definition command_done (r : Result CommandResult) : ToolM Z :=
  match r with
  | Err e => print_error e
  | Ok result => out (command_line result) ;;; ret (if command_applied result then 0 else 3)
  end.
Definition run_command (args : list string) : ToolM Z :=
  match args with
  | [] => err ("usage: command <set_state <On|Off|Auto|Manual> | turn_on <seconds> | restart | reboot>" +:+ nl) ;;; ret 2
  | verb :: rest =>
      let one := bool_decide (length rest = 1%nat) in
      let argument := default EmptyString (head rest) in
      if String.eqb verb "set_state" && one then
        match state_named argument with
        | None => err ("unknown state '" +:+ argument +:+ "'" +:+ nl) ;;; ret 2
        | Some s => let* r := service (Commands.set_state x s) in command_done r
        end
      else if String.eqb verb "turn_on" && one then
        let* duration := lift (stol argument) in
        let* r := service (turn_on_for x duration) in command_done r
      else if String.eqb verb "restart" then let* r := service (restart_pump x) in command_done r
      else if String.eqb verb "reboot" then let* r := service (reboot x) in command_done r
      else err ("unknown command '" +:+ verb +:+ "'" +:+ nl) ;;; ret 2
  end.

(** ** The verbs of [main] *)

(** [main] returns at once, without [disconnect]; or goes on with the exit code; or a
    loop is still running. *)
Inductive verb_end := Returned (code : Z) | Exit (code : Z) | Running.
Definition exit_of (code : option Z) : verb_end := match code with Some c => Exit c | None => Running end.

Definition run_read (names : list string) : ToolM verb_end :=
  let* snapshot := service (read_names x names) in
  match snapshot with
  | Err e => let* code := print_error e in ret (Exit code)
  | Ok s => print_snapshot s ;;; ret (Exit 0)
  end.
Definition run_read_all : ToolM verb_end :=
  let* snapshot := service (read_all x) in
  match snapshot with
  | Err e => let* code := print_error e in ret (Exit code)
  | Ok s =>
      print_snapshot s ;;;
      err (dec_Z (Z.of_nat (length (sn_values s))) +:+ " datapoints" +:+ nl) ;;; ret (Exit 0)
  end.
Definition run_write (args : list string) : ToolM verb_end :=
  match parse_assignments args [] with
  | (Err e, _) => let* code := print_error e in ret (Returned code)
  | (Ok _, changes) =>
      let* result := service (Manager.write dump x changes) in
      match result with
      | Err e => let* code := print_error e in ret (Exit code)
      | Ok r =>
          if negb (applied r) then
            err ("rejected:" +:+ nl) ;;;
            forM (wr_errors r) (fun error => err ("  " +:+ we_datapoint error +:+ ": " +:+ we_reason error +:+ nl)) ;;;
            ret (Exit 3)
          else
            out ("applied" +:+ match wr_warning r with Some s => " (warning: " +:+ s +:+ ")" | None => EmptyString end +:+
                 nl +:+ "readback:" +:+ nl) ;;;
            print_snapshot (wr_readback r) ;;;
            ret (Exit 0)
      end
  end.
Definition all_digits (s : string) : bool := sall is_decimal s.
Definition watch_verb (fuel : nat) (args : list string) : ToolM verb_end :=
  match args with
  | first :: rest =>
      if all_digits first then
        let* interval := lift (stol first) in
        let* code := run_watch fuel rest interval in ret (exit_of code)
      else let* code := run_watch fuel args 1000 in ret (exit_of code)
  | [] => let* code := run_watch fuel [] 1000 in ret (exit_of code)
  end.
Definition raw_spec (type : string) (body : json) : RequestSpec :=
  {| rs_type := type; rs_body := body; rs_timeout := None; rs_priority := InteractiveRead; rs_coalesce_key := EmptyString |}.
Definition run_raw (type : string) (rest : list string) : ToolM verb_end :=
  let body := match rest with text :: _ => wd_parse_body w text | [] => J_obj [] end in
  if bool_decide (rest <> []) && match body with J_discarded => true | _ => false end then
    err ("invalid JSON body" +:+ nl) ;;; ret (Returned 2)
  else
  match find_meta type with
  | None => err ("unknown message type '" +:+ type +:+ "'" +:+ nl) ;;; ret (Returned 2)
  | Some meta =>
      if negb (meta_request meta) then
        emit (Cl_send type body) ;;; out ("sent (fire-and-forget)" +:+ nl) ;;; ret (Exit 0)
      else
        emit (Cl_request (raw_spec type body)) ;;;
        match wd_raw w (raw_spec type body) with
        | Err e => let* code := print_error e in ret (Exit code)
        | Ok response => let* text := lift (wd_dump_indented w response) in out (text +:+ nl) ;;; ret (Exit 0)
        end
  end.

Definition run_verb (fuel : nat) (config : Config) (connection : ConnectionInfo) (verb : string) (args : list string) :
    ToolM verb_end :=
  let some := bool_decide (args <> []) in
  if String.eqb verb "info" then out (info_text connection) ;;; ret (Exit 0)
  else if String.eqb verb "read" && some then run_read args
  else if String.eqb verb "read-all" then run_read_all
  else if String.eqb verb "write" && some then run_write args
  else if String.eqb verb "watch" then watch_verb fuel args
  else if String.eqb verb "logs" then
    let* code := run_logs fuel (default EmptyString (head args)) in ret (exit_of code)
  else if String.eqb verb "command" then let* code := run_command args in ret (Exit code)
  else if String.eqb verb "raw" && some then run_raw (default EmptyString (head args)) (tail args)
  else if String.eqb verb "script" then
    emit (Cl_signal "SIGINT") ;;;
    let* code := looking (run_script (wd_stop w) (wd_raw w) dump fuel config) in ret (exit_of code)
  else err ("unknown or incomplete command '" +:+ verb +:+ "'" +:+ nl) ;;; ret (Exit 2).

(** ** [main] *)

(** [e.what()]; undefined behaviour is not an exception. *)
Definition what (e : exn) : option string :=
  match e with
  | Exn_runtime s | Exn_invalid_argument s | Exn_out_of_range s => Some s
  | Exn_type_error | Exn_dump => Some (wd_json_what w)
  | Exn_ub _ => None
  end.
Definition session_of (fuel : nat) (config : Config) (verb : string) (args : list string) : ToolM verb_end :=
  emit (Cl_level (cf_level config)) ;;;
  modify (fun t => (new_client, t.2)) ;;;
  let* t := get in
  let '(status, c) := configure (wd_readable w) (wd_read_file w) t.1 config in
  modify (fun t => (c, t.2)) ;;;
  match status with
  | Err e => let* code := print_error e in ret (Returned code)
  | Ok _ =>
      let '(connection, c) := wd_connect w c in
      modify (fun t => (c, t.2)) ;;;
      match connection with
      | Err e => let* code := print_error e in ret (Returned code)
      | Ok info => err (connected_line info) ;;; run_verb fuel config info verb args
      end
  end.
(** The arguments with the program's name in front; [None]: still running. *)
Definition main (fuel : nat) (argv : list string) : ToolM (option Z) :=
  match argv with
  | _ :: path :: verb :: args =>
      match load_config (wd_exists w) (wd_read_file w) (wd_parse_config w) (wd_json_what w) path with
      | Throw e =>
          match what e with
          | Some text => err ("config: " +:+ text +:+ nl) ;;; ret (Some 1)
          | None => throw e
          end
      | Ret config =>
          let* finished := session_of fuel config verb args in
          match finished with
          | Running => ret None
          | Returned code => ret (Some code)
          | Exit code => emit Cl_disconnect ;;; ret (Some code)
          end
      end
  | _ =>
      err ("usage: " +:+ default EmptyString (head argv) +:+
           " <config.json> <info|read|read-all|write|watch|logs|command|script> [args...]" +:+ nl) ;;;
      ret (Some 2)
  end.
End Tool.
