(* ===== verification/ToolFacts.v ===== *)
(** * The command line tool's promises

    A value that the tool prints can be typed back; [write] ends with exit code 0
    exactly when the device applied what was typed; and the exit codes of [main]. *)
From S2P Require Import Prelude StdMap Errors Float Json Canonical Messages Auth Events Dispatcher.
From S2P Require Import Session.
From S2P Require Import Datapoint Generated Catalog Codec WriteSet Snapshot Service Manager ManagerFacts Poller.
From S2P Require Import Commands Logs Security Transport EventBus Client Config Numbers Cli Tool.
Local Open Scope Z_scope.

(** ** Assignments *)

Definition no_equals (s : string) : bool := sall (fun c => negb (byte_of c =? 61)) s.
Lemma split_assignment_app name text : no_equals name = true ->
  split_assignment (name +:+ "=" +:+ text) = Some (name, text).
Proof.
  change ("=" +:+ text) with (String "=" text). unfold no_equals.
  induction name as [|c name IH]; [done|]. cbn [sall String.append split_assignment].
  intros [Hc Hn]%andb_prop. destruct (byte_of c =? 61); [done|]. by rewrite IH.
Qed.

(** The catalogue has no equals sign in a name, and no unit on a flag, a text or a
    64-bit number. *)
Definition assignable (d : DatapointDescriptor) : bool :=
  no_equals (d_name d) &&
  match d_type d with T_Bool | T_Str | T_U64 => str_empty (md_unit (d_metadata d)) | _ => true end.
Lemma all_assignable : forallb assignable kDatapointDescriptors = true.
Proof. vm_compute. reflexivity. Qed.

Lemma narrow_nearbyint mk lo hi d x z : is_finite x = true -> nearbyint x = double_of_Z z ->
  lo <= z <= hi -> Z.abs lo < 2 ^ 53 -> Z.abs hi < 2 ^ 53 -> narrow mk lo hi d x = Ok (mk z).
Proof.
  intros Hf Hn Hz Hlo Hhi. unfold narrow, fgt. rewrite Hf, Hn, !flt_double_of_Z, trunc_double_of_Z by lia. cbn [negb].
  replace (z <? lo) with false by lia. by replace (hi <? z) with false by lia.
Qed.

(** A whole number is printed in decimal, with its unit behind a blank; [std::stod]
    stops there. *)
Definition unit_text (d : DatapointDescriptor) : string :=
  if str_empty (md_unit (d_metadata d)) then EmptyString else " " +:+ md_unit (d_metadata d).
Lemma to_display_unit d out : (if str_empty (md_unit (d_metadata d)) then out else out +:+ " " +:+ md_unit (d_metadata d)) =
  out +:+ unit_text d.
Proof. unfold unit_text. destruct (str_empty _); [by rewrite sapp_nil_r|done]. Qed.
Lemma unit_ends d : ends_number (unit_text d).
Proof. unfold unit_text. by destruct (str_empty _). Qed.

(** What [read] prints for a datapoint, typed after [name=], sets that value again:
    for every writable datapoint of the catalogue that is not a floating point
    number, with its unit or without. *)
Theorem assignment_roundtrip d v changes : d ∈ kDatapointDescriptors -> writable d = true ->
  value_index v = value_index_for (d_type d) -> value_ok v -> d_type d <> T_F32 ->
  parse_assignment changes (d_name d +:+ "=" +:+ to_display_string d v) = (ok, mset (d_name d) v changes).
Proof.
  intros Hin Hw Hi Hv Ht. pose proof (find_of_In d Hin) as Hf.
  pose proof (find_check assignable _ _ all_assignable Hf) as [Hn Hu]%andb_prop.
  assert (exists raw, assigned_json d (to_display_string d v) = Some raw /\ value_from_json d raw = Ok v) as (raw&Hr&Hd).
  { unfold assigned_json, value_from_json, to_display_string. rewrite to_display_unit.
    destruct (d_type d), v; try discriminate Hi; try done; cbn [value_ok] in Hv.
    all: try (match goal with |- context [stod (dec_Z ?z +:+ _)] =>
      destruct (stod_printed z (unit_text d) ltac:(lia) (unit_ends d)) as (x&->&Hx&Hy) end;
      eexists; split; [reflexivity|]; cbn [get_double]; apply (narrow_nearbyint _ _ _ _ _ _ Hx Hy); lia).
    all: unfold unit_text; rewrite Hu, sapp_nil_r; eexists; (split; [reflexivity|]).
    - by destruct b.
    - cbv iota. by rewrite parse_u64_hex.
    - done. }
  unfold parse_assignment. rewrite split_assignment_app, Hf, Hr, Hd by done. unfold ws_set. rewrite Hf, Hw, Hi.
  by rewrite Nat.eqb_refl.
Qed.

(** ** [write] *)

(** The assignment [a] is read as the value [v] of the datapoint [name]. *)
Definition reads_as (a : string) (nv : string * DatapointValue) : Prop :=
  exists text d raw, split_assignment a = Some (nv.1, text) /\ find nv.1 = Some d /\ writable d = true /\
    assigned_json d text = Some raw /\ value_from_json d raw = Ok nv.2.
(** The values of a list of assignments: the last one of a name counts. *)
Definition assigned (pairs : list (string * DatapointValue)) : DatapointWriteSet :=
  fold_left (fun m nv => mset nv.1 nv.2 m) pairs [].

Lemma ws_ok_mset name v d values : ws_ok values -> find name = Some d -> writable d = true ->
  value_index v = value_index_for (d_type d) -> ws_ok (mset name v values).
Proof.
  intros [Hs Hv] Hf Hw Hi. split; [by apply msorted_mset|]. intros n u. rewrite mget_mset. case_decide as He; [|apply Hv].
  intros [= <-]. subst. by exists d.
Qed.
Lemma parse_assignment_ok values a st values' : parse_assignment values a = (st, values') ->
  (exists e, st = Err e /\ values' = values) \/
  (exists nv, st = ok /\ reads_as a nv /\ values' = mset nv.1 nv.2 values /\ (ws_ok values -> ws_ok values')).
Proof.
  unfold parse_assignment. intros H. destruct (split_assignment a) as [[name text]|] eqn:Ea; [|injection H as <- <-; left; by eexists].
  destruct (find name) as [d|] eqn:Ef; [|injection H as <- <-; left; by eexists].
  destruct (assigned_json d text) as [raw|] eqn:Er; [|injection H as <- <-; left; by eexists].
  destruct (value_from_json d raw) as [v|e] eqn:Ev; [|injection H as <- <-; left; by eexists].
  unfold ws_set in H. rewrite Ef in H. destruct (writable d) eqn:Ew; cbn [negb] in H; [|injection H as <- <-; left; by eexists].
  destruct (Nat.eqb_spec (value_index v) (value_index_for (d_type d))) as [Hi|]; cbn [negb] in H;
    injection H as <- <-; [|left; by eexists].
  right. exists (name, v). split; [done|]. split; [by exists text, d, raw|]. split; [done|].
  intros Hok. by eapply ws_ok_mset.
Qed.
Lemma parse_assignments_ok args values st values' : parse_assignments args values = (st, values') ->
  (exists e, st = Err e) \/
  (exists pairs, st = ok /\ Forall2 reads_as args pairs /\ values' = fold_left (fun m nv => mset nv.1 nv.2 m) pairs values /\
     (ws_ok values -> ws_ok values')).
Proof.
  revert values. induction args as [|a args IH]; intros values; cbn [parse_assignments].
  { intros [= <- <-]. right. by exists []. }
  destruct (parse_assignment values a) as [st1 values1] eqn:E. apply parse_assignment_ok in E as [(e&->&->)|(nv&->&Hr&->&Ho)].
  - intros [= <- _]. left. by eexists.
  - intros [?|(pairs&->&Hf&->&Ho')]%IH; [by left|]. right. exists (nv :: pairs). split; [done|]. split; [by constructor|].
    split; [done|auto].
Qed.

(** The requests of the datapoint manager among the events. *)
Definition requests (ev : list cli_event) : list RequestSpec :=
  submitted (omap (fun e => match e with Cl_service e => Some e | _ => None end) ev).
Lemma requests_app ev1 ev2 : requests (ev1 ++ ev2) = requests ev1 ++ requests ev2.
Proof. unfold requests. by rewrite omap_app, submitted_app. Qed.
Lemma requests_service ev : requests (map Cl_service ev) = submitted ev.
Proof. unfold requests. f_equal. induction ev as [|e ev IH]; [done|]. cbn. by rewrite <- IH at 2. Qed.

Lemma parsed_status dump now msg : results (fun r => value_string "status" msg = Ret (wr_status r))
  (parse_write_result dump now msg).
Proof.
  intros s r s' ev H. unfold parse_write_result in H.
  apply bind_ret_inv in H as (status&s1&w1&w2&[= Hs _ _]&H&_).
  apply bind_ret_inv in H as (errors&s2&w3&w4&_&H&_). cbv zeta in H.
  apply bind_ret_inv in H as (network&s3&w5&w6&_&H&_). rewrite Hs. f_equal.
  destruct (jfind "readback" msg) as [[]|]; try (injection H as <- _ _; reflexivity).
  apply bind_ret_inv in H as (notify&s4&w7&w8&_&H&_). apply bind_ret_inv in H as (u&s5&w9&w10&_&H&_).
  by injection H as <- _ _.
Qed.

(** What a blocking write returns is what the device answered. *)
Lemma write_answer dump v values m r m' ev : ws_ok values ->
  Manager.write dump (surroundings dump v) values m = (Ret r, m', ev) ->
  (exists e, r = Err e /\ m' = m /\ ev = []) \/
  exists dp, encodes values dp /\ submitted ev = [write_request dp] /\
    match w_reply v (write_request dp) with
    | Err e => r = Err e
    | Ok msg => exists result, r = Ok result /\ value_string "status" msg = Ret (wr_status result)
    end.
Proof.
  intros Hok H. pose proof H as H0. apply write_steps in H0 as [(e&[= ->]&->&->)|(dp&m1&Henc&_&Hsub&_&_)]; [left; by eexists| |done].
  right. exists dp. split; [done|]. split; [done|]. unfold Manager.write in H.
  destruct (async_write_cases values Hok) as [[e He]|(dp'&He&Henc'&_)]; rewrite He in H.
  - apply sync_wait_cases in H as [(?&_&_&->)|[(?&_&_&_&->)|(?&[=]&_)]]; discriminate.
  - apply sync_wait_cases in H as [(?&_&_&->)|[(?&[=]&_)|(spec&[= <-]&H)]]; [discriminate|].
    apply bind_ret_inv in H as ([]&m2&?&w2&[= <- <-]&H&->). apply bind_ret_inv in H as ([]&m3&w3&w4&_&H&->).
    assert (dp' = dp) as ->.
    { destruct Henc as [S1 G1], Henc' as [S2 G2]. apply msorted_ext; [done..|]. intros n. by rewrite G1, G2. }
    cbn in H. destruct (w_reply v (write_request dp)) as [msg|e]; [|by injection H as <- _ _].
    apply bind_ret_inv in H as (result&m4&?&?&H&[= <- _ _]&_). exists result. split; [done|]. by eapply parsed_status.
Qed.

(** Printing reads the catalogue only for names it has. *)
Definition value_lines (s : DatapointSnapshot) : list string :=
  omap (fun kv => match find kv.1 with Some d => Some (value_line d kv.2) | None => None end) (sn_values s) ++
  map (fun name => name +:+ " = ? (unknown)" +:+ nl) (sn_unknown s).
Lemma out_run {A} (f : A -> string) l (t : Client * nat) :
  forM l (fun a => out (f a)) t = (Ret tt, t, map (fun a => Cl_out (f a)) l).
Proof. induction l as [|a l IH]; [done|]. cbn [forM map]. unfold bind at 1. cbn. by rewrite IH. Qed.
Lemma print_snapshot_run s t : snapshot_ok s -> print_snapshot s t = (Ret tt, t, map Cl_out (value_lines s)).
Proof.
  intros Hok. unfold print_snapshot, value_lines. rewrite map_app, (map_map _ Cl_out). eapply run_bind; [|apply out_run].
  assert (forall l, Forall (fun kv => find kv.1 <> None) l ->
    forM l (fun kv : string * DatapointValue => match find kv.1 with Some d => print_value d kv.2 | None => throw (Exn_ub "null descriptor") end) t =
      (Ret tt, t, map Cl_out (omap (fun kv => match find kv.1 with Some d => Some (value_line d kv.2) | None => None end) l))) as H.
  { induction 1 as [|[n v] l Hn _ IH]; [done|]. cbn [forM omap list_omap fst snd] in Hn |- *.
    destruct (find n) as [d|]; [|done]. exact (run_bind _ _ _ tt t [Cl_out (value_line d v)] _ _ _ eq_refl IH). }
  apply H. destruct Hok as [Hs Hv]. apply Forall_elem. intros [n v] Hin.
  apply mget_elem_iff in Hin; [|by apply msorted_NoDup]. apply Hv in Hin as (d&Hf&_). change (find n <> None). by rewrite Hf.
Qed.

(** What the device says of a write. *)
Definition reported_applied (msg : json) : bool :=
  match value_string "status" msg with Ret s => String.eqb s "applied" | Throw _ => false end.

(** A step that prints, and no more. *)
Definition prints (t t' : Client * nat) (ev : list cli_event) : Prop :=
  t' = t /\ Forall (fun e => match e with Cl_out _ | Cl_err _ => True | _ => False end) ev.
#[export] Instance prints_composable : Composable prints.
Proof. split; [done|]. intros t1 t2 t3 w1 w2 [-> F1] [-> F2]. split; [done|by apply Forall_app]. Qed.
Lemma prints_out text : respects prints (out text).
Proof. apply respects_emit. intros t. split; [done|by constructor]. Qed.
Lemma prints_err text : respects prints (err text).
Proof. apply respects_emit. intros t. split; [done|by constructor]. Qed.
#[export] Hint Resolve prints_out prints_err : fnt.
Lemma prints_snapshot s : respects prints (print_snapshot s).
Proof. unfold print_snapshot, print_value. respects_tac. Qed.
#[export] Hint Resolve prints_snapshot : fnt.
Lemma prints_quiet t t' ev : prints t t' ev -> requests ev = [].
Proof. intros [_ F]. induction F as [|e ev He _ IH]; [done|]. by destruct e. Qed.

Section Verbs.
Context (w : tool_world) (fuel : nat) (config : Config) (info : ConnectionInfo).

(** C23: [write] parses every assignment before anything is sent.  If one is refused it
    returns 1 and nothing happened; otherwise the last value typed for each name is
    taken, and either the values are refused without a request (exit code 1), or
    exactly one request leaves, with the wire form of exactly those values, and the
    exit code tells what the device answered: 0 applied, 3 rejected, 1 no answer. *)
Theorem write_verb v args t r t' ev : wd_exchange w 0 = surroundings (wd_dump w) v -> args <> [] ->
  run_verb w fuel config info "write" args t = (Ret r, t', ev) ->
  (exists e, r = Returned 1 /\ t' = t /\ ev = [Cl_err (print_error_line e)]) \/
  exists pairs, Forall2 reads_as args pairs /\ ws_ok (assigned pairs) /\
    ((exists e, r = Exit 1 /\ ev = [Cl_err (print_error_line e)]) \/
     exists dp, encodes (assigned pairs) dp /\ requests ev = [write_request dp] /\
       r = Exit (match w_reply v (write_request dp) with
                 | Err _ => 1
                 | Ok msg => if reported_applied msg then 0 else 3
                 end)).
Proof.
  intros Hx Ha H. unfold run_verb in H. rewrite (bool_decide_true (args <> [])) in H by done. cbn [String.eqb andb] in H.
  change (run_write w args t = (Ret r, t', ev)) in H. unfold run_write in H.
  destruct (parse_assignments args []) as [st values] eqn:Ep.
  apply parse_assignments_ok in Ep as [[e ->]|(pairs&->&Hf&->&Hok)]; [injection H as <- <- <-; left; by eexists|].
  right. exists pairs. split; [done|]. specialize (Hok ws_ok_nil). split; [exact Hok|]. fold (assigned pairs) in *.
  cbn [ok] in H. apply bind_ret_inv in H as (result&t1&w1&w2&H1&H&->). rewrite Hx in H1. unfold service in H1.
  destruct (Manager.write _ _ _ _) as [[r1 m1] w3] eqn:Ew. injection H1 as -> <- <-.
  apply write_answer in Ew as [(e&->&->&->)|(dp&Henc&Hsub&Hr)]; [..|done].
  - left. exists e. injection H as <- _ <-. done.
  - right. exists dp. split; [done|]. rewrite requests_app, requests_service, Hsub.
    destruct (w_reply v (write_request dp)) as [msg|e].
    + destruct Hr as (res&->&Hst). unfold applied in H. unfold reported_applied. rewrite Hst.
      destruct (String.eqb (wr_status res) "applied"); cbn [negb] in H.
      * apply bind_ret_inv in H as ([]&t2&w4&w5&H2&H&->). apply bind_ret_inv in H as ([]&t3&w6&w7&H3&[= <- _ <-]&->).
        apply prints_out, prints_quiet in H2. apply prints_snapshot, prints_quiet in H3. by rewrite !requests_app, H2, H3.
      * apply bind_ret_inv in H as ([]&t2&w4&w5&H2&H&->). apply bind_ret_inv in H as ([]&t3&w6&w7&H3&[= <- _ <-]&->).
        apply prints_err, prints_quiet in H2. apply (respects_forM prints _ _) in H3; [|intros ?; apply prints_err].
        apply prints_quiet in H3. by rewrite !requests_app, H2, H3.
    + subst result. injection H as <- _ <-. by rewrite app_nil_r.
Qed.
End Verbs.

(** ** Exit codes *)

Lemma results_bind {S E A B} (Q : B -> Prop) (m : M S E A) k : (forall a, results Q (k a)) -> results Q (bind m k).
Proof. intros H s b s' ev E0. apply bind_ret_inv in E0 as (a&s1&?&?&_&E1&_). by eapply H. Qed.
Lemma results_ret {S E A} (Q : A -> Prop) (a : A) : Q a -> results Q (ret a : M S E A).
Proof. by intros H s b s' ev [= <- _ _]. Qed.
Lemma results_throw {S E A} (Q : A -> Prop) e : results Q (throw e : M S E A).
Proof. by intros s b s' ev [=]. Qed.
Lemma results_weaken {S E A} (P Q : A -> Prop) (m : M S E A) : results P m -> (forall a, P a -> Q a) -> results Q m.
Proof. intros H HPQ s a s' ev E0. by eapply HPQ, H. Qed.
Lemma code_error e : results (fun c => c = 1) (print_error e).
Proof. apply results_bind. intros _. by apply results_ret. Qed.
Lemma ends_error {A} (Q : A -> Prop) e k : Q (k 1) -> results Q (let* code := print_error e in ret (k code)).
Proof. intros H t a t' ev E. apply bind_ret_inv in E as (c&t1&?&?&H1&[= <- _ _]&_). by apply code_error in H1 as ->. Qed.
Ltac results_tac := repeat first
  [ solve [auto] | match goal with |- results ?Q (bind (print_error ?e) (fun code => ret (@?k code))) =>
      apply (ends_error Q e k); cbv beta end | apply results_throw | apply results_ret; solve [set_solver]
  | apply results_bind; intros ?
  | match goal with
    | |- results _ (match ?x with _ => _ end) => destruct x
    | |- results _ (let _ := _ in _) => cbv zeta
    end ].

Section Exits.
Context (w : tool_world) (fuel : nat).

(** How a verb ends when it did its work. *)
Definition worked (r : verb_end) : Prop := r ∈ [Exit 0; Exit 1; Exit 3; Returned 1; Running].
Definition code_of (c : option Z) : Prop := c ∈ [None; Some 0; Some 1; Some 3].
Lemma worked_exit c : code_of c -> worked (exit_of c).
Proof. unfold code_of, worked. set_solver. Qed.
Lemma worked_code {m : M (Client * nat) cli_event (option Z)} : results code_of m ->
  results worked (let* code := m in ret (exit_of code)).
Proof. intros H t a t' ev E. apply bind_ret_inv in E as (c&t1&?&?&H1&[= <- _ _]&_). by eapply worked_exit, H. Qed.

Lemma worked_read names : results worked (run_read w names).
Proof. unfold run_read. results_tac; unfold worked; set_solver. Qed.
Lemma worked_read_all : results worked (run_read_all w).
Proof. unfold run_read_all. results_tac; unfold worked; set_solver. Qed.
Lemma worked_write args : results worked (run_write w args).
Proof.
  unfold run_write. results_tac; unfold worked; set_solver.
Qed.
Lemma codes_wait : results code_of (watch_until w fuel).
Proof. unfold watch_until. results_tac; unfold code_of; set_solver. Qed.
Lemma codes_watch names interval : results code_of (run_watch w fuel names interval).
Proof.
  unfold run_watch. apply results_bind. intros token. pose proof codes_wait as Hw.
  set (m := match names with [] => _ | _ => _ end). assert (results code_of m) as Hm.
  { unfold m. results_tac; unfold code_of; set_solver. }
  intros t a t' ev E. apply bind_ret_inv in E as (c&t1&?&?&H1&H2&_). apply Hm in H1. destruct c as [c|].
  - apply bind_ret_inv in H2 as (?&?&?&?&_&[= <- _ _]&_). exact H1.
  - by injection H2 as <- _ _.
Qed.
Lemma worked_watch args : results worked (watch_verb w fuel args).
Proof.
  unfold watch_verb. destruct args as [|first rest]; [apply worked_code, codes_watch|].
  destruct (all_digits first); [|apply worked_code, codes_watch]. apply results_bind. intros interval. apply worked_code, codes_watch.
Qed.
Lemma codes_records r : results (fun c => c = 0 \/ c = 1) (log_records r).
Proof.
  destruct r; cbn [log_records]; [|eapply results_weaken; [apply code_error|auto]].
  do 2 (apply results_bind; intros _). apply results_ret. auto.
Qed.
Lemma codes_logs mode : results code_of (run_logs w fuel mode).
Proof.
  assert (forall r, results code_of (let* code := log_records r in ret (Some code))) as Hr.
  { intros r t a t' ev E. apply bind_ret_inv in E as (c&t1&?&?&H1&[= <- _ _]&_).
    apply codes_records in H1 as [->| ->]; unfold code_of; set_solver. }
  unfold run_logs. results_tac; unfold code_of; set_solver.
Qed.

(** A usage error is found before anything is done but print. *)
Lemma command_ends args t c t' ev : run_command w args t = (Ret c, t', ev) -> c = 2 /\ prints t t' ev \/ c = 0 \/ c = 1 \/ c = 3.
Proof.
  assert (forall r, results (fun c => c = 0 \/ c = 1 \/ c = 3) (command_done r)) as Hd.
  { intros [r|e]; cbn [command_done].
    - apply results_bind. intros _. apply results_ret. destruct (command_applied r); auto.
    - eapply results_weaken; [apply code_error|auto]. }
  assert (forall text t c t' ev, (err text ;;; ret 2) t = (Ret c, t', ev) -> c = 2 /\ prints t t' ev) as Hu.
  { intros text t0 c0 t1 ev0 E. split; [apply bind_ret_inv in E as (?&?&?&?&_&[= <- _ _]&_); done|].
    assert (respects prints (err text ;;; ret 2)) as Hp by respects_tac. by apply Hp in E. }
  assert (forall (m : M Manager sevent (Result CommandResult)), results (fun c => c = 0 \/ c = 1 \/ c = 3) (let* r := service m in command_done r)) as Hs
    by (intros m; apply results_bind; intros r; apply Hd).
  unfold run_command. destruct args as [|verb rest]; [by intros ?%Hu; left|]. cbv zeta.
  destruct (_ && _); [destruct (state_named _); [by intros ?%Hs; right|by intros ?%Hu; left]|].
  destruct (_ && _).
  { intros E. apply bind_ret_inv in E as (d&t1&?&?&_&E&_). apply Hs in E. by right. }
  destruct (String.eqb verb "restart"); [by intros ?%Hs; right|].
  destruct (String.eqb verb "reboot"); [by intros ?%Hs; right|by intros ?%Hu; left].
Qed.
Lemma raw_ends type rest t r t' ev : run_raw w type rest t = (Ret r, t', ev) -> r = Returned 2 /\ prints t t' ev \/ worked r.
Proof.
  assert (forall text t c t' ev, (err text ;;; ret (Returned 2)) t = (Ret c, t', ev) -> c = Returned 2 /\ prints t t' ev) as Hu.
  { intros text t0 c0 t1 ev0 E. split; [apply bind_ret_inv in E as (?&?&?&?&_&[= <- _ _]&_); done|].
    assert (respects prints (err text ;;; ret (Returned 2))) as Hp by respects_tac. by apply Hp in E. }
  unfold run_raw. cbv zeta. destruct (_ && _); [by intros ?%Hu; left|]. destruct (find_meta type) as [meta|]; [|by intros ?%Hu; left].
  match goal with |- ?m t = _ -> _ => enough (results worked m) as Hr by (intros ?%Hr; by right) end.
  results_tac; unfold worked; set_solver.
Qed.
Lemma script_codes config n : Forall (fun s => find_meta (fs_type s) <> None) (fc_sequence (cf_fountain config)) ->
  results (fun c => c = None \/ c = Some 0) (run_script (wd_stop w) (wd_raw w) (wd_dump w) n config).
Proof.
  intros Hk. assert (results (fun c => c = None \/ c = Some 0) (run_sequence (wd_stop w) (wd_raw w) (wd_dump w)
    (fc_sequence (cf_fountain config)))) as Hs.
  { induction Hk as [|s l Hs _ IH]; cbn [run_sequence]; [apply results_ret; auto|]. intros k c k' ev E.
    apply bind_ret_inv in E as (c1&k1&?&?&H1&H2&_). destruct c1 as [c1|]; [|by eapply IH]. injection H2 as <- _ _.
    revert H1. generalize (Some c1). match goal with |- forall a, ?m k = _ -> _ => enough (results (fun c => c = None \/ c = Some 0) m) as Hr by (intros a E; by eapply Hr) end.
    unfold run_step. destruct (find_meta (fs_type s)); [|done]. results_tac; apply results_ret; auto. }
  induction n as [|n IH]; cbn [run_script]; [apply results_ret; auto|]. intros k c k' ev E.
  apply bind_ret_inv in E as (c1&k1&?&?&H1&H2&_). apply Hs in H1 as [->| ->]; [|injection H2 as <- _ _; auto].
  destruct (negb _); [injection H2 as <- _ _; auto|]. apply bind_ret_inv in H2 as (stop&k2&?&?&_&H2&_).
  destruct stop; [injection H2 as <- _ _; auto|by eapply IH].
Qed.

Lemma verb_ends config info verb args t r t' ev : Forall (fun s => find_meta (fs_type s) <> None) (fc_sequence (cf_fountain config)) ->
  run_verb w fuel config info verb args t = (Ret r, t', ev) ->
  (r = Exit 2 \/ r = Returned 2) /\ prints t t' ev \/ worked r.
Proof.
  intros Hk. unfold run_verb. cbv zeta.
  destruct (String.eqb verb "info"); [intros [= <- _ _]; right; unfold worked; set_solver|].
  destruct (_ && _); [by intros ?%worked_read; right|].
  destruct (String.eqb verb "read-all"); [by intros ?%worked_read_all; right|].
  destruct (_ && _); [by intros ?%worked_write; right|].
  destruct (String.eqb verb "watch"); [by intros ?%worked_watch; right|].
  destruct (String.eqb verb "logs"); [intros E; right; revert E; apply worked_code, codes_logs|].
  destruct (String.eqb verb "command").
  { intros E. apply bind_ret_inv in E as (c&t1&w1&w2&H&[= <- <- <-]&->). rewrite app_nil_r.
    apply command_ends in H as [[-> Hp]|H]; [left; auto|right]. destruct H as [->|[->| ->]]; unfold worked; set_solver. }
  destruct (_ && _); [intros [[-> H]|H]%raw_ends; [left; auto|by right]|].
  destruct (String.eqb verb "script").
  { intros E. apply bind_ret_inv in E as ([]&t1&w1&w2&_&E&_). apply bind_ret_inv in E as (c&t2&w3&w4&H&[= <- _ _]&_).
    right. apply worked_exit. unfold looking, on_snd in H. destruct (run_script _ _ _ _ _ _) as [[r1 s1] w5] eqn:Es.
    injection H as -> _ _. apply script_codes in Es as [->| ->]; [unfold code_of; set_solver..|done]. }
  intros E. left. assert (respects prints (err ("unknown or incomplete command '" +:+ verb +:+ "'" +:+ nl) ;;; ret (Exit 2))) as Hp by respects_tac.
  split; [|by apply Hp in E]. apply bind_ret_inv in E as (?&?&?&?&_&[= <- _ _]&_). by left.
Qed.

Lemma loaded_steps path config :
  load_config (wd_exists w) (wd_read_file w) (wd_parse_config w) (wd_json_what w) path = Ret config ->
  valid_config (wd_exists w) config /\ Forall (fun s => find_meta (fs_type s) <> None) (fc_sequence (cf_fountain config)).
Proof.
  unfold load_config. destruct (wd_read_file w path) as [text|]; [|done].
  destruct (wd_parse_config w text) as [j|]; [|done].
  intros E. apply outcome_bind_ret_inv in E as (c&Hc&E). apply outcome_bind_ret_inv in E as ([]&Hv&[= ->]).
  apply validate_ret in Hv. split; [done|]. destruct (fc_enabled (cf_fountain config)) eqn:Ef.
  { by destruct (vc_fountain _ _ Hv Ef) as (_&_&_&_&?). }
  enough (fc_sequence (cf_fountain config) = []) as -> by constructor.
  assert (read_config j default_config = Ret config) as Hr by (revert Hc; by destruct (read_config j default_config) as [|[]]).
  pose proof (gives_config j) as Hg. rewrite Hr in Hg. by rewrite (ty_absent _ Hg Ef).
Qed.

(** What precedes the verb: the level, the configuration, the connection. *)
Definition harmless (e : cli_event) : Prop :=
  match e with Cl_out _ | Cl_err _ | Cl_level _ | Cl_disconnect => True | _ => False end.
Definition went_online (config : Config) : Prop := exists c c' info,
  configure (wd_readable w) (wd_read_file w) new_client config = (ok, c) /\ wd_connect w c = (Ok info, c').
Lemma session_ends config verb args t r t' ev : Forall (fun s => find_meta (fs_type s) <> None) (fc_sequence (cf_fountain config)) ->
  session_of w fuel config verb args t = (Ret r, t', ev) ->
  (r = Returned 1 \/ went_online config) /\ ((r = Exit 2 \/ r = Returned 2) /\ Forall harmless ev \/ worked r).
Proof.
  intros Hk H. unfold session_of in H. apply bind_ret_inv in H as ([]&t2&?&w3&[= <- <-]&H&->).
  rewrite run_modify, run_get in H. cbn [fst] in H.
  destruct (configure _ _ _ config) as [status c] eqn:Ec. rewrite run_modify in H.
  assert (forall e (t0 : Client * nat) t1 w0, (let* code := print_error e in ret (Returned code)) t0 = (Ret r, t1, w0) -> r = Returned 1) as Hr
    by (intros e t0 t1 w0; by apply (ends_error (fun r => r = Returned 1) e Returned)).
  assert (r = Returned 1 -> worked r) as Hone by (intros ->; unfold worked; set_solver).
  destruct status as [[]|e]; [|apply Hr in H; auto].
  destruct (wd_connect w c) as [connection c'] eqn:Ew. rewrite run_modify in H.
  destruct connection as [info|e]; [|apply Hr in H; auto].
  apply bind_ret_inv in H as ([]&t3&?&w4&[= <- <-]&H&->). apply verb_ends in H; [|done].
  split; [right; by exists c, c', info|]. destruct H as [[H [_ Hp]]|H]; [left; split; [done|]|by right].
  cbn. do 2 (constructor; [done|]). revert Hp. apply Forall_impl. by intros [].
Qed.

(** Whatever the arguments and the device do, [main] ends with 0, 1, 2 or 3.  0 and 3
    take a loaded configuration that passes every check, a configured client and a
    connection, and are returned after [disconnect]; 2, a usage error, is found
    before a request, a message or a subscription is made. *)
Theorem main_exit argv t code t' ev : main w fuel argv t = (Ret (Some code), t', ev) ->
  (code = 0 \/ code = 1 \/ code = 2 \/ code = 3) /\
  (code = 0 \/ code = 3 -> exists prog path verb args config, argv = prog :: path :: verb :: args /\
     load_config (wd_exists w) (wd_read_file w) (wd_parse_config w) (wd_json_what w) path = Ret config /\
     valid_config (wd_exists w) config /\ went_online config /\ exists ev0, ev = ev0 ++ [Cl_disconnect]) /\
  (code = 2 -> Forall harmless ev).
Proof.
  unfold main. destruct argv as [|prog [|path [|verb args]]].
  1-3: intros [= <- _ <-]; split; [auto|]; split; [intros [?|?]; discriminate|by repeat constructor].
  destruct (load_config _ _ _ _ path) as [config|e] eqn:El.
  2:{ destruct (what w e); [|done]. intros [= <- _ <-]. split; [auto|]. split; [intros [?|?]; discriminate|discriminate]. }
  destruct (loaded_steps _ _ El) as [Hv Hk]. intros H. apply bind_ret_inv in H as (r&t1&w1&w2&H&Hend&->).
  apply session_ends in H as [Ho Hr]; [|done]. destruct Hr as [[Hr Hp]|Hr].
  - destruct Hr as [->| ->]; injection Hend; intros <- _ <-; (split; [auto|]; split; [intros [?|?]; discriminate|intros _]);
      rewrite ?app_nil_r; [|exact Hp]. apply Forall_app. split; [exact Hp|by repeat constructor].
  - assert (r = Exit 0 \/ r = Exit 1 \/ r = Exit 3 \/ r = Returned 1 \/ r = Running) as Hcases by (unfold worked in Hr; set_solver).
    assert (r <> Returned 1 -> went_online config) as Hon by (by destruct Ho).
    destruct Hcases as [->|[->|[->|[->| ->]]]]; try discriminate Hend; injection Hend; intros <- _ <-; (split; [auto|]; split; [|discriminate]);
      try (intros [?|?]; discriminate); intros _; exists prog, path, verb, args, config;
      (split; [done|]; split; [done|]; split; [done|]; split; [by apply Hon|by eexists]).
Qed.
End Exits.

(** ** A run of the tool *)

Definition sample_info : ConnectionInfo :=
  mkInfo "dev-1" "SN-1" "1.2.3" "A" "power_on" 2 "hmac" "session" "1" 0.
Definition sample_world : Manager.world := mkWorld true ok (fun _ => []) 5
  (fun _ => Ok (J_obj [("readback", J_obj [("Fon_Max_On_Time", J_uint 120)]); ("status", J_str "applied")])).
Definition sample_dump (_ : json) : outcome string := Ret "{}".
Definition sample_tool : tool_world := {|
  wd_exists := fun _ => true;
  wd_read_file := fun f => if String.eqb f "client.json" then Some "sample" else sample_key f;
  wd_parse_config := sample_parse; wd_json_what := "what"; wd_readable := fun _ => true;
  wd_connect := fun c => (Ok sample_info, c);
  wd_exchange := fun _ => surroundings sample_dump sample_world;
  wd_raw := fun _ => Ok J_null; wd_parse_body := fun _ => J_discarded;
  wd_dump := sample_dump; wd_dump_indented := sample_dump; wd_stop := fun _ => true; wd_stats := stats_zero |}.
Definition sample_write : list string := ["Fon_Max_On_Time=300"; "Fon_Max_On_Time=120 s"; "Fon_Pressure_Manual=on"].

Example sample_lines : (main sample_tool 9 (["cli"; "client.json"; "write"] ++ sample_write) (new_client, 0%nat)).1.1 = Ret (Some 0) /\
  omap (fun e => match e with Cl_out s => Some s | _ => None end)
    (main sample_tool 9 (["cli"; "client.json"; "write"] ++ sample_write) (new_client, 0%nat)).2 =
  ["applied" +:+ nl +:+ "readback:" +:+ nl; "Fon_Max_On_Time = 120 s" +:+ nl].
Proof. vm_compute. split; reflexivity. Qed.

Lemma assignment_roundtrip_witness : exists d, find "Fon_Max_On_Time" = Some d /\
  to_display_string d (V_u16 120) = "120 s" /\
  parse_assignment [] (d_name d +:+ "=" +:+ to_display_string d (V_u16 120)) = (ok, mset (d_name d) (V_u16 120) []).
Proof.
  destruct (find "Fon_Max_On_Time") as [d|] eqn:E; [|vm_compute in E; discriminate].
  exists d. split; [reflexivity|]. split; [vm_compute in E; injection E as <-; reflexivity|].
  apply (assignment_roundtrip d (V_u16 120) []).
  - by apply find_In in E as [? _].
  - vm_compute in E. injection E as <-. reflexivity.
  - vm_compute in E. injection E as <-. reflexivity.
  - split; vm_compute; [discriminate|reflexivity].
  - vm_compute in E. injection E as <-. discriminate.
Defined.

Lemma write_verb_witness : exists r t' ev dp,
  run_verb sample_tool 9 sample_config sample_info "write" sample_write (new_client, 0%nat) = (Ret r, t', ev) /\
  requests ev = [write_request dp] /\ r = Exit 0.
Proof.
  destruct (run_verb sample_tool 9 sample_config sample_info "write" sample_write (new_client, 0%nat)) as [[r0 t'] ev] eqn:E.
  assert (r0 = Ret (Exit 0)) as ->.
  { transitivity (run_verb sample_tool 9 sample_config sample_info "write" sample_write (new_client, 0%nat)).1.1;
      [rewrite E; reflexivity|vm_compute; reflexivity]. }
  destruct (write_verb sample_tool 9 sample_config sample_info sample_world sample_write _ _ _ _ eq_refl ltac:(discriminate) E)
    as [(e&H&_)|(pairs&_&_&[(e&H&_)|(dp&_&H&_)])]; [discriminate H|discriminate H|].
  exists (Exit 0), t', ev, dp. split; [reflexivity|]. split; [exact H|reflexivity].
Defined.

Lemma main_exit_witness : exists t' ev,
  main sample_tool 9 (["cli"; "client.json"; "write"] ++ sample_write) (new_client, 0%nat) = (Ret (Some 0), t', ev) /\
  went_online sample_tool sample_config.
Proof.
  destruct (main sample_tool 9 (["cli"; "client.json"; "write"] ++ sample_write) (new_client, 0%nat)) as [[r0 t'] ev] eqn:E.
  assert (r0 = Ret (Some 0)) as ->.
  { transitivity (main sample_tool 9 (["cli"; "client.json"; "write"] ++ sample_write) (new_client, 0%nat)).1.1;
      [rewrite E; reflexivity|vm_compute; reflexivity]. }
  destruct (main_exit sample_tool 9 _ _ _ _ _ E) as (_&H&_). exists t', ev. split; [reflexivity|].
  destruct (H (or_introl eq_refl)) as (prog&path&verb&args&config&Ha&Hl&_&Hon&_).
  cbn in Ha. injection Ha as _ <- _ _.
  assert (config = sample_config) as ->; [|exact Hon].
  assert (Ret config = Ret sample_config) as Hc by (rewrite <- Hl; vm_compute; reflexivity). by injection Hc.
Defined.

(** ** Departures of the code from its intent *)

(** Text behind a number is dropped without an error. *)
Example trailing_text_ignored : parse_assignment [] "Fon_Max_On_Time=12abc" = (ok, [("Fon_Max_On_Time", V_u16 12)]).
Proof. vm_compute. reflexivity. Qed.
(** Any other text than three spellings of true is false. *)
Example misspelt_flag_is_false : parse_assignment [] "Fon_Pressure_Manual=ture" = (ok, [("Fon_Pressure_Manual", V_bool false)]).
Proof. vm_compute. reflexivity. Qed.
(** A NaN passes the check of a bounded number and is submitted; signing the request
    then throws, on the I/O thread. *)
Example nan_is_submitted : exists spec what,
  parse_assignment [] "Fon_Sensor_Range_Bar=nan" = (ok, [("Fon_Sensor_Range_Bar", V_float F_nan)]) /\
  async_write [("Fon_Sensor_Range_Bar", V_float F_nan)] = Ret (Submitted spec) /\
  canonical_serialize (rs_body spec) = Throw (Exn_runtime what).
Proof.
  evaluate (async_write [("Fon_Sensor_Range_Bar", V_float F_nan)]) H.
  do 2 eexists. split; [vm_compute; reflexivity|]. split; [exact H|]. vm_compute. reflexivity.
Qed.
(** A duration that is not a number leaves [main] as an exception. *)
Example turn_on_text_throws : (main sample_tool 9 ["cli"; "client.json"; "command"; "turn_on"; "soon"] (new_client, 0%nat)).1.1 =
  Throw (Exn_invalid_argument "stol").
Proof. vm_compute. reflexivity. Qed.
Example watch_empty_throws : (main sample_tool 9 ["cli"; "client.json"; "watch"; EmptyString] (new_client, 0%nat)).1.1 =
  Throw (Exn_invalid_argument "stol").
Proof. vm_compute. reflexivity. Qed.
(** [watch 0 name] sets the interval that the next tick of the poller divides by. *)
Example watch_zero_traps :
  let p := cl_poller (main sample_tool 9 ["cli"; "client.json"; "watch"; "0"; "System_Uptime"] (new_client, 0%nat)).1.2.1 in
  (Poller.tick (sec 1) 0 p).1.1 = Throw (Exn_ub "division by zero").
Proof. vm_compute. reflexivity. Qed.
