(* ===== verification/Examples.v ===== *)
(** * The example programs ([src/Example.cpp], [examples/*.cpp])

    The annotated tour of the interface ([DeviceExample] and its [main]) and the three
    small clients, call by call and line by line.  The state is the client, what the
    tour keeps beside it, and how many blocking calls and pauses there were; a blocking
    call is the service's own definition in the surroundings the call meets, and in a
    pause the I/O thread works: it ticks the poller, takes the answers of its reads and
    the reports of the device, and calls the subscribers. *)
From S2P Require Import Prelude StdMap Errors Float Json Canonical Messages Auth Events Dispatcher.
From S2P Require Import Session.
From S2P Require Import Datapoint Generated Catalog Codec WriteSet Snapshot Service Manager Poller.
From S2P Require Import Commands Logs Security RestoreGuard Transport EventBus Client Logger Config.
Local Open Scope Z_scope.

(** ** What the programs do *)

Inductive xevent :=
| Xe_out (text : string)                  (* std::cout, std::printf *)
| Xe_err (text : string)                  (* std::cerr *)
| Xe_service (e : sevent)                 (* within a call of a service *)
| Xe_raw (spec : RequestSpec)             (* a request of the raw service *)
| Xe_poll (spec : RequestSpec)            (* a read the poller started *)
| Xe_call (h : nat) (e : bus_event)       (* a handler of the event bus runs *)
| Xe_sleep (milliseconds : Z)
| Xe_level (level : Level)
| Xe_signal (name : string)
| Xe_disconnect.

Record xstate := mkX {
  xs_endpoint : Endpoint;
  xs_client : Client;
  xs_info : ConnectionInfo;
  xs_handlers : list (channel * nat);     (* on the event bus, in order *)
  xs_calls : nat;                         (* blocking calls so far *)
  xs_pauses : nat                         (* sleeps so far *)
}.
Definition set_xs_client (v : Client) (s : xstate) : xstate :=
  mkX (xs_endpoint s) v (xs_info s) (xs_handlers s) (xs_calls s) (xs_pauses s).
Definition set_xs_info (v : ConnectionInfo) (s : xstate) : xstate :=
  mkX (xs_endpoint s) (xs_client s) v (xs_handlers s) (xs_calls s) (xs_pauses s).
Definition set_xs_handlers (v : list (channel * nat)) (s : xstate) : xstate :=
  mkX (xs_endpoint s) (xs_client s) (xs_info s) v (xs_calls s) (xs_pauses s).
Definition count_call (s : xstate) : xstate :=
  mkX (xs_endpoint s) (xs_client s) (xs_info s) (xs_handlers s) (S (xs_calls s)) (xs_pauses s).
Definition count_pause (s : xstate) : xstate :=
  mkX (xs_endpoint s) (xs_client s) (xs_info s) (xs_handlers s) (xs_calls s) (S (xs_pauses s)).
(** A client that was just made. *)
Definition started_with (endpoint : Endpoint) (c : Client) : xstate :=
  mkX endpoint c info_default [] 0 0.

(** What the I/O thread does while the program sleeps. *)
Inductive background :=
| Bg_manager (op : mop)                                          (* a report, a loss *)
| Bg_tick (now last_tx : TimePoint)                              (* of the poller *)
| Bg_answer (h : poll_handler) (now : TimePoint) (r : Result json)
| Bg_bus (e : bus_event).

(** What the programs meet. *)
Record example_world := mkExampleWorld {
  xw_exists : string -> bool;
  xw_read_file : string -> option string;
  xw_parse_config : string -> option json;
  xw_json_what : string;
  xw_readable : string -> bool;
  xw_connect : Endpoint -> Client -> Result ConnectionInfo * Client * list bus_event;
  xw_call : nat -> Manager.world;                (* of the n-th blocking call *)
  xw_pages : nat -> Manager.world;               (* of the pages of the full log *)
  xw_raw : RequestSpec -> Result json;
  xw_pause : nat -> list background;             (* in the n-th sleep *)
  xw_stop : nat -> bool;                         (* the signal flag after n sleeps *)
  xw_dump : json -> outcome string;
  xw_disconnect : Client -> Client * list bus_event
}.

Abbreviation XM := (M xstate xevent).

(** ** Text *)

(** [os << x] for a [float] or [double], and ["%g"]. *)
Definition stream_float (x : float) : string :=
  match x with
  | F_nan => "nan"
  | F_inf neg => if neg then "-inf" else "inf"
  | F_zero neg => if neg then "-0" else "0"
  | F_fin _ _ => general_text 6 x
  end.
(** [os << value] of a typed value; 8-bit numbers are cast to [int] first. *)
Definition value_text (v : DatapointValue) : string :=
  match v with
  | V_bool b => if b then "1" else "0"
  | V_u8 z | V_u16 z | V_u32 z | V_u64 z | V_i8 z | V_i16 z | V_i32 z => dec_Z z
  | V_float f => stream_float f
  | V_string s => s
  end.

(** The subscribers of the tour (0 and 1) and of the polling client (2). *)
Definition change_text (callback : nat) (change : AnyDatapointChange) : string :=
  match callback with
  | 0%nat =>
      match subscribe_filter dp.Fon_Current_Pressure change with
      | Some (v, old) =>
          "  [change] Pressure: " +:+ match old with Some o => value_text o +:+ " -> " | None => EmptyString end +:+
          value_text v +:+ " bar" +:+ newline
      | None => EmptyString
      end
  | 1%nat =>
      match subscribe_filter dp.System_Uptime change with
      | Some (v, _) =>
          "  [change] Uptime: " +:+ value_text v +:+ " s (" +:+ source_to_string (ch_source change) +:+ ")" +:+ newline
      | None => EmptyString
      end
  | _ =>
      match subscribe_filter dp.Fon_Current_Pressure change with
      | Some (v, _) => "pressure=" +:+ value_text v +:+ newline
      | None => EmptyString
      end
  end.

(** The handlers on the bus: of the tour (0 to 3), on standard output, and of the
    polling client (4), on the error output. *)
Definition handler_text (h : nat) (e : bus_event) : string :=
  match h, e with
  | 0%nat, B_state change =>
      "[event] State: " +:+ client_state_to_string (sc_previous change) +:+ " -> " +:+
      client_state_to_string (sc_current change) +:+
      match sc_cause change with Some cause => " (" +:+ error_to_string cause +:+ ")" | None => EmptyString end +:+ newline
  | 1%nat, B_device_alert alert => "[event] ALARM " +:+ da_code alert +:+ ": " +:+ da_detail alert +:+ newline
  | 2%nat, B_heartbeat hb => "[event] Heartbeat, uptime=" +:+ dec_Z (hb_uptime_s hb) +:+ " s" +:+ newline
  | 3%nat, B_warning warning => "[event] Protocol notice: " +:+ pw_reason warning +:+ newline
  | 4%nat, B_device_alert alert => "ALERT " +:+ da_code alert +:+ " " +:+ da_detail alert +:+ newline
  | _, _ => EmptyString
  end.

(** What stands on the two outputs in the end. *)
Definition stdout_of (e : xevent) : string :=
  match e with
  | Xe_out text => text
  | Xe_service (Sv_notify callback change) => change_text callback change
  | Xe_call h e => if Nat.eqb h 4 then EmptyString else handler_text h e
  | _ => EmptyString
  end.
Definition stderr_of (e : xevent) : string :=
  match e with
  | Xe_err text => text
  | Xe_call h e => if Nat.eqb h 4 then handler_text h e else EmptyString
  | _ => EmptyString
  end.
Definition output (w : list xevent) : string := foldr (fun e text => stdout_of e +:+ text) EmptyString w.
Definition error_output (w : list xevent) : string := foldr (fun e text => stderr_of e +:+ text) EmptyString w.

(** The requests handed to the session, those of the poller included. *)
Definition requested (w : list xevent) : list RequestSpec :=
  omap (fun e => match e with
                 | Xe_service (Sv_submit spec) | Xe_raw spec | Xe_poll spec => Some spec
                 | _ => None
                 end) w.

(** ** Steps *)

Definition print_out (text : string) : XM unit := emit (Xe_out text).
Definition print_err (text : string) : XM unit := emit (Xe_err text).
Definition on_client {A} (f : Client -> A) : XM A := gets (fun s => f (xs_client s)).
(** A call of the datapoint manager or the poller by this thread. *)
Definition with_points {A} (m : M Manager sevent A) : XM A := fun s =>
  let '(r, mg, w) := m (cl_datapoints (xs_client s)) in
  (r, set_xs_client (set_cl_datapoints mg (xs_client s)) s, map Xe_service w).
Definition with_poller {A} (m : M Poller pevent A) : XM A := fun s =>
  let '(r, p, w) := m (cl_poller (xs_client s)) in
  (r, set_xs_client (set_cl_poller p (xs_client s)) s,
   map (fun e => match e with Pe_read spec _ => Xe_poll spec end) w).
(** [events().on_...] with a handler. *)
Definition on_channel (ch : channel) (h : nat) : XM unit :=
  modify (fun s => set_xs_handlers (xs_handlers s ++ [(ch, h)]) s).
Definition bus_delivers (e : bus_event) : XM unit :=
  let* s := get in
  forM (List.filter (fun ch => bool_decide (ch.1 = channel_of e)) (xs_handlers s)) (fun ch => emit (Xe_call ch.2 e)).

Definition run_background (dump : json -> outcome string) (op : background) : XM unit :=
  match op with
  | Bg_manager op => with_points (run_mop dump op)
  | Bg_tick now last_tx => with_poller (tick now last_tx)
  | Bg_answer h now r =>
      let* result := with_points (finish_read now PeriodicPoll r) in
      with_poller (poll_completion h result)
  | Bg_bus e => bus_delivers e
  end.

Section Examples.
Context (w : example_world).
Abbreviation dump := (xw_dump w).

(** A blocking call of a service, in the surroundings it meets. *)
Definition call {A} (k : exchange Manager -> M Manager sevent A) : XM A :=
  let* s := get in
  modify count_call ;;;
  with_points (k (surroundings dump (xw_call w (xs_calls s)))).
Definition sleep_for (milliseconds : Z) : XM unit :=
  let* s := get in
  modify count_pause ;;;
  emit (Xe_sleep milliseconds) ;;;
  forM (xw_pause w (xs_pauses s)) (run_background dump).
(** [client.connect()] and [client.disconnect()], with the events published meanwhile. *)
Definition connect_client : XM (Result ConnectionInfo) :=
  let* s := get in
  let '(connection, c, events) := xw_connect w (xs_endpoint s) (xs_client s) in
  forM events bus_delivers ;;;
  modify (set_xs_client c) ;;;
  ret connection.
Definition shutdown : XM unit :=
  let* c := on_client id in
  let '(c, events) := xw_disconnect w c in
  forM events bus_delivers ;;;
  modify (set_xs_client c).
Definition disconnect_client : XM unit := emit Xe_disconnect ;;; shutdown.
(** The scope of a client: where it is left, the subscriptions go first, then the client,
    whose destructor shuts the connection down on every path, an early return too.  An
    exception of this thread ends the program in [std::terminate]. *)
Definition scoped (rest : XM (option Z)) : XM (option Z) :=
  let* code := rest in
  match code with
  | None => ret None
  | Some code => modify (set_xs_handlers []) ;;; shutdown ;;; ret (Some code)
  end.

(** ** [DeviceExample] *)

(** [DeviceExample::create]: the endpoint and the client of the new object. *)
Definition create (config : Config) : Result (Endpoint * Client) :=
  let fountain := cf_fountain config in
  let device := cf_device config in
  let tls := cf_tls config in
  let? hmac := from_file (fc_kid fountain) (fc_hmac_key_file fountain) (xw_read_file w (fc_hmac_key_file fountain)) in
  let endpoint := mkEndpoint (dc_host device) (dc_port device) (dc_path device) (dc_subprotocol device) in
  let? client := builder_build (xw_readable w)
    (with_reconnect {| rp_enabled := true; rp_initial_delay := 1; rp_max_delay := 60;
                       rp_authentication_delay := rp_authentication_delay default_reconnect;
                       rp_jitter := rp_jitter default_reconnect |}
    (with_expected_device (fc_device_id fountain)
    (with_hmac hmac
    (with_tls (mutual_tls (tc_ca_file tls) (tc_client_cert_file tls) (tc_client_key_file tls) VerifyCertificateChainOnly)
    (builder endpoint))))) in
  Ok (endpoint, client).

(** The constructor: the handlers on the event bus. *)
Definition device_example : XM unit :=
  on_channel Ch_connection_state 0 ;;;
  on_channel Ch_device_alert 1 ;;;
  on_channel Ch_heartbeat 2 ;;;
  on_channel Ch_protocol_warning 3.

Definition connect : XM bool :=
  print_out (newline +:+ "=== 1. Connecting ===" +:+ newline) ;;;
  let* info := connect_client in
  match info with
  | Err e => print_err ("Connection failed: " +:+ error_to_string e +:+ newline) ;;; ret false
  | Ok info => modify (set_xs_info info) ;;; ret true
  end.

Definition connection_info_text (c : ConnectionInfo) : string :=
  "  device_id : " +:+ ci_device_id c +:+ newline +:+ "  serial    : " +:+ ci_serial c +:+ newline +:+
  "  firmware  : " +:+ ci_firmware_version c +:+ newline +:+ "  hardware  : " +:+ ci_hardware_revision c +:+ newline +:+
  "  boot      : " +:+ ci_boot_reason c +:+ newline +:+ "  protocol  : v" +:+ dec_Z (ci_protocol_version c) +:+ newline +:+
  "  auth      : " +:+ ci_auth_scheme c +:+ " (kid=" +:+ ci_auth_kid c +:+ ")" +:+ newline.
Definition show_connection_info : XM unit :=
  print_out (newline +:+ "=== 2. Device information (from the handshake) ===" +:+ newline) ;;;
  let* info := gets xs_info in
  print_out (connection_info_text info).

Definition read_single_and_multi : XM unit :=
  print_out (newline +:+ "=== 3. Typed reads ===" +:+ newline) ;;;
  let* pressure := call (fun x => read_dp x dp.Fon_Current_Pressure) in
  match pressure with
  | Ok v => print_out ("  Pressure: " +:+ value_text v +:+ " bar" +:+ newline)
  | Err e => print_out ("  Pressure read failed: " +:+ error_to_string e +:+ newline)
  end ;;;
  let* snapshot := call (fun x =>
    read_dps x [dp.Fon_Current_State; dp.Fon_Relay_Output; dp.System_Uptime; dp.System_RSSI]) in
  match snapshot with
  | Err _ => ret tt
  | Ok s =>
      match sn_get dp.Fon_Current_State s, sn_get dp.Fon_Relay_Output s,
            sn_get dp.System_Uptime s, sn_get dp.System_RSSI s with
      | Ok state, Ok relay, Ok uptime, Ok rssi =>
          print_out ("  State=" +:+ value_text state +:+
               " Relay=" +:+ (if bool_decide (relay = V_bool true) then "ON" else "off") +:+
               " Uptime=" +:+ value_text uptime +:+ " s RSSI=" +:+ value_text rssi +:+ " dBm" +:+ newline)
      | _, _, _, _ => ret tt
      end
  end.

Definition read_dynamic : XM unit :=
  print_out (newline +:+ "=== 3b. Dynamic reads (runtime name) ===" +:+ newline) ;;;
  let* value := call (fun x => read x "Ambient_Temperature") in
  match value with
  | Err _ => ret tt
  | Ok v =>
      match find "Ambient_Temperature" with
      | Some d => print_out ("  Ambient_Temperature = " +:+ to_display_string d v +:+ newline)
      | None => throw (Exn_ub "null descriptor")
      end
  end ;;;
  let* unknown := call (fun x => read x "Does_Not_Exist") in
  print_out ("  Unknown name -> " +:+ match unknown with Ok _ => "?" | Err e => code_to_string (err_code e) end +:+ newline).

(** ** The table of all datapoints *)

Definition range_text (d : DatapointDescriptor) : string :=
  if numeric d && negb (is_nan (d_min d))
  then snprintf32 (stream_float (d_min d) +:+ ".." +:+ stream_float (d_max d)) else "-".
Definition sensitive (d : DatapointDescriptor) : bool :=
  bool_decide (d_poll_class d = PC_Disabled) && bool_decide (d_type d = T_Str).
Definition display_text (d : DatapointDescriptor) (v : option DatapointValue) : string :=
  match v with
  | None => "(missing)"
  | Some v => if sensitive d then "••• (sensitive, not shown)" else to_display_string d v
  end.
(** ["  %-26.*s %-4.*s %-2.*s %-8.*s %-12s %s"] *)
Definition table_row (name type access persistence range value : string) : string :=
  "  " +:+ pad_right 26 name +:+ " " +:+ pad_right 4 type +:+ " " +:+ pad_right 2 access +:+ " " +:+
  pad_right 8 persistence +:+ " " +:+ pad_right 12 range +:+ " " +:+ value +:+ newline.
Definition datapoint_row (s : DatapointSnapshot) (d : DatapointDescriptor) : string :=
  table_row (d_name d) (type_to_string (d_type d)) (access_to_string (d_access d))
    (persistence_to_string (d_persistence d)) (range_text d) (c_str (display_text d (sn_find (d_name d) s))).
Definition list_all_datapoints : XM unit :=
  print_out (newline +:+ "=== 4. ALL datapoints (catalog + live values) ===" +:+ newline) ;;;
  let* all_values := call read_all in
  match all_values with
  | Err e => print_out ("  read_all failed: " +:+ error_to_string e +:+ newline)
  | Ok s =>
      print_out (table_row "Name" "Type" "RW" "Persist" "Range" "Value") ;;;
      forM all (fun d => print_out (datapoint_row s d)) ;;;
      print_out ("  -> " +:+ dec_Z (Z.of_nat (length (sn_values s))) +:+ " of " +:+ dec_Z kDatapointCount +:+
           " datapoints read" +:+ newline)
  end.

(** ** Cache, subscriptions, polling *)

Definition cache_example : XM unit :=
  print_out (newline +:+ "=== 5. Cache (never the network) ===" +:+ newline) ;;;
  let* entry := on_client (fun c => cached dp.Fon_Current_Pressure (cl_datapoints c)) in
  match entry with
  | None => ret tt
  | Some e =>
      print_out ("  Pressure from the cache: " +:+ value_text (cv_value e) +:+ " bar  (source: " +:+
           source_to_string (cv_source e) +:+ ", quality: " +:+ quality_to_string (cv_quality e) +:+ ")" +:+ newline)
  end.

Definition subscription_and_polling_example : XM unit :=
  print_out (newline +:+ "=== 6./7. Subscriptions + Polling (6 s) ===" +:+ newline) ;;;
  let* pressure_subscription := with_points (subscribe_dp dp.Fon_Current_Pressure 0) in
  let* uptime_subscription := with_points (subscribe_dp dp.System_Uptime 1) in
  with_poller (every_dp 500 [dp.Fon_Current_Pressure; dp.Fon_Current_State]) ;;;
  with_poller (every_dp 5000 [dp.System_Uptime; dp.System_RSSI]) ;;;
  with_poller (once_dp [dp.Device_Serial_Number]) ;;;
  with_poller Poller.start ;;;
  sleep_for 6000 ;;;
  with_poller Poller.stop ;;;
  let* stats := on_client (fun c => po_stats (cl_poller c)) in
  print_out ("  Poll statistics: " +:+ dec_Z (ps_requests stats) +:+ " Requests, " +:+
       dec_Z (ps_coalesced_points stats) +:+ " coalesced points, " +:+
       dec_Z (ps_skipped_inflight stats) +:+ " skipped (in-flight)" +:+ newline) ;;;
  with_points (unsubscribe uptime_subscription) ;;;
  with_points (unsubscribe pressure_subscription).

(** ** Writing *)

(** [DatapointWriteSet::set] with typed constants, one after the other. *)
Fixpoint batch_of (values : list (Datapoint * DatapointValue)) (changes : DatapointWriteSet) : XM DatapointWriteSet :=
  match values with
  | [] => ret changes
  | (dp, v) :: rest =>
      match ws_set_typed dp v changes with
      | None => throw (Exn_ub "error dereferenced")
      | Some changes => batch_of rest changes
      end
  end.

Definition single_write : XM unit :=
  let* write := call (fun x => write_dp dump x dp.Fon_Event_Label (V_u8 5)) in
  match write with
  | Err e => print_out ("  Write error: " +:+ error_to_string e +:+ newline)
  | Ok r =>
      if negb (applied r) then
        forM (wr_errors r) (fun error =>
          print_out ("  rejected: " +:+ we_datapoint error +:+ " (" +:+ we_reason error +:+ ")" +:+ newline))
      else
        match sn_find "Fon_Event_Label" (wr_readback r) with
        | None => ret tt
        | Some echoed =>
            match at_dp dp.Fon_Event_Label with
            | Some d => print_out ("  Fon_Event_Label=5 written, readback: " +:+ to_display_string d echoed +:+ newline)
            | None => throw (Exn_out_of_range "catalog index")
            end
        end
  end.
Definition batch_write : XM unit :=
  let* batch := batch_of [(dp.Fon_Report_Interval, V_u16 15); (dp.Fon_Min_On_Time, V_u16 25)] [] in
  let* batch_result := call (fun x => Manager.write dump x batch) in
  match batch_result with
  | Err _ => ret tt
  | Ok r =>
      when (applied r)
        (print_out ("  Batch (2 points) written atomically" +:+ newline) ;;;
         match wr_warning r with
         | Some warning => print_out ("  WARNING from the device: " +:+ warning +:+ newline)
         | None => ret tt
         end)
  end.
Definition invalid_write : XM unit :=
  let* invalid := call (fun x => write_dp dump x dp.Fon_Event_Label (V_u8 99)) in
  print_out ("  Write 99 (max 7) -> " +:+ match invalid with Ok _ => "?!" | Err e => code_to_string (err_code e) end +:+
       " (blocked client-side)" +:+ newline).
Definition was_applied (r : Result WriteResult) : bool :=
  match r with Ok r => applied r | Err _ => false end.

(** What is done under a guard; the guard is destroyed when the scope is left. *)
Definition write_examples : XM unit :=
  print_out (newline +:+ "=== 8. Writing (with baseline restore) ===" +:+ newline) ;;;
  let* guard := call (fun x => capture x ["Fon_Event_Label"; "Fon_Report_Interval"; "Fon_Min_On_Time"]) in
  match guard with
  | Err e => print_out ("  Baseline failed: " +:+ error_to_string e +:+ newline)
  | Ok guard =>
      single_write ;;;
      batch_write ;;;
      invalid_write ;;;
      let* (restored, guard) := call (fun x => restore dump x guard) in
      when (was_applied restored) (print_out ("  Baseline restored" +:+ newline)) ;;;
      call (fun x => destroy dump x guard)
  end.

(** A literal [2.0f]. *)
Definition f32 (tenths : Z) : float := to_float32 (lit tenths 1).
Definition staging_commit_example : XM unit :=
  print_out (newline +:+ "=== 9./10. Staging/commit + cross-field constraints ===" +:+ newline) ;;;
  let* guard := call (fun x => capture x
    ["Fon_Alert_Low_Pressure"; "Fon_Min_Pressure"; "Fon_Max_Pressure"; "Fon_Alert_High_Pressure"]) in
  match guard with
  | Err _ => ret tt
  | Ok guard =>
      with_points (stage_dp dp.Fon_Alert_Low_Pressure (V_float (f32 3))) ;;;
      with_points (stage_dp dp.Fon_Min_Pressure (V_float (f32 20))) ;;;
      with_points (stage_dp dp.Fon_Max_Pressure (V_float (f32 35))) ;;;
      with_points (stage_dp dp.Fon_Alert_High_Pressure (V_float (f32 45))) ;;;
      let* checked := on_client (fun c => validate_staged (cl_datapoints c)) in
      let* valid := lift checked in
      match valid with
      | Err e =>
          print_out ("  Validation: " +:+ error_to_string e +:+ newline) ;;;
          with_points discard_staged ;;;
          call (fun x => destroy dump x guard)
      | Ok _ =>
          print_out ("  Staged values validated (incl. chain rules)" +:+ newline) ;;;
          let* broken := batch_of [(dp.Fon_Min_Pressure, V_float (f32 30)); (dp.Fon_Max_Pressure, V_float (f32 20))] [] in
          let* violation := on_client (fun c => validate_constraints broken (cl_datapoints c)) in
          print_out ("  Broken chain -> " +:+ match violation with Ok _ => "?!" | Err e => err_message e end +:+ newline) ;;;
          let* committed := call (commit dump) in
          when (was_applied committed)
            (print_out ("  Commit applied (on 'rejected' the staging would be kept for corrections)" +:+ newline)) ;;;
          let* (_, guard) := call (fun x => restore dump x guard) in
          call (fun x => destroy dump x guard)
      end
  end.

(** ** Commands, logs, the raw protocol *)

Definition command_examples : XM unit :=
  print_out (newline +:+ "=== 11. Commands ===" +:+ newline) ;;;
  let* result := call (fun x => Commands.set_state x FS_Auto) in
  match result with
  | Err e => print_out ("  Transport error: " +:+ error_to_string e +:+ newline)
  | Ok r =>
      if command_applied r then print_out ("  set_state(Auto) -> applied" +:+ newline)
      else print_out ("  set_state(Auto) -> rejected (" +:+ default "?" (cr_error r) +:+ ")" +:+ newline)
  end.

Definition log_line (r : LogRecord) : string :=
  "    #" +:+ dec_Z (lr_sequence r) +:+ " [lvl " +:+ dec_Z (lr_level r) +:+ "] " +:+ lr_text r +:+ newline.
(** [None]: the retrieval of the full log is still going on. *)
Definition log_examples (fuel : nat) : XM (option unit) :=
  print_out (newline +:+ "=== 12. Device logs ===" +:+ newline) ;;;
  let* batch := call (fun x => read_log x (mkLogReadOptions 0 LL_Info 5)) in
  match batch with
  | Err _ => ret tt
  | Ok b =>
      print_out ("  boot_id=" +:+ dec_Z (lb_boot_id b) +:+ " next_seq=" +:+ dec_Z (lb_next_seq b) +:+ newline) ;;;
      forM (lb_records b) (fun r => print_out (log_line r))
  end ;;;
  let* everything := with_points (read_all_log fuel (fun n => surroundings dump (xw_pages w n)) default_log_options) in
  match everything with
  | None => ret None
  | Some everything =>
      match everything with
      | Err _ => ret tt
      | Ok records => print_out ("  read_all(): " +:+ dec_Z (Z.of_nat (length records)) +:+ " records in total" +:+ newline)
      end ;;;
      let* previous := call (fun x => read_previous x (mkLogReadOptions 0 LL_None 3)) in
      match previous with
      | Err _ => ret tt
      | Ok b =>
          print_out ("  Previous boot available: " +:+ (if lb_previous_boot_available b then "yes" else "no") +:+ newline)
      end ;;;
      ret (Some tt)
  end.

(** [j[key]]: a missing member is inserted as null, null becomes an object. *)
Definition subscript (key : string) (j : json) : outcome json :=
  match j with
  | J_obj m => Ret (default J_null (mget key m))
  | J_null => Ret J_null
  | _ => Throw Exn_type_error
  end.
Definition memory_request : RequestSpec :=
  {| rs_type := "dp_read"; rs_body := J_obj [("names", names_json ["System_Memory_Free"])];
     rs_timeout := Some (ms 5000); rs_priority := InteractiveRead; rs_coalesce_key := EmptyString |}.
Definition metrics_text (m : DispatcherMetrics) : string :=
  "  Metrics: sent=" +:+ dec_Z (m_sent m) +:+ " answered=" +:+ dec_Z (m_completed m) +:+
  " timeouts=" +:+ dec_Z (m_timeouts m) +:+ " rate-limit deferrals=" +:+ dec_Z (m_rate_limit_deferrals m) +:+ newline.
Definition raw_and_metrics_example : XM unit :=
  print_out (newline +:+ "=== 14. Raw protocol + metrics ===" +:+ newline) ;;;
  emit (Xe_raw memory_request) ;;;
  match xw_raw w memory_request with
  | Err _ => ret tt
  | Ok response =>
      print_out "  raw dp_read -> " ;;;
      let* dp := lift (subscript "dp" response) in
      let* free := lift (subscript "System_Memory_Free" dp) in
      let* text := lift (dump free) in
      print_out (text +:+ " B free" +:+ newline)
  end ;;;
  let* metrics := on_client client_metrics in
  print_out (metrics_text metrics).

Definition disconnect : XM unit :=
  print_out (newline +:+ "=== 15. Disconnecting ===" +:+ newline) ;;;
  disconnect_client ;;;
  let* state := on_client cl_state in
  print_out ("  disconnected, state: " +:+ client_state_to_string state +:+ newline).

(** ** [run] and [main] *)

Definition run (fuel : nat) : XM (option Z) :=
  let* connected := connect in
  if negb connected then ret (Some 1) else
  show_connection_info ;;;
  read_single_and_multi ;;;
  read_dynamic ;;;
  list_all_datapoints ;;;
  cache_example ;;;
  subscription_and_polling_example ;;;
  write_examples ;;;
  staging_commit_example ;;;
  command_examples ;;;
  let* logs := log_examples fuel in
  match logs with
  | None => ret None
  | Some _ =>
      raw_and_metrics_example ;;;
      disconnect ;;;
      ret (Some 0)
  end.

(** [e.what()] of a [std::exception]; undefined behaviour is none. *)
Definition exception_text (e : exn) : option string :=
  match e with
  | Exn_runtime s | Exn_invalid_argument s | Exn_out_of_range s => Some s
  | Exn_type_error | Exn_dump => Some (xw_json_what w)
  | Exn_ub _ => None
  end.
(** The arguments with the program's name in front; [None]: still running. *)
Definition main (fuel : nat) (argv : list string) : XM (option Z) :=
  match argv with
  | _ :: path :: _ =>
      match load_config (xw_exists w) (xw_read_file w) (xw_parse_config w) (xw_json_what w) path with
      | Throw e =>
          match exception_text e with
          | Some text => print_err ("config: " +:+ text +:+ newline) ;;; ret (Some 2)
          | None => throw e
          end
      | Ret config =>
          emit (Xe_level Lv_Warn) ;;;
          match create config with
          | Err e => print_err ("Setup failed: " +:+ error_to_string e +:+ newline) ;;; ret (Some 1)
          | Ok (endpoint, c) =>
              modify (fun _ => started_with endpoint c) ;;;
              scoped (device_example ;;; run fuel)
          end
      end
  | _ =>
      print_err ("usage: " +:+ default EmptyString (head argv) +:+ " <config.json>" +:+ newline +:+
           "  e.g. /app/config/client.fnt-000001.json" +:+ newline) ;;;
      ret (Some 2)
  end.

(** ** The three small clients *)

Definition error_line (e : Error) : string := error_to_string e +:+ newline.
(** [client.security()] *)
Definition on_security {A} (f : SecurityConfiguration -> A * SecurityConfiguration) : XM A :=
  let* c := on_client id in
  let (a, security) := f (cl_security c) in
  modify (set_xs_client (set_cl_security security c)) ;;;
  ret a.
Definition chain_only (ca crt key : string) : TlsCredentials := mutual_tls ca crt key VerifyCertificateChainOnly.
Definition usage_text (program rest : string) : string := "usage: " +:+ program +:+ rest +:+ newline.
Definition six_arguments : string := " <host> <ca> <crt> <key> <kid> <hmac_file>".

(** The key file, [set_hmac] and [connect], as the three have them; the rest runs on
    the connection. *)
Definition with_connection (kid hmac_file : string) (rest : ConnectionInfo -> XM (option Z)) : XM (option Z) :=
  match from_file kid hmac_file (xw_read_file w hmac_file) with
  | Err e => print_err (error_line e) ;;; ret (Some 1)
  | Ok hmac =>
      on_security (set_hmac hmac) ;;;
      let* connection := connect_client in
      match connection with
      | Err e => print_err (error_line e) ;;; ret (Some 1)
      | Ok info => rest info
      end
  end.

(** *** [simple_client.cpp] *)

Definition simple_session (info : ConnectionInfo) : XM (option Z) :=
  print_out ("device=" +:+ ci_device_id info +:+ " fw=" +:+ ci_firmware_version info +:+ newline) ;;;
  let* pressure := call (fun x => read_dp x dp.Fon_Current_Pressure) in
  match pressure with
  | Err e => print_err (error_line e) ;;; ret (Some 1)
  | Ok v =>
      print_out ("pressure = " +:+ value_text v +:+ " bar" +:+ newline) ;;;
      let* write := call (fun x => write_dp dump x dp.Fon_Event_Label (V_u8 7)) in
      match write with
      | Err e => print_err (error_line e)
      | Ok r =>
          if negb (applied r)
          then forM (wr_errors r) (fun error => print_err (we_datapoint error +:+ ": " +:+ we_reason error +:+ newline))
          else print_out ("Fon_Event_Label written, readback ok" +:+ newline)
      end ;;;
      disconnect_client ;;;
      ret (Some 0)
  end.
Definition simple_client (argv : list string) : XM (option Z) :=
  match argv with
  | _ :: host :: ca :: crt :: key :: kid :: hmac_file :: more =>
      modify (fun _ => started_with (default_endpoint host) new_client) ;;;
      scoped (
        let* tls_status := on_security (set_tls (xw_readable w) (chain_only ca crt key)) in
        match tls_status with
        | Err e => print_err (error_line e) ;;; ret (Some 1)
        | Ok _ =>
            match more with
            | device_id :: _ => on_security (fun c => (tt, set_expected_device_id device_id c))
            | [] => ret tt
            end ;;;
            with_connection kid hmac_file simple_session
        end)
  | _ => print_err (usage_text (default EmptyString (head argv)) (six_arguments +:+ " [device_id]")) ;;; ret (Some 2)
  end.

(** *** [polling_client.cpp] *)

(** [while (!g_stop) sleep]: [None]: still running after [fuel] looks. *)
Fixpoint poll_until_signal (fuel : nat) : XM (option unit) :=
  match fuel with
  | O => ret None
  | S fuel =>
      let* looks := gets xs_pauses in
      if xw_stop w looks then ret (Some tt) else sleep_for 200 ;;; poll_until_signal fuel
  end.
Definition polling_session (fuel : nat) (_ : ConnectionInfo) : XM (option Z) :=
  on_channel Ch_device_alert 4 ;;;
  let* pressure := with_points (subscribe_dp dp.Fon_Current_Pressure 2) in
  with_poller (every_dp 1000 [dp.Fon_Current_Pressure; dp.Fon_Current_State; dp.Fon_Relay_Output]) ;;;
  with_poller (every_dp 5000 [dp.System_RSSI; dp.System_Uptime; dp.Fon_Fault_Code]) ;;;
  with_poller (once_dp [dp.Device_Serial_Number; dp.Device_SW_Version]) ;;;
  with_poller Poller.start ;;;
  emit (Xe_signal "SIGINT") ;;;
  let* stopped := poll_until_signal fuel in
  match stopped with
  | None => ret None
  | Some _ =>
      let* entry := on_client (fun c => cached dp.Fon_Current_Pressure (cl_datapoints c)) in
      match entry with
      | None => ret tt
      | Some e => print_out ("last pressure: " +:+ value_text (cv_value e) +:+ " (" +:+ quality_to_string (cv_quality e) +:+
                       ")" +:+ newline)
      end ;;;
      let* stats := on_client (fun c => po_stats (cl_poller c)) in
      print_out ("requests=" +:+ dec_Z (ps_requests stats) +:+ " coalesced=" +:+ dec_Z (ps_coalesced_points stats) +:+ newline) ;;;
      disconnect_client ;;;
      with_points (unsubscribe pressure) ;;;
      ret (Some 0)
  end.
Definition polling_client (fuel : nat) (argv : list string) : XM (option Z) :=
  match argv with
  | _ :: host :: ca :: crt :: key :: kid :: hmac_file :: _ =>
      modify (fun _ => started_with (default_endpoint host) new_client) ;;;
      scoped (
        on_security (set_tls (xw_readable w) (chain_only ca crt key)) ;;;
        with_connection kid hmac_file (polling_session fuel))
  | _ => print_err (usage_text (default EmptyString (head argv)) six_arguments) ;;; ret (Some 2)
  end.

(** *** [config_editor.cpp] *)

Definition commit_and_report : XM Z :=
  let* result := call (commit dump) in
  match result with
  | Err e => print_err (error_line e) ;;; ret 1
  | Ok r =>
      if negb (applied r) then
        print_err ("device rejected:" +:+ newline) ;;;
        forM (wr_errors r) (fun error => print_err ("  " +:+ we_datapoint error +:+ ": " +:+ we_reason error +:+ newline)) ;;;
        ret 3
      else
        print_out ("applied" +:+ match wr_warning r with Some s => " (warning: " +:+ s +:+ ")" | None => EmptyString end +:+ newline) ;;;
        ret 0
  end.
Definition editor_session (_ : ConnectionInfo) : XM (option Z) :=
  let* config := call (fun x => read_dps x
    [dp.Fon_Min_Pressure; dp.Fon_Max_Pressure; dp.Fon_Alert_Low_Pressure; dp.Fon_Alert_High_Pressure]) in
  match config with
  | Err e => print_err (error_line e) ;;; ret (Some 1)
  | Ok config =>
      match sn_get dp.Fon_Min_Pressure config, sn_get dp.Fon_Max_Pressure config with
      | Ok min, Ok max => print_out ("current min=" +:+ value_text min +:+ " max=" +:+ value_text max +:+ newline)
      | _, _ => ret tt
      end ;;;
      with_points (stage_dp dp.Fon_Min_Pressure (V_float (f32 21))) ;;;
      with_points (stage_dp dp.Fon_Max_Pressure (V_float (f32 36))) ;;;
      let* checked := on_client (fun c => validate_staged (cl_datapoints c)) in
      let* validation := lift checked in
      match validation with
      | Err e =>
          print_err ("validation: " +:+ error_to_string e +:+ newline) ;;;
          with_points discard_staged ;;;
          ret (Some 1)
      | Ok _ =>
          let* changes := on_client (fun c => has_staged_changes (cl_datapoints c)) in
          let* code := (if changes : bool then commit_and_report else ret 0) in
          if Z.eqb code 0 then disconnect_client ;;; ret (Some 0) else ret (Some code)
      end
  end.
Definition config_editor (argv : list string) : XM (option Z) :=
  match argv with
  | _ :: host :: ca :: crt :: key :: kid :: hmac_file :: _ =>
      modify (fun _ => started_with (default_endpoint host) new_client) ;;;
      scoped (
        on_security (set_tls (xw_readable w) (chain_only ca crt key)) ;;;
        with_connection kid hmac_file editor_session)
  | _ => print_err (usage_text (default EmptyString (head argv)) six_arguments) ;;; ret (Some 2)
  end.
End Examples.
