(* ===== verification/ExampleFacts.v ===== *)
(** * What the example programs ask of a device

    The tour's promise that all its writes are harmless and undone, the transcript of a
    tour, and what the configuration editor commits. *)
From S2P Require Import Prelude StdMap Errors Float Json Canonical Messages Auth Events Dispatcher.
From S2P Require Import Session.
From S2P Require Import Datapoint Generated Catalog Codec WriteSet Snapshot Service Manager ManagerFacts Poller PollerFacts.
From S2P Require Import Commands Logs Security RestoreGuard Transport EventBus Client Logger Config.
From S2P Require Import ToolFacts.
From S2P Require Import Examples.
Local Open Scope Z_scope.

(** ** Harmless requests *)

Definition label_names : list string := ["Fon_Event_Label"; "Fon_Report_Interval"; "Fon_Min_On_Time"].
Definition chain_names : list string :=
  ["Fon_Alert_Low_Pressure"; "Fon_Min_Pressure"; "Fon_Max_Pressure"; "Fon_Alert_High_Pressure"].
Definition tour_names : list string := label_names ++ chain_names.

(** The names a map has are among these. *)
Definition within {V} (names : list string) (m : smap V) : Prop :=
  forall name v, mget name m = Some v -> name ∈ names.

(** A read, a page of the log, the command [Auto], or a write of datapoints the tour
    has a baseline of. *)
Definition harmless (spec : RequestSpec) : Prop :=
  rs_type spec ∈ ["dp_read"; "log_read"; "log_read_prev"] \/
  async_set_state FS_Auto = Submitted spec \/
  exists dp, spec = write_request dp /\ within tour_names dp.

(** What the device answers to a read has only names that were asked for. *)
Definition answers_asked (reply : RequestSpec -> Result json) : Prop :=
  forall spec names message dp, rs_body spec = J_obj [("names", names_json names)] ->
    reply spec = Ok message -> jfind "dp" message = Some (J_obj dp) -> within names dp.
Definition never_stages (op : mop) : Prop := match op with Mo_stage _ _ => False | _ => True end.
(** The surroundings of a call: the device is as above and nobody else stages. *)
Record polite (v : Manager.world) : Prop := {
  po_answers : answers_asked (w_reply v);
  po_others : forall spec, Forall never_stages (w_between v spec)
}.

Lemma within_nil {V} names : within names ([] : smap V).
Proof. by intros n v. Qed.
Lemma within_checked {V} names (m : smap V) : forallb (fun n => bool_decide (n ∈ names)) (keys m) = true -> within names m.
Proof.
  intros Hk n v Hn. rewrite forallb_forall in Hk.
  eapply bool_decide_eq_true_1, Hk, list_elem_of_In, mget_is_Some. by eexists.
Qed.
Lemma within_mset {V} names n (v : V) m : n ∈ names -> within names m -> within names (mset n v m).
Proof. intros Hn Hm n' v'. rewrite mget_mset. case_decide as He; [by subst|apply Hm]. Qed.
Lemma within_incl {V} l l' (m : smap V) : l ⊆ l' -> within l m -> within l' m.
Proof. intros Hl Hm n v Hn. eapply Hl, Hm, Hn. Qed.
Lemma label_tour : label_names ⊆ tour_names.
Proof. apply list_subseteq_app_l. done. Qed.
Lemma chain_tour : chain_names ⊆ tour_names.
Proof. apply list_subseteq_app_r. done. Qed.

Lemma encodes_within values dp names : encodes values dp -> within names values -> within names dp.
Proof. intros [_ He] Hv n j. rewrite He. destruct (mget n values) eqn:E; [|done]. intros _. by eapply Hv. Qed.

(** A decoded snapshot has only names of the object. *)
Lemma decode_fold_within names m s : (forall n, n ∈ keys m -> n ∈ names) -> within names (sn_values s) ->
  within names (sn_values (fold_left decode_entry m s)).
Proof.
  revert s. induction m as [|[k j] m IH]; intros s Hk Hs; [done|]. cbn [fold_left]. apply IH.
  - intros n Hn. apply Hk. by right.
  - rewrite decode_entry_values. destruct (decoded _ _); [|done]. apply within_mset; [|done]. apply Hk. by left.
Qed.
Lemma decode_within names m : within names m -> within names (sn_values (decode_dp_object (J_obj m))).
Proof.
  intros Hm. apply decode_fold_within; [|apply within_nil]. intros n [v Hv]%mget_is_Some. by eapply Hm.
Qed.

(** ** The manager under the tour *)

(** Nothing is staged but the pressure chain. *)
Definition calm (m : Manager) : Prop := mgr_ok m /\ within chain_names (mg_staged m).
Definition tame (m m' : Manager) (ev : list sevent) : Prop :=
  calm m -> calm m' /\ Forall harmless (submitted ev).
#[export] Instance tame_composable : Composable tame.
Proof.
  split; [intros m H; split; [done|constructor]|]. intros m1 m2 m3 w1 w2 H1 H2 [H F]%H1. apply H2 in H as [H F'].
  split; [done|]. rewrite submitted_app. by apply Forall_app.
Qed.

Lemma tame_by {A} (c : M Manager sevent A) : respects (fun m m' _ => mgr_ok m -> mgr_ok m') c ->
  respects (fun m m' _ => mg_staged m' = mg_staged m) c -> respects no_submit c -> respects tame c.
Proof.
  intros Ho Hs Hn m r m' ev E [Hm Hc]. split; [split; [by eapply Ho|]|].
  - by rewrite (Hs _ _ _ _ E).
  - by rewrite (submitted_none ev (Hn _ _ _ _ E)).
Qed.

Lemma tame_update now s source seq : snapshot_ok s -> respects tame (update_cache now s source seq).
Proof. intros Hs. apply tame_by; [by apply ok_update|by apply same_staging_update|by apply no_submit_update]. Qed.
Lemma tame_notify due (m : Manager) : Forall (fun e => match e with Sv_submit _ => False | _ => True end) due -> tame m m due.
Proof. intros Hd Hc. split; [done|]. by rewrite submitted_none. Qed.
Lemma tame_report now dp source seq : respects tame (ingest_report now dp source seq).
Proof. apply quiet_report; [apply _|apply tame_update|apply tame_notify]. Qed.
Lemma tame_read now source response : respects tame (finish_read now source response).
Proof. apply quiet_read; [apply _|apply tame_update|apply tame_notify]. Qed.
Lemma tame_write dump now response : respects tame (finish_write dump now response).
Proof. apply quiet_write; [apply _|apply tame_update|apply tame_notify]. Qed.
Lemma tame_subscribe name cb : respects tame (subscribe_raw name cb).
Proof. apply tame_by; [apply ok_subscribe|by intros m r m' ev [= _ <- _]|intros m r m' ev [= _ _ <-]; constructor]. Qed.
Lemma tame_unsubscribe token : respects tame (unsubscribe token).
Proof. apply tame_by; [apply ok_unsubscribe|by intros m r m' ev [= _ <- _]|intros m r m' ev [= _ _ <-]; constructor]. Qed.
Lemma tame_stale : respects tame mark_all_stale.
Proof. apply tame_by; [apply ok_stale|by intros m r m' ev [= _ <- _]|intros m r m' ev [= _ _ <-]; constructor]. Qed.
Lemma tame_discard : respects tame discard_staged.
Proof. intros m r m' ev E [Hm _]. split; [split; [by eapply ok_discard|]|]; injection E as _ <- <-; [apply within_nil|constructor]. Qed.
Lemma tame_stage name v : name ∈ chain_names -> respects tame (stage name v).
Proof.
  intros Hn m r m' ev E [Hm Hc]. split; [split; [by eapply ok_stage|]|]; revert E; unfold stage;
    repeat case_match; intros [= _ <- <-]; try done; try exact (Forall_nil_2 _). by apply within_mset.
Qed.
#[export] Hint Resolve tame_report tame_read tame_write tame_subscribe tame_unsubscribe tame_stale tame_discard : fnt.

Lemma tame_mop dump op : never_stages op -> respects tame (run_mop dump op).
Proof. destruct op; cbn [run_mop never_stages]; intros H; respects_tac; done. Qed.

Lemma tame_between dump v spec : polite v -> respects tame (forM (w_between v spec) (run_mop dump)).
Proof.
  intros Hp. assert (Forall never_stages (w_between v spec)) as Ho by apply Hp.
  induction Ho as [|op l Hop _ IH]; cbn [forM]; [respects_tac|]. respects_step; [by apply tame_mop|done].
Qed.

(** A blocking call is tame when its request is harmless. *)
Lemma tame_sync {T} dump v (start : outcome (started T)) finish : polite v ->
  (forall spec, start = Ret (Submitted spec) -> harmless spec) -> (forall reply, respects tame (finish reply)) ->
  respects tame (sync_wait (surroundings dump v) start finish).
Proof.
  intros Hp Hs Hf. unfold sync_wait. destruct (negb _); [respects_tac|]. destruct (x_status _); [|respects_tac].
  eapply (respects_bind_results _ (fun b => forall spec, b = Submitted spec -> harmless spec)); [apply respects_lift; apply _| |].
  { intros m b m' ev [= -> _ _] spec ->. by apply Hs. }
  intros [r|spec] Hb; respects_step; [|respects_step; [|by apply Hf]].
  - apply respects_emit. intros m Hc. split; [done|]. constructor; [by apply Hb|constructor].
  - by apply tame_between.
Qed.

Lemma harmless_read names p key spec : async_read names p key = Submitted spec -> harmless spec.
Proof. unfold async_read. repeat case_match; intros [= <-]; left; set_solver. Qed.
Lemma tame_read_names dump v names : polite v -> respects tame (read_names (surroundings dump v) names).
Proof. intros Hp. apply tame_sync; [done| |apply tame_read]. intros spec [= H]. by eapply harmless_read. Qed.
#[export] Hint Resolve tame_read_names : fnt.
Lemma tame_read_all dump v : polite v -> respects tame (read_all (surroundings dump v)).
Proof. intros Hp. apply tame_sync; [done| |apply tame_read]. intros spec H%ret_inj. by eapply harmless_read. Qed.
Lemma tame_read_dp dump v dp : polite v -> respects tame (read_dp (surroundings dump v) dp).
Proof. intros Hp. unfold read_dp. respects_tac. Qed.
Lemma tame_read_dynamic dump v name : polite v -> respects tame (Manager.read (surroundings dump v) name).
Proof. intros Hp. unfold Manager.read. respects_tac. Qed.

(** The snapshot of a read has only names that were asked for. *)
Lemma read_names_within dump v names m s m' ev : polite v ->
  read_names (surroundings dump v) names m = (Ret (Ok s), m', ev) -> within names (sn_values s).
Proof.
  intros Hp H. apply sync_wait_cases in H as [(e&[=]&_)|[(c&Hc&[= <-]&_)|(spec&Hs&H)]].
  - unfold async_read in Hc. destruct names; [done|]. by destruct (List.find _ _).
  - apply bind_ret_inv in H as (?&?&?&?&_&H&_). apply bind_ret_inv in H as (?&?&?&?&_&H&_). cbn in H.
    assert (rs_body spec = J_obj [("names", names_json names)]) as Hb.
    { unfold async_read in Hs. destruct names; [done|]. destruct (List.find _ _); [done|]. by injection Hs as <-. }
    destruct (w_reply v spec) as [message|] eqn:Er; [|done]. unfold finish_read in H.
    apply bind_ret_inv in H as (dp&?&?&?&[= Hd _ _]&H&_).
    repeat (apply bind_ret_inv in H as (?&?&?&?&?&H&_)). injection H as <- _ _.
    rewrite add_unknown_values. destruct dp as [| | | | | | |dm| |]; try apply within_nil.
    apply decode_within. destruct message as [| | | | | | |mm| |]; try discriminate Hd. cbn in Hd.
    destruct (mget "dp" mm) as [j|] eqn:Ej; injection Hd as Hd; [subst j|by destruct dm].
    by apply (po_answers v Hp spec names (J_obj mm)).
Qed.

(** A write of tour datapoints. *)
Lemma tame_write_values dump v values : polite v -> ws_ok values -> within tour_names values ->
  respects tame (Manager.write dump (surroundings dump v) values).
Proof.
  intros Hp Hok Hw. unfold Manager.write. apply tame_sync; [done| |apply tame_write].
  intros spec Hs. destruct (async_write_cases values Hok) as [[e He]|(dp&He&Henc&_)]; rewrite He in Hs; [done|].
  injection Hs as <-. right; right. exists dp. split; [done|]. by eapply encodes_within.
Qed.

(** What a write set is filled with. *)
Lemma fill_within names values acc changes : (forall n, n ∈ keys values -> n ∈ names) -> ws_ok acc -> within names acc ->
  fill_write_set values acc = Ok changes -> ws_ok changes /\ within names changes.
Proof.
  revert acc. induction values as [|[n v] values IH]; intros acc Hk Hok Hw; cbn [fill_write_set]; [by intros [= <-]|].
  destruct (ws_set_cases n v acc) as [(d&Hf&Hwr&Hi&->)|(e&->)]; [|done]. apply IH.
  - intros n' Hn'. apply Hk. by right.
  - destruct (write_set_invariant n v acc ok (mset n v acc)) as [H _]; [done| |done].
    unfold ws_set. rewrite Hf, Hwr, Hi, Nat.eqb_refl. done.
  - apply within_mset; [|done]. apply Hk. by left.
Qed.

(** The guard, the commit, the command and the log. *)
Definition guards (names : list string) (r : Result Guard) : Prop :=
  match r with Ok g => within names (sn_values (gd_baseline g)) | Err _ => True end.
Lemma capture_guards dump v names : polite v -> results (guards names) (capture (surroundings dump v) names).
Proof.
  intros Hp m [g|e] m' ev H; [|done]. apply capture_cases in H as (_&_&H). by eapply read_names_within.
Qed.
Lemma tame_capture dump v names : polite v -> respects tame (capture (surroundings dump v) names).
Proof. intros Hp. unfold capture. respects_tac. Qed.
Lemma tame_restore dump v g : polite v -> within tour_names (sn_values (gd_baseline g)) ->
  respects tame (restore dump (surroundings dump v) g).
Proof.
  intros Hp Hg. unfold restore. destruct (fill_write_set _ _) as [changes|e] eqn:Ef; [|respects_tac].
  destruct (fill_within tour_names _ _ _ ltac:(intros n [x Hx]%mget_is_Some; by eapply Hg) ws_ok_nil (within_nil _) Ef) as [Hok Hw].
  respects_step; [by apply tame_write_values|respects_tac].
Qed.
Lemma restore_same dump x g : results (fun r => gd_baseline r.2 = gd_baseline g) (restore dump x g).
Proof.
  intros m r m' ev H. unfold restore in H. destruct (fill_write_set _ _); [|by injection H as <- _ _].
  apply bind_ret_inv in H as (?&?&?&?&_&[= <- _ _]&_). done.
Qed.
Lemma tame_destroy dump v g : polite v -> within tour_names (sn_values (gd_baseline g)) ->
  respects tame (destroy dump (surroundings dump v) g).
Proof. intros Hp Hg. unfold destroy. destruct (gd_armed g); [|respects_tac]. respects_step; [by apply tame_restore|respects_tac]. Qed.

Lemma tame_commit dump v : polite v -> respects tame (commit dump (surroundings dump v)).
Proof.
  intros Hp m r m' ev E [Hm Hc]. pose proof E as E0. apply commit_steps in E0 as [(e&->&->&->)|(dp&m1&_&Henc&_&Hsub&Hst&rb&w1&Eb)]; [..|done].
  - split; [by split|constructor].
  - assert (calm m1) as [_ Hc1].
    { by eapply tame_between. }
    split; [split|].
    + pose proof (ok_mcall dump (Mc_commit v) m) as Ho. cbn [run_mcall] in Ho.
      specialize (Ho (match r with Ret _ => Ret tt | Throw e => Throw e end) m' ev). apply Ho; [|done].
      unfold bind. rewrite E. destruct r; cbn; by rewrite ?app_nil_r.
    + destruct r as [[res|]|]; cbn in Hst; rewrite Hst; try done. destruct (applied res); [apply within_nil|done].
    + rewrite Hsub. constructor; [|constructor]. right; right. exists dp. split; [done|].
      eapply within_incl; [apply chain_tour|]. by eapply encodes_within.
Qed.
Lemma tame_set_state dump v : polite v -> respects tame (Commands.set_state (surroundings dump v) FS_Auto).
Proof.
  intros Hp. apply tame_sync; [done| |intros reply; unfold finish_command; respects_tac].
  intros spec [= H]. right; left. by rewrite <- H.
Qed.
Lemma tame_read_log dump v o : polite v -> respects tame (read_log (surroundings dump v) o).
Proof.
  intros Hp. apply tame_sync; [done| |intros reply; unfold finish_batch; respects_tac].
  intros spec [= <-]. left. cbn. set_solver.
Qed.
Lemma tame_read_previous dump v o : polite v -> respects tame (read_previous (surroundings dump v) o).
Proof.
  intros Hp. apply tame_sync; [done| |intros reply; unfold finish_batch; respects_tac].
  intros spec [= <-]. left. cbn. set_solver.
Qed.
Lemma tame_read_all_log dump (vs : nat -> Manager.world) fuel o : (forall n, polite (vs n)) ->
  respects tame (read_all_log fuel (fun n => surroundings dump (vs n)) o).
Proof.
  intros Hp. unfold read_all_log. generalize (mkLogReadOptions (lo_since_sequence o) (lo_minimum_level o) 64) as page.
  generalize ([] : list LogRecord) as l. generalize 0%nat as n.
  induction fuel as [|fuel IH]; intros n l page; cbn [read_pages]; [respects_tac|].
  respects_step; [unfold read_page; respects_step; [by apply tame_read_log|]; respects_step; respects_tac; by apply tame_read_log|].
  repeat respects_step; apply IH.
Qed.

(** ** The tour *)

Abbreviation points := (fun s => cl_datapoints (xs_client s)).
Definition xtame (s s' : xstate) (ev : list xevent) : Prop :=
  calm (points s) -> calm (points s') /\ Forall harmless (requested ev).
Lemma requested_app ev1 ev2 : requested (ev1 ++ ev2) = requested ev1 ++ requested ev2.
Proof. apply omap_app. Qed.
#[export] Instance xtame_composable : Composable xtame.
Proof.
  split; [intros s H; split; [done|constructor]|]. intros s1 s2 s3 w1 w2 H1 H2 [H F]%H1. apply H2 in H as [H F'].
  split; [done|]. rewrite requested_app. by apply Forall_app.
Qed.

Lemma requested_service ev : requested (map Xe_service ev) = submitted ev.
Proof. induction ev as [|e ev IH]; [done|]. destruct e; cbn; [by f_equal|done]. Qed.
Lemma xtame_service {A} (m : M Manager sevent A) : respects tame m -> respects xtame (with_points m).
Proof.
  intros H s r s' ev. unfold with_points. destruct (m _) as [[r1 mg] w1] eqn:E. intros [= <- <- <-] Hc.
  rewrite requested_service. by eapply H.
Qed.
(** The poller asks for nothing but reads. *)
Abbreviation only_reads := (fun (_ _ : Poller) (ev : list pevent) => Forall (fun e => match e with Pe_read spec _ => harmless spec end) ev).
Lemma xtame_polling {A} (m : M Poller pevent A) : respects only_reads m -> respects xtame (with_poller m).
Proof.
  intros H s r s' ev. unfold with_poller. destruct (m _) as [[r1 p] w1] eqn:E. intros [= <- <- <-] Hc.
  split; [done|]. apply H in E. induction E as [|[spec h] w1 He _ IH]; [constructor|]. by constructor.
Qed.
Lemma reads_completion h r : respects only_reads (poll_completion h r).
Proof. unfold poll_completion. respects_tac; constructor. Qed.
Lemma reads_start names p key h : respects only_reads (start_read names p key h).
Proof.
  unfold start_read. destruct (async_read _ _ _) as [r|spec] eqn:E; [apply reads_completion|].
  apply respects_emit. intros _. constructor; [by eapply harmless_read|constructor].
Qed.
#[export] Hint Resolve reads_completion reads_start : fnt.
Lemma reads_tick now last_tx : respects only_reads (tick now last_tx).
Proof. unfold tick. repeat first [respects_step | apply reads_start | constructor]. Qed.

Lemma xtame_emit e : requested [e] = [] -> respects xtame (emit e).
Proof. intros He. apply respects_emit. intros s Hc. split; [done|]. by rewrite He. Qed.
Lemma xtame_modify f : (forall s, calm (points s) -> calm (points (f s))) -> respects xtame (modify f).
Proof. intros Hf. apply respects_modify. intros s Hc. split; [by apply Hf|constructor]. Qed.
Lemma xtame_out text : respects xtame (print_out text).
Proof. by apply xtame_emit. Qed.
Lemma xtame_err text : respects xtame (print_err text).
Proof. by apply xtame_emit. Qed.
(** Walk through a program whose calls are tame. *)
Ltac xtame_tac := repeat first
  [ solve [auto with fnt]
  | lazymatch goal with
    | |- respects xtame (emit _) => by apply xtame_emit
    | |- respects xtame (modify _) => by apply xtame_modify
    | |- respects tame _ => fail
    | _ => respects_step
    end ].
Lemma xtame_on_client {A} (f : Client -> A) : respects xtame (on_client f).
Proof. apply respects_gets. apply _. Qed.
Lemma xtame_deliver e : respects xtame (bus_delivers e).
Proof. unfold bus_delivers. xtame_tac. Qed.
Lemma xtame_channel ch h : respects xtame (on_channel ch h).
Proof. by apply xtame_modify. Qed.
#[export] Hint Resolve xtame_out xtame_err xtame_on_client xtame_deliver xtame_channel xtame_service xtame_polling : fnt.

Definition polite_background (op : background) : Prop := match op with Bg_manager op => never_stages op | _ => True end.
(** What the tour meets: well-behaved calls and pauses, and connections that leave the
    manager in order. *)
Record polite_world (w : example_world) : Prop := {
  pw_calls : forall n, polite (xw_call w n);
  pw_pages : forall n, polite (xw_pages w n);
  pw_pauses : forall n, Forall polite_background (xw_pause w n);
  pw_connect : forall endpoint c, calm (cl_datapoints c) -> calm (cl_datapoints (xw_connect w endpoint c).1.2);
  pw_disconnect : forall c, calm (cl_datapoints c) -> calm (cl_datapoints (xw_disconnect w c).1)
}.

Section Tour.
Context (w : example_world) (Hw : polite_world w).

Lemma xtame_call {A} (k : exchange Manager -> M Manager sevent A) :
  (forall v, polite v -> respects tame (k (surroundings (xw_dump w) v))) -> respects xtame (call w k).
Proof using Hw.
  intros Hk. unfold call. xtame_tac. apply xtame_service, Hk, (pw_calls w Hw).
Qed.
Lemma call_results {A} Q (k : exchange Manager -> M Manager sevent A) :
  (forall v, polite v -> results Q (k (surroundings (xw_dump w) v))) -> results Q (call w k).
Proof using Hw.
  intros Hk s a s' ev H. unfold call in H. rewrite run_get, run_modify in H. unfold with_points in H.
  destruct (k _ _) as [[r m] w1] eqn:E. injection H as -> _ _. eapply Hk; [apply (pw_calls w Hw)|exact E].
Qed.
Lemma xtame_background op : polite_background op -> respects xtame (run_background (xw_dump w) op).
Proof.
  intros Hop. destruct op; cbn [run_background].
  - by apply xtame_service, tame_mop.
  - apply xtame_polling, reads_tick.
  - respects_step; [apply xtame_service, tame_read|apply xtame_polling, reads_completion].
  - apply xtame_deliver.
Qed.
Lemma xtame_pause n : respects xtame (sleep_for w n).
Proof using Hw.
  unfold sleep_for. respects_step; [by respects_step|]. respects_step; [by apply xtame_modify|]. respects_step; [by apply xtame_emit|].
  pose proof (pw_pauses w Hw (xs_pauses a)) as Hl. induction Hl as [|op l Hop _ IH]; cbn [forM]; [by respects_step|].
  respects_step; [by apply xtame_background|exact IH].
Qed.
Lemma xtame_connect : respects xtame (connect_client w).
Proof using Hw.
  intros s r s' ev H. unfold connect_client in H. rewrite run_get in H.
  pose proof (pw_connect w Hw (xs_endpoint s) (xs_client s)) as Hc.
  destruct (xw_connect w (xs_endpoint s) (xs_client s)) as [[connection c] events]. cbn [fst snd] in Hc.
  intros Hs. revert H. generalize (Hc Hs) as Hc'. clear Hc. intros Hc' H.
  eapply (respects_bind xtame (forM events bus_delivers)); [xtame_tac| |exact H|exact Hs].
  intros ?. apply respects_bind; [apply _|by apply xtame_modify|intros ?; apply respects_ret, _].
Qed.
Lemma xtame_shutdown : respects xtame (shutdown w).
Proof using Hw.
  unfold shutdown. intros s r s' ev H Hs.
  unfold on_client in H. rewrite run_gets in H.
  pose proof (pw_disconnect w Hw (id (xs_client s)) Hs) as Hc. destruct (xw_disconnect w _) as [c events].
  eapply (respects_bind xtame (forM events bus_delivers)); [xtame_tac| |exact H|exact Hs].
  intros ?. by apply xtame_modify.
Qed.
#[local] Hint Resolve xtame_pause xtame_connect xtame_shutdown : fnt.
Lemma xtame_disconnect : respects xtame (disconnect_client w).
Proof using Hw. unfold disconnect_client. xtame_tac. Qed.
Lemma xtame_scoped m : respects xtame m -> respects xtame (scoped w m).
Proof using Hw. intros H. unfold scoped. xtame_tac. Qed.
#[local] Hint Resolve xtame_disconnect : fnt.

Lemma tame_stage_dp dp v : dp_name dp ∈ chain_names -> respects tame (stage_dp dp v).
Proof. intros H. unfold stage_dp. repeat case_match; respects_tac; by apply tame_stage. Qed.
Lemma xtame_batch values changes : respects xtame (batch_of values changes).
Proof. revert changes. induction values as [|[dp v] l IH]; intros changes; cbn [batch_of]; xtame_tac. Qed.
#[local] Hint Resolve xtame_batch : fnt.

Lemma xtame_reads : respects xtame (read_single_and_multi w) /\ respects xtame (read_dynamic w) /\
  respects xtame (list_all_datapoints w).
Proof using Hw.
  unfold read_single_and_multi, read_dynamic, list_all_datapoints. split_and!; xtame_tac.
  all: apply xtame_call; intros v Hp; auto using tame_read_dp, tame_read_dynamic, tame_read_all, tame_read_names.
  by apply tame_read_names.
Qed.
Lemma xtame_polls : respects xtame (cache_example) /\ respects xtame (subscription_and_polling_example w).
Proof using Hw.
  unfold cache_example, subscription_and_polling_example, every_dp, once_dp. split; xtame_tac.
  all: apply xtame_polling || apply xtame_service; try (respects_tac; constructor).
Qed.

(** The values the tour writes itself. *)
Lemma checked_values names values : fill_write_set values [] = Ok values ->
  forallb (fun n => bool_decide (n ∈ names)) (keys values) = true -> ws_ok values /\ within names values.
Proof.
  intros Hf Hk%within_checked. eapply fill_within; [|apply ws_ok_nil|apply within_nil|exact Hf].
  intros n [v Hn]%mget_is_Some. by eapply Hk.
Qed.
Definition label_write (z : Z) : DatapointWriteSet := [("Fon_Event_Label", V_u8 z)].
Lemma label_write_ok z : ws_ok (label_write z) /\ within tour_names (label_write z).
Proof. by apply checked_values; vm_compute. Qed.
Lemma write_label dump x z : write_dp dump x dp.Fon_Event_Label (V_u8 z) = Manager.write dump x (label_write z).
Proof. reflexivity. Qed.
Definition tour_batch : DatapointWriteSet := [("Fon_Min_On_Time", V_u16 25); ("Fon_Report_Interval", V_u16 15)].
Lemma tour_batch_ok : ws_ok tour_batch /\ within tour_names tour_batch.
Proof. by apply checked_values; vm_compute. Qed.
Lemma batch_built s :
  batch_of [(dp.Fon_Report_Interval, V_u16 15); (dp.Fon_Min_On_Time, V_u16 25)] [] s = (Ret tour_batch, s, []).
Proof. reflexivity. Qed.

Lemma xtame_label z : respects xtame (call w (fun x => write_dp (xw_dump w) x dp.Fon_Event_Label (V_u8 z))).
Proof using Hw.
  apply xtame_call. intros v Hp. rewrite write_label. by apply tame_write_values; [|apply label_write_ok..].
Qed.
#[local] Hint Resolve xtame_label : fnt.
Lemma xtame_tour_writes : respects xtame (single_write w) /\ respects xtame (batch_write w) /\ respects xtame (invalid_write w).
Proof using Hw.
  split_and!; [unfold single_write; xtame_tac| |unfold invalid_write; xtame_tac].
  unfold batch_write. eapply (respects_bind_results _ (eq tour_batch)); [auto with fnt| |].
  { intros s b s' ev. rewrite batch_built. by intros [= <- _ _]. }
  intros batch <-. xtame_tac. apply xtame_call. intros v Hp. by apply tame_write_values; [|apply tour_batch_ok..].
Qed.

(** A guard of tour datapoints, and the calls on it. *)
Lemma xtame_guarded {A} names (k : Result Guard -> XM A) : names ⊆ tour_names ->
  (forall e, respects xtame (k (Err e))) ->
  (forall g, within tour_names (sn_values (gd_baseline g)) -> respects xtame (k (Ok g))) ->
  respects xtame (let* guard := call w (fun x => capture x names) in k guard).
Proof using Hw.
  intros Hn He Hg. eapply (respects_bind_results _ (guards names)).
  - apply xtame_call. intros v Hp. by apply tame_capture.
  - apply call_results. intros v Hp. by apply capture_guards.
  - intros [g|e] H; [|done]. apply Hg. by eapply within_incl.
Qed.
Lemma xtame_restored {A} g (k : Result WriteResult * Guard -> XM A) : within tour_names (sn_values (gd_baseline g)) ->
  (forall r, gd_baseline r.2 = gd_baseline g -> respects xtame (k r)) ->
  respects xtame (let* r := call w (fun x => restore (xw_dump w) x g) in k r).
Proof using Hw.
  intros Hg Hk. eapply (respects_bind_results _ (fun r => gd_baseline r.2 = gd_baseline g)); [| |done].
  - apply xtame_call. intros v Hp. by apply tame_restore.
  - apply call_results. intros v Hp. apply restore_same.
Qed.
Lemma xtame_destroyed g : within tour_names (sn_values (gd_baseline g)) ->
  respects xtame (call w (fun x => destroy (xw_dump w) x g)).
Proof using Hw. intros Hg. apply xtame_call. intros v Hp. by apply tame_destroy. Qed.

Lemma xtame_write_examples : respects xtame (write_examples w).
Proof using Hw.
  destruct xtame_tour_writes as (H1&H2&H3). unfold write_examples. respects_step; [auto with fnt|].
  apply xtame_guarded; [apply label_tour|intros e; xtame_tac|]. intros g Hg. repeat (respects_step; [done|]).
  apply (xtame_restored g (fun '(restored, guard) => _)); [done|]. intros [r g'] Hr. cbn [fst snd] in *. xtame_tac.
  apply xtame_destroyed. by rewrite Hr.
Qed.
Lemma xtame_staging : respects xtame (staging_commit_example w).
Proof using Hw.
  unfold staging_commit_example. respects_step; [auto with fnt|].
  apply xtame_guarded; [apply chain_tour|intros e; xtame_tac|]. intros g Hg.
  do 4 (respects_step; [apply xtame_service, tame_stage_dp; cbn; set_solver|]).
  respects_step; [auto with fnt|]. respects_step; [by respects_step|]. respects_step; [|xtame_tac; by apply xtame_destroyed].
  do 4 (respects_step; [auto with fnt|]). respects_step; [apply xtame_call; intros v Hp; by apply tame_commit|].
  respects_step; [xtame_tac|].
  apply (xtame_restored g (fun '(_, guard) => _)); [done|]. intros [r g'] Hr. apply xtame_destroyed. cbn in Hr. by rewrite Hr.
Qed.
Lemma xtame_rest fuel : respects xtame (command_examples w) /\ respects xtame (log_examples w fuel) /\
  respects xtame (raw_and_metrics_example w) /\ respects xtame (disconnect w).
Proof using Hw.
  unfold command_examples, log_examples, raw_and_metrics_example, disconnect. split_and!; xtame_tac.
  all: try (apply xtame_call; intros v Hp; auto using tame_set_state, tame_read_log, tame_read_previous).
  - apply xtame_service. by apply tame_read_all_log, (pw_pages w Hw).
  - apply respects_emit. intros s Hc. split; [done|]. constructor; [left; set_solver|constructor].
Qed.

Lemma xtame_run fuel : respects xtame (run w fuel).
Proof using Hw.
  destruct xtame_reads as (?&?&?), xtame_polls as [? ?], (xtame_rest fuel) as (?&?&?&?).
  pose proof xtame_write_examples. pose proof xtame_staging. unfold run, connect, show_connection_info.
  xtame_tac.
Qed.
End Tour.

Lemma new_manager_calm : calm new_manager.
Proof. split; [|apply within_nil]. split; [split; [apply msorted_nil|by intros]|apply ws_ok_nil]. Qed.
Lemma build_manager readable b c : builder_build readable b = Ok c -> cl_datapoints c = new_manager.
Proof.
  unfold builder_build. intros H. repeat (apply rbind_ok_inv in H as (?&_&H)). injection H as <-.
  by destruct (bd_options b), (bd_ota b).
Qed.
Lemma create_manager w config endpoint c : create w config = Ok (endpoint, c) -> cl_datapoints c = new_manager.
Proof.
  unfold create. intros H. apply rbind_ok_inv in H as (?&_&H). apply rbind_ok_inv in H as (c'&Hb&H). injection H as _ <-.
  by eapply build_manager.
Qed.


(** ** The table of the catalogue *)

(** Exactly the two passwords are hidden. *)
Lemma sensitive_names : map d_name (List.filter sensitive all) = ["Network_Password"; "Backup_Password"].
Proof. vm_compute. reflexivity. Qed.
(** The table says of a password only whether the device returned one: two snapshots
    that differ in nothing but the values of passwords print the same table. *)
Theorem table_hides_passwords s s' :
  (forall d, d ∈ all -> sensitive d = false -> sn_find (d_name d) s = sn_find (d_name d) s') ->
  (forall d, d ∈ all -> sensitive d = true -> sn_contains (d_name d) s = sn_contains (d_name d) s') ->
  map (datapoint_row s) all = map (datapoint_row s') all.
Proof.
  intros Hopen Hsecret. apply map_ext_in. intros d Hd%list_elem_of_In. unfold datapoint_row. do 2 f_equal.
  unfold display_text. destruct (sensitive d) eqn:E; [|by rewrite Hopen].
  specialize (Hsecret d Hd E). unfold sn_contains, mhas in Hsecret. unfold sn_find.
  by destruct (mget (d_name d) (sn_values s)), (mget (d_name d) (sn_values s')).
Qed.

(** ** The writes and their baseline *)

(** The wire form of a write set. *)
Definition wire_object (values : DatapointWriteSet) : smap json :=
  match dp_object values [] with Ret dp => dp | Throw _ => [] end.
Definition read_request (names : list string) : RequestSpec :=
  {| rs_type := "dp_read"; rs_body := J_obj [("names", names_json names)]; rs_timeout := None;
     rs_priority := InteractiveRead; rs_coalesce_key := EmptyString |}.
(** The client accepts the call. *)
Definition accepted (v : Manager.world) : Prop := w_bound v = true /\ w_status v = ok.

Lemma write_sends dump v values m r m' ev : accepted v -> ws_ok values -> ws_validate values = ok ->
  Manager.write dump (surroundings dump v) values m = (r, m', ev) ->
  submitted ev = [write_request (wire_object values)].
Proof.
  intros [Hb Hs] Hok Hv H. pose proof H as H0.
  assert (exists dp, dp_object values [] = Ret dp) as [dp Hdp].
  { destruct (dp_object_spec values []) as (dp&->&_); [by apply ws_ok_elem|apply msorted_NoDup, Hok|by eexists]. }
  assert (exists rest, submitted ev = write_request dp :: rest) as [rest Hr].
  { assert (async_write values = Ret (Submitted (write_request dp))) as Ha by (unfold async_write; by rewrite Hv, Hdp).
    unfold Manager.write, sync_wait in H. cbn [x_bound x_status surroundings] in H. rewrite Hb, Hs, Ha in H.
    cbn [negb ok] in H. rewrite run_lift in H. unfold bind at 1 in H. cbn [emit] in H.
    destruct (bind _ _ m) as [[r1 m1] w1]. injection H as <- <- <-. by eexists. }
  apply write_steps in H0 as [(e&_&_&->)|(dp'&m1&_&_&Hsub&_)]; [done| |done].
  unfold wire_object. rewrite Hdp. rewrite Hsub in Hr |- *. injection Hr as ->. done.
Qed.

(** The values of a read's answer. *)
Definition dp_of (message : json) : json := default (J_obj []) (jfind "dp" message).
Lemma read_sends dump v names m r m' ev : accepted v ->
  async_read names InteractiveRead EmptyString = Submitted (read_request names) ->
  read_names (surroundings dump v) names m = (Ret r, m', ev) ->
  submitted ev = [read_request names] /\
  match w_reply v (read_request names) with
  | Err e => r = Err e
  | Ok message => exists s, r = Ok s /\ sn_values s = sn_values (decode_dp_object (dp_of message))
  end.
Proof.
  intros [Hbd Hst] Ha H. unfold read_names, sync_wait in H. cbn [x_bound x_status surroundings] in H.
  rewrite Hbd, Hst, Ha in H. cbn [negb ok] in H. rewrite run_lift in H.
  apply bind_ret_inv in H as ([]&m1&w1&w2&[= <- <-]&H&->).
  apply bind_ret_inv in H as ([]&m2&w3&w4&Hb&H&->). cbn [x_between x_now x_reply surroundings] in Hb, H.
  pose proof H as Hn. apply (quiet_read no_submit) in Hn; [|intros; by apply no_submit_update|done].
  apply (respects_forM no_submit) in Hb; [|intros op; apply no_submit_mop].
  rewrite !submitted_app, (submitted_none w3), (submitted_none w4) by done. split; [done|].
  unfold finish_read in H. destruct (w_reply v _) as [message|e]; [|by injection H as <- _ _].
  apply bind_ret_inv in H as (dp&?&?&?&[= Hd _ _]&H&_). repeat (apply bind_ret_inv in H as (?&?&?&?&?&H&_)). injection H as <- _ _.
  eexists. split; [done|].
  rewrite add_unknown_values. unfold dp_of. destruct message as [| | | | | | |mm| |]; try discriminate Hd. cbn in Hd |- *.
  destruct (mget "dp" mm); by injection Hd as <-.
Qed.
Lemma capture_sends dump v names m r m' ev : accepted v -> names <> [] -> check_restorable names = ok ->
  async_read names InteractiveRead EmptyString = Submitted (read_request names) ->
  capture (surroundings dump v) names m = (Ret r, m', ev) ->
  submitted ev = [read_request names] /\
  match w_reply v (read_request names) with
  | Err e => r = Err e
  | Ok message => exists g, r = Ok g /\ sn_values (gd_baseline g) = sn_values (decode_dp_object (dp_of message))
  end.
Proof.
  intros Ha Hne Hc Hs H. unfold capture in H. destruct names as [|n names]; [done|]. rewrite Hc in H. cbn [ok] in H.
  apply bind_ret_inv in H as (b&m1&w1&w2&Hr&H&->). apply read_sends in Hr as [Hsub Hr]; [|done..].
  destruct (w_reply v _) as [message|e].
  - destruct Hr as (s&->&Hv). injection H as <- _ <-. rewrite app_nil_r. split; [done|]. by eexists.
  - subst b. injection H as <- _ <-. by rewrite app_nil_r.
Qed.
(** A baseline of writable names is a write set. *)
Lemma baseline_ok names j : forallb (fun n => match find n with Some d => writable d | None => false end) names = true ->
  within names (sn_values (decode_dp_object j)) -> ws_ok (sn_values (decode_dp_object j)).
Proof.
  intros Hn Hw. destruct (decode_dp_object_ok j) as [Hs Ht]. split; [done|]. intros n v Hv.
  destruct (Ht n v Hv) as (d&Hd&Hi&_). exists d. split; [done|]. split; [|done].
  rewrite forallb_forall in Hn. specialize (Hn n). rewrite <- list_elem_of_In, Hd in Hn. eapply Hn, Hw, Hv.
Qed.
Lemma restore_sends dump v g m r m' ev : accepted v -> ws_ok (sn_values (gd_baseline g)) ->
  ws_validate (sn_values (gd_baseline g)) = ok -> restore dump (surroundings dump v) g m = (Ret r, m', ev) ->
  gd_armed r.2 = false /\ submitted ev = [write_request (wire_object (sn_values (gd_baseline g)))].
Proof.
  intros Ha Hok Hv H. unfold restore in H. rewrite fill_staged in H by done.
  apply bind_ret_inv in H as (b&m1&w1&w2&Hw&[= <- _ <-]&->). rewrite app_nil_r. split; [done|]. by eapply write_sends.
Qed.

(** Printing: no call, no request. *)
Definition only_prints (s s' : xstate) (ev : list xevent) : Prop := xs_calls s' = xs_calls s /\ requested ev = [].
#[export] Instance only_prints_composable : Composable only_prints.
Proof. split; [done|]. intros s1 s2 s3 w1 w2 [H1 R1] [H2 R2]. split; [congruence|]. by rewrite requested_app, R1, R2. Qed.
Lemma prints_text text : respects only_prints (print_out text).
Proof. by apply respects_emit. Qed.
Lemma prints_error text : respects only_prints (print_err text).
Proof. by apply respects_emit. Qed.
#[export] Hint Resolve prints_text prints_error : fnt.

Section Writes.
Context (w : example_world).

Lemma call_inv' {A} (k : exchange Manager -> M Manager sevent A) s r s' ev : call w k s = (r, s', ev) ->
  exists m ev', k (surroundings (xw_dump w) (xw_call w (xs_calls s))) (points s) = (r, m, ev') /\
    requested ev = submitted ev' /\ xs_calls s' = S (xs_calls s) /\ points s' = m.
Proof.
  intros H. unfold call in H. rewrite run_get, run_modify in H. unfold with_points in H.
  destruct (k _ _) as [[r1 m] w1] eqn:E. injection H as <- <- <-. exists m, w1. by rewrite requested_service.
Qed.
Lemma call_inv {A} (k : exchange Manager -> M Manager sevent A) s r s' ev : call w k s = (r, s', ev) ->
  exists m ev', k (surroundings (xw_dump w) (xw_call w (xs_calls s))) (points s) = (r, m, ev') /\
    requested ev = submitted ev' /\ xs_calls s' = S (xs_calls s).
Proof. intros (m&ev'&Hk&Hr&Hn&_)%call_inv'. by exists m, ev'. Qed.
(** A call and what is printed of its result. *)
Lemma call_then {A B} (k : exchange Manager -> M Manager sevent A) (f : A -> XM B) s b s' ev :
  (forall a, respects only_prints (f a)) -> (let* a := call w k in f a) s = (Ret b, s', ev) ->
  exists a m ev', k (surroundings (xw_dump w) (xw_call w (xs_calls s))) (points s) = (Ret a, m, ev') /\
    requested ev = submitted ev' /\ xs_calls s' = S (xs_calls s).
Proof.
  intros Hf H. apply bind_ret_inv in H as (a&s1&w1&w2&Hc&H&->). apply call_inv in Hc as (m&ev'&Hk&Hr&Hn).
  apply Hf in H as [Hn' Hr']. exists a, m, ev'. rewrite requested_app, Hr, Hr', app_nil_r. split_and!; [done..|]. congruence.
Qed.

Lemma single_write_sends s s' ev : accepted (xw_call w (xs_calls s)) -> single_write w s = (Ret tt, s', ev) ->
  requested ev = [write_request (wire_object (label_write 5))] /\ xs_calls s' = S (xs_calls s).
Proof.
  intros Ha H. apply call_then in H as (r&m&ev'&Hk&Hr&Hn); [|intros r; respects_tac]. rewrite write_label in Hk.
  rewrite Hr. split; [|done]. eapply write_sends; [exact Ha|apply label_write_ok|by vm_compute|exact Hk].
Qed.
Lemma batch_write_sends s s' ev : accepted (xw_call w (xs_calls s)) -> batch_write w s = (Ret tt, s', ev) ->
  requested ev = [write_request (wire_object tour_batch)] /\ xs_calls s' = S (xs_calls s).
Proof.
  intros Ha H. unfold batch_write in H. rewrite (run_bind_quiet _ _ _ _ _ (batch_built s)) in H.
  apply call_then in H as (r&m&ev'&Hk&Hr&Hn); [|intros r; respects_tac].
  rewrite Hr. split; [|done]. eapply write_sends; [exact Ha|apply tour_batch_ok|by vm_compute|exact Hk].
Qed.
(** The value out of range is refused before the network. *)
Lemma invalid_write_blocked s r s' ev : accepted (xw_call w (xs_calls s)) -> invalid_write w s = (r, s', ev) ->
  r = Ret tt /\ requested ev = [] /\ xs_calls s' = S (xs_calls s) /\
  output ev = "  Write 99 (max 7) -> out_of_range (blocked client-side)" +:+ newline.
Proof.
  intros [Hb Hs] H. unfold invalid_write, call in H. rewrite run_assoc, run_get, run_assoc, run_modify in H.
  assert (write_dp (xw_dump w) (surroundings (xw_dump w) (xw_call w (xs_calls s))) dp.Fon_Event_Label (V_u8 99) (points s) =
    (Ret (Err (validation_error OutOfRange "Fon_Event_Label: 99.000000 > max 7.000000" "Fon_Event_Label")), points s, [])) as E.
  { rewrite write_label. unfold Manager.write, sync_wait. cbn [x_bound x_status surroundings]. rewrite Hb, Hs.
    by vm_compute. }
  unfold bind, with_points in H. cbn [count_call xs_client] in H. rewrite E in H. by injection H as <- <- <-.
Qed.

(** C22: When the connection stands and the device reports values of the three datapoints
    in their ranges, section 8 of the tour sends exactly four requests, in this order:
    the read of the baseline, the single write, the batch, and the write of the whole
    baseline; the value out of range is not sent, and leaving the scope sends nothing
    more. *)
Theorem writes_are_undone s s' ev : (forall n, xs_calls s <= n <= xs_calls s + 4 -> accepted (xw_call w n))%nat ->
  write_examples w s = (Ret tt, s', ev) ->
  (exists e, w_reply (xw_call w (xs_calls s)) (read_request label_names) = Err e) \/
  exists message, w_reply (xw_call w (xs_calls s)) (read_request label_names) = Ok message /\
    let baseline := sn_values (decode_dp_object (dp_of message)) in
    (within label_names baseline -> ws_validate baseline = ok ->
     requested ev = [read_request label_names; write_request (wire_object (label_write 5));
                     write_request (wire_object tour_batch); write_request (wire_object baseline)]).
Proof.
  intros Ha H. unfold write_examples in H. apply bind_ret_inv in H as ([]&s0&w0&ev1&[= <- <-]&H&->).
  apply bind_ret_inv in H as (guard&s1&w1&w2&Hg&H&->). apply call_inv in Hg as (m&ev'&Hk&Hr1&Hn1).
  apply capture_sends in Hk as [Hs1 Hk]; [|apply Ha; lia|done|by vm_compute|by vm_compute].
  destruct (w_reply (xw_call w (xs_calls s)) _) as [message|e]; [right|left; by eexists].
  exists message. split; [done|]. destruct Hk as (g&->&Hb). intros baseline Hw Hv.
  apply bind_ret_inv in H as ([]&s2&w3&w4&H2&H&->). apply single_write_sends in H2 as [Hs2 Hn2]; [|apply Ha; lia].
  apply bind_ret_inv in H as ([]&s3&w5&w6&H3&H&->). apply batch_write_sends in H3 as [Hs3 Hn3]; [|apply Ha; lia].
  apply bind_ret_inv in H as ([]&s4&w7&w8&H4&H&->). apply invalid_write_blocked in H4 as (_&Hs4&Hn4&_); [|apply Ha; lia].
  apply bind_ret_inv in H as ([restored g']&s5&w9&w10&H5&H&->). apply call_inv in H5 as (m5&ev5&H5&Hr5&Hn5).
  apply restore_sends in H5 as [Hd Hs5]; [|apply Ha; lia|rewrite Hb; by apply (baseline_ok label_names)|by rewrite Hb].
  apply bind_ret_inv in H as ([]&s6&w11&w12&H6&H&->). apply (respects_when only_prints) in H6 as [_ Hs6]; [|apply prints_text].
  apply call_inv in H as (m7&ev7&H7&Hr7&_). cbn in Hd. unfold destroy in H7. rewrite Hd in H7. injection H7 as _ <-.
  rewrite !requested_app, Hr1, Hs1, Hs2, Hs3, Hs4, Hr5, Hs5, Hs6, Hr7, Hb. done.
Qed.
End Writes.

(** ** The configuration editor *)

Definition editor_names : list string :=
  ["Fon_Min_Pressure"; "Fon_Max_Pressure"; "Fon_Alert_Low_Pressure"; "Fon_Alert_High_Pressure"].
(** What it stages. *)
Definition edited : DatapointWriteSet := [("Fon_Max_Pressure", V_float (f32 36)); ("Fon_Min_Pressure", V_float (f32 21))].

Lemma read_cases dump v names m r m' ev :
  async_read names InteractiveRead EmptyString = Submitted (read_request names) ->
  read_names (surroundings dump v) names m = (Ret r, m', ev) ->
  (exists e, r = Err e /\ (submitted ev = [] \/ submitted ev = [read_request names])) \/
  exists s message, r = Ok s /\ submitted ev = [read_request names] /\ w_reply v (read_request names) = Ok message /\
    sn_values s = sn_values (decode_dp_object (dp_of message)).
Proof.
  intros Ha H. destruct (w_bound v) eqn:Eb.
  2: { unfold read_names, sync_wait in H. cbn [x_bound surroundings] in H. rewrite Eb in H. injection H as <- _ <-. left. eauto. }
  destruct (w_status v) as [[]|e] eqn:Es.
  2: { unfold read_names, sync_wait in H. cbn [x_bound x_status surroundings] in H. rewrite Eb, Es in H. injection H as <- _ <-. left. eauto. }
  apply read_sends in H as [Hs Hr]; [|by split|done]. destruct (w_reply v _) as [message|e].
  - destruct Hr as (s&->&Hv). right. by exists s, message.
  - left. exists e. auto.
Qed.

(** After a read the cache holds what it returned. *)
Lemma read_cached dump v names m s m' ev : read_names (surroundings dump v) names m = (Ret (Ok s), m', ev) ->
  forall name x, sn_find name s = Some x -> cached_number m' name = numeric_of x.
Proof.
  intros H name x Hx. apply sync_wait_cases in H as [(e&[=]&_)|[(c&Hc&[= <-]&_)|(spec&_&H)]].
  { unfold async_read in Hc. destruct names; [done|]. by destruct (List.find _ _). }
  apply bind_ret_inv in H as ([]&m1&w1&w2&_&H&_). apply bind_ret_inv in H as ([]&m2&w3&w4&_&H&_).
  unfold finish_read in H. destruct (x_reply _ _) as [message|e]; [|done].
  apply bind_ret_inv in H as (dp&m3&?&?&[= _ <- _]&H&_). apply bind_ret_inv in H as (u&m4&?&?&[= _ <- _]&H&_).
  apply bind_ret_inv in H as (due&m5&?&?&Hu&H&_). apply bind_ret_inv in H as ([]&m6&?&?&[= <- _]&[= <- <- _]&_).
  set (snapshot := fold_left _ _ _) in *.
  assert (snapshot_ok snapshot) as Hok by apply snapshot_ok_unknown, decode_dp_object_ok.
  destruct (update_cache_run (x_now (surroundings dump v)) ExplicitRead None snapshot m2 (snapshot_NoDup _ Hok)) as (cache&E&_&Hg).
  rewrite E in Hu. injection Hu as _ <- _. unfold cached_number, cached_raw. cbn [mg_cache set_mg_cache].
  rewrite Hg, Hx. destruct Hok as [_ Ht]. by destruct (Ht _ _ Hx) as (d&->&_).
Qed.

Lemma staged_min m : stage_dp dp.Fon_Min_Pressure (V_float (f32 21)) m =
  (Ret ok, set_mg_staged (mset "Fon_Min_Pressure" (V_float (f32 21)) (mg_staged m)) m, []).
Proof. reflexivity. Qed.
Lemma staged_max m : stage_dp dp.Fon_Max_Pressure (V_float (f32 36)) m =
  (Ret ok, set_mg_staged (mset "Fon_Max_Pressure" (V_float (f32 36)) (mg_staged m)) m, []).
Proof. reflexivity. Qed.

Lemma chain_checked f : check_cross_constraints f = ok ->
  breaks (f "Fon_Max_Pressure") (f "Fon_Alert_High_Pressure") = false /\
  breaks (f "Fon_Alert_Low_Pressure") (f "Fon_Min_Pressure") = false.
Proof.
  unfold check_cross_constraints. destruct (breaks (f "Fon_Min_Pressure") _); [done|].
  destruct (breaks _ (f "Fon_Alert_High_Pressure")); [done|]. by destruct (breaks (f "Fon_Alert_Low_Pressure") _).
Qed.
(** The edited values pass the check only inside the reported alert limits. *)
Lemma edited_checked m : mg_staged m = edited -> validate_staged m = Ret ok ->
  (forall x, cached_number m "Fon_Alert_High_Pressure" = Some x -> flt (f32 36) x = true) /\
  (forall x, cached_number m "Fon_Alert_Low_Pressure" = Some x -> flt x (f32 21) = true).
Proof.
  intros Hs H. unfold validate_staged in H. rewrite Hs in H.
  apply outcome_bind_ret_inv in H as (st&_&H). destruct st as [[]|e]; [|done]. apply ret_inj, chain_checked in H as [H1 H2].
  assert (forall n, mget n edited = if String.eqb n "Fon_Max_Pressure" then Some (V_float (f32 36))
    else if String.eqb n "Fon_Min_Pressure" then Some (V_float (f32 21)) else None) as He by (intros n; done).
  cbv beta in H1, H2. rewrite !He in H1, H2. cbn [String.eqb Ascii.eqb Bool.eqb numeric_of as_double] in H1, H2.
  split; intros x Hx; [rewrite Hx in H1; rename H1 into Hb|rewrite Hx in H2; rename H2 into Hb];
    unfold breaks in Hb; rewrite negb_false_iff in Hb; exact Hb.
Qed.
Lemma edited_ok : ws_ok edited /\ within chain_names edited.
Proof. apply checked_values; reflexivity. Qed.

(** What a commit answers. *)
Lemma commit_answer dump v m r m' ev : mg_staged m = edited -> commit dump (surroundings dump v) m = (Ret r, m', ev) ->
  (exists e, r = Err e /\ submitted ev = []) \/
  submitted ev = [write_request (wire_object edited)] /\
  match w_reply v (write_request (wire_object edited)) with
  | Err e => r = Err e
  | Ok msg => exists result, r = Ok result /\ applied result = reported_applied msg
  end.
Proof.
  intros Hs H. unfold commit in H. rewrite run_gets, Hs in H. fold edited in H.
  change (match edited with [] => _ | _ => ?k end) with k in H.
  rewrite fill_staged in H by apply edited_ok.
  apply bind_ret_inv in H as (b&m1&w1&w2&Hw&H&->). apply bind_ret_inv in H as ([]&m2&w3&w4&Hd&[= <- _ <-]&->).
  assert (submitted w3 = []) as Hw3 by (destruct (match b with Ok r => applied r | Err _ => false end); by injection Hd as _ <-).
  rewrite !submitted_app, Hw3, !app_nil_r. pose proof Hw as Hw'. apply write_answer in Hw' as [(e&->&_&->)|(dp&Henc&Hsub&Hr)]; [left; by eexists| |apply edited_ok].
  right. assert (dp = wire_object edited) as ->.
  { destruct (dp_object_spec edited []) as (dp'&Hdp&Hst&Hg); [apply ws_ok_elem, edited_ok|apply msorted_NoDup, edited_ok|].
    unfold wire_object. rewrite Hdp. destruct Henc as [Hst' Hg']. apply msorted_ext; [done|apply Hst, msorted_nil|].
    intros n. rewrite Hg, Hg'. by destruct (mget n edited). }
  split; [done|]. destruct (w_reply v _) as [msg|e]; [|done]. destruct Hr as (result&->&Hst). exists result. split; [done|].
  unfold reported_applied. by rewrite Hst.
Qed.

(** Staging stays empty when nobody stages. *)
Abbreviation keeps_empty := (fun (m m' : Manager) (_ : list sevent) => mg_staged m = [] -> mg_staged m' = []).
Lemma mop_keeps_empty dump op : never_stages op -> respects keeps_empty (run_mop dump op).
Proof.
  assert (forall now s source seq, snapshot_ok s -> respects keeps_empty (update_cache now s source seq)) as Hu.
  { intros now s source seq Hs m r m' ev E Hm. by rewrite (same_staging_update _ _ _ _ Hs _ _ _ _ E). }
  assert (forall due (m : Manager), Forall (fun e => match e with Sv_submit _ => False | _ => True end) due -> keeps_empty m m due) as Hn by done.
  destruct op; cbn [run_mop never_stages]; intros H; try done.
  - respects_step; [by apply quiet_report; [apply _|..]|respects_tac].
  - by intros m r m' ev [= _ <- _].
  - by intros m r m' ev [= _ <- _].
  - by intros m r m' ev [= _ <- _].
  - by intros m r m' ev [= _ <- _].
  - respects_step; [by apply quiet_read; [apply _|..]|respects_tac].
  - respects_step; [by apply quiet_write; [apply _|..]|respects_tac].
Qed.
Lemma read_keeps_empty dump v names m r m' ev : (forall spec, Forall never_stages (w_between v spec)) ->
  read_names (surroundings dump v) names m = (r, m', ev) -> mg_staged m = [] -> mg_staged m' = [].
Proof.
  intros Hns. revert m r m' ev. change (respects keeps_empty (read_names (surroundings dump v) names)).
  apply respects_sync_wait; [apply _|done| |].
  - intros spec. cbn [x_between surroundings]. induction (Hns spec) as [|op l Hop _ IH]; cbn [forM]; [respects_tac|].
    respects_step; [by apply mop_keeps_empty|done].
  - intros reply. apply quiet_read; [apply _| |done]. intros now s source seq Hs m r m' ev E Hm.
    by rewrite (same_staging_update _ _ _ _ Hs _ _ _ _ E).
Qed.

Section Editor.
Context (w : example_world).

Lemma commit_reported s code s' ev : mg_staged (points s) = edited -> commit_and_report w s = (Ret code, s', ev) ->
  (code = 1 /\ requested ev = []) \/
  requested ev = [write_request (wire_object edited)] /\
  code = match w_reply (xw_call w (xs_calls s)) (write_request (wire_object edited)) with
         | Err _ => 1
         | Ok msg => if reported_applied msg then 0 else 3
         end.
Proof.
  intros Hs H. unfold commit_and_report in H. apply bind_ret_inv in H as (r&s1&w1&w2&Hc&H&->).
  apply call_inv in Hc as (m&ev'&Hc&Hr&_). apply commit_answer in Hc; [|exact Hs].
  assert (requested w2 = [] /\ code = match r with Err _ => 1 | Ok r => if applied r then 0 else 3 end) as [Hw2 ->].
  { destruct r as [r|e]; [|by injection H as <- _ <-]. destruct (applied r); cbn [negb] in H; [by injection H as <- _ <-|].
    apply bind_ret_inv in H as (?&?&w3&w4&[= _ _ <-]&H&->). apply bind_ret_inv in H as (?&?&w5&w6&Hp&[= <- _ <-]&->).
    apply (respects_forM only_prints) in Hp as [_ Hp]; [|intros ?; apply prints_error]. by rewrite !requested_app, Hp. }
  rewrite requested_app, Hr, Hw2, app_nil_r. destruct Hc as [(e&->&->)|[-> Hc]]; [by left|right]. split; [done|].
  destruct (w_reply _ _) as [msg|e]; [|by subst r]. by destruct Hc as (result&->&->).
Qed.

Lemma shutdown_quiet s s' ev : shutdown w s = (Ret tt, s', ev) -> requested ev = [].
Proof.
  intros H. unfold shutdown, on_client in H. rewrite run_gets in H. destruct (xw_disconnect w _) as [c events].
  apply bind_ret_inv in H as ([]&s2&w3&w4&He&[= _ <-]&->).
  eapply (respects_forM only_prints events bus_delivers) in He as [_ He]; [by rewrite !requested_app, He|].
  intros e. unfold bus_delivers. repeat respects_step. done.
Qed.
Lemma disconnect_quiet s s' ev : disconnect_client w s = (Ret tt, s', ev) -> requested ev = [].
Proof. intros H. apply bind_ret_inv in H as ([]&s1&w1&w2&[= <- <-]&H&->). by apply shutdown_quiet in H. Qed.
(** The scope of the client changes neither the exit code nor what was requested. *)
Lemma scoped_inv m s code s' ev : scoped w m s = (Ret (Some code), s', ev) ->
  exists s1 w1, m s = (Ret (Some code), s1, w1) /\ requested ev = requested w1.
Proof.
  intros H. apply bind_ret_inv in H as (c&s1&w1&w2&Hm&H&->). destruct c as [c|]; [|done]. rewrite run_modify in H.
  apply bind_ret_inv in H as ([]&s3&w3&w4&Hq%shutdown_quiet&[= <- _ <-]&->). exists s1, w1. split; [done|].
  by rewrite !requested_app, Hq, app_nil_r.
Qed.

(** What the device reported as the limits of the alerts. *)
Definition reported (message : json) (name : string) : option DatapointValue :=
  sn_find name (decode_dp_object (dp_of message)).
Definition refused (code : Z) (ev : list xevent) : Prop :=
  (code = 1 \/ code = 2) /\ (requested ev = [] \/ requested ev = [read_request editor_names]).
Definition committed (first : nat) (code : Z) (ev : list xevent) : Prop :=
  exists message, w_reply (xw_call w first) (read_request editor_names) = Ok message /\
    requested ev = [read_request editor_names; write_request (wire_object edited)] /\
    (forall x, reported message "Fon_Alert_High_Pressure" = Some (V_float x) -> flt (f32 36) x = true) /\
    (forall x, reported message "Fon_Alert_Low_Pressure" = Some (V_float x) -> flt x (f32 21) = true) /\
    code = match w_reply (xw_call w (S first)) (write_request (wire_object edited)) with
           | Err _ => 1
           | Ok msg => if reported_applied msg then 0 else 3
           end.

Lemma editor_session_outcome info s code s' ev : mg_staged (points s) = [] ->
  (forall spec, Forall never_stages (w_between (xw_call w (xs_calls s)) spec)) ->
  editor_session w info s = (Ret (Some code), s', ev) -> refused code ev \/ committed (xs_calls s) code ev.
Proof.
  intros Hst Hns H. unfold editor_session in H. apply bind_ret_inv in H as (config&s1&w1&w2&Hc&H&->).
  apply call_inv' in Hc as (m&ev'&Hc&Hr1&Hn1&Hp1). pose proof (read_keeps_empty _ _ _ _ _ _ _ Hns Hc Hst) as Hst1.
  pose proof Hc as Hcache. apply read_cases in Hc as [(e&->&Hsub)|(sn&message&->&Hsub&Hmsg&Hv)]; [| |by vm_compute].
  { left. injection H as <- _ <-. split; [by left|]. by rewrite requested_app, Hr1, app_nil_r. }
  apply bind_ret_inv in H as ([]&s2&w3&w4&Hprint&H&->).
  assert (s2 = s1 /\ requested w3 = []) as [-> Hw3].
  { revert Hprint. repeat case_match; by intros [= <- <-]. }
  apply bind_ret_inv in H as (st1&s2&w5&w6&Hs1&H&->). apply bind_ret_inv in H as (st2&s3&w7&w8&Hs2&H&->).
  unfold with_points in Hs1, Hs2. rewrite staged_min in Hs1. injection Hs1 as <- <- <-. rewrite staged_max in Hs2. injection Hs2 as <- Hs3 <-.
  assert (mg_staged (points s3) = edited /\ xs_calls s3 = xs_calls s1 /\ mg_cache (points s3) = mg_cache (points s1)) as (Hst3&Hn3&Hca).
  { subst s3 m. cbn. rewrite Hst1. done. }
  clear Hs3. apply bind_ret_inv in H as (checked&s4&w9&w10&[= <- <- <-]&H&->).
  apply bind_ret_inv in H as (validation&s5&w11&w12&Hl&H&->). injection Hl as Hval <- <-.
  match goal with |- refused _ ?all \/ _ => assert (requested all = read_request editor_names :: requested w12) as Hall end.
  { rewrite !requested_app, Hr1, Hsub, Hw3. done. }
  destruct validation as [[]|e].
  2: { left. split.
       - apply bind_ret_inv in H as (?&?&?&?&_&H&_). apply bind_ret_inv in H as (?&?&?&?&_&[= <- _ _]&_). by left.
       - right. rewrite Hall. apply bind_ret_inv in H as (?&?&?&?&[= _ <- <-]&H&->).
         apply bind_ret_inv in H as (?&?&?&?&[= _ _ <-]&[= _ _ <-]&->). done. }
  apply bind_ret_inv in H as (changes&s6&w13&w14&[= <- <- <-]&H&E12).
  unfold has_staged_changes in H. rewrite Hst3 in H. cbn [edited] in H.
  apply bind_ret_inv in H as (code'&s7&w15&w16&Hcm&H&E14).
  apply commit_reported in Hcm; [|exact Hst3].
  assert (code = code' /\ requested w16 = []) as [-> Hw16].
  { destruct (Z.eqb_spec code' 0) as [->|]; [|by injection H as <- _ <-].
    apply bind_ret_inv in H as ([]&s8&w17&w18&Hd&[= <- _ <-]&->). split; [done|]. rewrite app_nil_r. by eapply disconnect_quiet. }
  assert (requested w12 = requested w15) as Hq12 by (by rewrite E12, E14, !requested_app, Hw16, app_nil_r).
  rewrite Hq12 in Hall.
  destruct Hcm as [[-> Hq]|[Hq ->]].
  { left. split; [by left|]. right. by rewrite Hall, Hq. }
  right. exists message. split; [done|]. split; [by rewrite Hall, Hq|].
  destruct (edited_checked (points s3) Hst3) as [Hh Hlow]; [done|].
  assert (forall n x, reported message n = Some (V_float x) -> cached_number (points s3) n = Some x) as Hrep.
  { intros n x Hx. unfold reported, sn_find in Hx. rewrite <- Hv in Hx.
    unfold cached_number, cached_raw. rewrite Hca. apply (read_cached _ _ _ _ _ _ _ Hcache) in Hx. by rewrite Hp1. }
  split; [intros x Hx; by apply Hh, Hrep|]. split; [intros x Hx; by apply Hlow, Hrep|]. by rewrite Hn3, Hn1.
Qed.
End Editor.

Section Editing.
Context (w : example_world).

Lemma bus_quiet events : respects only_prints (forM events bus_delivers).
Proof.
  apply respects_forM; [apply _|]. intros e. unfold bus_delivers. repeat respects_step. done.
Qed.
Lemma bus_same events s r s' ev : forM events bus_delivers s = (r, s', ev) -> r = Ret tt /\ s' = s.
Proof.
  revert s ev. induction events as [|e l IH]; intros s ev; cbn [forM]; [by intros [= <- <- _]|]. unfold bind at 1.
  assert (forall hs (x : xstate), exists w1, forM hs (fun ch : channel * nat => emit (Xe_call ch.2 e)) x = (Ret tt, x, w1)) as Hd.
  { induction hs as [|h hs IHh]; intros x; [by eexists|]. destruct (IHh x) as [w1 E]. eexists. cbn [forM]. unfold bind. cbn [emit]. by rewrite E. }
  unfold bus_delivers at 1. rewrite run_get. match goal with |- context [forM ?hs _ s] => destruct (Hd hs s) as [w1 ->] end.
  destruct (forM l bus_delivers s) as [[r1 s1] w2] eqn:E. intros [= <- <- _]. by eapply IH.
Qed.
Lemma connect_steps s r s' ev : connect_client w s = (r, s', ev) ->
  r = Ret (xw_connect w (xs_endpoint s) (xs_client s)).1.1 /\ requested ev = [] /\
  s' = set_xs_client (xw_connect w (xs_endpoint s) (xs_client s)).1.2 s.
Proof.
  unfold connect_client. rewrite run_get. destruct (xw_connect w _ _) as [[connection c] events]. cbn [fst snd].
  unfold bind at 1. destruct (forM events bus_delivers s) as [[r1 s1] w1] eqn:E.
  pose proof (bus_quiet _ _ _ _ _ E) as [_ Hq]. apply bus_same in E as [-> ->]. rewrite run_modify.
  intros [= <- <- <-]. by rewrite app_nil_r.
Qed.
Lemma security_steps {A} (f : SecurityConfiguration -> A * SecurityConfiguration) s r s' ev : on_security f s = (r, s', ev) ->
  r = Ret (f (cl_security (xs_client s))).1 /\ ev = [] /\ xs_calls s' = xs_calls s /\ xs_endpoint s' = xs_endpoint s /\
  points s' = points s.
Proof.
  unfold on_security, on_client. rewrite run_gets. cbn [id]. destruct (f _) as [a security]. rewrite run_modify.
  by intros [= <- <- <-].
Qed.

(** C24: The configuration editor, with any arguments and against any device: either nothing
    is written and the exit code is 1 or 2; or the device's answer to the one read held
    no alert limit that 2.1 and 3.6 would violate, exactly one write with exactly these
    two values leaves, and the exit code says what the device did with it: 0 applied,
    3 rejected, 1 no answer. *)
Theorem editor_commits_checked argv s code s' ev :
  (forall endpoint c, mg_staged (cl_datapoints c) = [] -> mg_staged (cl_datapoints (xw_connect w endpoint c).1.2) = []) ->
  (forall spec, Forall never_stages (w_between (xw_call w 0) spec)) ->
  config_editor w argv s = (Ret (Some code), s', ev) -> refused code ev \/ committed w 0 code ev.
Proof.
  intros Hc Hns H. unfold config_editor in H.
  destruct argv as [|program [|host [|ca [|crt [|key [|kid [|hmac_file more]]]]]]];
    try (injection H as <- _ <-; left; split; [by right|by left]).
  rewrite run_modify in H. apply scoped_inv in H as (s0&w0&H&Hq0). unfold refused, committed. rewrite Hq0.
  fold (refused code w0) (committed w 0 code w0). clear Hq0.
  apply bind_ret_inv in H as (st&s1&w1&w2&Hs&H&->).
  apply security_steps in Hs as (_&->&Hn1&_&Hp1). cbn [app]. unfold with_connection in H.
  destruct (from_file _ _ _) as [hmac|e]; [|injection H as <- _ <-; left; split; [by left|by left]].
  apply bind_ret_inv in H as (st2&s2&w3&w4&Hs&H&->). apply security_steps in Hs as (_&->&Hn2&_&Hp2). cbn [app].
  apply bind_ret_inv in H as (connection&s3&w5&w6&Hs&H&->). apply connect_steps in Hs as (Hr&Hq&Hs3).
  destruct connection as [info|e].
  2: { injection H as <- _ <-. left. split; [by left|left]. by rewrite requested_app, Hq. }
  assert (mg_staged (points s3) = [] /\ xs_calls s3 = 0%nat) as [Hst3 Hn3].
  { subst s3. cbn. split; [|by rewrite Hn2, Hn1]. apply Hc. by rewrite Hp2, Hp1. }
  unfold refused, committed. rewrite requested_app, Hq. cbn [app]. rewrite <- Hn3.
  eapply editor_session_outcome; [exact Hst3|by rewrite Hn3|exact H].
Qed.
End Editing.

(** ** Exit codes *)

(** The tour ends with 2 (arguments or configuration), 1 (setup or connection), both
    without a request, or with 0. *)
Lemma run_exit w fuel s code s' ev : run w fuel s = (Ret (Some code), s', ev) ->
  code = 0 \/ (code = 1 /\ requested ev = []).
Proof.
  intros H. unfold run in H. apply bind_ret_inv in H as (connected&s1&w1&w2&Hc&H&->). destruct connected; cbn [negb] in H.
  - match type of H with ?m s1 = _ => assert (results (fun c : option Z => c = None \/ c = Some 0) m) as Hr end.
    { repeat (apply results_bind; intros ?). case_match; [|apply results_ret; by left].
      repeat (apply results_bind; intros ?). apply results_ret. by right. }
    apply Hr in H as [?|[= ->]]; [done|by left].
  - right. injection H as <- _ <-. split; [done|]. rewrite requested_app, app_nil_r. unfold connect in Hc.
    apply bind_ret_inv in Hc as ([]&?&w3&w4&[= _ <-]&Hc&->). apply bind_ret_inv in Hc as (info&?&w5&w6&Hi&Hc&->).
    apply connect_steps in Hi as (_&Hi&_). destruct info as [i|e]; [by injection Hc|].
    injection Hc as _ <-. by rewrite !requested_app, Hi.
Qed.
Theorem tour_exit_code w fuel argv s code s' ev : Examples.main w fuel argv s = (Ret (Some code), s', ev) ->
  code = 0 \/ ((code = 1 \/ code = 2) /\ requested ev = []).
Proof.
  intros H. unfold main in H. destruct argv as [|program [|path rest]]; [right; injection H as <- _ <-; (split; [auto|done])..|].
  destruct (load_config _ _ _ _ path) as [config|e].
  2: { right. destruct (exception_text w e); [|done]. injection H as <- _ <-. (split; [auto|done]). }
  apply bind_ret_inv in H as ([]&?&w1&w2&[= _ <-]&H&->).
  destruct (create w config) as [[endpoint c]|e]; [|right; injection H as <- _ <-; (split; [auto|done])].
  rewrite run_modify in H. apply scoped_inv in H as (s2&w0&H&Hq).
  apply bind_ret_inv in H as ([]&s1&w3&w4&[= _ <-]&H&->). apply run_exit in H as [->|[-> H]]; [by left|].
  right. split; [by left|]. by rewrite !requested_app, Hq, !requested_app, H.
Qed.
