(* ===== verification/ExampleRuns.v ===== *)
(** * Runs of the example programs

    A device that answers every request, the programs run against it, and the theorems
    of [ExampleFacts] applied to those runs. *)
From S2P Require Import Prelude StdMap Errors Float Json Canonical Messages Auth Events Dispatcher.
From S2P Require Import Session.
From S2P Require Import Datapoint Generated Catalog Codec WriteSet Snapshot Service Manager ManagerFacts Poller.
From S2P Require Import Commands Logs Security RestoreGuard Transport EventBus Client Logger Config Examples ExampleFacts.
Local Open Scope Z_scope.

(** ** A device *)

Definition device_value (d : DatapointDescriptor) : json :=
  if String.eqb (d_name d) "Fon_Alert_Low_Pressure" then J_float (lit 5 1)
  else if String.eqb (d_name d) "Fon_Max_Pressure" then J_float (lit 40 1)
  else if String.eqb (d_name d) "Fon_Alert_High_Pressure" then J_float (lit 55 1)
  else if String.eqb (d_name d) "Fon_Max_On_Time" then J_uint 600
  else
  match d_type d with
  | T_Bool => J_bool true
  | T_Str => J_str "text"
  | T_U64 => J_str "000000000000002A"
  | T_F32 => J_float (lit 25 1)
  | T_U16 => J_uint 30
  | _ => J_uint 3
  end.
Definition asked_names (spec : RequestSpec) : list string :=
  match jfind "names" (rs_body spec) with
  | Some (J_arr l) => omap (fun j => match j with J_str s => Some s | _ => None end) l
  | _ => []
  end.
Fixpoint answer_read (names : list string) : smap json :=
  match names with
  | [] => []
  | name :: r => match find name with Some d => mset name (device_value d) (answer_read r) | None => answer_read r end
  end.
Definition device_reply (spec : RequestSpec) : Result json :=
  if String.eqb (rs_type spec) "dp_read" then Ok (J_obj [("dp", J_obj (answer_read (asked_names spec)))])
  else if String.eqb (rs_type spec) "dp_write" then
    Ok (J_obj [("readback", default J_null (jfind "dp" (rs_body spec))); ("status", J_str "applied")])
  else Ok (J_obj [("status", J_str "applied")]).

Definition friendly_call : Manager.world := mkWorld true ok (fun _ => [Mo_stale]) 7 device_reply.
Definition pressure_report (tenths : Z) : background :=
  Bg_manager (Mo_report 8 (J_obj [("Fon_Current_Pressure", J_float (lit tenths 1))]) UnsolicitedReport None).
Definition decimal_dump (j : json) : outcome string := match j with J_uint z => Ret (dec_Z z) | _ => Throw Exn_dump end.
Definition key_text : string := "00112233445566778899aabbccddeeff00112233445566778899aabbccddeeff".
Definition friendly_world : example_world := {|
  xw_exists := fun _ => true;
  xw_read_file := fun path => Some (if String.eqb path "device.hmac" then key_text else "sample");
  xw_parse_config := sample_parse;
  xw_json_what := "json";
  xw_readable := fun _ => true;
  xw_connect := fun _ c => (Ok (set_ci_device_id "fnt-000001" info_default), c,
                            [B_state (mkStateChange CS_FountainHandshaking CS_Ready None None)]);
  xw_call := fun _ => friendly_call;
  xw_pages := fun _ => friendly_call;
  xw_raw := device_reply;
  xw_pause := fun _ => [Bg_tick 0 0; Bg_answer (H_chunk ["System_Uptime"]) 6 (device_reply (read_request ["System_Uptime"]));
                        pressure_report 26];
  xw_stop := fun n => Nat.ltb 2 n;
  xw_dump := decimal_dump;
  xw_disconnect := fun c => (set_cl_state CS_Disconnected c, [])
|}.
Definition before : xstate := started_with (default_endpoint "device") new_client.

Lemma asked_read names spec : rs_body spec = J_obj [("names", names_json names)] -> asked_names spec = names.
Proof.
  intros H. unfold asked_names. rewrite H. cbn [jfind mget String.eqb Ascii.eqb Bool.eqb names_json]. clear H.
  induction names as [|n names IH]; [done|]. cbn [map omap list_omap]. by rewrite IH.
Qed.
Lemma answer_within names : within names (answer_read names).
Proof.
  induction names as [|n names IH]; [apply within_nil|]. cbn [answer_read].
  assert (within (n :: names) (answer_read names)) as H by (eapply within_incl; [|exact IH]; intros x Hx; by right).
  destruct (find n); [apply within_mset; [by left|exact H]|exact H].
Qed.
Lemma friendly_polite : polite friendly_call.
Proof.
  split; [|intros ?; by repeat constructor]. intros spec names message dp Hb Hr Hd. cbn in Hr.
  unfold device_reply in Hr. rewrite (asked_read names) in Hr by done.
  destruct (String.eqb (rs_type spec) "dp_read"); [injection Hr as <-; injection Hd as <-; apply answer_within|].
  destruct (String.eqb (rs_type spec) "dp_write").
  - injection Hr as <-. discriminate Hd.
  - injection Hr as <-. discriminate Hd.
Qed.
Lemma friendly_world_polite : polite_world friendly_world.
Proof.
  split; try (intros; exact friendly_polite); try done. intros n. by repeat constructor.
Qed.

(** ** The tour *)

Definition tour_arguments : list string := ["example_class"; "client.json"].


(** What the tour prints after the table of the catalogue. *)
Definition ends_with (text s : string) : bool :=
  String.eqb (String.substring (String.length s - String.length text) (String.length text) s) text.
Example tour_output : ends_with
"  System_WD_Reboot_Count     U8   RO VOLATILE -            3
  -> 107 of 107 datapoints read

=== 5. Cache (never the network) ===
  Pressure from the cache: 2.5 bar  (source: explicit_read, quality: good)

=== 6./7. Subscriptions + Polling (6 s) ===
  [change] Pressure: 2.5 -> 2.6 bar
  Poll statistics: 1 Requests, 5 coalesced points, 0 skipped (in-flight)

=== 8. Writing (with baseline restore) ===
  Fon_Event_Label=5 written, readback: 5
  Batch (2 points) written atomically
  Write 99 (max 7) -> out_of_range (blocked client-side)
  Baseline restored

=== 9./10. Staging/commit + cross-field constraints ===
  Staged values validated (incl. chain rules)
  Broken chain -> Fon_Min_Pressure must be < Fon_Max_Pressure
  Commit applied (on 'rejected' the staging would be kept for corrections)

=== 11. Commands ===
  set_state(Auto) -> applied

=== 12. Device logs ===
  boot_id=0 next_seq=0
  read_all(): 0 records in total
  Previous boot available: no

=== 14. Raw protocol + metrics ===
  raw dp_read -> 3 B free
  Metrics: sent=0 answered=0 timeouts=0 rate-limit deferrals=0

=== 15. Disconnecting ===
  disconnected, state: disconnected
" (output (Examples.main friendly_world 5 tour_arguments before).2) = true.
Proof. vm_compute. reflexivity. Qed.

Lemma writes_are_undone_witness : exists s' ev,
  write_examples friendly_world before = (Ret tt, s', ev) /\ length (requested ev) = 4%nat.
Proof.
  destruct (write_examples friendly_world before) as [[r s'] ev] eqn:E.
  assert (r = Ret tt) as -> by (change r with (r, s', ev).1.1; rewrite <- E; vm_compute; reflexivity).
  exists s', ev. split; [done|].
  destruct (writes_are_undone friendly_world before s' ev (fun _ _ => conj eq_refl eq_refl) E) as [[e [=]]|(message&Hm&H)].
  injection Hm as <-. rewrite H; [done| |by vm_compute].
  apply within_checked. vm_compute. reflexivity.
Defined.

(** The guard takes over whatever the device returned: an entry that was not asked for
    is written back with the baseline, here the command that erases the log.  So the
    device of [tour_is_harmless] must answer what was asked. *)
Definition talkative_reply (spec : RequestSpec) : Result json :=
  if String.eqb (rs_type spec) "dp_read" then
    Ok (J_obj [("dp", J_obj (mset "Log_Command" (J_uint 1) (answer_read (asked_names spec))))])
  else device_reply spec.
Example unasked_entry_written :
  let call := surroundings decimal_dump (mkWorld true ok (fun _ => []) 7 talkative_reply) in
  exists g m1 w1 r g' m2 w2,
    capture call ["Fon_Event_Label"] new_manager = (Ret (Ok g), m1, w1) /\
    restore decimal_dump call g m1 = (Ret (r, g'), m2, w2) /\
    submitted w2 = [write_request [("Fon_Event_Label", J_int 3); ("Log_Command", J_int 1)]].
Proof.
  intros call. evaluate (capture call ["Fon_Event_Label"] new_manager) Hc.
  match type of Hc with _ = (Ret (Ok ?g), ?m1, _) => evaluate (restore decimal_dump call g m1) Hr end.
  eexists _, _, _, _, _, _, _. split; [exact Hc|]. split; [exact Hr|]. reflexivity.
Qed.

(** ** The configuration editor *)

Definition editor_arguments : list string :=
  ["config_editor"; "device"; "ca.pem"; "client.crt"; "client.key"; "1"; "device.hmac"].
(** The other two clients print what they read and what changed. *)
Example polling_output : let run := polling_client friendly_world 5 editor_arguments before in
  run.1.1 = Ret (Some 0) /\
  output run.2 = "pressure=2.6" +:+ newline +:+ "last pressure: 2.6 (good)" +:+ newline +:+
                 "requests=1 coalesced=8" +:+ newline.
Proof. vm_compute. done. Qed.
Example simple_output : let run := simple_client friendly_world editor_arguments before in
  run.1.1 = Ret (Some 0) /\
  output run.2 = "device=fnt-000001 fw=" +:+ newline +:+ "pressure = 2.5 bar" +:+ newline +:+
                 "Fon_Event_Label written, readback ok" +:+ newline.
Proof. vm_compute. done. Qed.

Lemma editor_commits_checked_witness : exists s' ev,
  config_editor friendly_world editor_arguments before = (Ret (Some 0), s', ev) /\
  (refused 0 ev \/ committed friendly_world 0 0 ev) /\ length (requested ev) = 2%nat.
Proof.
  destruct (config_editor friendly_world editor_arguments before) as [[r s'] ev] eqn:E.
  assert (r = Ret (Some 0)) as -> by (change r with (r, s', ev).1.1; rewrite <- E; vm_compute; reflexivity).
  exists s', ev. split; [done|]. split.
  - apply (editor_commits_checked friendly_world editor_arguments before 0 s' ev);
      [by intros|intros spec; by repeat constructor|exact E].
  - change ev with (Ret (Some 0), s', ev).2. rewrite <- E. vm_compute. reflexivity.
Defined.
